(** * GameDemon: slot machine, inventory grid and panel UI

    A shallow embedding of the JavaScript sources of the repository
    (slots-2/game-engine.js, slots-2/game-state.js, the slot configuration,
    the UI manager, the inventory manager, the orchestrator and the legacy
    paytable manager) together with the properties checked against them.

    Conventions of the embedding.
    - A JavaScript number is an exact rational ([Q]) wherever a property
      is an invariant, a bound or a relation between two results of the
      same computation, which hold of the doubles as well.  The selection
      of the winning symbol and of the display symbol, whose result turns on
      the last bit of a sum or a product, is embedded a second time over
      IEEE 754 doubles (the modules [Rounded], on the binary64 numbers of
      [Double]).  Counters that the code only ever increments from [0]
      (upgrade levels) are integers ([Z]).
    - A JavaScript string is a [string] of UTF-8 bytes, so the slot symbols
      are the byte strings of their emoji.
    - An object literal that the code iterates with [Object.entries] is an
      association list in source order.
    - [Math.random()] is an explicit supply of draws in the interval [0,1).
    - The browser (DOM elements by id, pending timers, localStorage) is an
      explicit record that the UI operations read and write.
    - The methods whose use of the browser is in question are embedded a
      second time as their source text ([Source]), with an evaluator of
      that fragment of JavaScript ([Script]) which hands the browser to
      every expression. *)

From Stdlib Require Import ZArith QArith Qround Qminmax Qpower Qabs.
From Stdlib Require Import Ascii String List Bool Lia Lqa.
From Stdlib Require Import Floats.
From stdpp Require Import gmap strings list.
Import ListNotations.

Set Warnings "-register-all".
Set Warnings "-inexact-float".

Local Open Scope string_scope.

(** ** JavaScript numbers and object literals *)

Module JS.

Definition number : Type := Q.

(** [a < b] and [a >= b] on numbers, as booleans. *)
Definition lt (a b : number) : bool := negb (Qle_bool b a).
Definition ge (a b : number) : bool := Qle_bool b a.
Definition gt (a b : number) : bool := lt b a.
Definition le (a b : number) : bool := Qle_bool a b.

(** [a === b] on numbers. *)
Definition eq (a b : number) : bool := Qeq_bool a b.

(** [Math.floor], [Math.min], [Math.max], [Math.pow] with an integer
    exponent. *)
Definition floor (a : number) : number := inject_Z (Qfloor a).
Definition min (a b : number) : number := Qmin a b.
Definition max (a b : number) : number := Qmax a b.
Definition pow (a : number) (n : Z) : number := Qpower a n.

(** [obj[key]] on an object literal kept in source order; [None] is
    [undefined]. *)
Fixpoint get {V : Type} (obj : list (string * V)) (key : string) : option V :=
  match obj with
  | [] => None
  | (k, v) :: rest => if String.eqb k key then Some v else get rest key
  end.

(** How a call completes: it returns a value or throws.  [Error] carries the
    message given to [new Error]; [TypeError] is the engine's own error for
    calling a non-function or reading a property of [undefined] or [null];
    [DOMException] is an error of the browser, by its name. *)
Inductive Exception :=
| Error (message : string)
| TypeError
| DOMException (name : string).

Inductive completion (A : Type) :=
| Return (a : A)
| Throw (e : Exception).

Arguments Return {A} a.
Arguments Throw {A} e.

End JS.

(** ** JavaScript numbers as the engine holds them *)

Module Double.

(** An IEEE 754 binary64 number; the arithmetic rounds to nearest, ties to
    even, as that of JavaScript does.  A decimal literal denotes the double
    nearest to it. *)
Definition t : Set := float.

Definition add (a b : t) : t := PrimFloat.add a b.
Definition sub (a b : t) : t := PrimFloat.sub a b.
Definition mul (a b : t) : t := PrimFloat.mul a b.
Definition div (a b : t) : t := PrimFloat.div a b.

(** [a < b] and [a <= b]: false when one of the two is [NaN]. *)
Definition lt (a b : t) : bool := PrimFloat.ltb a b.
Definition le (a b : t) : bool := PrimFloat.leb a b.

(** The double of an integer, for integers of magnitude below [2^53]
    (each of them is a double). *)
Definition ofZ (z : Z) : t :=
  match z with
  | Z0 => PrimFloat.zero
  | Zpos _ => PrimFloat.of_uint63 (Uint63.of_Z z)
  | Zneg p => PrimFloat.opp (PrimFloat.of_uint63 (Uint63.of_Z (Zpos p)))
  end.

(** [Math.floor]: a number with a fraction has a magnitude below [2^52],
    so its floor is an integer that [ofZ] gives exactly. *)
Definition floor (x : t) : t :=
  match Prim2SF x with
  | S754_finite s m e =>
      if (0 <=? e)%Z then x
      else
        let q := Z.shiftr (Zpos m) (- e) in
        let whole := (Z.shiftl q (- e) =? Zpos m)%Z in
        if whole then x
        else if s then ofZ (- (q + 1)) else ofZ q
  | _ => x
  end.

(** The rational a finite double is; [None] for the infinities and [NaN]. *)
Definition toQ (x : t) : option Q :=
  match Prim2SF x with
  | S754_zero _ => Some 0%Q
  | S754_finite s m e =>
      let magnitude := (inject_Z (Zpos m) * Qpower 2 e)%Q in
      Some (if s then Qopp magnitude else magnitude)
  | S754_infinity _ | S754_nan => None
  end.

End Double.

(** ** The slot configuration ([SLOT_CONFIG]) *)

Module SLOT_CONFIG.

Local Open Scope Q_scope.

Definition INITIAL_CREDITS : JS.number := 500.
Definition INITIAL_JACKPOT : JS.number := 1000.
Definition BASE_COST : JS.number := 10.
Definition MAX_MULTIPLIER : JS.number := 5.
Definition JACKPOT_CONTRIBUTION : JS.number := 0.1.

Definition LUCK_INCREMENT : JS.number := 4.
Definition LUCK_DECREMENT : JS.number := 10.
Definition MAX_LUCK : JS.number := 100.
Definition LUCK_BONUS_MULTIPLIER : JS.number := 0.1.

Definition MAX_COMBO_MULTIPLIER : JS.number := 3.
Definition COMBO_BONUS_PER_WIN : JS.number := 0.1.

Definition AUTO_SPIN_DELAY : JS.number := 1200.

Definition SYMBOLS : list string :=
  ["🍒"; "🍋"; "🍊"; "🍇"; "🍓"; "💎"; "🎰"; "🌟"].

(** Per 10,000 spins. *)
Definition SYMBOL_PROBABILITIES : list (string * JS.number) :=
  [("🍒", 800); ("🍋", 500); ("🍊", 300); ("🍇", 150);
   ("🍓", 80); ("💎", 30); ("🎰", 10); ("🌟", 5)].

Definition TOTAL_BASE_WIN_PROBABILITY : JS.number := 1875.

Definition REEL_DISPLAY_WEIGHTS : list (string * JS.number) :=
  [("🍒", 30); ("🍋", 25); ("🍊", 20); ("🍇", 15);
   ("🍓", 8); ("💎", 4); ("🎰", 2); ("🌟", 1)].

(** An entry of [PAYOUTS]; a missing [isJackpot] is falsy. *)
Record Payout := {
  basePayout : JS.number;
  name : string;
  isJackpot : bool
}.

Definition PAYOUTS : list (string * Payout) :=
  [("🍒", {| basePayout := 10; name := "Cherry Win!"; isJackpot := false |});
   ("🍋", {| basePayout := 25; name := "Lemon Lucky!"; isJackpot := false |});
   ("🍊", {| basePayout := 50; name := "Orange Crush!"; isJackpot := false |});
   ("🍇", {| basePayout := 80; name := "Grape Great!"; isJackpot := false |});
   ("🍓", {| basePayout := 200; name := "Strawberry Super!"; isJackpot := false |});
   ("💎", {| basePayout := 400; name := "Diamond Delight!"; isJackpot := false |});
   ("🎰", {| basePayout := 750; name := "Slot Machine Mania!"; isJackpot := false |});
   ("🌟", {| basePayout := 1000; name := "MEGA JACKPOT!"; isJackpot := true |})].

(** An entry of [UPGRADE_SYSTEM.SYMBOL_UPGRADES] (the description text is
    left out). *)
Record SymbolUpgrade := {
  maxLevel : Z;
  baseCost : JS.number;
  costMultiplier : JS.number;
  payoutMultiplier : JS.number
}.

Definition SYMBOL_UPGRADES : list (string * SymbolUpgrade) :=
  [("🍒", {| maxLevel := 10; baseCost := 50; costMultiplier := 1.5; payoutMultiplier := 1.2 |});
   ("🍋", {| maxLevel := 8; baseCost := 150; costMultiplier := 1.6; payoutMultiplier := 1.3 |});
   ("🍊", {| maxLevel := 6; baseCost := 400; costMultiplier := 1.7; payoutMultiplier := 1.4 |});
   ("🍇", {| maxLevel := 5; baseCost := 800; costMultiplier := 1.8; payoutMultiplier := 1.5 |});
   ("🍓", {| maxLevel := 4; baseCost := 2000; costMultiplier := 2.0; payoutMultiplier := 1.6 |});
   ("💎", {| maxLevel := 3; baseCost := 5000; costMultiplier := 2.5; payoutMultiplier := 1.8 |});
   ("🎰", {| maxLevel := 2; baseCost := 15000; costMultiplier := 3.0; payoutMultiplier := 2.0 |});
   ("🌟", {| maxLevel := 1; baseCost := 50000; costMultiplier := 1.0; payoutMultiplier := 2.0 |})].

(** [UPGRADE_SYSTEM.LUCK_UPGRADES] and [UPGRADE_SYSTEM.MULTIPLIER_UPGRADES]
    (the description texts are left out). *)
Module UPGRADE_SYSTEM.

Record Upgrade := {
  maxLevel : Z;
  baseCost : JS.number;
  costMultiplier : JS.number;
  effect : JS.number
}.

Definition LUCK_UPGRADES : list (string * Upgrade) :=
  [("LUCK_GAIN", {| maxLevel := 5; baseCost := 1000; costMultiplier := 2.0; effect := 1.0 |});
   ("LUCK_RETENTION", {| maxLevel := 3; baseCost := 3000; costMultiplier := 2.5; effect := 0.8 |});
   ("MAX_LUCK", {| maxLevel := 2; baseCost := 10000; costMultiplier := 4.0; effect := 25 |})].

Definition MULTIPLIER_UPGRADES : list (string * Upgrade) :=
  [("COMBO_POWER", {| maxLevel := 5; baseCost := 2000; costMultiplier := 2.2; effect := 0.05 |});
   ("MAX_MULTIPLIER", {| maxLevel := 3; baseCost := 8000; costMultiplier := 3.0; effect := 2 |})].

End UPGRADE_SYSTEM.

(** [PAYTABLE_SYMBOLS]: the rows of the paytable, each a symbol and the
    name shown with it. *)
Definition PAYTABLE_SYMBOLS : list (string * string) :=
  [("🌟", "Mega Jackpot"); ("🎰", "Slot Mania"); ("💎", "Diamond");
   ("🍓", "Strawberry"); ("🍇", "Grape"); ("🍊", "Orange");
   ("🍋", "Lemon"); ("🍒", "Cherry")].

(** The literals that [selectWinningSymbol] and [getWeightedDisplaySymbol]
    compute with, as the doubles they denote. *)
Module Rounded.

Local Open Scope float_scope.

Definition LUCK_BONUS_MULTIPLIER : Double.t := 0.1.

Definition SYMBOL_PROBABILITIES : list (string * Double.t) :=
  [("🍒", 800); ("🍋", 500); ("🍊", 300); ("🍇", 150);
   ("🍓", 80); ("💎", 30); ("🎰", 10); ("🌟", 5)].

Definition TOTAL_BASE_WIN_PROBABILITY : Double.t := 1875.

Definition REEL_DISPLAY_WEIGHTS : list (string * Double.t) :=
  [("🍒", 30); ("🍋", 25); ("🍊", 20); ("🍇", 15);
   ("🍓", 8); ("💎", 4); ("🎰", 2); ("🌟", 1)].

End Rounded.

Module THRESHOLDS.

Definition BIG_WIN_AMOUNT : JS.number := 100.
Definition PULSE_SCREEN_AMOUNT : JS.number := 50.
Definition LUCK_SOUND_TRIGGER : JS.number := 40.
Definition HIGH_LUCK_THRESHOLD : JS.number := 80.
Definition MEDIUM_LUCK_THRESHOLD : JS.number := 60.
Definition LOW_LUCK_THRESHOLD : JS.number := 40.
Definition BUILDING_LUCK_THRESHOLD : JS.number := 20.

End THRESHOLDS.

End SLOT_CONFIG.

(** ** The game state ([GameState], slots-2/game-state.js) *)

Module GameState.

Local Open Scope Q_scope.

(** [upgrades.symbols]: one level per slot symbol. *)
Record SymbolLevels := {
  level_cherry : Z;
  level_lemon : Z;
  level_orange : Z;
  level_grape : Z;
  level_strawberry : Z;
  level_diamond : Z;
  level_slot : Z;
  level_star : Z
}.

(** [upgrades.luck] *)
Record LuckLevels := {
  LUCK_GAIN : Z;
  LUCK_RETENTION : Z;
  MAX_LUCK : Z
}.

(** [upgrades.multiplier] *)
Record MultiplierLevels := {
  COMBO_POWER : Z;
  MAX_MULTIPLIER : Z
}.

Record Upgrades := {
  symbols : SymbolLevels;
  luck : LuckLevels;
  multiplier_levels : MultiplierLevels
}.

(** [upgrades.symbols[symbol]]; [None] is [undefined]. *)
Definition symbolLevel (u : Upgrades) (symbol : string) : option Z :=
  JS.get
    [("🍒", level_cherry (symbols u)); ("🍋", level_lemon (symbols u));
     ("🍊", level_orange (symbols u)); ("🍇", level_grape (symbols u));
     ("🍓", level_strawberry (symbols u)); ("💎", level_diamond (symbols u));
     ("🎰", level_slot (symbols u)); ("🌟", level_star (symbols u))]
    symbol.

(** The object [serialize] returns. *)
Record Serialized := {
  s_credits : JS.number;
  s_jackpot : JS.number;
  s_multiplier : JS.number;
  s_luckMeter : JS.number;
  s_totalSpins : JS.number;
  s_totalWins : JS.number;
  s_winStreak : JS.number;
  s_biggestWin : JS.number;
  s_jackpots : JS.number;
  s_comboCount : JS.number;
  s_comboMultiplier : JS.number;
  s_upgrades : Upgrades;
  s_canAffordSpin : bool
}.

(** A [GameState] object: its data properties, and the own property named
    [canAffordSpin] when one has been assigned on the object; such a property
    shadows the method [canAffordSpin] of the class. *)
Record t := {
  credits : JS.number;
  jackpot : JS.number;
  multiplier : JS.number;
  luckMeter : JS.number;
  totalSpins : JS.number;
  totalWins : JS.number;
  winStreak : JS.number;
  biggestWin : JS.number;
  jackpots : JS.number;
  comboCount : JS.number;
  comboMultiplier : JS.number;
  upgrades : Upgrades;
  own_canAffordSpin : option bool
}.

(** What [emitStateChange] hands to the event dispatcher. *)
Inductive Emitted :=
| state_changed (payload : Serialized).

(** The field values that [reset] assigns (a fresh object has no own
    property [canAffordSpin]). *)
Definition initial : t := {|
  credits := SLOT_CONFIG.INITIAL_CREDITS;
  jackpot := SLOT_CONFIG.INITIAL_JACKPOT;
  multiplier := 1;
  luckMeter := 0;
  totalSpins := 0;
  totalWins := 0;
  winStreak := 0;
  biggestWin := 0;
  jackpots := 0;
  comboCount := 0;
  comboMultiplier := 1;
  upgrades := {|
    symbols := {| level_cherry := 0; level_lemon := 0; level_orange := 0;
                  level_grape := 0; level_strawberry := 0; level_diamond := 0;
                  level_slot := 0; level_star := 0 |};
    luck := {| LUCK_GAIN := 0; LUCK_RETENTION := 0; MAX_LUCK := 0 |};
    multiplier_levels := {| COMBO_POWER := 0; MAX_MULTIPLIER := 0 |} |};
  own_canAffordSpin := None
|}.

(** The fields after [reset()]: it assigns the data properties and leaves
    any other own property of the object as it is. *)
Definition reset (g : t) : t := {|
  credits := credits initial;
  jackpot := jackpot initial;
  multiplier := multiplier initial;
  luckMeter := luckMeter initial;
  totalSpins := totalSpins initial;
  totalWins := totalWins initial;
  winStreak := winStreak initial;
  biggestWin := biggestWin initial;
  jackpots := jackpots initial;
  comboCount := comboCount initial;
  comboMultiplier := comboMultiplier initial;
  upgrades := upgrades initial;
  own_canAffordSpin := own_canAffordSpin g
|}.

Definition getMaxLuck (g : t) : JS.number :=
  SLOT_CONFIG.MAX_LUCK + inject_Z (MAX_LUCK (luck (upgrades g))) * 25.

(** [getUpgradedPayout(symbol)].  [None] is the [TypeError] of reading
    [basePayout] of [undefined], for a [symbol] that is no key of [PAYOUTS];
    the keys of [PAYOUTS] and of [upgrades.symbols] are the same eight
    symbols, so the level is defined whenever the payout is. *)
Definition getUpgradedPayout (g : t) (symbol : string) : option JS.number :=
  match JS.get SLOT_CONFIG.PAYOUTS symbol, symbolLevel (upgrades g) symbol with
  | Some p, Some upgradeLevel =>
      let basePayout := SLOT_CONFIG.basePayout p in
      match JS.get SLOT_CONFIG.SYMBOL_UPGRADES symbol with
      | None => Some basePayout
      | Some upgradeConfig =>
          if (upgradeLevel =? 0)%Z then Some basePayout
          else Some (JS.floor (basePayout *
                 JS.pow (SLOT_CONFIG.payoutMultiplier upgradeConfig) upgradeLevel))
      end
  | _, _ => None
  end.

(** The body of the method [canAffordSpin]. *)
Definition canAffordSpin (g : t) : bool :=
  JS.ge (credits g) (SLOT_CONFIG.BASE_COST * multiplier g).

(** The call [this.canAffordSpin()]: the method runs only while no own
    property of that name shadows it; a boolean is not callable. *)
Definition call_canAffordSpin (g : t) : JS.completion bool :=
  match own_canAffordSpin g with
  | None => JS.Return (canAffordSpin g)
  | Some _ => JS.Throw JS.TypeError
  end.

(** [JSON.parse(JSON.stringify(upgrades))]: a fresh object with the same
    levels. *)
Definition JSON_copy (u : Upgrades) : Upgrades := {|
  symbols := {|
    level_cherry := level_cherry (symbols u);
    level_lemon := level_lemon (symbols u);
    level_orange := level_orange (symbols u);
    level_grape := level_grape (symbols u);
    level_strawberry := level_strawberry (symbols u);
    level_diamond := level_diamond (symbols u);
    level_slot := level_slot (symbols u);
    level_star := level_star (symbols u) |};
  luck := {|
    LUCK_GAIN := LUCK_GAIN (luck u);
    LUCK_RETENTION := LUCK_RETENTION (luck u);
    MAX_LUCK := MAX_LUCK (luck u) |};
  multiplier_levels := {|
    COMBO_POWER := COMBO_POWER (multiplier_levels u);
    MAX_MULTIPLIER := MAX_MULTIPLIER (multiplier_levels u) |}
|}.

Definition serialize (g : t) : JS.completion Serialized :=
  match call_canAffordSpin g with
  | JS.Throw e => JS.Throw e
  | JS.Return afford =>
      JS.Return {|
        s_credits := credits g;
        s_jackpot := jackpot g;
        s_multiplier := multiplier g;
        s_luckMeter := luckMeter g;
        s_totalSpins := totalSpins g;
        s_totalWins := totalWins g;
        s_winStreak := winStreak g;
        s_biggestWin := biggestWin g;
        s_jackpots := jackpots g;
        s_comboCount := comboCount g;
        s_comboMultiplier := comboMultiplier g;
        s_upgrades := JSON_copy (upgrades g);
        s_canAffordSpin := afford
      |}
  end.

(** [emitStateChange()]: the argument [this.serialize()] is evaluated before
    the dispatcher is called. *)
Definition emitStateChange (g : t) : JS.completion (list Emitted) :=
  match serialize g with
  | JS.Throw e => JS.Throw e
  | JS.Return payload => JS.Return [state_changed payload]
  end.

(** [Object.assign(this, data)] copies every own property of [data],
    [canAffordSpin] included. *)
Definition assign (g : t) (data : Serialized) : t := {|
  credits := s_credits data;
  jackpot := s_jackpot data;
  multiplier := s_multiplier data;
  luckMeter := s_luckMeter data;
  totalSpins := s_totalSpins data;
  totalWins := s_totalWins data;
  winStreak := s_winStreak data;
  biggestWin := s_biggestWin data;
  jackpots := s_jackpots data;
  comboCount := s_comboCount data;
  comboMultiplier := s_comboMultiplier data;
  upgrades := s_upgrades data;
  own_canAffordSpin := Some (s_canAffordSpin data)
|}.

(** [deserialize(data)]: the object after the call, and how the call
    completes. *)
Definition deserialize (g : t) (data : Serialized) : t * JS.completion (list Emitted) :=
  let g' := assign g data in
  (g', emitStateChange g').

(** *** Assignments to the data properties *)

(** [this.credits = value] *)
Definition with_credits (g : t) (value : JS.number) : t :=
  {| credits := value;
     jackpot := jackpot g;
     multiplier := multiplier g;
     luckMeter := luckMeter g;
     totalSpins := totalSpins g;
     totalWins := totalWins g;
     winStreak := winStreak g;
     biggestWin := biggestWin g;
     jackpots := jackpots g;
     comboCount := comboCount g;
     comboMultiplier := comboMultiplier g;
     upgrades := upgrades g;
     own_canAffordSpin := own_canAffordSpin g |}.

(** [this.jackpot = value] *)
Definition with_jackpot (g : t) (value : JS.number) : t :=
  {| credits := credits g;
     jackpot := value;
     multiplier := multiplier g;
     luckMeter := luckMeter g;
     totalSpins := totalSpins g;
     totalWins := totalWins g;
     winStreak := winStreak g;
     biggestWin := biggestWin g;
     jackpots := jackpots g;
     comboCount := comboCount g;
     comboMultiplier := comboMultiplier g;
     upgrades := upgrades g;
     own_canAffordSpin := own_canAffordSpin g |}.

(** [this.multiplier = value] *)
Definition with_multiplier (g : t) (value : JS.number) : t :=
  {| credits := credits g;
     jackpot := jackpot g;
     multiplier := value;
     luckMeter := luckMeter g;
     totalSpins := totalSpins g;
     totalWins := totalWins g;
     winStreak := winStreak g;
     biggestWin := biggestWin g;
     jackpots := jackpots g;
     comboCount := comboCount g;
     comboMultiplier := comboMultiplier g;
     upgrades := upgrades g;
     own_canAffordSpin := own_canAffordSpin g |}.

(** [this.luckMeter = value] *)
Definition with_luckMeter (g : t) (value : JS.number) : t :=
  {| credits := credits g;
     jackpot := jackpot g;
     multiplier := multiplier g;
     luckMeter := value;
     totalSpins := totalSpins g;
     totalWins := totalWins g;
     winStreak := winStreak g;
     biggestWin := biggestWin g;
     jackpots := jackpots g;
     comboCount := comboCount g;
     comboMultiplier := comboMultiplier g;
     upgrades := upgrades g;
     own_canAffordSpin := own_canAffordSpin g |}.

(** [this.totalSpins = value] *)
Definition with_totalSpins (g : t) (value : JS.number) : t :=
  {| credits := credits g;
     jackpot := jackpot g;
     multiplier := multiplier g;
     luckMeter := luckMeter g;
     totalSpins := value;
     totalWins := totalWins g;
     winStreak := winStreak g;
     biggestWin := biggestWin g;
     jackpots := jackpots g;
     comboCount := comboCount g;
     comboMultiplier := comboMultiplier g;
     upgrades := upgrades g;
     own_canAffordSpin := own_canAffordSpin g |}.

(** [this.totalWins = value] *)
Definition with_totalWins (g : t) (value : JS.number) : t :=
  {| credits := credits g;
     jackpot := jackpot g;
     multiplier := multiplier g;
     luckMeter := luckMeter g;
     totalSpins := totalSpins g;
     totalWins := value;
     winStreak := winStreak g;
     biggestWin := biggestWin g;
     jackpots := jackpots g;
     comboCount := comboCount g;
     comboMultiplier := comboMultiplier g;
     upgrades := upgrades g;
     own_canAffordSpin := own_canAffordSpin g |}.

(** [this.winStreak = value] *)
Definition with_winStreak (g : t) (value : JS.number) : t :=
  {| credits := credits g;
     jackpot := jackpot g;
     multiplier := multiplier g;
     luckMeter := luckMeter g;
     totalSpins := totalSpins g;
     totalWins := totalWins g;
     winStreak := value;
     biggestWin := biggestWin g;
     jackpots := jackpots g;
     comboCount := comboCount g;
     comboMultiplier := comboMultiplier g;
     upgrades := upgrades g;
     own_canAffordSpin := own_canAffordSpin g |}.

(** [this.biggestWin = value] *)
Definition with_biggestWin (g : t) (value : JS.number) : t :=
  {| credits := credits g;
     jackpot := jackpot g;
     multiplier := multiplier g;
     luckMeter := luckMeter g;
     totalSpins := totalSpins g;
     totalWins := totalWins g;
     winStreak := winStreak g;
     biggestWin := value;
     jackpots := jackpots g;
     comboCount := comboCount g;
     comboMultiplier := comboMultiplier g;
     upgrades := upgrades g;
     own_canAffordSpin := own_canAffordSpin g |}.

(** [this.jackpots = value] *)
Definition with_jackpots (g : t) (value : JS.number) : t :=
  {| credits := credits g;
     jackpot := jackpot g;
     multiplier := multiplier g;
     luckMeter := luckMeter g;
     totalSpins := totalSpins g;
     totalWins := totalWins g;
     winStreak := winStreak g;
     biggestWin := biggestWin g;
     jackpots := value;
     comboCount := comboCount g;
     comboMultiplier := comboMultiplier g;
     upgrades := upgrades g;
     own_canAffordSpin := own_canAffordSpin g |}.

(** [this.comboCount = value] *)
Definition with_comboCount (g : t) (value : JS.number) : t :=
  {| credits := credits g;
     jackpot := jackpot g;
     multiplier := multiplier g;
     luckMeter := luckMeter g;
     totalSpins := totalSpins g;
     totalWins := totalWins g;
     winStreak := winStreak g;
     biggestWin := biggestWin g;
     jackpots := jackpots g;
     comboCount := value;
     comboMultiplier := comboMultiplier g;
     upgrades := upgrades g;
     own_canAffordSpin := own_canAffordSpin g |}.

(** [this.comboMultiplier = value] *)
Definition with_comboMultiplier (g : t) (value : JS.number) : t :=
  {| credits := credits g;
     jackpot := jackpot g;
     multiplier := multiplier g;
     luckMeter := luckMeter g;
     totalSpins := totalSpins g;
     totalWins := totalWins g;
     winStreak := winStreak g;
     biggestWin := biggestWin g;
     jackpots := jackpots g;
     comboCount := comboCount g;
     comboMultiplier := value;
     upgrades := upgrades g;
     own_canAffordSpin := own_canAffordSpin g |}.

(** [this.upgrades = value] *)
Definition with_upgrades (g : t) (value : Upgrades) : t :=
  {| credits := credits g;
     jackpot := jackpot g;
     multiplier := multiplier g;
     luckMeter := luckMeter g;
     totalSpins := totalSpins g;
     totalWins := totalWins g;
     winStreak := winStreak g;
     biggestWin := biggestWin g;
     jackpots := jackpots g;
     comboCount := comboCount g;
     comboMultiplier := comboMultiplier g;
     upgrades := value;
     own_canAffordSpin := own_canAffordSpin g |}.

(** ** The methods of the game state *)

(** What the methods hand to the event dispatcher: the [state_changed] event
    of [emitStateChange], and the events [luck_changed] and
    [upgrade_purchased] with the properties of their data object.  [cost] is
    [None] for [null]. *)
Inductive Event :=
| emitted (e : Emitted)
| luck_changed (oldValue newValue maxValue : JS.number)
| upgrade_purchased (category type : string) (level : option Z) (cost : option JS.number).

Module Method.

(** A method call on a game state: the object after the call, the events
    handed to the dispatcher in order, and how the call completes.  An
    exception ends the method where it is thrown: the assignments and the
    events before it stay.  The dispatcher catches what a listener throws, so
    [emit] itself returns. *)
Definition M (A : Type) : Type := t -> t * list Event * JS.completion A.

Definition ret {A : Type} (a : A) : M A := fun g => (g, [], JS.Return a).

Definition bind {A B : Type} (m : M A) (k : A -> M B) : M B :=
  fun g =>
    let '(g1, events1, c) := m g in
    match c with
    | JS.Throw e => (g1, events1, JS.Throw e)
    | JS.Return a =>
        let '(g2, events2, c2) := k a g1 in
        (g2, (events1 ++ events2)%list, c2)
    end.

(** The receiver as it is now. *)
Definition this : M t := fun g => (g, [], JS.Return g).

(** An assignment to properties of the receiver. *)
Definition assign (f : t -> t) : M unit := fun g => (f g, [], JS.Return tt).

(** [this.eventDispatcher.emit(...)] *)
Definition emit (e : Event) : M unit := fun g => (g, [e], JS.Return tt).

Definition throw {A : Type} (e : JS.Exception) : M A :=
  fun g => (g, [], JS.Throw e).

(** A getter that may throw. *)
Definition lift {A : Type} (f : t -> JS.completion A) : M A :=
  fun g => (g, [], f g).

(** The object after the call. *)
Definition after {A : Type} (m : M A) (g : t) : t := fst (fst (m g)).

(** The events of the call. *)
Definition events {A : Type} (m : M A) (g : t) : list Event := snd (fst (m g)).

(** How the call completes. *)
Definition outcome {A : Type} (m : M A) (g : t) : JS.completion A := snd (m g).

(** A specification of a call: from an object in [pre], the call leaves an
    object in [post a] when it returns [a], and one in [exc] when it
    throws. *)
Definition triple {A : Type} (pre : t -> Prop) (m : M A)
  (post : A -> t -> Prop) (exc : t -> Prop) : Prop :=
  forall g : t,
    pre g ->
    match m g with
    | (g', _, JS.Return a) => post a g'
    | (g', _, JS.Throw _) => exc g'
    end.

End Method.

#[global] Instance method_ret : MRet Method.M := @Method.ret.
#[global] Instance method_bind : MBind Method.M :=
  fun A B k m => Method.bind m k.

(** [emitStateChange()] as a method call. *)
Definition stateChanged : Method.M unit :=
  fun g =>
    match emitStateChange g with
    | JS.Throw e => (g, [], JS.Throw e)
    | JS.Return events => (g, map emitted events, JS.Return tt)
    end.

(** [reset()], the call. *)
Definition resetCall : Method.M unit :=
  Method.assign reset;; stateChanged.

Definition spendCredits (amount : JS.number) : Method.M unit :=
  g ← Method.this;
  if JS.lt (credits g) amount
  then Method.throw (JS.Error "Insufficient credits")
  else
    Method.assign (fun g => with_credits g (credits g - amount));;
    stateChanged.

Definition addCredits (amount : JS.number) : Method.M unit :=
  Method.assign (fun g => with_credits g (credits g + amount));;
  stateChanged.

Definition addToJackpot (amount : JS.number) : Method.M unit :=
  Method.assign (fun g => with_jackpot g (jackpot g + amount));;
  stateChanged.

Definition winJackpot : Method.M JS.number :=
  g ← Method.this;
  let jackpotAmount := jackpot g in
  addCredits jackpotAmount;;
  Method.assign (fun g => with_jackpot g SLOT_CONFIG.INITIAL_JACKPOT);;
  Method.assign (fun g => with_jackpots g (jackpots g + 1));;
  stateChanged;;
  mret jackpotAmount.

Definition getLuckIncrement (g : t) : JS.number :=
  SLOT_CONFIG.LUCK_INCREMENT + inject_Z (LUCK_GAIN (luck (upgrades g))) * 1.

Definition getLuckDecrement (g : t) : JS.number :=
  let baseDecrement := SLOT_CONFIG.LUCK_DECREMENT in
  let retention := inject_Z (LUCK_RETENTION (luck (upgrades g))) * 0.2 in
  JS.max 1 (JS.floor (baseDecrement * (1 - retention))).

Definition increaseLuck : Method.M unit :=
  g ← Method.this;
  let oldLuck := luckMeter g in
  let increment := getLuckIncrement g in
  let maxLuck := getMaxLuck g in
  Method.assign (fun g => with_luckMeter g (JS.min (luckMeter g + increment) maxLuck));;
  g ← Method.this;
  Method.emit (luck_changed oldLuck (luckMeter g) maxLuck);;
  stateChanged.

Definition decreaseLuck : Method.M unit :=
  g ← Method.this;
  let oldLuck := luckMeter g in
  let decrement := getLuckDecrement g in
  Method.assign (fun g => with_luckMeter g (JS.max (luckMeter g - decrement) 0));;
  g ← Method.this;
  Method.emit (luck_changed oldLuck (luckMeter g) (getMaxLuck g));;
  stateChanged.

Definition resetLuck : Method.M unit :=
  g ← Method.this;
  let oldLuck := luckMeter g in
  Method.assign (fun g => with_luckMeter g 0);;
  g ← Method.this;
  Method.emit (luck_changed oldLuck 0 (getMaxLuck g));;
  stateChanged.

Definition getMaxMultiplier (g : t) : JS.number :=
  SLOT_CONFIG.MAX_MULTIPLIER
  + inject_Z (MAX_MULTIPLIER (multiplier_levels (upgrades g))) * 2.

Definition toggleMaxBet : Method.M unit :=
  g ← Method.this;
  let maxMultiplier := getMaxMultiplier g in
  Method.assign (fun g =>
    with_multiplier g (if JS.eq (multiplier g) 1 then maxMultiplier else 1));;
  stateChanged.

Definition incrementCombo : Method.M unit :=
  Method.assign (fun g => with_comboCount g (comboCount g + 1));;
  Method.assign (fun g =>
    with_comboMultiplier g
      (JS.min (1 + comboCount g * SLOT_CONFIG.COMBO_BONUS_PER_WIN)
              SLOT_CONFIG.MAX_COMBO_MULTIPLIER));;
  stateChanged.

Definition resetCombo : Method.M unit :=
  Method.assign (fun g => with_comboCount g 0);;
  Method.assign (fun g => with_comboMultiplier g 1);;
  stateChanged.

Definition recordSpin : Method.M unit :=
  Method.assign (fun g => with_totalSpins g (totalSpins g + 1));;
  stateChanged.

Definition recordWin (amount : JS.number) : Method.M unit :=
  Method.assign (fun g => with_totalWins g (totalWins g + 1));;
  Method.assign (fun g => with_winStreak g (winStreak g + 1));;
  Method.assign (fun g =>
    if JS.gt amount (biggestWin g) then with_biggestWin g amount else g);;
  stateChanged.

Definition recordLoss : Method.M unit :=
  Method.assign (fun g => with_winStreak g 0);;
  stateChanged.

(** [upgrades[category]] as the entries of that object; [None] is the
    [undefined] of a category that [upgrades] does not have. *)
Definition levels (u : Upgrades) (category : string) : option (list (string * Z)) :=
  if String.eqb category "symbols" then
    Some [("🍒", level_cherry (symbols u)); ("🍋", level_lemon (symbols u));
          ("🍊", level_orange (symbols u)); ("🍇", level_grape (symbols u));
          ("🍓", level_strawberry (symbols u)); ("💎", level_diamond (symbols u));
          ("🎰", level_slot (symbols u)); ("🌟", level_star (symbols u))]
  else if String.eqb category "luck" then
    Some [("LUCK_GAIN", LUCK_GAIN (luck u));
          ("LUCK_RETENTION", LUCK_RETENTION (luck u));
          ("MAX_LUCK", MAX_LUCK (luck u))]
  else if String.eqb category "multiplier" then
    Some [("COMBO_POWER", COMBO_POWER (multiplier_levels u));
          ("MAX_MULTIPLIER", MAX_MULTIPLIER (multiplier_levels u))]
  else None.

(** [upgrades[category][type]]: it throws a [TypeError] when
    [upgrades[category]] is [undefined]; [None] is [undefined]. *)
Definition level (u : Upgrades) (category type : string)
  : JS.completion (option Z) :=
  match levels u category with
  | None => JS.Throw JS.TypeError
  | Some entries => JS.Return (JS.get entries type)
  end.

(** [upgrades[category][type] = value] for a level that the object has; the
    other levels stay. *)
Definition setLevel (u : Upgrades) (category type : string) (value : Z)
  : Upgrades :=
  let pick (key : string) (old : Z) : Z :=
    if String.eqb type key then value else old in
  if String.eqb category "symbols" then
    {| symbols := {|
         level_cherry := pick "🍒" (level_cherry (symbols u));
         level_lemon := pick "🍋" (level_lemon (symbols u));
         level_orange := pick "🍊" (level_orange (symbols u));
         level_grape := pick "🍇" (level_grape (symbols u));
         level_strawberry := pick "🍓" (level_strawberry (symbols u));
         level_diamond := pick "💎" (level_diamond (symbols u));
         level_slot := pick "🎰" (level_slot (symbols u));
         level_star := pick "🌟" (level_star (symbols u)) |};
       luck := luck u;
       multiplier_levels := multiplier_levels u |}
  else if String.eqb category "luck" then
    {| symbols := symbols u;
       luck := {|
         LUCK_GAIN := pick "LUCK_GAIN" (LUCK_GAIN (luck u));
         LUCK_RETENTION := pick "LUCK_RETENTION" (LUCK_RETENTION (luck u));
         MAX_LUCK := pick "MAX_LUCK" (MAX_LUCK (luck u)) |};
       multiplier_levels := multiplier_levels u |}
  else if String.eqb category "multiplier" then
    {| symbols := symbols u;
       luck := luck u;
       multiplier_levels := {|
         COMBO_POWER := pick "COMBO_POWER" (COMBO_POWER (multiplier_levels u));
         MAX_MULTIPLIER := pick "MAX_MULTIPLIER" (MAX_MULTIPLIER (multiplier_levels u)) |} |}
  else u.

(** What [getUpgradeCost] reads of an upgrade configuration. *)
Record UpgradeConfig := {
  config_maxLevel : Z;
  config_baseCost : JS.number;
  config_costMultiplier : JS.number
}.

(** The [upgradeConfig] of [getUpgradeCost]: the entry of the table of the
    category, [None] for [undefined]. *)
Definition upgradeConfig (category type : string) : option UpgradeConfig :=
  if String.eqb category "symbols" then
    match JS.get SLOT_CONFIG.SYMBOL_UPGRADES type with
    | Some c =>
        Some {| config_maxLevel := SLOT_CONFIG.maxLevel c;
                config_baseCost := SLOT_CONFIG.baseCost c;
                config_costMultiplier := SLOT_CONFIG.costMultiplier c |}
    | None => None
    end
  else if String.eqb category "luck" then
    match JS.get SLOT_CONFIG.UPGRADE_SYSTEM.LUCK_UPGRADES type with
    | Some c =>
        Some {| config_maxLevel := SLOT_CONFIG.UPGRADE_SYSTEM.maxLevel c;
                config_baseCost := SLOT_CONFIG.UPGRADE_SYSTEM.baseCost c;
                config_costMultiplier := SLOT_CONFIG.UPGRADE_SYSTEM.costMultiplier c |}
    | None => None
    end
  else if String.eqb category "multiplier" then
    match JS.get SLOT_CONFIG.UPGRADE_SYSTEM.MULTIPLIER_UPGRADES type with
    | Some c =>
        Some {| config_maxLevel := SLOT_CONFIG.UPGRADE_SYSTEM.maxLevel c;
                config_baseCost := SLOT_CONFIG.UPGRADE_SYSTEM.baseCost c;
                config_costMultiplier := SLOT_CONFIG.UPGRADE_SYSTEM.costMultiplier c |}
    | None => None
    end
  else None.

(** The keys of the three upgrade tables, each with its category. *)
Definition upgradeKeys : list (string * string) :=
  [("symbols", "🍒"); ("symbols", "🍋"); ("symbols", "🍊"); ("symbols", "🍇");
   ("symbols", "🍓"); ("symbols", "💎"); ("symbols", "🎰"); ("symbols", "🌟");
   ("luck", "LUCK_GAIN"); ("luck", "LUCK_RETENTION"); ("luck", "MAX_LUCK");
   ("multiplier", "COMBO_POWER"); ("multiplier", "MAX_MULTIPLIER")].

(** [getUpgradeCost(category, type)]; [None] is [null].  The tables of the
    configuration and the objects of [upgrades] have the same keys, so the
    level is a number whenever the configuration has an entry. *)
Definition getUpgradeCost (g : t) (category type : string)
  : JS.completion (option JS.number) :=
  match level (upgrades g) category type with
  | JS.Throw e => JS.Throw e
  | JS.Return currentLevel =>
      match upgradeConfig category type, currentLevel with
      | Some config, Some currentLevel =>
          if (config_maxLevel config <=? currentLevel)%Z then JS.Return None
          else
            JS.Return (Some (JS.floor
              (config_baseCost config
               * JS.pow (config_costMultiplier config) currentLevel)))
      | _, _ => JS.Return None
      end
  end.

(** [cost !== null && this.credits >= cost] *)
Definition canAffordUpgrade (g : t) (category type : string)
  : JS.completion bool :=
  match getUpgradeCost g category type with
  | JS.Throw e => JS.Throw e
  | JS.Return None => JS.Return false
  | JS.Return (Some cost) => JS.Return (JS.ge (credits g) cost)
  end.

(** [purchaseUpgrade(category, type)].  Past the test the cost is a number;
    as an operand [null] counts as [0]. *)
Definition purchaseUpgrade (category type : string) : Method.M unit :=
  cost ← Method.lift (fun g => getUpgradeCost g category type);
  afford ← Method.lift (fun g => canAffordUpgrade g category type);
  if negb afford then Method.throw (JS.Error "Cannot afford upgrade")
  else
    spendCredits (default 0 cost);;
    Method.assign (fun g =>
      match level (upgrades g) category type with
      | JS.Return (Some current) =>
          with_upgrades g (setLevel (upgrades g) category type (current + 1)%Z)
      | _ => g
      end);;
    g ← Method.this;
    Method.emit
      (upgrade_purchased category type
         (match level (upgrades g) category type with
          | JS.Return current => current
          | JS.Throw _ => None
          end)
         cost);;
    stateChanged.

Definition getWinRate (g : t) : JS.number :=
  if JS.gt (totalSpins g) 0 then totalWins g / totalSpins g * 100 else 0.

(** A call of one of the methods that change the state, with its
    arguments. *)
Inductive Call :=
| call_reset
| call_spendCredits (amount : JS.number)
| call_addCredits (amount : JS.number)
| call_addToJackpot (amount : JS.number)
| call_winJackpot
| call_increaseLuck
| call_decreaseLuck
| call_resetLuck
| call_toggleMaxBet
| call_incrementCombo
| call_resetCombo
| call_recordSpin
| call_recordWin (amount : JS.number)
| call_recordLoss
| call_purchaseUpgrade (category type : string).

Definition perform (c : Call) : Method.M unit :=
  match c with
  | call_reset => resetCall
  | call_spendCredits amount => spendCredits amount
  | call_addCredits amount => addCredits amount
  | call_addToJackpot amount => addToJackpot amount
  | call_winJackpot => winJackpot;; mret tt
  | call_increaseLuck => increaseLuck
  | call_decreaseLuck => decreaseLuck
  | call_resetLuck => resetLuck
  | call_toggleMaxBet => toggleMaxBet
  | call_incrementCombo => incrementCombo
  | call_resetCombo => resetCombo
  | call_recordSpin => recordSpin
  | call_recordWin amount => recordWin amount
  | call_recordLoss => recordLoss
  | call_purchaseUpgrade category type => purchaseUpgrade category type
  end.

(** The object after a sequence of calls, each made whether or not the one
    before it threw. *)
Definition performAll (calls : list Call) (g : t) : t :=
  fold_left (fun g c => Method.after (perform c) g) calls g.

(** The amount a call adds is not negative. *)
Definition amountNotNegative (c : Call) : Prop :=
  match c with
  | call_addCredits amount | call_addToJackpot amount => 0 <= amount
  | _ => True
  end.

(** The ranges the methods keep the state in: no negative credits, a jackpot
    not below its seed, a bet multiplier between [1] and the maximum, a luck
    meter between [0] and the maximum, a combo multiplier between [1] and
    its cap, and every upgrade level between [0] and the [maxLevel] of its
    configuration. *)
Definition inRange (g : t) : Prop :=
  0 <= credits g
  /\ SLOT_CONFIG.INITIAL_JACKPOT <= jackpot g
  /\ (1 <= multiplier g /\ multiplier g <= getMaxMultiplier g)
  /\ (0 <= luckMeter g /\ luckMeter g <= getMaxLuck g)
  /\ 0 <= comboCount g
  /\ (1 <= comboMultiplier g
      /\ comboMultiplier g <= SLOT_CONFIG.MAX_COMBO_MULTIPLIER)
  /\ (forall (category type : string) (current : Z) (config : UpgradeConfig),
        level (upgrades g) category type = JS.Return (Some current) ->
        upgradeConfig category type = Some config ->
        (0 <= current <= config_maxLevel config)%Z).

End GameState.

(** ** [Math.random()] *)

Module Random.

(** A computation that draws from [Math.random()]: it consumes a prefix of
    the draws still to come; [None] when the given draws do not suffice. *)
Definition M (A : Type) : Type :=
  list JS.number -> option (A * list JS.number).

Definition ret {A : Type} (a : A) : M A := fun draws => Some (a, draws).

Definition bind {A B : Type} (m : M A) (k : A -> M B) : M B :=
  fun draws =>
    match m draws with
    | None => None
    | Some (a, rest) => k a rest
    end.

(** [Math.random()] *)
Definition random : M JS.number :=
  fun draws =>
    match draws with
    | [] => None
    | u :: rest => Some (u, rest)
    end.

End Random.

Notation "'let*' x ':=' m 'in' k" := (Random.bind m (fun x => k))
  (at level 10, x name, m at level 100, k at level 200, only parsing).

(** ** The game engine ([GameEngine], slots-2/game-engine.js) *)

Module GameEngine.

Local Open Scope Q_scope.

Record t := {
  isSpinning : bool
}.

(** The object [calculateSpinResult] returns.  [winSymbol] and [payout] are
    [None] for [null]; [payout] is also [None] for the [undefined] of a
    [PAYOUTS] lookup that finds no entry. *)
Record SpinResult := {
  type : string;
  symbols : list string;
  winSymbol : option string;
  payout : option SLOT_CONFIG.Payout
}.

(** What [processSpin] resolves with. *)
Record SpinData := {
  result : SpinResult;
  payout_amount : JS.number;
  cost : JS.number
}.

(** The loop of [getWeightedDisplaySymbol] over the entries of
    [REEL_DISPLAY_WEIGHTS]; [None] when it falls through. *)
Fixpoint displayLoop (random : JS.number) (entries : list (string * JS.number))
  : option string :=
  match entries with
  | [] => None
  | (symbol, weight) :: rest =>
      let random := random - weight in
      if JS.ge 0 random then Some symbol else displayLoop random rest
  end.

(** [getWeightedDisplaySymbol] once [Math.random()] has returned [u]. *)
Definition weightedDisplaySymbol (u : JS.number) : string :=
  let totalWeight :=
    fold_left Qplus (map snd SLOT_CONFIG.REEL_DISPLAY_WEIGHTS) 0 in
  match displayLoop (u * totalWeight) SLOT_CONFIG.REEL_DISPLAY_WEIGHTS with
  | Some symbol => symbol
  | None => hd "" SLOT_CONFIG.SYMBOLS
  end.

Definition getWeightedDisplaySymbol : Random.M string :=
  let* u := Random.random in Random.ret (weightedDisplaySymbol u).

(** The [while] loop of [generateLosingCombination]: one draw per turn;
    [symbolOf] is what [getWeightedDisplaySymbol] makes of a draw. *)
Fixpoint redrawWith (symbolOf : JS.number -> string) (s0 s1 s2 : string)
  (draws : list JS.number) : option (list string * list JS.number) :=
  if String.eqb s0 s1 && String.eqb s1 s2 then
    match draws with
    | [] => None
    | u :: rest => redrawWith symbolOf s0 s1 (symbolOf u) rest
    end
  else Some ([s0; s1; s2], draws).

Definition redrawThird : string -> string -> string -> Random.M (list string) :=
  redrawWith weightedDisplaySymbol.

Definition generateLosingCombination : Random.M (list string) :=
  let* s0 := getWeightedDisplaySymbol in
  let* s1 := getWeightedDisplaySymbol in
  let* s2 := getWeightedDisplaySymbol in
  redrawThird s0 s1 s2.

Definition generateReelSymbols : Random.M (list string) :=
  let* s0 := getWeightedDisplaySymbol in
  let* s1 := getWeightedDisplaySymbol in
  let* s2 := getWeightedDisplaySymbol in
  Random.ret [s0; s1; s2].

Definition calculateTotalWinChance (gameState : GameState.t) : JS.number :=
  let baseProbability := SLOT_CONFIG.TOTAL_BASE_WIN_PROBABILITY in
  let luckBonus :=
    GameState.luckMeter gameState * SLOT_CONFIG.LUCK_BONUS_MULTIPLIER * 100 in
  JS.min (baseProbability + luckBonus) 9500.

(** The [for] loop of [selectWinningSymbol] over the remaining entries of
    [SYMBOL_PROBABILITIES]; [None] when it falls through. *)
Fixpoint selectLoop (luckBonus random cumulativeProbability : JS.number)
  (entries : list (string * JS.number)) : option string :=
  match entries with
  | [] => None
  | (symbol, baseProbability) :: rest =>
      let totalBaseProbability := SLOT_CONFIG.TOTAL_BASE_WIN_PROBABILITY in
      let proportionalLuckBonus :=
        luckBonus * (baseProbability / totalBaseProbability) in
      let adjustedProbability := baseProbability + proportionalLuckBonus in
      let cumulativeProbability := cumulativeProbability + adjustedProbability in
      if JS.lt random cumulativeProbability then Some symbol
      else selectLoop luckBonus random cumulativeProbability rest
  end.

(** [selectWinningSymbol] once [Math.floor(Math.random() * 10000)] is the
    integer [random]. *)
Definition selectWinningSymbolAt (gameState : GameState.t) (random : Z) : string :=
  let luckBonus :=
    GameState.luckMeter gameState * SLOT_CONFIG.LUCK_BONUS_MULTIPLIER * 100 in
  match selectLoop luckBonus (inject_Z random) 0 SLOT_CONFIG.SYMBOL_PROBABILITIES with
  | Some symbol => symbol
  | None => "🍒"
  end.

Definition selectWinningSymbol (gameState : GameState.t) : Random.M string :=
  let* u := Random.random in
  Random.ret (selectWinningSymbolAt gameState (Qfloor (u * 10000))).

Definition calculateSpinResult (gameState : GameState.t) : Random.M SpinResult :=
  if JS.ge (GameState.luckMeter gameState) (GameState.getMaxLuck gameState) then
    Random.ret {|
      type := "luck_jackpot";
      symbols := ["🌟"; "🌟"; "🌟"];
      winSymbol := Some "🌟";
      payout := JS.get SLOT_CONFIG.PAYOUTS "🌟"
    |}
  else
    let totalWinChance := calculateTotalWinChance gameState in
    let* u := Random.random in
    let random := JS.floor (u * 10000) in
    let shouldWin := JS.lt random totalWinChance in
    if shouldWin then
      let* winSymbol := selectWinningSymbol gameState in
      Random.ret {|
        type := "win";
        symbols := [winSymbol; winSymbol; winSymbol];
        winSymbol := Some winSymbol;
        payout := JS.get SLOT_CONFIG.PAYOUTS winSymbol
      |}
    else
      let* symbols := generateLosingCombination in
      Random.ret {|
        type := "loss";
        symbols := symbols;
        winSymbol := None;
        payout := None
      |}.

(** [calculatePayout(result, gameState)]; it throws a [TypeError] when it
    reads [isJackpot] of a missing payout. *)
Definition calculatePayout (result : SpinResult) (gameState : GameState.t)
  : JS.completion JS.number :=
  if String.eqb (type result) "loss" then JS.Return 0
  else
    match payout result with
    | None => JS.Throw JS.TypeError
    | Some p =>
        if SLOT_CONFIG.isJackpot p || String.eqb (type result) "luck_jackpot" then
          JS.Return (GameState.jackpot gameState)
        else
          match winSymbol result with
          | None => JS.Throw JS.TypeError
          | Some symbol =>
              match GameState.getUpgradedPayout gameState symbol with
              | None => JS.Throw JS.TypeError
              | Some upgradedBasePayout =>
                  let basePayout :=
                    upgradedBasePayout * SLOT_CONFIG.BASE_COST
                    * GameState.multiplier gameState in
                  let comboBonus :=
                    JS.floor (basePayout * (GameState.comboMultiplier gameState - 1)) in
                  JS.Return (basePayout + comboBonus)
              end
          end
    end.

Definition canSpin (engine : t) (gameState : GameState.t) : bool :=
  let cost := SLOT_CONFIG.BASE_COST * GameState.multiplier gameState in
  negb (isSpinning engine) && JS.ge (GameState.credits gameState) cost.

Definition getSpinCost (gameState : GameState.t) : JS.number :=
  SLOT_CONFIG.BASE_COST * GameState.multiplier gameState.

(** [this.isSpinning = value] *)
Definition setSpinning (engine : t) (value : bool) : t :=
  {| isSpinning := value |}.

(** The message of the error [processSpin] throws. *)
Definition cannot_spin_message : string :=
  "Cannot spin - insufficient credits or already spinning".

(** [processSpin(gameState)]: how the returned promise settles ([Return]:
    resolved, [Throw]: rejected) and the engine afterwards.  The [finally]
    block runs on both ways out of the [try]. *)
Definition processSpin (engine : t) (gameState : GameState.t)
  : Random.M (JS.completion SpinData * t) :=
  if negb (canSpin engine gameState) then
    Random.ret (JS.Throw (JS.Error cannot_spin_message), engine)
  else
    let engine := setSpinning engine true in
    let* result := calculateSpinResult gameState in
    let settled :=
      match calculatePayout result gameState with
      | JS.Throw e => JS.Throw e
      | JS.Return payout =>
          JS.Return {| result := result;
                       payout_amount := payout;
                       cost := getSpinCost gameState |}
      end in
    Random.ret (settled, setSpinning engine false).



(** The three shapes of a spin result. *)
Inductive resultShape : SpinResult -> Prop :=
| shape_luck_jackpot :
    resultShape
      {| type := "luck_jackpot";
         symbols := ["🌟"; "🌟"; "🌟"];
         winSymbol := Some "🌟";
         payout := JS.get SLOT_CONFIG.PAYOUTS "🌟" |}
| shape_win (winSymbol : string) :
    In winSymbol SLOT_CONFIG.SYMBOLS ->
    resultShape
      {| type := "win";
         symbols := [winSymbol; winSymbol; winSymbol];
         winSymbol := Some winSymbol;
         payout := JS.get SLOT_CONFIG.PAYOUTS winSymbol |}
| shape_loss (symbols : list string) :
    resultShape
      {| type := "loss";
         symbols := symbols;
         winSymbol := None;
         payout := None |}.

(** The two selections over doubles, each operation rounded as the engine
    rounds it.  Of the game state they read [luckMeter]. *)
Module Rounded.

(** The [for] loop of [selectWinningSymbol]. *)
Fixpoint selectLoop (luckBonus random cumulativeProbability : Double.t)
  (entries : list (string * Double.t)) : option string :=
  match entries with
  | [] => None
  | (symbol, baseProbability) :: rest =>
      let totalBaseProbability := SLOT_CONFIG.Rounded.TOTAL_BASE_WIN_PROBABILITY in
      let proportionalLuckBonus :=
        Double.mul luckBonus (Double.div baseProbability totalBaseProbability) in
      let adjustedProbability := Double.add baseProbability proportionalLuckBonus in
      let cumulativeProbability :=
        Double.add cumulativeProbability adjustedProbability in
      if Double.lt random cumulativeProbability then Some symbol
      else selectLoop luckBonus random cumulativeProbability rest
  end.

(** [selectWinningSymbol] once [Math.floor(Math.random() * 10000)] is
    [random]. *)
Definition selectWinningSymbolAt (luckMeter random : Double.t) : string :=
  let luckBonus :=
    Double.mul (Double.mul luckMeter SLOT_CONFIG.Rounded.LUCK_BONUS_MULTIPLIER)
               100%float in
  match selectLoop luckBonus random 0%float
          SLOT_CONFIG.Rounded.SYMBOL_PROBABILITIES with
  | Some symbol => symbol
  | None => "🍒"
  end.

(** [selectWinningSymbol] once [Math.random()] has returned [u]. *)
Definition selectWinningSymbol (luckMeter u : Double.t) : string :=
  selectWinningSymbolAt luckMeter (Double.floor (Double.mul u 10000%float)).

(** The loop of [getWeightedDisplaySymbol]. *)
Fixpoint displayLoop (random : Double.t) (entries : list (string * Double.t))
  : option string :=
  match entries with
  | [] => None
  | (symbol, weight) :: rest =>
      let random := Double.sub random weight in
      if Double.le random 0%float then Some symbol else displayLoop random rest
  end.

(** [getWeightedDisplaySymbol] once [Math.random()] has returned [u]. *)
Definition weightedDisplaySymbol (u : Double.t) : string :=
  let totalWeight :=
    fold_left Double.add (map snd SLOT_CONFIG.Rounded.REEL_DISPLAY_WEIGHTS)
              0%float in
  match displayLoop (Double.mul u totalWeight)
          SLOT_CONFIG.Rounded.REEL_DISPLAY_WEIGHTS with
  | Some symbol => symbol
  | None => hd "" SLOT_CONFIG.SYMBOLS
  end.

End Rounded.

End GameEngine.

(** ** The legacy paytable manager ([PaytableManager], the file with the
    paytable rows) *)

Module PaytableManager.

Local Open Scope Q_scope.

(** The slot machine object the manager holds; of its properties the two
    functions below read [luckMeter]. *)
Record SlotMachine := {
  luckMeter : JS.number
}.

(** [slotMachine] is [None] when the manager was built without one. *)
Record t := {
  slotMachine : option SlotMachine
}.

Definition calculateTotalWinChance (this : t) : JS.number :=
  let baseProbability := SLOT_CONFIG.TOTAL_BASE_WIN_PROBABILITY in
  match slotMachine this with
  | None => baseProbability
  | Some machine =>
      let luckBonus := luckMeter machine * SLOT_CONFIG.LUCK_BONUS_MULTIPLIER * 100 in
      JS.min (baseProbability + luckBonus) 9500
  end.

Fixpoint selectLoop (luckBonus random cumulativeProbability : JS.number)
  (entries : list (string * JS.number)) : option string :=
  match entries with
  | [] => None
  | (symbol, baseProbability) :: rest =>
      let totalBaseProbability := SLOT_CONFIG.TOTAL_BASE_WIN_PROBABILITY in
      let proportionalLuckBonus :=
        luckBonus * (baseProbability / totalBaseProbability) in
      let adjustedProbability := baseProbability + proportionalLuckBonus in
      let cumulativeProbability := cumulativeProbability + adjustedProbability in
      if JS.lt random cumulativeProbability then Some symbol
      else selectLoop luckBonus random cumulativeProbability rest
  end.

(** The string literal of the fallback [return] as the file has it: the
    three code points U+00F0, U+0178, U+2019. *)
Definition fallback : string := "ðŸ’".

Definition selectWinningSymbolAt (this : t) (random : Z) : string :=
  let luckBonus :=
    match slotMachine this with
    | Some machine => luckMeter machine * SLOT_CONFIG.LUCK_BONUS_MULTIPLIER * 100
    | None => 0
    end in
  match selectLoop luckBonus (inject_Z random) 0 SLOT_CONFIG.SYMBOL_PROBABILITIES with
  | Some symbol => symbol
  | None => fallback
  end.

Definition selectWinningSymbol (this : t) : Random.M string :=
  let* u := Random.random in
  Random.ret (selectWinningSymbolAt this (Qfloor (u * 10000))).

End PaytableManager.

(** ** JSON values *)

Module JSON.

(** A JSON text, by the value it denotes. *)
Inductive value :=
| Null
| Bool (b : bool)
| Number (n : JS.number)
| String (s : string)
| Array (items : list value)
| Object (fields : list (string * value)).

(** A parsed value as a condition: [null], [false], [0] and the empty
    string are falsy. *)
Definition truthy (v : value) : bool :=
  match v with
  | Null => false
  | Bool b => b
  | Number n => negb (JS.eq n 0%Q)
  | String s => negb (String.eqb s "")
  | Array _ | Object _ => true
  end.

End JSON.

(** ** The browser: document, timers and localStorage *)

Module Browser.

(** What the code reads and writes of a DOM element: [style.display],
    [textContent] and [classList]. *)
Record Element := {
  display : string;
  textContent : string;
  classList : gset string
}.

(** The functions given to [setTimeout]: the auto-spin callback of
    [scheduleAutoSpin], and the others by a label. *)
Inductive Callback :=
| autoSpinCallback
| otherCallback (label : string).

(** The elements of the document by id, the pending timers by handle (the
    handles are positive integers), the next handle, localStorage with
    each stored JSON text as the value it denotes, and the writes that
    localStorage does not take: [quotaExceeded key value] when the quota has
    no room for [value] under [key] (always true when the user has turned
    storage off for the site). *)
Record t := {
  dom : gmap string Element;
  timers : gmap positive Callback;
  nextTimer : positive;
  localStorage : gmap string JSON.value;
  quotaExceeded : string -> JSON.value -> bool
}.

Definition with_dom (b : t) (d : gmap string Element) : t :=
  {| dom := d; timers := timers b; nextTimer := nextTimer b;
     localStorage := localStorage b; quotaExceeded := quotaExceeded b |}.

Definition with_timers (b : t) (ts : gmap positive Callback) (next : positive) : t :=
  {| dom := dom b; timers := ts; nextTimer := next;
     localStorage := localStorage b; quotaExceeded := quotaExceeded b |}.

Definition with_localStorage (b : t) (st : gmap string JSON.value) : t :=
  {| dom := dom b; timers := timers b; nextTimer := nextTimer b;
     localStorage := st; quotaExceeded := quotaExceeded b |}.

(** [element.style.display = value] on the element with id [id]. *)
Definition setDisplay (id value : string) (b : t) : t :=
  with_dom b
    (alter (fun e => {| display := value; textContent := textContent e;
                        classList := classList e |}) id (dom b)).

(** [element.textContent = value] *)
Definition setTextContent (id value : string) (b : t) : t :=
  with_dom b
    (alter (fun e => {| display := display e; textContent := value;
                        classList := classList e |}) id (dom b)).

(** [element.classList.toggle(class, force)]: adds [class] when [force] is
    true, removes it otherwise. *)
Definition classListToggle (id class : string) (force : bool) (b : t) : t :=
  with_dom b
    (alter (fun e => {| display := display e; textContent := textContent e;
                        classList := if force then {[ class ]} ∪ classList e
                                     else classList e ∖ {[ class ]} |})
           id (dom b)).

(** [element.classList.remove(class)] *)
Definition classListRemove (id class : string) (b : t) : t :=
  classListToggle id class false b.

(** [setTimeout(callback, delay)]: the handle, and the browser with the
    timer pending.  The delay only orders the timers in time and is left
    out. *)
Definition setTimeout (callback : Callback) (b : t) : positive * t :=
  (nextTimer b,
   with_timers b (<[nextTimer b := callback]> (timers b)) (Pos.succ (nextTimer b))).

(** [clearTimeout(handle)] *)
Definition clearTimeout (handle : positive) (b : t) : t :=
  with_timers b (delete handle (timers b)) (nextTimer b).

(** [localStorage.setItem(key, JSON.stringify(value))]: it throws a
    [QuotaExceededError] when localStorage does not take the write. *)
Definition setItem (key : string) (value : JSON.value) (b : t)
  : JS.completion t :=
  if quotaExceeded b key value
  then JS.Throw (JS.DOMException "QuotaExceededError")
  else JS.Return (with_localStorage b (<[key := value]> (localStorage b))).

(** An operation that runs in the browser. *)
Definition Operation (A : Type) : Type := t -> A * t.

(** The operation that computes [a] without the browser. *)
Definition pure {A : Type} (a : A) : Operation A := fun b => (a, b).

(** An operation reads or writes the browser when, for some browser, it
    changes it, or its result differs from its result in another browser. *)
Definition accesses {A : Type} (op : Operation A) : Prop :=
  exists b : t, snd (op b) <> b \/ exists b' : t, fst (op b) <> fst (op b').

End Browser.

(** ** The UI manager ([UIManager]): panels *)

Module UIManager.

(** The entries of [this.elements] that hold one element, with the id
    [initializeElements] looks each up by. *)
Definition elementIds : list (string * string) :=
  [("creditsValue", "credits-value"); ("jackpotAmount", "jackpot-amount");
   ("spinBtn", "spin-btn"); ("spinText", "spin-text"); ("spinCost", "spin-cost");
   ("resultMessage", "result-message");
   ("luckMeterFill", "luck-meter-fill"); ("luckMeterGlow", "luck-meter-glow");
   ("luckPercentage", "luck-percentage"); ("luckStatus", "luck-status");
   ("autoSpinBtn", "auto-spin-btn"); ("maxBetBtn", "max-bet-btn");
   ("upgradesBtn", "upgrades-btn"); ("statsBtn", "stats-btn");
   ("upgradesPanel", "upgrades-panel"); ("upgradeContent", "upgrade-content");
   ("statsPanel", "stats-panel");
   ("totalSpins", "total-spins"); ("totalWins", "total-wins");
   ("winRate", "win-rate"); ("biggestWin", "biggest-win");
   ("winStreakEl", "win-streak"); ("jackpotsEl", "jackpots");
   ("celebration", "celebration-overlay");
   ("celebrationMessage", "celebration-message");
   ("celebrationDetails", "celebration-details");
   ("betMultiplier", "bet-multiplier")].

Record t := {
  activePanel : option string;
  autoSpinActive : bool
}.

(** What the manager hands to the event dispatcher. *)
Inductive Emitted :=
| render_upgrades (category : string)
| auto_spin_toggled (active : bool).

(** [this.elements[key]]: the id and the element, or [None] for [null] and
    [undefined].  The elements are looked up once, by id, when the manager
    is built, and the document neither gains nor loses elements afterwards,
    so the entry is the element the document has under that id. *)
Definition element (b : Browser.t) (key : string)
  : option (string * Browser.Element) :=
  match JS.get elementIds key with
  | None => None
  | Some id =>
      match Browser.dom b !! id with
      | None => None
      | Some e => Some (id, e)
      end
  end.

(** [c.toUpperCase()] on a letter of the ASCII range. *)
Definition upper (c : ascii) : ascii :=
  let n := nat_of_ascii c in
  if (97 <=? n)%nat && (n <=? 122)%nat then ascii_of_nat (n - 32) else c.

(** [s.charAt(0).toUpperCase() + s.slice(1)] *)
Definition capitalize (s : string) : string :=
  match s with
  | EmptyString => EmptyString
  | String.String c rest => String.String (upper c) rest
  end.

(** The block under "Close current panel" in [togglePanel]. *)
Definition closeCurrentPanel (ui : t) (panelType : string) (b : Browser.t)
  : Browser.t :=
  match activePanel ui with
  | None => b
  | Some active =>
      if negb (String.eqb active "") && negb (String.eqb active panelType) then
        let b1 :=
          match element b (active ++ "Panel") with
          | Some (id, _) => Browser.setDisplay id "none" b
          | None => b
          end in
        match element b1 (active ++ "Btn") with
        | Some (id, _) =>
            Browser.setTextContent id (capitalize active)
              (Browser.classListRemove id "active" b1)
        | None => b1
        end
      else b
  end.

Definition togglePanel (ui : t) (panelType : string)
  : Browser.Operation (t * list Emitted) :=
  fun b =>
    match element b (panelType ++ "Panel"), element b (panelType ++ "Btn") with
    | Some (panelId, panelElement), Some (buttonId, _) =>
        let isVisible := negb (String.eqb (Browser.display panelElement) "none") in
        let b := closeCurrentPanel ui panelType b in
        let b := Browser.setDisplay panelId (if isVisible then "none" else "block") b in
        let b :=
          Browser.setTextContent buttonId
            (if isVisible then capitalize panelType
             else "Hide " ++ capitalize panelType) b in
        let b := Browser.classListToggle buttonId "active" (negb isVisible) b in
        let ui' := {| activePanel := if isVisible then None else Some panelType;
                      autoSpinActive := autoSpinActive ui |} in
        let emitted :=
          if negb isVisible && String.eqb panelType "upgrades"
          then [render_upgrades "symbols"] else [] in
        ((ui', emitted), b)
    | _, _ => ((ui, []), b)
    end.

(** [toggleAutoSpin()] *)
Definition toggleAutoSpin (ui : t) : Browser.Operation (t * list Emitted) :=
  fun b =>
    let active := negb (autoSpinActive ui) in
    let b :=
      match element b "autoSpinBtn" with
      | Some (id, _) =>
          Browser.classListToggle id "active" active
            (Browser.setTextContent id (if active then "Stop Auto" else "Auto Spin") b)
      | None => b
      end in
    (({| activePanel := activePanel ui; autoSpinActive := active |},
      [auto_spin_toggled active]), b).

(** A panel is displayed when its [style.display] is not ["none"], the test
    of [togglePanel]. *)
Definition displayed (b : Browser.t) (panelType : string) : Prop :=
  exists id e, element b (panelType ++ "Panel") = Some (id, e)
               /\ Browser.display e <> "none".

(** A panel can be toggled when the document has both its panel element
    and its button. *)
Definition toggleable (b : Browser.t) (panelType : string) : Prop :=
  is_Some (element b (panelType ++ "Panel"))
  /\ is_Some (element b (panelType ++ "Btn")).

(** The id and the [style.display] of the element under a key. *)
Definition view (b : Browser.t) (key : string) : option (string * string) :=
  match element b key with
  | Some (id, e) => Some (id, Browser.display e)
  | None => None
  end.

(** The panels agree with [activePanel]: the active panel can be toggled and
    is displayed, and a displayed panel that can be toggled is the active
    one. *)
Definition consistent (ui : t) (b : Browser.t) : Prop :=
  (forall p : string,
     activePanel ui = Some p -> toggleable b p /\ displayed b p)
  /\ (forall q : string,
        toggleable b q -> displayed b q -> activePanel ui = Some q).

(** [togglePanel] on each panel type of a list in turn. *)
Fixpoint togglePanels (ui : t) (panelTypes : list string) (b : Browser.t)
  : t * Browser.t :=
  match panelTypes with
  | [] => (ui, b)
  | panelType :: rest =>
      let '((ui', _), b') := togglePanel ui panelType b in
      togglePanels ui' rest b'
  end.

(** The state of a manager just built: no active panel, auto spin off. *)
Definition initial : t := {| activePanel := None; autoSpinActive := false |}.

(** The message [updateLuckStatus] writes under the luck meter, by what it
    says: that the instant jackpot is ready, that luck is burning hot, that
    the player feels very lucky, that luck is building up, that it gets
    luckier with each spin, or to keep spinning. *)
Inductive LuckStatus :=
| jackpotReady
| burningHot
| veryLucky
| buildingUp
| gettingLuckier
| keepSpinning.

(** The class that goes with the message. *)
Definition statusClass (status : LuckStatus) : string :=
  match status with
  | jackpotReady => "max-luck"
  | burningHot | veryLucky | buildingUp => "lucky"
  | gettingLuckier | keepSpinning => ""
  end.

(** [updateLuckStatus(luckLevel, maxLuck)], in a document that has the
    status line and the container of the luck meter: the message shown. *)
Definition updateLuckStatus (luckLevel maxLuck : JS.number) : LuckStatus :=
  if JS.ge luckLevel maxLuck then jackpotReady
  else if JS.ge luckLevel SLOT_CONFIG.THRESHOLDS.HIGH_LUCK_THRESHOLD
  then burningHot
  else if JS.ge luckLevel SLOT_CONFIG.THRESHOLDS.MEDIUM_LUCK_THRESHOLD
  then veryLucky
  else if JS.ge luckLevel SLOT_CONFIG.THRESHOLDS.LOW_LUCK_THRESHOLD
  then buildingUp
  else if JS.ge luckLevel SLOT_CONFIG.THRESHOLDS.BUILDING_LUCK_THRESHOLD
  then gettingLuckier
  else keepSpinning.

(** The luck status after an event of the game state: the listener of
    [luck_changed] calls [updateLuckMeter], which calls [updateLuckStatus]
    with [newValue] and [maxValue]; no other listener writes the status. *)
Definition statusAfter (shown : LuckStatus) (e : GameState.Event)
  : LuckStatus :=
  match e with
  | GameState.luck_changed _ newValue maxValue =>
      updateLuckStatus newValue maxValue
  | _ => shown
  end.

Definition statusAfterAll (events : list GameState.Event)
  (shown : LuckStatus) : LuckStatus :=
  fold_left statusAfter events shown.

End UIManager.

(** ** The inventory manager ([InventoryManager]) *)

Module InventoryManager.

Local Open Scope Q_scope.

(** The class [InventoryItem] is not among the sources; the manager uses it
    through the methods below, which are taken as an interface.  A method
    that changes its receiver returns the receiver after the call next to
    its result.
    - [stackWith slotItem item]: the slot item after the call, and the
      quantity of [item] that is left over.
    - [split item quantity]: the item after the call, and the new item, or
      [None] for [null].
    - [use item quantity]: the item after the call, and whether it was used.
    - [fromTemplate id quantity]: [createItem(id, {quantity})], the item
      built from the template of that id, or [None] for [null].
    - [toJSON item]: the value that [JSON.stringify] writes for
      [item.toJSON()], or the error that one of the two throws.
    - [sorted sortBy ascending items]: the items in the order in which
      [Array.prototype.sort] with the comparator of [sortInventory] leaves
      them. *)
Class InventoryItem (Item : Type) := {
  quantity : Item -> JS.number;
  setQuantity : Item -> JS.number -> Item;
  stackable : Item -> bool;
  canStackWith : Item -> Item -> bool;
  stackWith : Item -> Item -> Item * JS.number;
  split : Item -> JS.number -> Item * option Item;
  use : Item -> JS.number -> Item * bool;
  toJSON : Item -> JS.completion JSON.value;
  fromTemplate : string -> JS.number -> option Item;
  sorted : string -> bool -> list Item -> list Item
}.

(** The options the operations below read. *)
Record Options := {
  maxSlots : Z;
  autoStack : bool;
  storageKey : string
}.

Definition defaultOptions : Options :=
  {| maxSlots := 40; autoStack := true; storageKey := "inventory-data" |}.

Section Manager.

Context {Item : Type} `{InventoryItem Item}.

(** The manager: its options, the slots ([None] for [null]), the operation
    count and the current sort.  The manager is the one built without a game
    instance ([this.game] is [null]); the sounds, the animation classes, the
    refresh of the grid and the custom events are left out: they neither
    read nor write the slots or localStorage. *)
Record t := {
  options : Options;
  slots : list (option Item);
  operationCount : JS.number;
  currentSort : string
}.

Definition with_slots (m : t) (s : list (option Item)) : t :=
  {| options := options m; slots := s;
     operationCount := operationCount m; currentSort := currentSort m |}.

(** The first argument of [addItem]: a template id or an item. *)
Inductive ItemArgument :=
| templateId (id : string)
| instance (item : Item).

(** [this.slots[index]]: [None] is [undefined], [Some None] is [null]. *)
Definition slotAt (s : list (option Item)) (index : Z) : option (option Item) :=
  if (index <? 0)%Z then None else s !! Z.to_nat index.

(** The item in a slot, when the slot holds one ([!item] is false). *)
Definition itemAt (s : list (option Item)) (index : Z) : option Item :=
  match slotAt s index with
  | Some (Some item) => Some item
  | _ => None
  end.

(** [this.slots[index] = value], for an index within the array (the array
    has [maxSlots] entries or more: the constructor and [loadFromData] see
    to it). *)
Definition setSlot (s : list (option Item)) (index : Z) (value : option Item)
  : list (option Item) :=
  if (index <? 0)%Z then s else <[Z.to_nat index := value]> s.

(** [new Array(maxSlots).fill(null)] *)
Definition emptySlots (n : Z) : list (option Item) :=
  replicate (Z.to_nat n) None.

(** A manager just built with the given options and nothing loaded. *)
Definition create (opts : Options) : t :=
  {| options := opts; slots := emptySlots (maxSlots opts);
     operationCount := 0; currentSort := "none" |}.

Fixpoint findEmptyFrom (s : list (option Item)) (i : Z) : Z :=
  match s with
  | [] => (-1)%Z
  | None :: _ => i
  | Some _ :: rest => findEmptyFrom rest (i + 1)%Z
  end.

Definition findEmptySlot (m : t) : Z := findEmptyFrom (slots m) 0%Z.

(** The loop of [tryStackItem] over the slots: the slots after it, and the
    item that remains with its quantity set to what is left, or [None] when
    it was stacked in full. *)
Fixpoint tryStackLoop (s : list (option Item)) (item : Item)
  : list (option Item) * option Item :=
  match s with
  | [] => ([], Some item)
  | None :: rest =>
      let '(rest', remainingItem) := tryStackLoop rest item in
      (None :: rest', remainingItem)
  | Some slotItem :: rest =>
      if canStackWith slotItem item then
        let '(slotItem', remaining) := stackWith slotItem item in
        if JS.eq remaining 0 then (Some slotItem' :: rest, None)
        else
          let '(rest', remainingItem) :=
            tryStackLoop rest (setQuantity item remaining) in
          (Some slotItem' :: rest', remainingItem)
      else
        let '(rest', remainingItem) := tryStackLoop rest item in
        (Some slotItem :: rest', remainingItem)
  end.

Definition tryStackItem (m : t) (item : Item) : t * option Item :=
  let '(s, remainingItem) := tryStackLoop (slots m) item in
  (with_slots m s, remainingItem).

(** [trackOperation]: the count goes up by one (the record kept in
    [lastOperation] is left out). *)
Definition trackOperation (m : t) : t :=
  {| options := options m; slots := slots m;
     operationCount := operationCount m + 1; currentSort := currentSort m |}.

(** [this.slots.map((item) => (item ? item.toJSON() : null))]: the values
    of the slots in turn, up to the first item whose [toJSON] throws. *)
Fixpoint slotsToJSON (s : list (option Item)) : JS.completion (list JSON.value) :=
  match s with
  | [] => JS.Return []
  | slot :: rest =>
      match match slot with
            | Some item => toJSON item
            | None => JS.Return JSON.Null
            end with
      | JS.Throw e => JS.Throw e
      | JS.Return value =>
          match slotsToJSON rest with
          | JS.Throw e => JS.Throw e
          | JS.Return values => JS.Return (value :: values)
          end
      end
  end.

(** The object [saveInventory] builds from the slots, as [JSON.stringify]
    writes it. *)
Definition inventoryData (now : JS.number) (m : t) : JS.completion JSON.value :=
  match slotsToJSON (slots m) with
  | JS.Throw e => JS.Throw e
  | JS.Return values =>
      JS.Return
        (JSON.Object
           [("slots", JSON.Array values);
            ("metadata",
             JSON.Object
               [("savedAt", JSON.Number now);
                ("version", JSON.String "1.0.0");
                ("operationCount", JSON.Number (operationCount m))])])
  end.

(** [saveInventory()], with [now] for [Date.now()].  The body runs under a
    [try] whose [catch] only logs: when [toJSON], [JSON.stringify] or
    [localStorage.setItem] throws, nothing is written and the call returns
    all the same. *)
Definition saveInventory (now : JS.number) (m : t) : Browser.Operation unit :=
  fun b =>
    match inventoryData now m with
    | JS.Throw _ => (tt, b)
    | JS.Return data =>
        match Browser.setItem (storageKey (options m)) data b with
        | JS.Throw _ => (tt, b)
        | JS.Return b' => (tt, b')
        end
    end.

(** [addItem(item, quantity, preferredSlot)] *)
Definition addItem (now : JS.number) (argument : ItemArgument)
  (quantity : JS.number) (preferredSlot : Z) (m : t)
  : Browser.Operation (bool * t) :=
  fun b =>
    let created :=
      match argument with
      | templateId id => fromTemplate id quantity
      | instance item => Some item
      end in
    match created with
    | None => ((false, m), b)
    | Some item =>
        let '(m, remainingItem) :=
          if autoStack (options m) && stackable item
          then tryStackItem m item
          else (m, Some item) in
        match remainingItem with
        | None =>
            let m := trackOperation m in
            ((true, m), snd (saveInventory now m b))
        | Some item =>
            let targetSlot :=
              if (preferredSlot =? -1)%Z
                 || (maxSlots (options m) <=? preferredSlot)%Z
                 || match slotAt (slots m) preferredSlot with
                    | Some None => false
                    | _ => true
                    end
              then findEmptySlot m
              else preferredSlot in
            if (targetSlot =? -1)%Z then ((false, m), b)
            else
              let m := with_slots m (setSlot (slots m) targetSlot (Some item)) in
              let m := trackOperation m in
              ((true, m), snd (saveInventory now m b))
        end
    end.

(** [removeItem(slotIndex, quantity)]; the result is the removed item, or
    [None] for [null]. *)
Definition removeItem (now : JS.number) (slotIndex : Z) (quantity : JS.number)
  (m : t) : Browser.Operation (option Item * t) :=
  fun b =>
    if (slotIndex <? 0)%Z || (maxSlots (options m) <=? slotIndex)%Z
    then ((None, m), b)
    else
      match itemAt (slots m) slotIndex with
      | None => ((None, m), b)
      | Some item =>
          if JS.eq quantity (-1) || JS.ge quantity (InventoryManager.quantity item) then
            let m := with_slots m (setSlot (slots m) slotIndex None) in
            let m := trackOperation m in
            ((Some item, m), snd (saveInventory now m b))
          else
            let '(item', removedItem) := split item quantity in
            let m := with_slots m (setSlot (slots m) slotIndex (Some item')) in
            match removedItem with
            | None => ((None, m), b)
            | Some removed =>
                let m := trackOperation m in
                ((Some removed, m), snd (saveInventory now m b))
            end
      end.

(** [moveItem(fromSlot, toSlot, quantity)] *)
Definition moveItem (now : JS.number) (fromSlot toSlot : Z)
  (quantity : JS.number) (m : t) : Browser.Operation (bool * t) :=
  fun b =>
    if (fromSlot =? toSlot)%Z then ((true, m), b)
    else if (fromSlot <? 0)%Z || (maxSlots (options m) <=? fromSlot)%Z
    then ((false, m), b)
    else if (toSlot <? 0)%Z || (maxSlots (options m) <=? toSlot)%Z
    then ((false, m), b)
    else
      match itemAt (slots m) fromSlot with
      | None => ((false, m), b)
      | Some sourceItem =>
          let s := slots m in
          let s :=
            match itemAt s toSlot with
            | Some targetItem =>
                if canStackWith targetItem sourceItem then
                  let '(targetItem', remaining) := stackWith targetItem sourceItem in
                  let s := setSlot s toSlot (Some targetItem') in
                  if JS.eq remaining 0 then setSlot s fromSlot None
                  else setSlot s fromSlot (Some (setQuantity sourceItem remaining))
                else
                  setSlot (setSlot s fromSlot (Some targetItem)) toSlot (Some sourceItem)
            | None =>
                if JS.eq quantity (-1)
                   || JS.ge quantity (InventoryManager.quantity sourceItem)
                then setSlot (setSlot s toSlot (Some sourceItem)) fromSlot None
                else
                  let '(sourceItem', splitItem) := split sourceItem quantity in
                  let s := setSlot s fromSlot (Some sourceItem') in
                  match splitItem with
                  | Some item => setSlot s toSlot (Some item)
                  | None => s
                  end
            end in
          let m := trackOperation (with_slots m s) in
          ((true, m), snd (saveInventory now m b))
      end.

(** [useItem(slotIndex, quantity)] *)
Definition useItem (now : JS.number) (slotIndex : Z) (quantity : JS.number)
  (m : t) : Browser.Operation (bool * t) :=
  fun b =>
    match itemAt (slots m) slotIndex with
    | None => ((false, m), b)
    | Some item =>
        let '(item', success) := use item quantity in
        let m := with_slots m (setSlot (slots m) slotIndex (Some item')) in
        if success then
          let m :=
            if JS.le (InventoryManager.quantity item') 0
            then with_slots m (setSlot (slots m) slotIndex None)
            else m in
          let m := trackOperation m in
          ((true, m), snd (saveInventory now m b))
        else ((false, m), b)
    end.

(** The items of the slots that hold one, in slot order. *)
Definition itemsOf (s : list (option Item)) : list Item :=
  omap (fun slot => slot) s.

(** [sortInventory(sortBy, ascending)] *)
Definition sortInventory (now : JS.number) (sortBy : string) (ascending : bool)
  (m : t) : Browser.Operation t :=
  fun b =>
    let items := sorted sortBy ascending (itemsOf (slots m)) in
    let n := length (slots m) in
    let s := take n (map Some items ++ replicate n None) in
    let m := {| options := options m; slots := s;
                operationCount := operationCount m; currentSort := sortBy |} in
    let m := trackOperation m in
    (m, snd (saveInventory now m b)).

(** What localStorage holds under the storage key is the slots of the
    manager as [saveInventory] writes them at time [now]. *)
Definition persisted (now : JS.number) (m : t) (b : Browser.t) : Prop :=
  exists data : JSON.value,
    inventoryData now m = JS.Return data
    /\ Browser.localStorage b !! storageKey (options m) = Some data.

(** The browser [b'] is what [saveInventory] at time [now] makes of the
    browser [b]: the slots of the manager are persisted when every [toJSON]
    returns and localStorage takes the write, and the browser is unchanged
    when something throws. *)
Definition saved (now : JS.number) (m : t) (b b' : Browser.t) : Prop :=
  (forall data : JSON.value,
     inventoryData now m = JS.Return data ->
     Browser.quotaExceeded b (storageKey (options m)) data = false ->
     persisted now m b')
  /\ (forall data : JSON.value,
        inventoryData now m = JS.Return data ->
        Browser.quotaExceeded b (storageKey (options m)) data = true ->
        b' = b)
  /\ (forall e : JS.Exception, inventoryData now m = JS.Throw e -> b' = b).

(** [InventoryItem.fromJSON], of the class that is not among the sources:
    taken as a function that returns an item. *)
Variable fromJSON : JSON.value -> Item.

(** [loadFromData(data)], for parsed data whose objects have no key twice.
    Reading [slots] of [null] is a [TypeError], and so is the call of [map]
    on a truthy value that is no array. *)
Definition loadFromData (data : JSON.value) (m : t) : JS.completion t :=
  match data with
  | JSON.Null => JS.Throw JS.TypeError
  | JSON.Object fields =>
      match JS.get fields "slots" with
      | None => JS.Return m
      | Some value =>
          if negb (JSON.truthy value) then JS.Return m
          else
            match value with
            | JSON.Array items =>
                let loaded :=
                  map (fun itemData =>
                         if JSON.truthy itemData then Some (fromJSON itemData)
                         else None)
                      items in
                JS.Return
                  (with_slots m
                     (loaded
                      ++ replicate
                           (Z.to_nat (maxSlots (options m)) - length loaded)
                           None)%list)
            | _ => JS.Throw JS.TypeError
            end
      end
  | _ => JS.Return m
  end.

(** [loadInventory()] of a manager without game instance: an error ends in
    the [catch], which only logs. *)
Definition loadInventory (m : t) : Browser.Operation t :=
  fun b =>
    match Browser.localStorage b !! storageKey (options m) with
    | None => (m, b)
    | Some data =>
        match loadFromData data m with
        | JS.Return m' => (m', b)
        | JS.Throw _ => (m, b)
        end
    end.

End Manager.

Arguments t Item : clear implicits.

End InventoryManager.

(** ** The orchestrator ([EnhancedSlotMachine]): auto spin *)

Module EnhancedSlotMachine.

(** Of the orchestrator: the game state and the two fields of the auto-spin
    control.  [autoSpinTimeout] is [None] for [null]; a timer handle is a
    positive integer, so a handle is truthy. *)
Record t := {
  gameState : GameState.t;
  autoSpinActive : bool;
  autoSpinTimeout : option positive
}.

Inductive Emitted :=
| SPIN_STARTED
| ERROR.

Definition initial : t :=
  {| gameState := GameState.initial; autoSpinActive := false;
     autoSpinTimeout := None |}.

Definition with_timeout (m : t) (handle : option positive) : t :=
  {| gameState := gameState m; autoSpinActive := autoSpinActive m;
     autoSpinTimeout := handle |}.

Definition with_active (m : t) (active : bool) : t :=
  {| gameState := gameState m; autoSpinActive := active;
     autoSpinTimeout := autoSpinTimeout m |}.

Definition with_gameState (m : t) (g : GameState.t) : t :=
  {| gameState := g; autoSpinActive := autoSpinActive m;
     autoSpinTimeout := autoSpinTimeout m |}.

Definition cancelAutoSpin (m : t) : Browser.Operation t :=
  fun b =>
    match autoSpinTimeout m with
    | Some handle => (with_timeout m None, Browser.clearTimeout handle b)
    | None => (m, b)
    end.

Definition scheduleAutoSpin (m : t) : Browser.Operation t :=
  fun b =>
    let '(m, b) := cancelAutoSpin m b in
    let '(handle, b) := Browser.setTimeout Browser.autoSpinCallback b in
    (with_timeout m (Some handle), b).

(** The function [scheduleAutoSpin] gives to [setTimeout], when the timer
    fires: what it emits.  When the call of [canAffordSpin] throws, the
    callback ends there. *)
Definition autoSpinCallback (m : t) : list Emitted :=
  if autoSpinActive m then
    match GameState.call_canAffordSpin (gameState m) with
    | JS.Return true => [SPIN_STARTED]
    | JS.Return false => []
    | JS.Throw _ => []
    end
  else [].

(** The listener of the event [auto_spin_toggled]. *)
Definition onAutoSpinToggled (active : bool) (m : t) : Browser.Operation t :=
  fun b =>
    let m := with_active m active in
    if autoSpinActive m then scheduleAutoSpin m b else cancelAutoSpin m b.

(** [handleGameError] (its message on the screen is left out). *)
Definition handleGameError (m : t) : Browser.Operation t :=
  fun b =>
    let '(m, b) := cancelAutoSpin m b in
    (with_active m false, b).

(** The last statement of [handleSpinRequest], under its [try]: an error
    goes to the [ERROR] event, whose listener calls [handleGameError]. *)
Definition endOfSpinRequest (m : t) : Browser.Operation (t * list Emitted) :=
  fun b =>
    if autoSpinActive m then
      match GameState.call_canAffordSpin (gameState m) with
      | JS.Return true => let '(m, b) := scheduleAutoSpin m b in ((m, []), b)
      | JS.Return false => ((m, []), b)
      | JS.Throw _ => let '(m, b) := handleGameError m b in ((m, [ERROR]), b)
      end
    else ((m, []), b).

(** [resetGame()], up to the reset of the game state. *)
Definition resetGame (m : t) : Browser.Operation t :=
  fun b =>
    let '(m, b) := cancelAutoSpin m b in
    let m := with_active m false in
    (with_gameState m (GameState.reset (gameState m)), b).

(** What happens to the orchestrator, one event at a time. *)
Inductive Input :=
| auto_spin_toggled (active : bool)
| timerFires (handle : positive)
| spinRequestEnds
| gameError
| gameReset
| applicationReset
| gameStateChanges (g : GameState.t)
| otherTimeout (label : string).

(** One event: the orchestrator and the browser afterwards, and what the
    orchestrator emitted.  A timer that fires is no longer pending.
    [applicationReset] is [resetGame] of the application object, which
    assigns [autoSpinActive = false]; [gameStateChanges] stands for the
    spins and purchases, which change the game state only;
    [otherTimeout] is a [setTimeout] of the rest of the page. *)
Definition step (state : t * Browser.t) (input : Input)
  : (t * Browser.t) * list Emitted :=
  let '(m, b) := state in
  match input with
  | auto_spin_toggled active => (onAutoSpinToggled active m b, [])
  | timerFires handle =>
      match Browser.timers b !! handle with
      | Some Browser.autoSpinCallback =>
          ((m, Browser.clearTimeout handle b), autoSpinCallback m)
      | Some (Browser.otherCallback _) =>
          ((m, Browser.clearTimeout handle b), [])
      | None => ((m, b), [])
      end
  | spinRequestEnds =>
      let '((m, emitted), b) := endOfSpinRequest m b in ((m, b), emitted)
  | gameError => (handleGameError m b, [])
  | gameReset => (resetGame m b, [])
  | applicationReset => ((with_active m false, b), [])
  | gameStateChanges g => ((with_gameState m g, b), [])
  | otherTimeout label =>
      ((m, snd (Browser.setTimeout (Browser.otherCallback label) b)), [])
  end.

(** A run: the state after the inputs, and everything emitted on the way. *)
Fixpoint run (state : t * Browser.t) (inputs : list Input)
  : (t * Browser.t) * list Emitted :=
  match inputs with
  | [] => (state, [])
  | input :: rest =>
      let '(state', emitted) := step state input in
      let '(final, emitted') := run state' rest in
      (final, (emitted ++ emitted')%list)
  end.

(** No auto-spin timer is pending. *)
Definition noAutoSpinPending (b : Browser.t) : Prop :=
  forall handle : positive,
    Browser.timers b !! handle <> Some Browser.autoSpinCallback.

(** The pending auto-spin timer, if any, is the one [autoSpinTimeout]
    records, and the handles in use are below the next handle. *)
Definition invariant (state : t * Browser.t) : Prop :=
  (forall handle : positive,
     Browser.timers (snd state) !! handle = Some Browser.autoSpinCallback ->
     autoSpinTimeout (fst state) = Some handle)
  /\ (forall handle : positive,
        is_Some (Browser.timers (snd state) !! handle) ->
        (handle < Browser.nextTimer (snd state))%positive).

(** The input turns auto spin on. *)
Definition turnsOn (input : Input) : bool :=
  match input with
  | auto_spin_toggled true => true
  | _ => false
  end.

(** ** A spin request *)

Local Open Scope Q_scope.

(** [setLuckMeter(value)] and [triggerJackpot()] of the public interface,
    as calls on the game state. *)
Definition setLuckMeter (value : JS.number) : GameState.Method.M unit :=
  GameState.Method.assign
    (fun g => GameState.with_luckMeter g
                (JS.max 0 (JS.min (GameState.getMaxLuck g) value)));;
  GameState.stateChanged.

Definition triggerJackpot : GameState.Method.M unit :=
  GameState.Method.assign
    (fun g => GameState.with_luckMeter g (GameState.getMaxLuck g));;
  GameState.stateChanged.

(** What the spin flow hands to the dispatcher: the events of the game
    state, and those of the orchestrator with the properties of their data
    object.  The message of [WIN] is kept by its parts: the name of the
    payout, the combo count when the message names it, and whether it ends
    with the lucky mark; the details of [JACKPOT_WIN] are a text around its
    amount.  [afterwards] is what the last statement of [handleSpinRequest]
    emits. *)
Inductive SpinEvent :=
| fromGameState (e : GameState.Event)
| SPIN_RESULT (spinData : GameEngine.SpinData)
| WIN (symbol : option string) (payout : JS.number) (name : string)
      (combo : option JS.number) (lucky : bool) (comboMultiplier : JS.number)
| JACKPOT_WIN (title : string) (amount : JS.number) (isLuckJackpot : bool)
| LOSS
| ERROR_with (error : JS.Exception)
| afterwards (e : Emitted).

Module Flow.

(** A part of the spin flow, run on the game state: the game state after
    it, the events handed to the dispatcher in order, and how it completes.
    The calls to the audio manager, the effects manager, the paytable and
    the message line are left out: they neither read nor write the game
    state, and they return. *)
Definition M (A : Type) : Type :=
  GameState.t -> GameState.t * list SpinEvent * JS.completion A.

Definition ret {A : Type} (a : A) : M A := fun g => (g, [], JS.Return a).

Definition bind {A B : Type} (m : M A) (k : A -> M B) : M B :=
  fun g =>
    let '(g1, events1, c) := m g in
    match c with
    | JS.Throw e => (g1, events1, JS.Throw e)
    | JS.Return a =>
        let '(g2, events2, c2) := k a g1 in
        (g2, (events1 ++ events2)%list, c2)
    end.

(** [this.gameState] as it is now. *)
Definition gameState : M GameState.t := fun g => (g, [], JS.Return g).

(** A call of a method of the game state. *)
Definition call {A : Type} (m : GameState.Method.M A) : M A :=
  fun g => let '(g1, events, c) := m g in (g1, map fromGameState events, c).

(** [this.eventDispatcher.emit(...)] *)
Definition emit (e : SpinEvent) : M unit := fun g => (g, [e], JS.Return tt).

Definition throw {A : Type} (e : JS.Exception) : M A :=
  fun g => (g, [], JS.Throw e).

End Flow.

#[global] Instance flow_bind : MBind Flow.M := fun A B k m => Flow.bind m k.

Definition handleLoss : Flow.M unit :=
  Flow.call GameState.recordLoss;;
  Flow.call GameState.resetCombo;;
  Flow.call GameState.increaseLuck;;
  Flow.emit LOSS.

(** [handleRegularWin(result, payout)]: reading [name] of a missing payout
    is a [TypeError]. *)
Definition handleRegularWin (result : GameEngine.SpinResult) (payout : JS.number)
  : Flow.M unit :=
  match GameEngine.payout result with
  | None => Flow.throw JS.TypeError
  | Some p =>
      g ← Flow.gameState;
      let combo :=
        if JS.gt (GameState.comboCount g) 1
        then Some (GameState.comboCount g) else None in
      let lucky := JS.gt (GameState.luckMeter g) 50 in
      Flow.emit (WIN (GameEngine.winSymbol result) payout (SLOT_CONFIG.name p)
                     combo lucky (GameState.comboMultiplier g))
  end.

Definition handleJackpotWin (result : GameEngine.SpinResult)
  (jackpotAmount : JS.number) : Flow.M unit :=
  let isLuckJackpot := String.eqb (GameEngine.type result) "luck_jackpot" in
  if isLuckJackpot
  then Flow.emit (JACKPOT_WIN "LUCK JACKPOT!" jackpotAmount true)
  else
    match GameEngine.payout result with
    | None => Flow.throw JS.TypeError
    | Some p => Flow.emit (JACKPOT_WIN (SLOT_CONFIG.name p) jackpotAmount false)
    end.

(** [handleWin(result, payout)]: [result.payout.isJackpot] is read after the
    win and the combo are recorded. *)
Definition handleWin (result : GameEngine.SpinResult) (payout : JS.number)
  : Flow.M unit :=
  Flow.call (GameState.recordWin payout);;
  Flow.call GameState.incrementCombo;;
  match GameEngine.payout result with
  | None => Flow.throw JS.TypeError
  | Some p =>
      let jackpot :=
        SLOT_CONFIG.isJackpot p
        || String.eqb (GameEngine.type result) "luck_jackpot" in
      (if jackpot then
         jackpotWon ← Flow.call GameState.winJackpot;
         handleJackpotWin result jackpotWon
       else
         Flow.call (GameState.addCredits payout);;
         handleRegularWin result payout);;
      (if jackpot then Flow.call GameState.resetLuck
       else Flow.call GameState.decreaseLuck)
  end.

(** [processSpinResult(spinData)] once the wait for the reels is over. *)
Definition processSpinResult (spinData : GameEngine.SpinData) : Flow.M unit :=
  let result := GameEngine.result spinData in
  let payout := GameEngine.payout_amount spinData in
  if String.eqb (GameEngine.type result) "loss" then handleLoss
  else handleWin result payout.

(** Where a spin request stands when it stops running: it did not start,
    it waits for the reels with the data of the spin, it is over, or it
    ended in the [catch] with an error. *)
Inductive Request :=
| notStarted
| awaitingReels (spinData : GameEngine.SpinData)
| completed
| failed (error : JS.Exception).

(** The orchestrator and the engine after a part of a spin request, what
    was emitted, and where the request stands. *)
Record Spin := {
  machine : t;
  engine : GameEngine.t;
  emitted : list SpinEvent;
  request : Request
}.

(** The [catch] of [handleSpinRequest]: the [ERROR] event, whose listener
    calls [handleGameError]. *)
Definition caught (m : t) (engine : GameEngine.t) (events : list SpinEvent)
  (error : JS.Exception) : Browser.Operation Spin :=
  fun b =>
    let '(m', b') := handleGameError m b in
    ({| machine := m'; engine := engine;
        emitted := (events ++ [ERROR_with error])%list;
        request := failed error |}, b').

(** The statements of [handleSpinRequest] between the validation and the
    call of the engine. *)
Definition chargeSpin : Flow.M unit :=
  Flow.call GameState.recordSpin;;
  g ← Flow.gameState;
  let spinCost := GameEngine.getSpinCost g in
  Flow.call (GameState.spendCredits spinCost);;
  Flow.call (GameState.addToJackpot
               (JS.floor (spinCost * SLOT_CONFIG.JACKPOT_CONTRIBUTION))).

(** [handleSpinRequest()] from the call to the wait for the reels.  The
    promise of [processSpin] is settled when it is awaited, so nothing else
    runs before the request goes on to emit [SPIN_RESULT] and to wait. *)
Definition handleSpinRequest (m : t) (engine : GameEngine.t)
  : Random.M (Browser.Operation Spin) :=
  if negb (GameEngine.canSpin engine (gameState m)) then
    Random.ret (Browser.pure {| machine := m; engine := engine;
                                emitted := []; request := notStarted |})
  else
    let '(g1, events1, charged) := chargeSpin (gameState m) in
    let m1 := with_gameState m g1 in
    match charged with
    | JS.Throw e => Random.ret (caught m1 engine events1 e)
    | JS.Return _ =>
        let* settled := GameEngine.processSpin engine g1 in
        match fst settled with
        | JS.Throw e => Random.ret (caught m1 (snd settled) events1 e)
        | JS.Return spinData =>
            Random.ret
              (Browser.pure
                 {| machine := m1; engine := snd settled;
                    emitted := (events1 ++ [SPIN_RESULT spinData])%list;
                    request := awaitingReels spinData |})
        end
    end.

(** The rest of [handleSpinRequest()] once the reels have stopped:
    [processSpinResult] goes on, then the next auto spin is scheduled.  The
    last statement emits [ERROR] only from the [catch], and what it can
    throw is the [TypeError] of calling a [canAffordSpin] that is no
    function. *)
Definition reelsStopped (m : t) (engine : GameEngine.t)
  (spinData : GameEngine.SpinData) : Browser.Operation Spin :=
  fun b =>
    let '(g1, events1, processed) := processSpinResult spinData (gameState m) in
    let m1 := with_gameState m g1 in
    match processed with
    | JS.Throw e => caught m1 engine events1 e b
    | JS.Return _ =>
        let '((m2, events2), b2) := endOfSpinRequest m1 b in
        ({| machine := m2; engine := engine;
            emitted := (events1 ++ map afterwards events2)%list;
            request := match events2 with
                       | [] => completed
                       | _ :: _ => failed JS.TypeError
                       end |}, b2)
    end.

End EnhancedSlotMachine.

(** ** The upgrade panel ([UpgradeManager]) *)

Module UpgradeManager.

Local Open Scope Q_scope.

(** What a row of the panel shows of an upgrade: the [data-type] of its
    button, the level, the cost [getUpgradeCost] returned ([None] for
    [null]), for a symbol the two payouts of "Payout: current → next",
    whether the button carries [disabled], and the cost on the button
    ([None] when it reads "MAX").  The rest of the markup is left out. *)
Record Row := {
  type : string;
  currentLevel : option Z;
  upgradeCost : option JS.number;
  payouts : option (JS.number * JS.number);
  disabled : bool;
  buttonCost : option JS.number
}.

(** The cost as a condition: [null] and [0] are falsy. *)
Definition truthy (cost : option JS.number) : bool :=
  match cost with
  | Some c => negb (JS.eq c 0)
  | None => false
  end.

(** [!upgradeCost || this.gameState.credits < upgradeCost] *)
Definition isDisabled (g : GameState.t) (upgradeCost : option JS.number) : bool :=
  negb (truthy upgradeCost)
  || match upgradeCost with
     | Some c => JS.lt (GameState.credits g) c
     | None => false
     end.

(** [upgradeCost ? `${upgradeCost} credits` : "MAX"] *)
Definition buttonText (upgradeCost : option JS.number) : option JS.number :=
  if truthy upgradeCost then upgradeCost else None.

(** The row [renderSymbolUpgrades] builds for an entry of
    [SYMBOL_UPGRADES]. *)
Definition symbolRow (g : GameState.t) (symbol : string)
  (config : SLOT_CONFIG.SymbolUpgrade) : JS.completion Row :=
  let currentLevel := GameState.symbolLevel (GameState.upgrades g) symbol in
  match GameState.getUpgradeCost g "symbols" symbol with
  | JS.Throw e => JS.Throw e
  | JS.Return upgradeCost =>
      match GameState.getUpgradedPayout g symbol with
      | None => JS.Throw JS.TypeError
      | Some currentPayout =>
          let below :=
            match currentLevel with
            | Some l => (l <? SLOT_CONFIG.maxLevel config)%Z
            | None => false
            end in
          let nextPayout :=
            if below then
              match JS.get SLOT_CONFIG.PAYOUTS symbol, currentLevel with
              | Some p, Some l =>
                  Some (JS.floor (SLOT_CONFIG.basePayout p
                                  * JS.pow (SLOT_CONFIG.payoutMultiplier config)
                                           (l + 1)))
              | _, _ => None
              end
            else Some currentPayout in
          match nextPayout with
          | None => JS.Throw JS.TypeError
          | Some nextPayout =>
              JS.Return {| type := symbol;
                           currentLevel := currentLevel;
                           upgradeCost := upgradeCost;
                           payouts := Some (currentPayout, nextPayout);
                           disabled := isDisabled g upgradeCost;
                           buttonCost := buttonText upgradeCost |}
          end
      end
  end.

(** The row [renderLuckUpgrades] and [renderMultiplierUpgrades] build for
    an entry of their table. *)
Definition upgradeRow (g : GameState.t) (category type : string)
  : JS.completion Row :=
  match GameState.level (GameState.upgrades g) category type with
  | JS.Throw e => JS.Throw e
  | JS.Return currentLevel =>
      match GameState.getUpgradeCost g category type with
      | JS.Throw e => JS.Throw e
      | JS.Return upgradeCost =>
          JS.Return {| type := type;
                       currentLevel := currentLevel;
                       upgradeCost := upgradeCost;
                       payouts := None;
                       disabled := isDisabled g upgradeCost;
                       buttonCost := buttonText upgradeCost |}
      end
  end.

(** [Object.entries(table).forEach(...)]: the rows appended to the panel,
    up to the first entry whose row throws. *)
Fixpoint renderRows {Config : Type}
  (row : string -> Config -> JS.completion Row)
  (entries : list (string * Config)) : list Row * JS.completion unit :=
  match entries with
  | [] => ([], JS.Return tt)
  | (key, config) :: rest =>
      match row key config with
      | JS.Throw e => ([], JS.Throw e)
      | JS.Return r =>
          let '(rows, c) := renderRows row rest in (r :: rows, c)
      end
  end.

(** [renderUpgrades(category)], in a document that has the element
    [upgrade-content]: the rows of the panel afterwards. *)
Definition renderUpgrades (category : string) (g : GameState.t)
  : list Row * JS.completion unit :=
  if String.eqb category "symbols" then
    renderRows (symbolRow g) SLOT_CONFIG.SYMBOL_UPGRADES
  else if String.eqb category "luck" then
    renderRows (fun type _ => upgradeRow g "luck" type)
      SLOT_CONFIG.UPGRADE_SYSTEM.LUCK_UPGRADES
  else if String.eqb category "multiplier" then
    renderRows (fun type _ => upgradeRow g "multiplier" type)
      SLOT_CONFIG.UPGRADE_SYSTEM.MULTIPLIER_UPGRADES
  else ([], JS.Return tt).

(** [purchaseUpgrade(category, type)], the listener of a button: the game
    state afterwards, what the game state emitted, and whether [PLAY_SOUND]
    was emitted; an error of the game state ends in the [catch]. *)
Definition purchaseUpgrade (category type : string) (g : GameState.t)
  : GameState.t * list GameState.Event * bool :=
  let '(g', events, c) := GameState.purchaseUpgrade category type g in
  (g', events, match c with JS.Return _ => true | JS.Throw _ => false end).

(** A row tells what its button does.  The row is that of an upgrade of the
    configuration and shows its level; the button reads "MAX" exactly at
    the last level; the first payout shown is the payout of the symbol now,
    and at the last level the second is the same.  A click on a button that
    carries [disabled], were it to run the listener, changes and emits
    nothing.  A click on a button without it buys the upgrade: [PLAY_SOUND]
    is emitted, the credits go down by the cost on the button, the level
    goes up by one, and the payout of the symbol becomes the second payout
    shown. *)
Definition accurate (g : GameState.t) (category : string) (r : Row) : Prop :=
  exists (config : GameState.UpgradeConfig) (current : Z),
    GameState.upgradeConfig category (type r) = Some config
    /\ currentLevel r = Some current
    /\ (buttonCost r = None <-> current = GameState.config_maxLevel config)
    /\ (forall shown : JS.number * JS.number,
          payouts r = Some shown ->
          GameState.getUpgradedPayout g (type r) = Some (fst shown)
          /\ (current = GameState.config_maxLevel config ->
              snd shown = fst shown))
    /\ let '(g', events, sound) := purchaseUpgrade category (type r) g in
       if disabled r then g' = g /\ events = [] /\ sound = false
       else
         exists cost : JS.number,
           buttonCost r = Some cost
           /\ sound = true
           /\ GameState.credits g' = GameState.credits g - cost
           /\ GameState.level (GameState.upgrades g') category (type r)
              = JS.Return (Some (current + 1)%Z)
           /\ forall shown : JS.number * JS.number,
                payouts r = Some shown ->
                GameState.getUpgradedPayout g' (type r) = Some (snd shown).

End UpgradeManager.

(** ** The paytable ([PaytableManager] of the orchestrator) *)

Module Paytable.

Local Open Scope Q_scope.

(** A row of the paytable: its symbol, the [data-base-payout] of its payout
    cell, and the number that cell shows. *)
Record Row := {
  symbol : string;
  basePayout : JS.number;
  text : JS.number
}.

(** [createPaytableRow(symbol, name, payout, upgradedPayout)]; an upgraded
    payout of [0] is falsy. *)
Definition createPaytableRow (symbol : string) (payout : SLOT_CONFIG.Payout)
  (upgradedPayout : JS.number) : Row :=
  let displayPayout :=
    if JS.eq upgradedPayout 0 then SLOT_CONFIG.basePayout payout
    else upgradedPayout in
  {| symbol := symbol; basePayout := displayPayout; text := displayPayout |}.

(** The loop of [createPaytableRows] over [PAYTABLE_SYMBOLS], in a document
    that has the grid: the rows built, or the [TypeError] of
    [getUpgradedPayout] for a symbol without payout. *)
Fixpoint createRows (g : GameState.t) (entries : list (string * string))
  : JS.completion (list Row) :=
  match entries with
  | [] => JS.Return []
  | (symbol, _) :: rest =>
      match JS.get SLOT_CONFIG.PAYOUTS symbol,
            GameState.getUpgradedPayout g symbol with
      | Some payout, Some upgradedPayout =>
          match createRows g rest with
          | JS.Throw e => JS.Throw e
          | JS.Return rows =>
              JS.Return (createPaytableRow symbol payout upgradedPayout :: rows)
          end
      | _, _ => JS.Throw JS.TypeError
      end
  end.

(** [initializePaytable()]: the rows are built anew. *)
Definition initializePaytable (g : GameState.t) : JS.completion (list Row) :=
  createRows g SLOT_CONFIG.PAYTABLE_SYMBOLS.

(** [updateMultipliers()], the listener of [state_changed] and of
    [upgrade_purchased], on the payout cells.  [parseInt] of the attribute
    is the integer part of the number written there (the payouts are not
    negative and far below the numbers written with an exponent). *)
Definition updateMultipliers (g : GameState.t) (rows : list Row) : list Row :=
  map (fun row =>
         {| symbol := symbol row;
            basePayout := basePayout row;
            text := JS.floor (basePayout row) * GameState.multiplier g |})
      rows.

(** The number the paytable shows for a symbol. *)
Definition shownFor (s : string) (rows : list Row) : option JS.number :=
  match List.find (fun row => String.eqb (symbol row) s) rows with
  | Some row => Some (text row)
  | None => None
  end.

End Paytable.

(** ** The event dispatcher ([EventDispatcher]) *)

Module EventDispatcher.

(** A function given to [on]: [plain id] is a function of the caller, which
    does not use the dispatcher, known by [id]; [onceWrapper event token
    inner] is the arrow function [once(event, inner)] builds, which calls
    [inner] and then its own [unsubscribe].  Two functions are the same
    object exactly when they are equal here: [token] tells the closures of
    different calls of [once] apart. *)
Inductive Callback :=
| plain (id : nat)
| onceWrapper (event : string) (token : nat) (inner : Callback).

#[global] Instance Callback_eq_dec : EqDecision Callback.
Proof. solve_decision. Defined.

(** [this.listeners], an object literal from event names to arrays: its
    own properties in the order of their creation; and the count of the
    closures [once] has built. *)
Record t := {
  listeners : list (string * list Callback);
  nextToken : nat
}.

(** [new EventDispatcher()] *)
Definition create : t := {| listeners := []; nextToken := 0 |}.

(** The properties that the object [this.listeners] inherits from
    [Object.prototype], each with the [length] of its value: the number of
    parameters of a function, and [None] ([undefined]) for [__proto__],
    whose value is [Object.prototype] itself.  Every one of these values is
    truthy, none is an array, none is iterable. *)
Definition prototypeProperties : list (string * option nat) :=
  [("constructor", Some 1); ("__defineGetter__", Some 2);
   ("__defineSetter__", Some 2); ("hasOwnProperty", Some 1);
   ("__lookupGetter__", Some 1); ("__lookupSetter__", Some 1);
   ("isPrototypeOf", Some 1); ("propertyIsEnumerable", Some 1);
   ("toString", Some 0); ("valueOf", Some 0); ("__proto__", None);
   ("toLocaleString", Some 0)]%nat.

(** [name] is a property that [this.listeners] inherits. *)
Definition inherited (name : string) : bool :=
  match JS.get prototypeProperties name with
  | Some _ => true
  | None => false
  end.

(** [obj[key] = value] *)
Fixpoint set {V : Type} (obj : list (string * V)) (key : string) (value : V)
  : list (string * V) :=
  match obj with
  | [] => [(key, value)]
  | (k, v) :: rest =>
      if String.eqb k key then (k, value) :: rest
      else (k, v) :: set rest key value
  end.

(** [delete obj[key]] *)
Fixpoint remove {V : Type} (obj : list (string * V)) (key : string)
  : list (string * V) :=
  match obj with
  | [] => []
  | (k, v) :: rest =>
      if String.eqb k key then rest else (k, v) :: remove rest key
  end.

(** The array [this.listeners[event]] of an event that has one, and [] for
    an event without own property. *)
Definition listenersOf (d : t) (event : string) : list Callback :=
  default [] (JS.get (listeners d) event).

(** [on(event, callback)]; the function it returns is
    [() => this.off(event, callback)].  For an event without own property
    whose name is inherited, [this.listeners[event]] is truthy, no array is
    assigned, and [push] is [undefined]: the call throws a [TypeError]. *)
Definition on (event : string) (callback : Callback) (d : t)
  : JS.completion t :=
  match JS.get (listeners d) event with
  | Some array =>
      JS.Return {| listeners := set (listeners d) event (array ++ [callback])%list;
                   nextToken := nextToken d |}
  | None =>
      if inherited event then JS.Throw JS.TypeError
      else JS.Return {| listeners := set (listeners d) event [callback];
                        nextToken := nextToken d |}
  end.

(** [array.splice(array.indexOf(callback), 1)] when the index is not -1. *)
Fixpoint removeFirst (callback : Callback) (array : list Callback)
  : list Callback :=
  match array with
  | [] => []
  | c :: rest =>
      if decide (c = callback) then rest else c :: removeFirst callback rest
  end.

(** [off(event, callback)]; for an inherited name without own property,
    [indexOf] is [undefined] and the call throws a [TypeError]. *)
Definition off (event : string) (callback : Callback) (d : t)
  : JS.completion t :=
  match JS.get (listeners d) event with
  | None => if inherited event then JS.Throw JS.TypeError else JS.Return d
  | Some array =>
      JS.Return {| listeners := set (listeners d) event (removeFirst callback array);
                   nextToken := nextToken d |}
  end.

(** [once(event, callback)]; the function it returns unsubscribes the
    wrapper. *)
Definition once (event : string) (callback : Callback) (d : t)
  : JS.completion t :=
  on event (onceWrapper event (nextToken d) callback)
     {| listeners := listeners d; nextToken := S (nextToken d) |}.

(** [removeAllListeners(event)]: [None] is a call without argument; the
    empty string is falsy as well. *)
Definition removeAllListeners (event : option string) (d : t) : t :=
  match event with
  | Some e =>
      if String.eqb e "" then {| listeners := []; nextToken := nextToken d |}
      else {| listeners := remove (listeners d) e; nextToken := nextToken d |}
  | None => {| listeners := []; nextToken := nextToken d |}
  end.

(** [getListenerCount(event)]; [None] is [undefined], the [length] of
    [Object.prototype]. *)
Definition getListenerCount (d : t) (event : string) : option nat :=
  match JS.get (listeners d) event with
  | Some array => Some (length array)
  | None =>
      match JS.get prototypeProperties event with
      | Some length => length
      | None => Some 0%nat
      end
  end.

(** A property name that is an array index: the decimal numeral, without
    leading zero, of an integer from 0 to [2^32 - 2]. *)
Fixpoint numeral (s : string) (value : N) : option N :=
  match s with
  | EmptyString => Some value
  | String c rest =>
      let code := N_of_ascii c in
      if (48 <=? code)%N && (code <=? 57)%N
      then numeral rest (10 * value + (code - 48))%N
      else None
  end.

Definition arrayIndex (name : string) : option N :=
  match name with
  | EmptyString => None
  | String c rest =>
      if (N_of_ascii c =? 48)%N
      then match rest with EmptyString => Some 0%N | String _ _ => None end
      else
        match numeral name 0 with
        | Some n => if (n <=? 4294967294)%N then Some n else None
        | None => None
        end
  end.

(** The place of an array index among the indices in ascending order. *)
Fixpoint insertIndex (n : N) (name : string) (sorted : list (N * string))
  : list (N * string) :=
  match sorted with
  | [] => [(n, name)]
  | (n', name') :: rest =>
      if (n <? n')%N then (n, name) :: sorted
      else (n', name') :: insertIndex n name rest
  end.

(** [Object.keys(obj)]: the array indices in ascending order, then the
    other names in the order of their creation. *)
Definition keys {V : Type} (obj : list (string * V)) : list string :=
  let names := map fst obj in
  let indices :=
    fold_left (fun sorted name =>
                 match arrayIndex name with
                 | Some n => insertIndex n name sorted
                 | None => sorted
                 end) names [] in
  (map snd indices
   ++ List.filter (fun name => match arrayIndex name with
                               | Some _ => false
                               | None => true
                               end) names)%list.

Definition getEvents (d : t) : list string := keys (listeners d).

Section Emission.

(** What the functions of the callers do with the data of an event, on
    whatever they act on, and how they complete. *)
Context {Data World : Type}.
Variable behaviour : nat -> Data -> World -> World * JS.completion unit.

(** The call [callback(data)]: the dispatcher and the world after it, and
    how it completes.  The wrapper of [once] unsubscribes itself only when
    the function it wraps has returned. *)
Fixpoint call (callback : Callback) (data : Data) (state : t * World)
  : (t * World) * JS.completion unit :=
  match callback with
  | plain id =>
      let '(w, c) := behaviour id data (snd state) in ((fst state, w), c)
  | onceWrapper event token inner =>
      let '(state', c) := call inner data state in
      match c with
      | JS.Throw e => (state', JS.Throw e)
      | JS.Return _ =>
          match off event callback (fst state') with
          | JS.Throw e => (state', JS.Throw e)
          | JS.Return d => ((d, snd state'), JS.Return tt)
          end
      end
  end.

(** [emit(event, data)]: every function of a copy of the array is called,
    under a [try] whose [catch] only logs.  For an inherited name without
    own property the spread of a value that is not iterable throws a
    [TypeError]. *)
Definition emit (event : string) (data : Data) (state : t * World)
  : JS.completion (t * World) :=
  match JS.get (listeners (fst state)) event with
  | None => if inherited event then JS.Throw JS.TypeError else JS.Return state
  | Some array =>
      JS.Return (fold_left (fun state callback => fst (call callback data state))
                           array state)
  end.

(** The functions with the given ids called in turn, each under a [try]
    whose [catch] only logs. *)
Definition runAll (ids : list nat) (data : Data) (w : World) : World :=
  fold_left (fun w id => fst (behaviour id data w)) ids w.

End Emission.

End EventDispatcher.

(** ** The auto-spin button and the orchestrator *)

Module Application.

(** The UI manager and the orchestrator; they share the event dispatcher. *)
Record t := {
  ui : UIManager.t;
  machine : EnhancedSlotMachine.t
}.

(** What the listeners of the orchestrator do with an event of the UI
    manager: [auto_spin_toggled] goes to the auto-spin control;
    [render_upgrades] goes to the upgrade panel and leaves the orchestrator
    and the timers as they are. *)
Definition deliver (e : UIManager.Emitted) (m : EnhancedSlotMachine.t)
  : Browser.Operation EnhancedSlotMachine.t :=
  match e with
  | UIManager.auto_spin_toggled active =>
      EnhancedSlotMachine.onAutoSpinToggled active m
  | UIManager.render_upgrades _ => Browser.pure m
  end.

Definition deliverAll (events : list UIManager.Emitted)
  (m : EnhancedSlotMachine.t) : Browser.Operation EnhancedSlotMachine.t :=
  fun b => fold_left (fun state e => deliver e (fst state) (snd state))
                     events (m, b).

(** A click on the auto-spin button: [toggleAutoSpin()], and the listener
    of the event it emits. *)
Definition clickAutoSpin (a : t) : Browser.Operation t :=
  fun b =>
    let '((ui', events), b) := UIManager.toggleAutoSpin (ui a) b in
    let '(m, b) := deliverAll events (machine a) b in
    ({| ui := ui'; machine := m |}, b).

(** The [ERROR] event, whose listener calls [handleGameError]. *)
Definition gameError (a : t) : Browser.Operation t :=
  fun b =>
    let '(m, b) := EnhancedSlotMachine.handleGameError (machine a) b in
    ({| ui := ui a; machine := m |}, b).

(** [resetGame()] of the orchestrator. *)
Definition resetGame (a : t) : Browser.Operation t :=
  fun b =>
    let '(m, b) := EnhancedSlotMachine.resetGame (machine a) b in
    ({| ui := ui a; machine := m |}, b).

End Application.

(** ** A fragment of JavaScript, evaluated in the browser *)

(** Syntax and evaluation of the statements and expressions that the
    methods of [Source] below are written in.  The evaluator threads the
    browser through every expression, and the functions of the browser are
    among the globals: whether a method reads or writes the browser is a
    property of its text. *)
Module Script.

(** A JavaScript value.  An object is given by its class and its own
    properties, in the order of their creation; the class of an object
    literal is [Object].  An object has no identity, so the fragment below
    has no assignment to the property of an object other than [this].
    [Builtin] is a function of the engine or of the browser, by its name. *)
Inductive value :=
| Undefined
| Null
| Boolean (b : bool)
| Number (n : JS.number)
| Text (s : string)
| Array (items : list value)
| Object (class : string) (properties : list (string * value))
| Builtin (name : string).

Inductive binop :=
| StrictEq | StrictNotEq | Less | LessEq | Greater | GreaterEq
| Add | Sub | Mul | Div.

(** Expressions: literals, identifiers, [this], [e.name], [e[key]],
    calls, binary operators, [!e], [a || b], [a && b], [c ? a : b]. *)
Inductive expr :=
| Literal (v : value)
| Ident (x : string)
| This
| Member (e : expr) (name : string)
| Index (e key : expr)
| Call (callee : expr) (arguments : list expr)
| Binary (op : binop) (a b : expr)
| Not (e : expr)
| Or (a b : expr)
| And (a b : expr)
| Conditional (c a b : expr).

(** Statements: [const x = e;], [if (c) {...} else {...}], [return e;],
    [e;] and [this.name = e;]. *)
Inductive stmt :=
| Const (x : string) (e : expr)
| If (c : expr) (consequent alternative : list stmt)
| Return (e : expr)
| Expression (e : expr)
| AssignThis (name : string) (e : expr).

(** A method: its parameters and its body.  A class is the list of its
    methods. *)
Record method := {
  parameters : list string;
  body : list stmt
}.

(** How an evaluation ends: with a value, with an exception, or at
    something the fragment does not cover. *)
Inductive outcome (A : Type) :=
| Done (a : A)
| Thrown (e : JS.Exception)
| Unsupported.

Arguments Done {A} a.
Arguments Thrown {A} e.
Arguments Unsupported {A}.

(** A value as a condition. *)
Definition truthy (v : value) : bool :=
  match v with
  | Undefined | Null => false
  | Boolean b => b
  | Number n => negb (JS.eq n 0%Q)
  | Text s => negb (String.eqb s "")
  | Array _ | Object _ _ | Builtin _ => true
  end.

(** [a === b], for values of which one at least is no object: objects are
    compared by identity, which the values do not have. *)
Definition strictEquals (a b : value) : option bool :=
  match a, b with
  | Undefined, Undefined | Null, Null => Some true
  | Boolean x, Boolean y => Some (Bool.eqb x y)
  | Number x, Number y => Some (JS.eq x y)
  | Text x, Text y => Some (String.eqb x y)
  | (Array _ | Object _ _ | Builtin _), (Array _ | Object _ _ | Builtin _) =>
      None
  | _, _ => Some false
  end.

(** A binary operator on two values; the arithmetic and the comparisons are
    those of numbers. *)
Definition binary (op : binop) (a b : value) : outcome value :=
  match op with
  | StrictEq =>
      match strictEquals a b with
      | Some result => Done (Boolean result)
      | None => Unsupported
      end
  | StrictNotEq =>
      match strictEquals a b with
      | Some result => Done (Boolean (negb result))
      | None => Unsupported
      end
  | _ =>
      match a, b with
      | Number x, Number y =>
          match op with
          | Less => Done (Boolean (JS.lt x y))
          | LessEq => Done (Boolean (JS.le x y))
          | Greater => Done (Boolean (JS.gt x y))
          | GreaterEq => Done (Boolean (JS.ge x y))
          | Add => Done (Number (x + y)%Q)
          | Sub => Done (Number (x - y)%Q)
          | Mul => Done (Number (x * y)%Q)
          | Div => if JS.eq y 0%Q then Unsupported else Done (Number (x / y)%Q)
          | StrictEq | StrictNotEq => Unsupported
          end
      | _, _ => Unsupported
      end
  end.

(** The property name a value in brackets stands for. *)
Definition propertyKey (v : value) : option string :=
  match v with
  | Text s => Some s
  | Undefined => Some "undefined"
  | Null => Some "null"
  | Boolean true => Some "true"
  | Boolean false => Some "false"
  | _ => None
  end.

(** A timer handle: a number that is a positive integer. *)
Definition timerHandle (v : value) : option positive :=
  match v with
  | Number n =>
      if JS.eq n (inject_Z (Qfloor n)) && (0 <? Qfloor n)%Z
      then Some (Z.to_pos (Qfloor n))
      else None
  | _ => None
  end.

(** What [document.getElementById] returns for an element: its
    [textContent] and the [display] of its [style]. *)
Definition element (e : Browser.Element) : value :=
  Object "HTMLElement"
    [("textContent", Text (Browser.textContent e));
     ("style", Object "CSSStyleDeclaration"
                 [("display", Text (Browser.display e))])].

(** The call of a function of the engine or of the browser:
    [Math.floor], [Math.pow] with an integer exponent, [Math.min],
    [Math.max], [clearTimeout] (which ignores what is no handle of a
    pending timer) and [document.getElementById]. *)
Definition callBuiltin (name : string) (arguments : list value) (b : Browser.t)
  : outcome value * Browser.t :=
  if String.eqb name "Math.floor" then
    match arguments with
    | [Number n] => (Done (Number (JS.floor n)), b)
    | _ => (Unsupported, b)
    end
  else if String.eqb name "Math.pow" then
    match arguments with
    | [Number base; Number exponent] =>
        if JS.eq exponent (inject_Z (Qfloor exponent))
        then (Done (Number (JS.pow base (Qfloor exponent))), b)
        else (Unsupported, b)
    | _ => (Unsupported, b)
    end
  else if String.eqb name "Math.min" then
    match arguments with
    | [Number x; Number y] => (Done (Number (JS.min x y)), b)
    | _ => (Unsupported, b)
    end
  else if String.eqb name "Math.max" then
    match arguments with
    | [Number x; Number y] => (Done (Number (JS.max x y)), b)
    | _ => (Unsupported, b)
    end
  else if String.eqb name "clearTimeout" then
    match arguments with
    | [v] =>
        match timerHandle v with
        | Some handle => (Done Undefined, Browser.clearTimeout handle b)
        | None => (Done Undefined, b)
        end
    | _ => (Unsupported, b)
    end
  else if String.eqb name "document.getElementById" then
    match arguments with
    | [Text id] =>
        match Browser.dom b !! id with
        | Some e => (Done (element e), b)
        | None => (Done Null, b)
        end
    | _ => (Unsupported, b)
    end
  else (Unsupported, b).

(** The global object: [Math], [document], [clearTimeout]; the program adds
    its constants. *)
Definition browserGlobals : list (string * value) :=
  [("Math", Object "Math"
              [("floor", Builtin "Math.floor"); ("pow", Builtin "Math.pow");
               ("min", Builtin "Math.min"); ("max", Builtin "Math.max")]);
   ("document", Object "HTMLDocument"
                  [("getElementById", Builtin "document.getElementById")]);
   ("clearTimeout", Builtin "clearTimeout")].

(** [obj[key] = value] on the own properties of an object. *)
Fixpoint set (properties : list (string * value)) (key : string) (v : value)
  : list (string * value) :=
  match properties with
  | [] => [(key, v)]
  | (k, old) :: rest =>
      if String.eqb k key then (k, v) :: rest
      else (k, old) :: set rest key v
  end.

(** The parameters bound to the arguments of a call; a parameter without
    argument is [undefined]. *)
Fixpoint bind (parameters : list string) (arguments : list value)
  : list (string * value) :=
  match parameters with
  | [] => []
  | x :: rest =>
      match arguments with
      | [] => (x, Undefined) :: bind rest []
      | v :: others => (x, v) :: bind rest others
      end
  end.

(** What a statement leaves: the receiver, the variables in scope, whether
    a property of the receiver has been assigned, and the browser. *)
Record State := {
  receiver : value;
  scope : list (string * value);
  assigned : bool;
  browser : Browser.t
}.

(** How a statement ends. *)
Inductive Signal :=
| Continue
| Returned (v : value)
| Failed (e : JS.Exception)
| Stuck.

Section Semantics.

(** The classes of the program, each with its methods, and the constants
    it declares. *)
Variable classes : list (string * list (string * method)).
Variable constants : list (string * value).

Definition lookupMethod (class name : string) : option method :=
  match JS.get classes class with
  | Some methods => JS.get methods name
  | None => None
  end.

(** A property that is no own property is [undefined] when the object is an
    object literal and [Object.prototype] has no property of that name.
    What else an object inherits (from [Object.prototype], or from a class
    of the program or of the browser, of which only a part is listed) is
    not covered. *)
Definition absent (class name : string) : bool :=
  String.eqb class "Object" && negb (EventDispatcher.inherited name).

(** [v.name] outside a call. *)
Definition getProperty (v : value) (name : string) : outcome value :=
  match v with
  | Undefined | Null => Thrown JS.TypeError
  | Object class properties =>
      match JS.get properties name with
      | Some found => Done found
      | None => if absent class name then Done Undefined else Unsupported
      end
  | _ => Unsupported
  end.

Section Body.

(** The call of a method of the program on a receiver. *)
Variable invoke :
  method -> value -> list value -> Browser.t -> outcome value * Browser.t.

(** The call [target.name(arguments)], the arguments evaluated: of an own
    property that is a function, or else of a method of the class.  A value
    that is no function is not callable. *)
Definition callProperty (target : value) (name : string)
  (arguments : list value) (b : Browser.t) : outcome value * Browser.t :=
  match target with
  | Object class properties =>
      match JS.get properties name with
      | Some (Builtin f) => callBuiltin f arguments b
      | Some _ => (Thrown JS.TypeError, b)
      | None =>
          match lookupMethod class name with
          | Some m => invoke m target arguments b
          | None =>
              if absent class name then (Thrown JS.TypeError, b)
              else (Unsupported, b)
          end
      end
  | _ => (Unsupported, b)
  end.

Fixpoint eval (this : value) (env : list (string * value)) (e : expr)
  (b : Browser.t) {struct e} : outcome value * Browser.t :=
  let evalAll :=
    fix evalAll (es : list expr) (b : Browser.t)
      : outcome (list value) * Browser.t :=
      match es with
      | [] => (Done [], b)
      | first :: rest =>
          match eval this env first b with
          | (Done v, b) =>
              match evalAll rest b with
              | (Done vs, b) => (Done (v :: vs), b)
              | (failed, b) => (failed, b)
              end
          | (Thrown e, b) => (Thrown e, b)
          | (Unsupported, b) => (Unsupported, b)
          end
      end in
  match e with
  | Literal v => (Done v, b)
  | Ident x =>
      match JS.get env x with
      | Some v => (Done v, b)
      | None =>
          match JS.get (constants ++ browserGlobals)%list x with
          | Some v => (Done v, b)
          | None => (Unsupported, b)
          end
      end
  | This => (Done this, b)
  | Member target name =>
      match eval this env target b with
      | (Done v, b) => (getProperty v name, b)
      | failed => failed
      end
  | Index target key =>
      match eval this env target b with
      | (Done v, b) =>
          match eval this env key b with
          | (Done k, b) =>
              match propertyKey k with
              | Some name => (getProperty v name, b)
              | None => (Unsupported, b)
              end
          | failed => failed
          end
      | failed => failed
      end
  | Call (Member target name) arguments =>
      match eval this env target b with
      | (Done Undefined, b) | (Done Null, b) => (Thrown JS.TypeError, b)
      | (Done v, b) =>
          match evalAll arguments b with
          | (Done vs, b) => callProperty v name vs b
          | (Thrown e, b) => (Thrown e, b)
          | (Unsupported, b) => (Unsupported, b)
          end
      | failed => failed
      end
  | Call callee arguments =>
      match eval this env callee b with
      | (Done f, b) =>
          match evalAll arguments b with
          | (Done vs, b) =>
              match f with
              | Builtin name => callBuiltin name vs b
              | Object _ _ | Array _ => (Unsupported, b)
              | _ => (Thrown JS.TypeError, b)
              end
          | (Thrown e, b) => (Thrown e, b)
          | (Unsupported, b) => (Unsupported, b)
          end
      | failed => failed
      end
  | Binary op first second =>
      match eval this env first b with
      | (Done x, b) =>
          match eval this env second b with
          | (Done y, b) => (binary op x y, b)
          | failed => failed
          end
      | failed => failed
      end
  | Not operand =>
      match eval this env operand b with
      | (Done v, b) => (Done (Boolean (negb (truthy v))), b)
      | failed => failed
      end
  | Or first second =>
      match eval this env first b with
      | (Done v, b) => if truthy v then (Done v, b) else eval this env second b
      | failed => failed
      end
  | And first second =>
      match eval this env first b with
      | (Done v, b) => if truthy v then eval this env second b else (Done v, b)
      | failed => failed
      end
  | Conditional condition first second =>
      match eval this env condition b with
      | (Done v, b) =>
          if truthy v then eval this env first b else eval this env second b
      | failed => failed
      end
  end.

Definition withBrowser (st : State) (b : Browser.t) : State :=
  {| receiver := receiver st; scope := scope st; assigned := assigned st;
     browser := b |}.

(** A statement; a block ends the scope of its constants. *)
Fixpoint exec (s : stmt) (st : State) {struct s} : Signal * State :=
  let execAll :=
    fix execAll (ss : list stmt) (st : State) : Signal * State :=
      match ss with
      | [] => (Continue, st)
      | first :: rest =>
          match exec first st with
          | (Continue, st) => execAll rest st
          | ended => ended
          end
      end in
  match s with
  | Const x e =>
      match eval (receiver st) (scope st) e (browser st) with
      | (Done v, b) =>
          (Continue,
           {| receiver := receiver st; scope := (x, v) :: scope st;
              assigned := assigned st; browser := b |})
      | (Thrown error, b) => (Failed error, withBrowser st b)
      | (Unsupported, b) => (Stuck, withBrowser st b)
      end
  | If condition consequent alternative =>
      match eval (receiver st) (scope st) condition (browser st) with
      | (Done v, b) =>
          let '(signal, st') :=
            execAll (if truthy v then consequent else alternative)
                    (withBrowser st b) in
          (signal,
           {| receiver := receiver st'; scope := scope st;
              assigned := assigned st'; browser := browser st' |})
      | (Thrown error, b) => (Failed error, withBrowser st b)
      | (Unsupported, b) => (Stuck, withBrowser st b)
      end
  | Return e =>
      match eval (receiver st) (scope st) e (browser st) with
      | (Done v, b) => (Returned v, withBrowser st b)
      | (Thrown error, b) => (Failed error, withBrowser st b)
      | (Unsupported, b) => (Stuck, withBrowser st b)
      end
  | Expression e =>
      match eval (receiver st) (scope st) e (browser st) with
      | (Done _, b) => (Continue, withBrowser st b)
      | (Thrown error, b) => (Failed error, withBrowser st b)
      | (Unsupported, b) => (Stuck, withBrowser st b)
      end
  | AssignThis name e =>
      match eval (receiver st) (scope st) e (browser st) with
      | (Done v, b) =>
          match receiver st with
          | Object class properties =>
              (Continue,
               {| receiver := Object class (set properties name v);
                  scope := scope st; assigned := true; browser := b |})
          | _ => (Stuck, withBrowser st b)
          end
      | (Thrown error, b) => (Failed error, withBrowser st b)
      | (Unsupported, b) => (Stuck, withBrowser st b)
      end
  end.

Fixpoint execAll (ss : list stmt) (st : State) : Signal * State :=
  match ss with
  | [] => (Continue, st)
  | first :: rest =>
      match exec first st with
      | (Continue, st) => execAll rest st
      | ended => ended
      end
  end.

(** The body of a method run on a receiver: how the call ends, the
    receiver after it, and the browser. *)
Definition run (m : method) (this : value) (arguments : list value)
  (b : Browser.t) : (outcome value * value) * Browser.t :=
  let '(signal, st) :=
    execAll (body m)
      {| receiver := this; scope := bind (parameters m) arguments;
         assigned := false; browser := b |} in
  match signal with
  | Continue => ((Done Undefined, receiver st), browser st)
  | Returned v => ((Done v, receiver st), browser st)
  | Failed e => ((Thrown e, receiver st), browser st)
  | Stuck => ((Unsupported, receiver st), browser st)
  end.

End Body.

(** The call of a method from within a method, at most [depth] calls deep.
    A callee that assigns to a property of its receiver is not covered:
    the caller's copy of the object would miss the assignment. *)
Fixpoint invoke (depth : nat) (m : method) (this : value)
  (arguments : list value) (b : Browser.t) : outcome value * Browser.t :=
  match depth with
  | O => (Unsupported, b)
  | S depth =>
      let '(signal, st) :=
        execAll (invoke depth) (body m)
          {| receiver := this; scope := bind (parameters m) arguments;
             assigned := false; browser := b |} in
      if assigned st then (Unsupported, browser st)
      else
        match signal with
        | Continue => (Done Undefined, browser st)
        | Returned v => (Done v, browser st)
        | Failed e => (Thrown e, browser st)
        | Stuck => (Unsupported, browser st)
        end
  end.

(** The call [this.name(arguments)] from outside, for a receiver of class
    [class]: how it ends and the receiver after it. *)
Definition call (depth : nat) (this : value) (name : string)
  (arguments : list value) : Browser.Operation (outcome value * value) :=
  fun b =>
    match this with
    | Object class properties =>
        match JS.get properties name with
        | Some (Builtin f) =>
            let '(result, b) := callBuiltin f arguments b in ((result, this), b)
        | Some _ => ((Thrown JS.TypeError, this), b)
        | None =>
            match lookupMethod class name with
            | Some m => run (invoke depth) m this arguments b
            | None =>
                if absent class name then ((Thrown JS.TypeError, this), b)
                else ((Unsupported, this), b)
            end
        end
    | _ => ((Unsupported, this), b)
    end.

End Semantics.

End Script.

(** ** The text of methods of the engine, the game state and the orchestrator *)

(** Methods of the sources in the syntax of [Script], statement by
    statement, and the objects of the embedding as the values they are
    called on. *)
Module Source.

Import Script.

Local Open Scope Q_scope.

(** An entry of [SLOT_CONFIG.PAYOUTS]; only the star has the property
    [isJackpot]. *)
Definition payout (p : SLOT_CONFIG.Payout) : value :=
  Object "Object"
    ([("basePayout", Number (SLOT_CONFIG.basePayout p));
      ("name", Text (SLOT_CONFIG.name p))]
     ++ if SLOT_CONFIG.isJackpot p then [("isJackpot", Boolean true)] else [])%list.

Definition PAYOUTS : list (string * value) :=
  map (fun entry => (fst entry, payout (snd entry))) SLOT_CONFIG.PAYOUTS.

(** An entry of [SLOT_CONFIG.UPGRADE_SYSTEM.SYMBOL_UPGRADES] (the
    description text is left out). *)
Definition symbolUpgrade (u : SLOT_CONFIG.SymbolUpgrade) : value :=
  Object "Object"
    [("maxLevel", Number (inject_Z (SLOT_CONFIG.maxLevel u)));
     ("baseCost", Number (SLOT_CONFIG.baseCost u));
     ("costMultiplier", Number (SLOT_CONFIG.costMultiplier u));
     ("payoutMultiplier", Number (SLOT_CONFIG.payoutMultiplier u))].

Definition SYMBOL_UPGRADES : list (string * value) :=
  map (fun entry => (fst entry, symbolUpgrade (snd entry)))
      SLOT_CONFIG.SYMBOL_UPGRADES.

(** The constant [SLOT_CONFIG], with the properties that the functions
    below read. *)
Definition constants : list (string * value) :=
  [("SLOT_CONFIG",
    Object "Object"
      [("BASE_COST", Number SLOT_CONFIG.BASE_COST);
       ("MAX_LUCK", Number SLOT_CONFIG.MAX_LUCK);
       ("LUCK_BONUS_MULTIPLIER", Number SLOT_CONFIG.LUCK_BONUS_MULTIPLIER);
       ("TOTAL_BASE_WIN_PROBABILITY",
        Number SLOT_CONFIG.TOTAL_BASE_WIN_PROBABILITY);
       ("PAYOUTS", Object "Object" PAYOUTS);
       ("UPGRADE_SYSTEM",
        Object "Object" [("SYMBOL_UPGRADES", Object "Object" SYMBOL_UPGRADES)])])].

(** [GameEngine.calculatePayout], game-engine.js 117-133 *)
Definition calculatePayout : method :=
  {| parameters := ["result"; "gameState"];
     body :=
       [If (Binary StrictEq (Member (Ident "result") "type")
                   (Literal (Text "loss")))
           [Return (Literal (Number 0))]
           [];
        If (Or (Member (Member (Ident "result") "payout") "isJackpot")
               (Binary StrictEq (Member (Ident "result") "type")
                       (Literal (Text "luck_jackpot"))))
           [Return (Member (Ident "gameState") "jackpot")]
           [];
        Const "upgradedBasePayout"
          (Call (Member (Ident "gameState") "getUpgradedPayout")
                [Member (Ident "result") "winSymbol"]);
        Const "basePayout"
          (Binary Mul
             (Binary Mul (Ident "upgradedBasePayout")
                         (Member (Ident "SLOT_CONFIG") "BASE_COST"))
             (Member (Ident "gameState") "multiplier"));
        Const "comboBonus"
          (Call (Member (Ident "Math") "floor")
                [Binary Mul (Ident "basePayout")
                   (Binary Sub (Member (Ident "gameState") "comboMultiplier")
                               (Literal (Number 1)))]);
        Return (Binary Add (Ident "basePayout") (Ident "comboBonus"))] |}.

(** [GameEngine.calculateTotalWinChance], game-engine.js 70-75 *)
Definition calculateTotalWinChance : method :=
  {| parameters := ["gameState"];
     body :=
       [Const "baseProbability"
          (Member (Ident "SLOT_CONFIG") "TOTAL_BASE_WIN_PROBABILITY");
        Const "luckBonus"
          (Binary Mul
             (Binary Mul (Member (Ident "gameState") "luckMeter")
                         (Member (Ident "SLOT_CONFIG") "LUCK_BONUS_MULTIPLIER"))
             (Literal (Number 100)));
        Return
          (Call (Member (Ident "Math") "min")
                [Binary Add (Ident "baseProbability") (Ident "luckBonus");
                 Literal (Number 9500)])] |}.

(** [GameEngine.canSpin], game-engine.js 136-139 *)
Definition canSpin : method :=
  {| parameters := ["gameState"];
     body :=
       [Const "cost"
          (Binary Mul (Member (Ident "SLOT_CONFIG") "BASE_COST")
                      (Member (Ident "gameState") "multiplier"));
        Return
          (And (Not (Member This "isSpinning"))
               (Binary GreaterEq (Member (Ident "gameState") "credits")
                       (Ident "cost")))] |}.

(** [GameEngine.getSpinCost], game-engine.js 142-144 *)
Definition getSpinCost : method :=
  {| parameters := ["gameState"];
     body :=
       [Return
          (Binary Mul (Member (Ident "SLOT_CONFIG") "BASE_COST")
                      (Member (Ident "gameState") "multiplier"))] |}.

(** [GameState.getMaxLuck], game-state.js 82-84 *)
Definition getMaxLuck : method :=
  {| parameters := [];
     body :=
       [Return
          (Binary Add (Member (Ident "SLOT_CONFIG") "MAX_LUCK")
             (Binary Mul
                (Member (Member (Member This "upgrades") "luck") "MAX_LUCK")
                (Literal (Number 25))))] |}.

(** [GameState.getUpgradedPayout], game-state.js 192-204 *)
Definition getUpgradedPayout : method :=
  {| parameters := ["symbol"];
     body :=
       [Const "basePayout"
          (Member (Index (Member (Ident "SLOT_CONFIG") "PAYOUTS")
                         (Ident "symbol"))
                  "basePayout");
        Const "upgradeLevel"
          (Index (Member (Member This "upgrades") "symbols") (Ident "symbol"));
        Const "upgradeConfig"
          (Index (Member (Member (Ident "SLOT_CONFIG") "UPGRADE_SYSTEM")
                         "SYMBOL_UPGRADES")
                 (Ident "symbol"));
        If (Or (Not (Ident "upgradeConfig"))
               (Binary StrictEq (Ident "upgradeLevel") (Literal (Number 0))))
           [Return (Ident "basePayout")]
           [];
        Return
          (Call (Member (Ident "Math") "floor")
                [Binary Mul (Ident "basePayout")
                   (Call (Member (Ident "Math") "pow")
                         [Member (Ident "upgradeConfig") "payoutMultiplier";
                          Ident "upgradeLevel"])])] |}.

(** [GameState.canAffordSpin], game-state.js 258-260 *)
Definition canAffordSpin : method :=
  {| parameters := [];
     body :=
       [Return
          (Binary GreaterEq (Member This "credits")
             (Binary Mul (Member (Ident "SLOT_CONFIG") "BASE_COST")
                         (Member This "multiplier")))] |}.

(** [EnhancedSlotMachine.cancelAutoSpin], lines 572-577 of the file with
    the orchestrator *)
Definition cancelAutoSpin : method :=
  {| parameters := [];
     body :=
       [If (Member This "autoSpinTimeout")
           [Expression
              (Call (Ident "clearTimeout") [Member This "autoSpinTimeout"]);
            AssignThis "autoSpinTimeout" (Literal Null)]
           []] |}.

(** The classes, with those of their methods that are in the fragment. *)
Definition classes : list (string * list (string * method)) :=
  [("GameEngine",
    [("calculatePayout", calculatePayout);
     ("calculateTotalWinChance", calculateTotalWinChance);
     ("canSpin", canSpin);
     ("getSpinCost", getSpinCost)]);
   ("GameState",
    [("getMaxLuck", getMaxLuck);
     ("getUpgradedPayout", getUpgradedPayout);
     ("canAffordSpin", canAffordSpin)]);
   ("EnhancedSlotMachine",
    [("cancelAutoSpin", cancelAutoSpin)])].

(** No call chain of these methods is longer than two calls. *)
Definition depth : nat := 2%nat.

(** The call [this.name(arguments)] in the program. *)
Definition call (this : value) (name : string) (arguments : list value)
  : Browser.Operation (outcome value * value) :=
  Script.call classes constants depth this name arguments.

(** [upgrades.symbols] of a game state *)
Definition symbolLevels (u : GameState.Upgrades) : list (string * value) :=
  let level (z : Z) := Number (inject_Z z) in
  [("🍒", level (GameState.level_cherry (GameState.symbols u)));
   ("🍋", level (GameState.level_lemon (GameState.symbols u)));
   ("🍊", level (GameState.level_orange (GameState.symbols u)));
   ("🍇", level (GameState.level_grape (GameState.symbols u)));
   ("🍓", level (GameState.level_strawberry (GameState.symbols u)));
   ("💎", level (GameState.level_diamond (GameState.symbols u)));
   ("🎰", level (GameState.level_slot (GameState.symbols u)));
   ("🌟", level (GameState.level_star (GameState.symbols u)))].

Definition upgrades (u : GameState.Upgrades) : value :=
  Object "Object"
    [("symbols", Object "Object" (symbolLevels u));
     ("luck",
      Object "Object"
        [("LUCK_GAIN", Number (inject_Z (GameState.LUCK_GAIN (GameState.luck u))));
         ("LUCK_RETENTION",
          Number (inject_Z (GameState.LUCK_RETENTION (GameState.luck u))));
         ("MAX_LUCK", Number (inject_Z (GameState.MAX_LUCK (GameState.luck u))))]);
     ("multiplier",
      Object "Object"
        [("COMBO_POWER",
          Number (inject_Z (GameState.COMBO_POWER (GameState.multiplier_levels u))));
         ("MAX_MULTIPLIER",
          Number (inject_Z
                    (GameState.MAX_MULTIPLIER (GameState.multiplier_levels u))))])].

(** A game state as an object of the class [GameState]: its data
    properties and, when one has been assigned, the own property
    [canAffordSpin] (the event dispatcher it holds is left out). *)
Definition gameState (g : GameState.t) : value :=
  Object "GameState"
    ([("credits", Number (GameState.credits g));
      ("jackpot", Number (GameState.jackpot g));
      ("multiplier", Number (GameState.multiplier g));
      ("luckMeter", Number (GameState.luckMeter g));
      ("totalSpins", Number (GameState.totalSpins g));
      ("totalWins", Number (GameState.totalWins g));
      ("winStreak", Number (GameState.winStreak g));
      ("biggestWin", Number (GameState.biggestWin g));
      ("jackpots", Number (GameState.jackpots g));
      ("comboCount", Number (GameState.comboCount g));
      ("comboMultiplier", Number (GameState.comboMultiplier g));
      ("upgrades", upgrades (GameState.upgrades g))]
     ++ match GameState.own_canAffordSpin g with
        | Some flag => [("canAffordSpin", Boolean flag)]
        | None => []
        end)%list.

(** The object [calculateSpinResult] returns. *)
Definition spinResult (r : GameEngine.SpinResult) : value :=
  Object "Object"
    [("type", Text (GameEngine.type r));
     ("symbols", Array (map Text (GameEngine.symbols r)));
     ("winSymbol",
      match GameEngine.winSymbol r with
      | Some symbol => Text symbol
      | None => Null
      end);
     ("payout",
      match GameEngine.payout r with
      | Some p => payout p
      | None => Null
      end)].

(** The engine as an object of the class [GameEngine]. *)
Definition engine (e : GameEngine.t) : value :=
  Object "GameEngine" [("isSpinning", Boolean (GameEngine.isSpinning e))].

(** The orchestrator as an object of the class [EnhancedSlotMachine]. *)
Definition machine (m : EnhancedSlotMachine.t) : value :=
  Object "EnhancedSlotMachine"
    [("gameState", gameState (EnhancedSlotMachine.gameState m));
     ("autoSpinActive", Boolean (EnhancedSlotMachine.autoSpinActive m));
     ("autoSpinTimeout",
      match EnhancedSlotMachine.autoSpinTimeout m with
      | Some handle => Number (inject_Z (Zpos handle))
      | None => Null
      end)].

(** How a call ends whose embedding returns a number or a boolean, or
    throws; [None] of the embedding of [getUpgradedPayout] is a
    [TypeError]. *)
Definition number (c : JS.completion JS.number) : outcome value :=
  match c with
  | JS.Return n => Done (Number n)
  | JS.Throw e => Thrown e
  end.

Definition boolean (c : JS.completion bool) : outcome value :=
  match c with
  | JS.Return flag => Done (Boolean flag)
  | JS.Throw e => Thrown e
  end.

Definition found (result : option JS.number) : JS.completion JS.number :=
  match result with
  | Some n => JS.Return n
  | None => JS.Throw JS.TypeError
  end.

(** The spin results whose [winSymbol] is no name that an object literal
    inherits: those for which the lookups of [getUpgradedPayout] are
    covered.  The symbols of the game are among them. *)
Definition covered (symbol : option string) : Prop :=
  match symbol with
  | Some s => EventDispatcher.inherited s = false
  | None => True
  end.

End Source.

(** ** Cumulative-probability selection, as the specification words it *)

Module Selection.

Local Open Scope Q_scope.

(** The luck bonus [luckMeter * LUCK_BONUS_MULTIPLIER * 100]. *)
Definition luckBonus (luckMeter : JS.number) : JS.number :=
  luckMeter * SLOT_CONFIG.LUCK_BONUS_MULTIPLIER * 100.

(** A symbol's adjusted probability: its base probability plus its share of
    the luck bonus, in proportion to
    [baseProbability / TOTAL_BASE_WIN_PROBABILITY]. *)
Definition adjustedProbability (luckMeter baseProbability : JS.number) : JS.number :=
  baseProbability
  + luckBonus luckMeter * (baseProbability / SLOT_CONFIG.TOTAL_BASE_WIN_PROBABILITY).

(** The running sum of the adjusted probabilities of the first [k] symbols
    of [SYMBOL_PROBABILITIES]. *)
Definition runningSum (luckMeter : JS.number) (k : nat) : JS.number :=
  fold_left Qplus
    (map (fun entry => adjustedProbability luckMeter (snd entry))
         (firstn k SLOT_CONFIG.SYMBOL_PROBABILITIES))
    0.

(** The symbol in place [k] of [SYMBOL_PROBABILITIES]. *)
Definition symbolAt (k : nat) : option string :=
  nth_error (map fst SLOT_CONFIG.SYMBOL_PROBABILITIES) k.

(** [symbol] is the first symbol whose running sum exceeds the draw [r]. *)
Definition firstExceeding (luckMeter : JS.number) (r : Z) (symbol : string) : Prop :=
  exists k : nat,
    symbolAt k = Some symbol
    /\ inject_Z r < runningSum luckMeter (S k)
    /\ forall j : nat, (j <= k)%nat -> runningSum luckMeter j <= inject_Z r.

(** The running sum of the first [k] weights of [REEL_DISPLAY_WEIGHTS]. *)
Definition weightSum (k : nat) : JS.number :=
  fold_left Qplus (map snd (firstn k SLOT_CONFIG.REEL_DISPLAY_WEIGHTS)) 0.

(** The same words with every product, quotient and sum rounded, in the
    order in which the expression of the code is evaluated. *)
Module Rounded.

Definition luckBonus (luckMeter : Double.t) : Double.t :=
  Double.mul (Double.mul luckMeter SLOT_CONFIG.Rounded.LUCK_BONUS_MULTIPLIER)
             100%float.

Definition adjustedProbability (luckMeter baseProbability : Double.t)
  : Double.t :=
  Double.add baseProbability
    (Double.mul (luckBonus luckMeter)
       (Double.div baseProbability
                   SLOT_CONFIG.Rounded.TOTAL_BASE_WIN_PROBABILITY)).

(** The running sum of the adjusted probabilities of the first [k]
    symbols, added one after the other from 0. *)
Definition runningSum (luckMeter : Double.t) (k : nat) : Double.t :=
  fold_left Double.add
    (map (fun entry => adjustedProbability luckMeter (snd entry))
         (firstn k SLOT_CONFIG.Rounded.SYMBOL_PROBABILITIES))
    0%float.

(** The running sum up to the symbol in place [k] exceeds [random]. *)
Definition exceeds (luckMeter random : Double.t) (k : nat) : Prop :=
  Double.lt random (runningSum luckMeter (S k)) = true.

(** [symbol] is the first symbol whose running sum exceeds [random]. *)
Definition firstExceeding (luckMeter random : Double.t) (symbol : string)
  : Prop :=
  exists k : nat,
    symbolAt k = Some symbol
    /\ exceeds luckMeter random k
    /\ forall j : nat, (j < k)%nat -> ~ exceeds luckMeter random j.

(** The loop of [getWeightedDisplaySymbol] over doubles and the loop over
    exact numbers give the same for the product [random]. *)
Definition displayLoopsAgree (random : Double.t) : bool :=
  match Double.toQ random with
  | Some exact =>
      match GameEngine.Rounded.displayLoop random
              SLOT_CONFIG.Rounded.REEL_DISPLAY_WEIGHTS,
            GameEngine.displayLoop exact SLOT_CONFIG.REEL_DISPLAY_WEIGHTS with
      | Some a, Some b => String.eqb a b
      | None, None => true
      | _, _ => false
      end
  | None => false
  end.

(** Whether [f] holds of the [count] integers from [z] on. *)
Fixpoint allFrom (z : Z) (count : nat) (f : Z -> bool) : bool :=
  match count with
  | O => true
  | S count => f z && allFrom (z + 1) count f
  end.

(** For the luck meter [luckMeter], every integer draw from 0 to 9999 that
    is not below the total running sum is below no running sum. *)
Definition totalIsLargest (luckMeter : Z) : bool :=
  let sums := map (runningSum (Double.ofZ luckMeter)) (seq 1 8) in
  let total := runningSum (Double.ofZ luckMeter) 8 in
  allFrom 0 (Z.to_nat 10000)
    (fun r =>
       let random := Double.ofZ r in
       Double.lt random total
       || forallb (fun sum => negb (Double.lt random sum)) sums).

End Rounded.

End Selection.

(** ** Sample states *)

Module Sample.

Local Open Scope Q_scope.

(** The state after [reset] with the luck meter set to [luck]. *)
Definition withLuck (luck : JS.number) : GameState.t := {|
  GameState.credits := GameState.credits GameState.initial;
  GameState.jackpot := GameState.jackpot GameState.initial;
  GameState.multiplier := GameState.multiplier GameState.initial;
  GameState.luckMeter := luck;
  GameState.totalSpins := 0;
  GameState.totalWins := 0;
  GameState.winStreak := 0;
  GameState.biggestWin := 0;
  GameState.jackpots := 0;
  GameState.comboCount := 0;
  GameState.comboMultiplier := 1;
  GameState.upgrades := GameState.upgrades GameState.initial;
  GameState.own_canAffordSpin := None
|}.

(** A legacy paytable manager whose slot machine has the luck meter at
    [luck]. *)
Definition legacyWithLuck (luck : JS.number) : PaytableManager.t :=
  {| PaytableManager.slotMachine :=
       Some {| PaytableManager.luckMeter := luck |} |}.

Definition idle : GameEngine.t := {| GameEngine.isSpinning := false |}.

(** An element with the given inline [display], text and classes. *)
Definition el (display text : string) (classes : list string) : Browser.Element :=
  {| Browser.display := display;
     Browser.textContent := text;
     Browser.classList := list_to_set classes |}.

(** The elements with an id that [injectHTML] of the application puts in the
    document (containers with an empty text): the upgrades panel carries no
    inline style and the page has no element with the id [upgrades-btn]; the
    stats panel starts with [display: none]. *)
Definition pageElements : list (string * Browser.Element) :=
  [("upgrades-panel", el "" "" ["upgrades-panel"; "slots-panel"]);
   ("upgrade-content", el "" "" ["upgrade-content"]);
   ("credits-value", el "" "500" []);
   ("jackpot-amount", el "" "1,000" ["jackpot-amount"]);
   ("luck-percentage", el "" "0%" ["luck-percentage"]);
   ("luck-meter-fill", el "" "" ["luck-meter-fill"]);
   ("luck-meter-glow", el "" "" ["luck-meter-glow"]);
   ("luck-status", el "" "Keep spinning for better luck!" ["luck-status"]);
   ("reel-0", el "" "" ["reel"]);
   ("reel-1", el "" "" ["reel"]);
   ("reel-2", el "" "" ["reel"]);
   ("result-message", el "" "" ["result-message"]);
   ("spin-btn", el "" "" ["spin-button"]);
   ("spin-text", el "" "SPIN" []);
   ("spin-cost", el "" "(Cost: 10)" []);
   ("auto-spin-btn", el "" "Auto Spin" ["secondary-button"]);
   ("max-bet-btn", el "" "Max Bet" ["secondary-button"]);
   ("stats-btn", el "" "Stats" ["secondary-button"]);
   ("stats-panel", el "none" "" ["stats-panel"]);
   ("total-spins", el "" "0" ["stat-value"]);
   ("total-wins", el "" "0" ["stat-value"]);
   ("win-rate", el "" "0%" ["stat-value"]);
   ("biggest-win", el "" "0" ["stat-value"]);
   ("win-streak", el "" "0" ["stat-value"]);
   ("jackpots", el "" "0" ["stat-value"]);
   ("bet-multiplier", el "" "1" []);
   ("paytable-grid", el "" "" ["paytable-grid"]);
   ("celebration-overlay", el "" "" ["celebration-overlay"]);
   ("celebration-message", el "" "JACKPOT!" ["celebration-message"]);
   ("celebration-details", el "" "" ["celebration-details"]);
   ("particle-canvas", el "" "" ["particle-canvas"])].

(** The browser once the page is built: no timer pending, nothing stored. *)
Definition page : Browser.t :=
  {| Browser.dom := list_to_map pageElements;
     Browser.timers := ∅;
     Browser.nextTimer := 1%positive;
     Browser.localStorage := ∅;
     Browser.quotaExceeded := fun _ _ => false |}.

(** The same page in a browser whose localStorage takes no write. *)
Definition pageWithoutStorage : Browser.t :=
  {| Browser.dom := Browser.dom page;
     Browser.timers := Browser.timers page;
     Browser.nextTimer := Browser.nextTimer page;
     Browser.localStorage := Browser.localStorage page;
     Browser.quotaExceeded := fun _ _ => true |}.

(** A stand-in for the class [InventoryItem]: a stack of things of one name
    that holds up to [maxStackSize] of them. *)
Record Stack := {
  name : string;
  count : JS.number;
  maxStackSize : JS.number;
  canStack : bool
}.

Definition withCount (item : Stack) (n : JS.number) : Stack :=
  {| name := name item; count := n;
     maxStackSize := maxStackSize item; canStack := canStack item |}.

(** Insertion of an item before the first one with a greater count. *)
Fixpoint insertByCount (item : Stack) (items : list Stack) : list Stack :=
  match items with
  | [] => [item]
  | other :: rest =>
      if JS.lt (count item) (count other) then item :: other :: rest
      else other :: insertByCount item rest
  end.

#[global] Instance stackItem : InventoryManager.InventoryItem Stack := {|
  InventoryManager.quantity := count;
  InventoryManager.setQuantity := withCount;
  InventoryManager.stackable := canStack;
  InventoryManager.canStackWith := fun slotItem item =>
    canStack slotItem && canStack item
    && String.eqb (name slotItem) (name item)
    && JS.lt (count slotItem) (maxStackSize slotItem);
  InventoryManager.stackWith := fun slotItem item =>
    let moved := JS.min (maxStackSize slotItem - count slotItem) (count item) in
    (withCount slotItem (count slotItem + moved), count item - moved);
  InventoryManager.split := fun item n =>
    if JS.lt 0 n && JS.lt n (count item)
    then (withCount item (count item - n), Some (withCount item n))
    else (item, None);
  InventoryManager.use := fun item n =>
    if JS.ge (count item) n then (withCount item (count item - n), true)
    else (item, false);
  InventoryManager.toJSON := fun item =>
    JS.Return
      (JSON.Object [("name", JSON.String (name item));
                    ("quantity", JSON.Number (count item));
                    ("maxStackSize", JSON.Number (maxStackSize item));
                    ("stackable", JSON.Bool (canStack item))]);
  InventoryManager.fromTemplate := fun id n =>
    if String.eqb id "health_potion"
    then Some {| name := "Health Potion"; count := n;
                 maxStackSize := 20; canStack := true |}
    else if String.eqb id "basic_item"
    then Some {| name := "Basic Item"; count := n;
                 maxStackSize := 99; canStack := true |}
    else None;
  InventoryManager.sorted := fun _ ascending items =>
    let byCount := fold_right insertByCount [] items in
    if ascending then byCount else rev byCount
|}.

(** [n] health potions. *)
Definition potions (n : JS.number) : Stack :=
  {| name := "Health Potion"; count := n; maxStackSize := 20; canStack := true |}.

(** A manager with the default options but two slots only, the first with
    15 health potions and the second with a sword that does not stack. *)
Definition fullInventory : InventoryManager.t Stack :=
  {| InventoryManager.options :=
       {| InventoryManager.maxSlots := 2;
          InventoryManager.autoStack := true;
          InventoryManager.storageKey := "inventory-data" |};
     InventoryManager.slots :=
       [Some (potions 15);
        Some {| name := "Iron Sword"; count := 1; maxStackSize := 1;
                canStack := false |}];
     InventoryManager.operationCount := 0;
     InventoryManager.currentSort := "none" |}.

(** A sword, which does not stack. *)
Definition sword : Stack :=
  {| name := "Iron Sword"; count := 1; maxStackSize := 1; canStack := false |}.

(** A stand-in for [InventoryItem.fromJSON]: it reads back what [toJSON] of
    a stack writes. *)
Definition stackFromJSON (v : JSON.value) : Stack :=
  match v with
  | JSON.Object fields =>
      {| name := match JS.get fields "name" with
                 | Some (JSON.String s) => s
                 | _ => "Unknown Item"
                 end;
         count := match JS.get fields "quantity" with
                  | Some (JSON.Number n) => n
                  | _ => 1
                  end;
         maxStackSize := match JS.get fields "maxStackSize" with
                         | Some (JSON.Number n) => n
                         | _ => 1
                         end;
         canStack := match JS.get fields "stackable" with
                     | Some (JSON.Bool flag) => flag
                     | _ => false
                     end |}
  | _ => sword
  end.

(** A manager for two slots whose array has three: the first two hold
    items, the third is empty. *)
Definition longInventory : InventoryManager.t Stack :=
  {| InventoryManager.options :=
       {| InventoryManager.maxSlots := 2;
          InventoryManager.autoStack := true;
          InventoryManager.storageKey := "inventory-data" |};
     InventoryManager.slots := [Some (potions 15); Some sword; None];
     InventoryManager.operationCount := 0;
     InventoryManager.currentSort := "none" |}.

(** A manager for three slots: the first two hold items, the third is
    empty. *)
Definition roomyInventory : InventoryManager.t Stack :=
  {| InventoryManager.options :=
       {| InventoryManager.maxSlots := 3;
          InventoryManager.autoStack := true;
          InventoryManager.storageKey := "inventory-data" |};
     InventoryManager.slots := [Some (potions 15); Some sword; None];
     InventoryManager.operationCount := 0;
     InventoryManager.currentSort := "none" |}.

(** The same page with an upgrades button and a hidden upgrades panel. *)
Definition pageWithUpgradesButton : Browser.t :=
  Browser.with_dom page
    (<["upgrades-btn" := el "" "Upgrades" ["secondary-button"]]>
       (<["upgrades-panel" := el "none" "" ["upgrades-panel"; "slots-panel"]]>
          (Browser.dom page))).

(** Functions given to an event dispatcher, which act on a log of numbers:
    the function with id [id] appends [id + data] to the log, and the
    function with id 0 throws after it. *)
Definition logging (id data : nat) (log : list nat)
  : list nat * JS.completion unit :=
  ((log ++ [(id + data)%nat])%list,
   if (id =? 0)%nat then JS.Throw (JS.Error "failed") else JS.Return tt).

End Sample.

(** * Properties *)

Local Open Scope Q_scope.
Local Open Scope list_scope.

(** ** Comparisons of numbers *)

Lemma JS_lt_spec (a b : JS.number) : JS.lt a b = true <-> (a < b)%Q.
Proof.
  unfold JS.lt. rewrite negb_true_iff.
  split; intros H.
  - apply Qnot_le_lt. intros Hle. apply Qle_bool_iff in Hle. congruence.
  - destruct (Qle_bool b a) eqn:E; [|reflexivity].
    apply Qle_bool_iff in E. exfalso. exact (Qlt_not_le _ _ H E).
Qed.

Lemma JS_lt_false (a b : JS.number) : JS.lt a b = false <-> (b <= a)%Q.
Proof.
  unfold JS.lt. rewrite negb_false_iff. apply Qle_bool_iff.
Qed.

Lemma JS_ge_spec (a b : JS.number) : JS.ge a b = true <-> (b <= a)%Q.
Proof. apply Qle_bool_iff. Qed.

Lemma JS_ge_false (a b : JS.number) : JS.ge a b = false <-> (a < b)%Q.
Proof.
  rewrite <- JS_lt_spec. unfold JS.lt, JS.ge.
  destruct (Qle_bool b a); simpl; split; congruence.
Qed.

Lemma JS_lt_ge (a b : JS.number) : JS.lt a b = negb (JS.ge a b).
Proof. reflexivity. Qed.

(** ** The winning-symbol generator *)

Lemma symbol_probabilities_total :
  (fold_left Qplus (map snd SLOT_CONFIG.SYMBOL_PROBABILITIES) 0
   == SLOT_CONFIG.TOTAL_BASE_WIN_PROBABILITY)%Q.
Proof. reflexivity. Qed.

(** [Math.floor(Math.random() * 10000)] is an integer from 0 to 9999. *)
Lemma draw_range (u : JS.number) :
  (0 <= u)%Q -> (u < 1)%Q -> (0 <= Qfloor (u * 10000) < 10000)%Z.
Proof.
  intros H0 H1. split.
  - change 0%Z with (Qfloor 0). apply Qfloor_resp_le. lra.
  - rewrite Zlt_Qlt. eapply Qle_lt_trans; [apply Qfloor_le |].
    change (inject_Z 10000) with 10000%Q. lra.
Qed.

Lemma selectWinningSymbol_draws (gameState : GameState.t) (u : JS.number)
  (draws : list JS.number) :
  GameEngine.selectWinningSymbol gameState (u :: draws)
  = Some (GameEngine.selectWinningSymbolAt gameState (Qfloor (u * 10000)), draws).
Proof. reflexivity. Qed.


Ltac expand_running_sums :=
  cbv [Selection.runningSum SLOT_CONFIG.SYMBOL_PROBABILITIES firstn map
       fold_left snd Selection.adjustedProbability Selection.luckBonus length];
  unfold SLOT_CONFIG.LUCK_BONUS_MULTIPLIER,
         SLOT_CONFIG.TOTAL_BASE_WIN_PROBABILITY, Qdiv;
  change (/ 1875)%Q with (1 # 1875)%Q.


(** The loop over doubles returns the symbol of the first entry at which the
    running sum exceeds [random], and nothing when none does. *)
Lemma rounded_selectLoop_first (luckMeter random : Double.t)
  (entries : list (string * Double.t)) (cumulative : Double.t) :
  let sums (k : nat) :=
    fold_left Double.add
      (map (fun entry =>
              Selection.Rounded.adjustedProbability luckMeter (snd entry))
           (firstn k entries))
      cumulative in
  match GameEngine.Rounded.selectLoop (Selection.Rounded.luckBonus luckMeter)
          random cumulative entries with
  | Some symbol =>
      exists k : nat,
        nth_error (map fst entries) k = Some symbol
        /\ Double.lt random (sums (S k)) = true
        /\ forall j : nat, (j < k)%nat -> Double.lt random (sums (S j)) = false
  | None =>
      forall j : nat, (j < length entries)%nat ->
        Double.lt random (sums (S j)) = false
  end.
Proof.
  revert cumulative.
  induction entries as [|[symbol baseProbability] rest IH];
    intros cumulative sums.
  - cbn. intros j Hj. lia.
  - cbn [GameEngine.Rounded.selectLoop].
    fold (Selection.Rounded.adjustedProbability luckMeter baseProbability).
    destruct (Double.lt random
                (Double.add cumulative
                   (Selection.Rounded.adjustedProbability luckMeter
                      baseProbability)))
      eqn:Efirst.
    + exists 0%nat. split; [reflexivity|]. split; [exact Efirst|].
      intros j Hj. lia.
    + specialize (IH (Double.add cumulative
                        (Selection.Rounded.adjustedProbability luckMeter
                           baseProbability))).
      cbv zeta in IH.
      destruct (GameEngine.Rounded.selectLoop _ _ _ rest) as [found|].
      * destruct IH as (k & Hk & Hlt & Hmin).
        exists (S k). split; [exact Hk|]. split; [exact Hlt|].
        intros [|j] Hj; [exact Efirst|]. apply Hmin. lia.
      * intros [|j] Hj; [exact Efirst|]. apply IH. cbn in Hj. lia.
Qed.

Lemma allFrom_spec (f : Z -> bool) (count : nat) (z k : Z) :
  Selection.Rounded.allFrom z count f = true ->
  (z <= k < z + Z.of_nat count)%Z -> f k = true.
Proof.
  revert z. induction count as [|count IH]; intros z Hall Hk; [lia|].
  cbn [Selection.Rounded.allFrom] in Hall.
  apply andb_prop in Hall as [Hz Hrest].
  destruct (Z.eq_dec k z) as [->|Hne]; [exact Hz|].
  apply (IH (z + 1)%Z Hrest). lia.
Qed.

(** With the luck meter at an integer from 0 to 150 (where play keeps it:
    the meter moves in integer steps between 0 and [getMaxLuck()], which is
    150 at most), the total is the largest of the running sums for every
    integer draw. *)
Lemma total_is_largest_in_play :
  Selection.Rounded.allFrom 0 (Z.to_nat 151) Selection.Rounded.totalIsLargest
  = true.
Proof. vm_compute. reflexivity. Qed.

(** C1, as the code computes.  Numbers are IEEE doubles.  For every luck
    meter and every draw, [selectWinningSymbol] returns the first symbol, in
    the order of [SYMBOL_PROBABILITIES], at which the running sum of the
    adjusted probabilities exceeds the draw, each adjusted probability being
    [baseProbability + luckMeter * LUCK_BONUS_MULTIPLIER * 100 *
    (baseProbability / TOTAL_BASE_WIN_PROBABILITY)] and every product,
    quotient and sum being rounded as they are computed; when the draw is
    below none of the running sums it returns the cherry.  With the luck
    meter at an integer from 0 to 150 and an integer draw from 0 to 9999,
    the cherry is returned whenever the draw is not below the total running
    sum. *)
Theorem selectWinningSymbol_cumulative (luckMeter random : Double.t) :
  let symbol := GameEngine.Rounded.selectWinningSymbolAt luckMeter random in
  ((exists k : nat,
      (k < 8)%nat /\ Selection.Rounded.exceeds luckMeter random k) ->
   Selection.Rounded.firstExceeding luckMeter random symbol)
  /\ ((forall k : nat,
         (k < 8)%nat -> ~ Selection.Rounded.exceeds luckMeter random k) ->
      symbol = "🍒")
  /\ (forall luck r : Z,
        (0 <= luck <= 150)%Z -> (0 <= r < 10000)%Z ->
        Double.lt (Double.ofZ r)
          (Selection.Rounded.runningSum (Double.ofZ luck) 8) = false ->
        GameEngine.Rounded.selectWinningSymbolAt (Double.ofZ luck)
          (Double.ofZ r) = "🍒").
Proof.
  assert (forall luck draw : Double.t,
            (forall k : nat,
               (k < 8)%nat -> ~ Selection.Rounded.exceeds luck draw k) ->
            GameEngine.Rounded.selectWinningSymbolAt luck draw = "🍒")
    as Hfallback.
  { intros luck draw Hnone.
    unfold GameEngine.Rounded.selectWinningSymbolAt.
    pose proof (rounded_selectLoop_first luck draw
                  SLOT_CONFIG.Rounded.SYMBOL_PROBABILITIES 0%float) as Hloop.
    cbv zeta in Hloop. unfold Selection.Rounded.luckBonus in Hloop.
    destruct (GameEngine.Rounded.selectLoop _ _ _ _) as [symbol|];
      [|reflexivity].
    destruct Hloop as (k & Hk & Hlt & _). exfalso.
    assert (k < 8)%nat as Hk8.
    { change 8%nat
        with (length (map fst SLOT_CONFIG.Rounded.SYMBOL_PROBABILITIES)).
      apply nth_error_Some. congruence. }
    exact (Hnone k Hk8 Hlt). }
  intros symbol. split; [|split; [apply Hfallback|]].
  - subst symbol. unfold GameEngine.Rounded.selectWinningSymbolAt.
    pose proof (rounded_selectLoop_first luckMeter random
                  SLOT_CONFIG.Rounded.SYMBOL_PROBABILITIES 0%float) as Hloop.
    cbv zeta in Hloop. unfold Selection.Rounded.luckBonus in Hloop.
    destruct (GameEngine.Rounded.selectLoop _ _ _ _) as [symbol|].
    + destruct Hloop as (k & Hk & Hlt & Hmin).
      intros _. exists k. split; [exact Hk|]. split; [exact Hlt|].
      intros j Hj Hex.
      unfold Selection.Rounded.exceeds, Selection.Rounded.runningSum in Hex.
      rewrite (Hmin j Hj) in Hex. discriminate.
    + intros (k & Hk & Hex). exfalso.
      unfold Selection.Rounded.exceeds, Selection.Rounded.runningSum in Hex.
      rewrite (Hloop k Hk) in Hex. discriminate.
  - intros luck r Hluck Hr Htotal. apply Hfallback.
    intros k Hk Hex. unfold Selection.Rounded.exceeds in Hex.
    pose proof (allFrom_spec _ _ _ luck total_is_largest_in_play) as Hlargest.
    unfold Selection.Rounded.totalIsLargest in Hlargest.
    assert (0 <= luck < 0 + Z.of_nat (Z.to_nat 151))%Z as Hluck' by lia.
    specialize (Hlargest Hluck').
    assert (0 <= r < 0 + Z.of_nat (Z.to_nat 10000))%Z as Hr' by lia.
    pose proof (allFrom_spec _ _ _ r Hlargest Hr') as Hdraw.
    cbv beta zeta in Hdraw. rewrite Htotal in Hdraw.
    cbn [orb] in Hdraw. rewrite forallb_forall in Hdraw.
    specialize (Hdraw (Selection.Rounded.runningSum (Double.ofZ luck) (S k))).
    rewrite Hex in Hdraw. cbn [negb] in Hdraw.
    assert (false = true) as Habsurd; [|discriminate Habsurd].
    apply Hdraw. apply in_map. apply in_seq. lia.
Qed.

(** The sums the code computes are not the exact ones.  With the luck meter
    at 24 the exact running sum at the grape is 1974 and the computed one is
    above it, so the draw 1974 selects the grape and not the strawberry;
    with the luck meter at 5 the exact total is 1925 and the computed one is
    above it, so the draw 1925 selects the star and not the cherry.  At
    luck 0 every sum is an integer and exact. *)
Example selectWinningSymbol_rounded :
  GameEngine.Rounded.selectWinningSymbolAt 24%float 1974%float = "🍇"
  /\ GameEngine.selectWinningSymbolAt (Sample.withLuck 24) 1974 = "🍓"
  /\ GameEngine.Rounded.selectWinningSymbolAt 5%float 1925%float = "🌟"
  /\ GameEngine.selectWinningSymbolAt (Sample.withLuck 5) 1925 = "🍒"
  /\ GameEngine.Rounded.selectWinningSymbolAt 8%float 1955%float = "🌟"
  /\ GameEngine.Rounded.selectWinningSymbolAt 0%float 1874%float = "🌟"
  /\ GameEngine.Rounded.selectWinningSymbolAt 0%float 1875%float = "🍒"
  /\ GameEngine.Rounded.selectWinningSymbol 40%float 0.1%float = "🍋".
Proof. repeat split; vm_compute; reflexivity. Qed.

(** C1 as stated, with the running sums taken exactly, fails: at luck 24
    the draw 1974 is below the total, and the code returns the grape, at
    which the exact running sum is 1974 and does not exceed the draw. *)
Lemma selectWinningSymbol_exact_sums_differ :
  ~ (forall luckMeter r : Z,
       (0 <= luckMeter)%Z -> (0 <= r < 10000)%Z ->
       let luck := inject_Z luckMeter in
       let symbol :=
         GameEngine.Rounded.selectWinningSymbolAt (Double.ofZ luckMeter)
           (Double.ofZ r) in
       let total :=
         Selection.runningSum luck (length SLOT_CONFIG.SYMBOL_PROBABILITIES) in
       ((inject_Z r < total)%Q -> Selection.firstExceeding luck r symbol)
       /\ ((total <= inject_Z r)%Q -> symbol = "🍒")).
Proof.
  intros Hall.
  assert (0 <= 24)%Z as Hluck by lia.
  assert (0 <= 1974 < 10000)%Z as Hdraw by lia.
  destruct (Hall 24%Z 1974%Z Hluck Hdraw) as [Hfirst _].
  assert (GameEngine.Rounded.selectWinningSymbolAt (Double.ofZ 24)
            (Double.ofZ 1974) = "🍇") as Esymbol by (vm_compute; reflexivity).
  rewrite Esymbol in Hfirst.
  assert (inject_Z 1974
          < Selection.runningSum (inject_Z 24)
              (length SLOT_CONFIG.SYMBOL_PROBABILITIES))%Q as Hbelow
    by (vm_compute; reflexivity).
  destruct (Hfirst Hbelow) as (k & Hk & Hlt & _).
  assert (k = 3%nat) as ->.
  { unfold Selection.symbolAt in Hk.
    do 8 (destruct k as [|k]; [first [discriminate Hk | reflexivity]|]).
    destruct k; discriminate Hk. }
  vm_compute in Hlt. discriminate Hlt.
Qed.

(** ** The luck jackpot *)

(** C2. When [luckMeter >= getMaxLuck()], where [getMaxLuck()] is
    [SLOT_CONFIG.MAX_LUCK] plus 25 for each level of the [MAX_LUCK] upgrade,
    [calculateSpinResult] returns the luck-jackpot result whatever the draws
    are, and consumes none of them. *)
Theorem calculateSpinResult_luck_jackpot (gameState : GameState.t)
  (draws : list JS.number) :
  (GameState.getMaxLuck gameState <= GameState.luckMeter gameState)%Q ->
  GameState.getMaxLuck gameState
  = (SLOT_CONFIG.MAX_LUCK
     + inject_Z (GameState.MAX_LUCK (GameState.luck (GameState.upgrades gameState))) * 25)%Q
  /\ GameEngine.calculateSpinResult gameState draws
     = Some ({| GameEngine.type := "luck_jackpot";
                GameEngine.symbols := ["🌟"; "🌟"; "🌟"];
                GameEngine.winSymbol := Some "🌟";
                GameEngine.payout := JS.get SLOT_CONFIG.PAYOUTS "🌟" |}, draws)
  /\ JS.get SLOT_CONFIG.PAYOUTS "🌟"
     = Some {| SLOT_CONFIG.basePayout := 1000;
               SLOT_CONFIG.name := "MEGA JACKPOT!";
               SLOT_CONFIG.isJackpot := true |}.
Proof.
  intros Hluck. split; [reflexivity | split; [| reflexivity]].
  unfold GameEngine.calculateSpinResult.
  apply JS_ge_spec in Hluck. rewrite Hluck. reflexivity.
Qed.

Lemma calculateSpinResult_luck_jackpot_witness :
  (GameState.getMaxLuck (Sample.withLuck 100)
   <= GameState.luckMeter (Sample.withLuck 100))%Q
  /\ GameEngine.calculateSpinResult (Sample.withLuck 100) [0.5; 0.25]%Q
     = Some ({| GameEngine.type := "luck_jackpot";
                GameEngine.symbols := ["🌟"; "🌟"; "🌟"];
                GameEngine.winSymbol := Some "🌟";
                GameEngine.payout := JS.get SLOT_CONFIG.PAYOUTS "🌟" |},
             [0.5; 0.25]%Q).
Proof.
  assert (H : (GameState.getMaxLuck (Sample.withLuck 100)
               <= GameState.luckMeter (Sample.withLuck 100))%Q)
    by (vm_compute; discriminate).
  split; [exact H |].
  exact (proj1 (proj2
    (calculateSpinResult_luck_jackpot (Sample.withLuck 100) [0.5; 0.25]%Q H))).
Defined.

(** ** Spin requests *)

Lemma selectLoop_In (luckBonus random : JS.number)
  (entries : list (string * JS.number)) :
  forall (cumulativeProbability : JS.number) (symbol : string),
    GameEngine.selectLoop luckBonus random cumulativeProbability entries = Some symbol ->
    In symbol (map fst entries).
Proof.
  induction entries as [|[s p] rest IH]; intros acc symbol; simpl.
  - discriminate.
  - destruct (JS.lt _ _).
    + intros [= <-]. now left.
    + intros H. right. exact (IH _ _ H).
Qed.

Lemma selectWinningSymbolAt_symbol (gameState : GameState.t) (random : Z) :
  In (GameEngine.selectWinningSymbolAt gameState random) SLOT_CONFIG.SYMBOLS.
Proof.
  unfold GameEngine.selectWinningSymbolAt.
  destruct (GameEngine.selectLoop _ _ _ _) as [symbol|] eqn:E.
  - apply selectLoop_In in E. exact E.
  - now left.
Qed.

Lemma calculateSpinResult_shape (gameState : GameState.t)
  (draws rest : list JS.number) (result : GameEngine.SpinResult) :
  GameEngine.calculateSpinResult gameState draws = Some (result, rest) ->
  GameEngine.resultShape result.
Proof.
  unfold GameEngine.calculateSpinResult.
  destruct (JS.ge _ _).
  - intros [= <- _]. constructor.
  - unfold Random.bind, Random.random, Random.ret.
    destruct draws as [|u draws]; [discriminate |].
    destruct (JS.lt _ _).
    + unfold GameEngine.selectWinningSymbol, Random.bind, Random.random, Random.ret.
      destruct draws as [|v draws]; [discriminate |].
      intros [= <- _]. constructor. apply selectWinningSymbolAt_symbol.
    + destruct (GameEngine.generateLosingCombination draws) as [[symbols rest']|];
        [| discriminate].
      intros [= <- _]. constructor.
Qed.

Lemma calculatePayout_returns (gameState : GameState.t)
  (result : GameEngine.SpinResult) :
  GameEngine.resultShape result ->
  exists amount : JS.number,
    GameEngine.calculatePayout result gameState = JS.Return amount.
Proof.
  intros [| winSymbol Hin | symbols].
  - eexists. reflexivity.
  - simpl in Hin.
    unfold GameEngine.calculatePayout, GameState.getUpgradedPayout,
      GameState.symbolLevel.
    repeat (destruct Hin as [<- | Hin]; [simpl; try (eexists; reflexivity);
      match goal with |- context [(?l =? 0)%Z] => destruct (l =? 0)%Z end;
      eexists; reflexivity |]).
    destruct Hin.
  - eexists. reflexivity.
Qed.

(** The [while] loop of [generateLosingCombination] ends as soon as a draw
    gives a third symbol that differs; the draws [0] and [0.5] give two
    different symbols, so one of them ends it. *)
Lemma redrawThird_settles (pre : list JS.number) :
  forall s0 s1 s2 : string,
    GameEngine.redrawThird s0 s1 s2 (pre ++ [0; 0.5]) <> None.
Proof.
  unfold GameEngine.redrawThird.
  induction pre as [|u pre IH]; intros s0 s1 s2.
  - cbn [app GameEngine.redrawWith].
    destruct (String.eqb s0 s1 && String.eqb s1 s2) eqn:E; [| discriminate].
    replace (GameEngine.weightedDisplaySymbol 0) with "🍒" by (vm_compute; reflexivity).
    destruct (String.eqb s0 s1 && String.eqb s1 "🍒") eqn:E1; [| discriminate].
    replace (GameEngine.weightedDisplaySymbol 0.5) with "🍋" by (vm_compute; reflexivity).
    destruct (String.eqb s0 s1 && String.eqb s1 "🍋") eqn:E2; [| discriminate].
    apply andb_true_iff in E1 as [_ E1]. apply andb_true_iff in E2 as [_ E2].
    apply String.eqb_eq in E1. apply String.eqb_eq in E2. congruence.
  - cbn [app GameEngine.redrawWith].
    destruct (String.eqb s0 s1 && String.eqb s1 s2); [apply IH | discriminate].
Qed.

Lemma generateLosingCombination_settles (draws : list JS.number) :
  GameEngine.generateLosingCombination (draws ++ [0; 0; 0; 0; 0.5]) <> None.
Proof.
  unfold GameEngine.generateLosingCombination, GameEngine.getWeightedDisplaySymbol,
    Random.bind, Random.random, Random.ret.
  destruct draws as [|a [|b [|c rest]]]; cbn [app].
  - apply (redrawThird_settles []).
  - apply (redrawThird_settles [0]).
  - apply (redrawThird_settles [0; 0]).
  - replace (rest ++ [0; 0; 0; 0; 0.5]) with ((rest ++ [0; 0; 0]) ++ [0; 0.5])
      by (rewrite <- app_assoc; reflexivity).
    apply redrawThird_settles.
Qed.

Lemma calculateSpinResult_settles (gameState : GameState.t)
  (draws : list JS.number) :
  GameEngine.calculateSpinResult gameState (draws ++ [0; 0; 0; 0; 0; 0.5]) <> None.
Proof.
  unfold GameEngine.calculateSpinResult.
  destruct (JS.ge _ _); [discriminate |].
  unfold Random.bind at 1. unfold Random.random at 1.
  destruct draws as [|u rest]; cbn [app].
  - destruct (JS.lt _ _); [discriminate |].
    unfold Random.bind.
    pose proof (generateLosingCombination_settles []) as H. cbn [app] in H.
    destruct (GameEngine.generateLosingCombination _) as [[symbols rest']|];
      [discriminate | contradiction].
  - destruct (JS.lt _ _).
    + unfold GameEngine.selectWinningSymbol, Random.bind, Random.random, Random.ret.
      destruct rest; discriminate.
    + unfold Random.bind.
      pose proof (generateLosingCombination_settles (rest ++ [0])) as H.
      rewrite <- app_assoc in H. cbn [app] in H.
      destruct (GameEngine.generateLosingCombination _) as [[symbols rest']|];
        [discriminate | contradiction].
Qed.

(** C3. [processSpin] throws the error "Cannot spin - insufficient credits
    or already spinning" exactly when, at entry, [isSpinning] is true or the
    credits are below [BASE_COST * multiplier]; otherwise, once it settles,
    it resolves with the result, the payout and the cost
    [BASE_COST * multiplier], and it settles as soon as the draws suffice;
    and when [isSpinning] was false at entry, it is false again once
    [processSpin] has settled, resolved or thrown. *)
Theorem processSpin_spec (engine : GameEngine.t) (gameState : GameState.t) :
  let cost := SLOT_CONFIG.BASE_COST * GameState.multiplier gameState in
  let refused :=
    GameEngine.isSpinning engine = true \/ GameState.credits gameState < cost in
  (forall draws : list JS.number,
     (exists engine' rest,
        GameEngine.processSpin engine gameState draws
        = Some (JS.Throw (JS.Error GameEngine.cannot_spin_message), engine', rest))
     <-> refused)
  /\ (forall draws rest settled engine',
        ~ refused ->
        GameEngine.processSpin engine gameState draws = Some (settled, engine', rest) ->
        exists result payout,
          settled = JS.Return {| GameEngine.result := result;
                                 GameEngine.payout_amount := payout;
                                 GameEngine.cost := cost |})
  /\ (forall draws : list JS.number,
        exists more : list JS.number,
          GameEngine.processSpin engine gameState (draws ++ more) <> None)
  /\ (forall draws rest settled engine',
        GameEngine.isSpinning engine = false ->
        GameEngine.processSpin engine gameState draws = Some (settled, engine', rest) ->
        GameEngine.isSpinning engine' = false).
Proof.
  intros cost refused.
  assert (Hcan : GameEngine.canSpin engine gameState = false <-> refused).
  { unfold GameEngine.canSpin, refused. fold cost.
    rewrite andb_false_iff, negb_false_iff, JS_ge_false. reflexivity. }
  assert (Hrun : forall draws rest settled engine',
            GameEngine.canSpin engine gameState = true ->
            GameEngine.processSpin engine gameState draws = Some (settled, engine', rest) ->
            GameEngine.isSpinning engine' = false
            /\ exists result payout,
                 settled = JS.Return {| GameEngine.result := result;
                                        GameEngine.payout_amount := payout;
                                        GameEngine.cost := cost |}).
  { intros draws rest settled engine' Hok.
    unfold GameEngine.processSpin. rewrite Hok. cbn [negb].
    unfold Random.bind, Random.ret.
    destruct (GameEngine.calculateSpinResult gameState draws) as [[result rest']|] eqn:E;
      [| discriminate].
    apply calculateSpinResult_shape in E.
    destruct (calculatePayout_returns gameState result E) as [amount Hamount].
    rewrite Hamount. intros [= <- <- _]. split; [reflexivity |].
    exists result, amount. reflexivity. }
  repeat split.
  - intros (engine' & rest & H). apply Hcan.
    destruct (sumbool_of_bool (GameEngine.canSpin engine gameState)) as [Hok|Hok];
      [| exact Hok].
    destruct (Hrun _ _ _ _ Hok H) as [_ (result & payout & Habs)]. discriminate.
  - intros Href. apply Hcan in Href. exists engine, draws.
    unfold GameEngine.processSpin. rewrite Href. reflexivity.
  - intros draws rest settled engine' Hnot H.
    destruct (sumbool_of_bool (GameEngine.canSpin engine gameState)) as [Hok|Hok].
    + exact (proj2 (Hrun _ _ _ _ Hok H)).
    + exfalso. apply Hnot, Hcan. exact Hok.
  - intros draws. exists [0; 0; 0; 0; 0; 0.5].
    unfold GameEngine.processSpin.
    destruct (negb (GameEngine.canSpin engine gameState)); [discriminate |].
    unfold Random.bind.
    pose proof (calculateSpinResult_settles gameState draws) as H.
    destruct (GameEngine.calculateSpinResult _ _) as [[result rest']|];
      [discriminate | contradiction].
  - intros draws rest settled engine' Hidle H.
    destruct (sumbool_of_bool (GameEngine.canSpin engine gameState)) as [Hok|Hok].
    + exact (proj1 (Hrun _ _ _ _ Hok H)).
    + unfold GameEngine.processSpin in H. rewrite Hok in H.
      injection H as _ <- _. exact Hidle.
Qed.

Example processSpin_refused_sample :
  GameEngine.processSpin {| GameEngine.isSpinning := true |} (Sample.withLuck 40) [0.1]
  = Some (JS.Throw (JS.Error GameEngine.cannot_spin_message),
          {| GameEngine.isSpinning := true |}, [0.1]).
Proof. reflexivity. Qed.

Example processSpin_sample :
  GameEngine.processSpin Sample.idle (Sample.withLuck 40) [0.1; 0.1]
  = Some (JS.Return
            {| GameEngine.result :=
                 {| GameEngine.type := "win";
                    GameEngine.symbols := ["🍋"; "🍋"; "🍋"];
                    GameEngine.winSymbol := Some "🍋";
                    GameEngine.payout := JS.get SLOT_CONFIG.PAYOUTS "🍋" |};
               GameEngine.payout_amount :=
                 25 * SLOT_CONFIG.BASE_COST * 1 + JS.floor (25 * SLOT_CONFIG.BASE_COST * 1 * (1 - 1));
               GameEngine.cost := SLOT_CONFIG.BASE_COST * 1 |},
          Sample.idle, []).
Proof. reflexivity. Qed.

(** ** Serialization of the game state *)

Lemma JSON_copy_id (u : GameState.Upgrades) : GameState.JSON_copy u = u.
Proof. destruct u as [[] [] []]. reflexivity. Qed.

(** C5. For a game state [g] whose [canAffordSpin] is still the method of
    the class, [serialize] returns an object, and [deserialize] of that
    object restores every serialized field to its value in [g]; but it also
    assigns the boolean [canAffordSpin] of the object over the method, so
    that [deserialize] itself ends in a [TypeError] (from the [serialize]
    call of [emitStateChange]) and a later call of [canAffordSpin()] throws a
    [TypeError] where the same call on [g] returned a boolean. *)
Theorem deserialize_serialize_shadows_method (g target : GameState.t) :
  GameState.own_canAffordSpin g = None ->
  exists data : GameState.Serialized,
    GameState.serialize g = JS.Return data
    /\ (let restored := fst (GameState.deserialize target data) in
        GameState.credits restored = GameState.credits g
        /\ GameState.jackpot restored = GameState.jackpot g
        /\ GameState.multiplier restored = GameState.multiplier g
        /\ GameState.luckMeter restored = GameState.luckMeter g
        /\ GameState.totalSpins restored = GameState.totalSpins g
        /\ GameState.totalWins restored = GameState.totalWins g
        /\ GameState.winStreak restored = GameState.winStreak g
        /\ GameState.biggestWin restored = GameState.biggestWin g
        /\ GameState.jackpots restored = GameState.jackpots g
        /\ GameState.comboCount restored = GameState.comboCount g
        /\ GameState.comboMultiplier restored = GameState.comboMultiplier g
        /\ GameState.upgrades restored = GameState.upgrades g
        /\ GameState.own_canAffordSpin restored = Some (GameState.canAffordSpin g)
        /\ GameState.call_canAffordSpin restored = JS.Throw JS.TypeError)
    /\ snd (GameState.deserialize target data) = JS.Throw JS.TypeError
    /\ GameState.call_canAffordSpin g = JS.Return (GameState.canAffordSpin g).
Proof.
  intros Hown.
  unfold GameState.serialize, GameState.call_canAffordSpin. rewrite Hown.
  eexists. split; [reflexivity |].
  cbn. rewrite JSON_copy_id. repeat split; reflexivity.
Qed.

Lemma deserialize_serialize_shadows_method_witness :
  GameState.own_canAffordSpin GameState.initial = None
  /\ GameState.call_canAffordSpin GameState.initial = JS.Return true
  /\ exists data : GameState.Serialized,
       GameState.serialize GameState.initial = JS.Return data
       /\ GameState.call_canAffordSpin
            (fst (GameState.deserialize GameState.initial data))
          = JS.Throw JS.TypeError.
Proof.
  split; [reflexivity | split; [reflexivity |]].
  destruct (deserialize_serialize_shadows_method
              GameState.initial GameState.initial eq_refl)
    as (data & Hdata & Hrestored & _).
  exists data. split; [exact Hdata |].
  apply Hrestored.
Defined.

(** ** The legacy selection against the refactored one *)


Lemma fallback_is_no_symbol :
  ~ In PaytableManager.fallback SLOT_CONFIG.SYMBOLS
  /\ JS.get SLOT_CONFIG.PAYOUTS PaytableManager.fallback = None.
Proof.
  split; [| reflexivity].
  simpl. intros H.
  repeat (destruct H as [H | H]; [discriminate H |]). exact H.
Qed.


(** The two functions at luck 0 and draw 1875. *)
Example legacy_selection_differs :
  PaytableManager.selectWinningSymbolAt (Sample.legacyWithLuck 0) 1875
  = PaytableManager.fallback
  /\ GameEngine.selectWinningSymbolAt (Sample.withLuck 0) 1875 = "🍒"
  /\ PaytableManager.fallback <> "🍒".
Proof. repeat split. discriminate. Qed.

(** ** Panels *)

Lemma string_length_app (a b : string) :
  String.length (a ++ b)%string = (String.length a + String.length b)%nat.
Proof.
  induction a as [|c a IH]; [reflexivity |].
  change (S (String.length (a ++ b)%string)
          = S (String.length a + String.length b)).
  now rewrite IH.
Qed.

Lemma string_app_inv_tail (s : string) :
  forall a b : string, (a ++ s = b ++ s)%string -> a = b.
Proof.
  induction a as [|c a IH]; intros [|d b] H.
  - reflexivity.
  - apply (f_equal String.length) in H. rewrite !string_length_app in H.
    cbn in H. lia.
  - apply (f_equal String.length) in H. rewrite !string_length_app in H.
    cbn in H. lia.
  - change (String c (a ++ s)%string = String d (b ++ s)%string) in H.
    injection H as -> H. f_equal. exact (IH _ H).
Qed.

Lemma JS_get_In {V : Type} (obj : list (string * V)) (key : string) (v : V) :
  JS.get obj key = Some v -> In (key, v) obj.
Proof.
  induction obj as [|[k w] rest IH]; simpl; [discriminate |].
  destruct (String.eqb k key) eqn:E.
  - apply String.eqb_eq in E. intros [= <-]. left. now subst.
  - intros H. right. exact (IH H).
Qed.

Lemma elementIds_inj (k1 k2 id : string) :
  JS.get UIManager.elementIds k1 = Some id ->
  JS.get UIManager.elementIds k2 = Some id ->
  k1 = k2.
Proof.
  intros H1 H2. apply JS_get_In in H1. apply JS_get_In in H2.
  assert (Hnd : NoDup (map snd UIManager.elementIds)).
  { apply (bool_decide_unpack _). vm_compute. exact I. }
  revert H1 H2 Hnd. generalize UIManager.elementIds as l.
  induction l as [|[k v] l IH]; simpl; [tauto |].
  intros [H1|H1] [H2|H2] Hnd; apply NoDup_cons in Hnd as [Hnotin Hnd].
  - congruence.
  - exfalso. apply Hnotin. injection H1 as _ ->.
    apply list_elem_of_In. apply (in_map snd) in H2. exact H2.
  - exfalso. apply Hnotin. injection H2 as _ ->.
    apply list_elem_of_In. apply (in_map snd) in H1. exact H1.
  - exact (IH H1 H2 Hnd).
Qed.

Lemma view_inj (b : Browser.t) (k1 k2 id d1 d2 : string) :
  UIManager.view b k1 = Some (id, d1) -> UIManager.view b k2 = Some (id, d2) -> k1 = k2.
Proof.
  unfold UIManager.view, UIManager.element.
  destruct (JS.get UIManager.elementIds k1) as [id1|] eqn:E1; [| discriminate].
  destruct (JS.get UIManager.elementIds k2) as [id2|] eqn:E2; [| discriminate].
  destruct (Browser.dom b !! id1); [| discriminate].
  destruct (Browser.dom b !! id2); [| discriminate].
  intros [= <- _] [= <- _]. exact (elementIds_inj _ _ _ E1 E2).
Qed.

Lemma view_setDisplay (b : Browser.t) (id value key : string) :
  UIManager.view (Browser.setDisplay id value b) key
  = match UIManager.view b key with
    | Some (id', d) => Some (id', if String.eqb id id' then value else d)
    | None => None
    end.
Proof.
  unfold UIManager.view, UIManager.element, Browser.setDisplay.
  cbn [Browser.dom Browser.with_dom].
  destruct (JS.get UIManager.elementIds key) as [id'|]; [| reflexivity].
  rewrite lookup_alter. case_decide as E.
  - subst id'. destruct (Browser.dom b !! id); cbn; [| reflexivity].
    now rewrite String.eqb_refl.
  - apply String.eqb_neq in E.
    destruct (Browser.dom b !! id') as [e|]; cbn; [| reflexivity].
    now rewrite E.
Qed.

Lemma view_setTextContent (b : Browser.t) (id value key : string) :
  UIManager.view (Browser.setTextContent id value b) key = UIManager.view b key.
Proof.
  unfold UIManager.view, UIManager.element, Browser.setTextContent.
  cbn [Browser.dom Browser.with_dom].
  destruct (JS.get UIManager.elementIds key) as [id'|]; [| reflexivity].
  rewrite lookup_alter. case_decide as E.
  - subst id'. destruct (Browser.dom b !! id); reflexivity.
  - reflexivity.
Qed.

Lemma view_classListToggle (b : Browser.t) (id class : string) (force : bool)
  (key : string) :
  UIManager.view (Browser.classListToggle id class force b) key = UIManager.view b key.
Proof.
  unfold UIManager.view, UIManager.element, Browser.classListToggle.
  cbn [Browser.dom Browser.with_dom].
  destruct (JS.get UIManager.elementIds key) as [id'|]; [| reflexivity].
  rewrite lookup_alter. case_decide as E.
  - subst id'. destruct (Browser.dom b !! id); reflexivity.
  - reflexivity.
Qed.

Lemma element_view (b : Browser.t) (key id : string) (e : Browser.Element) :
  UIManager.element b key = Some (id, e) -> UIManager.view b key = Some (id, Browser.display e).
Proof. unfold UIManager.view. now intros ->. Qed.

Lemma view_element (b : Browser.t) (key id d : string) :
  UIManager.view b key = Some (id, d) ->
  exists e, UIManager.element b key = Some (id, e) /\ Browser.display e = d.
Proof.
  unfold UIManager.view. destruct (UIManager.element b key) as [[id' e]|]; [| discriminate].
  intros [= <- <-]. now exists e.
Qed.

(** What the block under "Close current panel" does to the displays. *)
Lemma closeCurrentPanel_view (ui : UIManager.t) (panelType : string)
  (b : Browser.t) (key : string) :
  UIManager.view (UIManager.closeCurrentPanel ui panelType b) key
  = match UIManager.view b key with
    | None => None
    | Some (id, d) =>
        Some (id,
          match UIManager.activePanel ui with
          | None => d
          | Some active =>
              if negb (String.eqb active "") && negb (String.eqb active panelType)
              then
                match UIManager.view b (active ++ "Panel")%string with
                | Some (activeId, _) =>
                    if String.eqb activeId id then "none" else d
                | None => d
                end
              else d
          end)
    end.
Proof.
  unfold UIManager.closeCurrentPanel.
  destruct (UIManager.activePanel ui) as [active|];
    [| destruct (UIManager.view b key) as [[id d]|]; reflexivity].
  destruct (negb (String.eqb active "") && negb (String.eqb active panelType));
    [| destruct (UIManager.view b key) as [[id d]|]; reflexivity].
  set (b1 := match UIManager.element b (active ++ "Panel")%string with
             | Some (id, _) => Browser.setDisplay id "none" b
             | None => b
             end).
  assert (H1 : UIManager.view b1 key
               = match UIManager.view b key with
                 | None => None
                 | Some (id, d) =>
                     Some (id,
                       match UIManager.view b (active ++ "Panel")%string with
                       | Some (activeId, _) =>
                           if String.eqb activeId id then "none" else d
                       | None => d
                       end)
                 end).
  { subst b1. unfold UIManager.view at 3.
    destruct (UIManager.element b (active ++ "Panel")%string) as [[activeId e]|].
    - apply view_setDisplay.
    - destruct (UIManager.view b key) as [[id d]|]; reflexivity. }
  destruct (UIManager.element b1 (active ++ "Btn")%string) as [[buttonId e]|].
  - unfold Browser.classListRemove.
    rewrite view_setTextContent, view_classListToggle. exact H1.
  - exact H1.
Qed.

(** What [togglePanel] does to the displays and to [activePanel], for a
    panel that has both its elements. *)
Lemma togglePanel_view (ui : UIManager.t) (panelType : string) (b : Browser.t)
  (panelId buttonId d0 dB : string) :
  UIManager.view b (panelType ++ "Panel")%string = Some (panelId, d0) ->
  UIManager.view b (panelType ++ "Btn")%string = Some (buttonId, dB) ->
  let isVisible := negb (String.eqb d0 "none") in
  let after := UIManager.togglePanel ui panelType b in
  UIManager.activePanel (fst (fst after))
  = (if isVisible then None else Some panelType)
  /\ forall key : string,
       UIManager.view (snd after) key
       = match UIManager.view (UIManager.closeCurrentPanel ui panelType b) key with
         | None => None
         | Some (id, d) =>
             Some (id, if String.eqb panelId id
                       then (if isVisible then "none" else "block")
                       else d)
         end.
Proof.
  intros Hpanel Hbutton isVisible after. subst after.
  apply view_element in Hpanel as (panelElement & Hpanel & Hd0).
  apply view_element in Hbutton as (buttonElement & Hbutton & _).
  unfold UIManager.togglePanel. rewrite Hpanel, Hbutton. rewrite Hd0.
  fold isVisible. cbn [fst snd UIManager.activePanel].
  split; [reflexivity |].
  intros key.
  rewrite view_classListToggle, view_setTextContent, view_setDisplay.
  reflexivity.
Qed.

Lemma togglePanel_missing (ui : UIManager.t) (panelType : string) (b : Browser.t) :
  ~ UIManager.toggleable b panelType ->
  UIManager.togglePanel ui panelType b = ((ui, []), b).
Proof.
  unfold UIManager.toggleable, UIManager.togglePanel. intros Hnot.
  destruct (UIManager.element b (panelType ++ "Panel")%string) as [[panelId pe]|];
    [| reflexivity].
  destruct (UIManager.element b (panelType ++ "Btn")%string) as [[buttonId be]|];
    [| reflexivity].
  exfalso. apply Hnot. split; eexists; reflexivity.
Qed.

Lemma toggleable_view (b : Browser.t) (panelType : string) :
  UIManager.toggleable b panelType
  <-> (exists id d, UIManager.view b (panelType ++ "Panel")%string = Some (id, d))
      /\ (exists id d, UIManager.view b (panelType ++ "Btn")%string = Some (id, d)).
Proof.
  unfold UIManager.toggleable, UIManager.view.
  split.
  - intros [[[id e] ->] [[id' e'] ->]]. split; eexists _, _; reflexivity.
  - intros [(id & d & H) (id' & d' & H')].
    destruct (UIManager.element b (panelType ++ "Panel")%string) as [[? ?]|];
      [| discriminate].
    destruct (UIManager.element b (panelType ++ "Btn")%string) as [[? ?]|];
      [| discriminate].
    split; eexists; reflexivity.
Qed.

Lemma displayed_view (b : Browser.t) (panelType : string) :
  UIManager.displayed b panelType
  <-> exists id d, UIManager.view b (panelType ++ "Panel")%string = Some (id, d)
                   /\ d <> "none".
Proof.
  unfold UIManager.displayed. split.
  - intros (id & e & He & Hd). exists id, (Browser.display e).
    split; [now apply element_view | exact Hd].
  - intros (id & d & Hv & Hd). apply view_element in Hv as (e & He & <-).
    now exists id, e.
Qed.

Lemma not_toggleable_empty (b : Browser.t) : ~ UIManager.toggleable b "".
Proof.
  unfold UIManager.toggleable, UIManager.element.
  change ("" ++ "Panel")%string with "Panel".
  replace (JS.get UIManager.elementIds "Panel") with (@None string)
    by (vm_compute; reflexivity).
  intros [[x Hx] _]. discriminate.
Qed.

Lemma toggleable_dec (b : Browser.t) (panelType : string) :
  UIManager.toggleable b panelType \/ ~ UIManager.toggleable b panelType.
Proof.
  unfold UIManager.toggleable.
  destruct (UIManager.element b (panelType ++ "Panel")%string);
    destruct (UIManager.element b (panelType ++ "Btn")%string);
    try (left; split; eexists; reflexivity);
    right; intros [[? ?] [? ?]]; discriminate.
Qed.

(** After [togglePanel] the elements are the ones before, under the same
    keys and ids. *)
Lemma togglePanel_same_elements (ui : UIManager.t) (panelType : string)
  (b : Browser.t) (key id : string) :
  (exists d, UIManager.view (snd (UIManager.togglePanel ui panelType b)) key = Some (id, d))
  <-> (exists d, UIManager.view b key = Some (id, d)).
Proof.
  destruct (toggleable_dec b panelType) as [Hyes | Hno].
  - apply toggleable_view in Hyes as [(panelId & d0 & Hp) (buttonId & dB & Hb)].
    destruct (togglePanel_view ui panelType b _ _ _ _ Hp Hb) as [_ Hview].
    rewrite Hview, closeCurrentPanel_view.
    destruct (UIManager.view b key) as [[id' d]|].
    + split; intros [d' [= <- _]]; eexists; reflexivity.
    + split; intros [d' ?]; discriminate.
  - rewrite (togglePanel_missing _ _ _ Hno). reflexivity.
Qed.

Lemma togglePanel_toggleable (ui : UIManager.t) (panelType : string)
  (b : Browser.t) (q : string) :
  UIManager.toggleable (snd (UIManager.togglePanel ui panelType b)) q
  <-> UIManager.toggleable b q.
Proof.
  rewrite !toggleable_view.
  split; intros [(id & Hp) (id' & Hb)]; split.
  - exists id. apply (togglePanel_same_elements ui panelType b). exact Hp.
  - exists id'. apply (togglePanel_same_elements ui panelType b). exact Hb.
  - exists id. apply (togglePanel_same_elements ui panelType b). exact Hp.
  - exists id'. apply (togglePanel_same_elements ui panelType b). exact Hb.
Qed.

Lemma displayed_dec (b : Browser.t) (panelType : string) :
  UIManager.displayed b panelType \/ ~ UIManager.displayed b panelType.
Proof.
  rewrite displayed_view.
  destruct (UIManager.view b (panelType ++ "Panel")%string) as [[id d]|].
  - destruct (String.eqb d "none") eqn:E.
    + apply String.eqb_eq in E. right. intros (? & ? & [= _ <-] & Hd). now apply Hd.
    + apply String.eqb_neq in E. left. now exists id, d.
  - right. intros (? & ? & ? & _). discriminate.
Qed.

(** The panel that is toggled: hidden afterwards when it was displayed, and
    displayed afterwards when it was hidden. *)
Lemma togglePanel_own_display (ui : UIManager.t) (panelType : string)
  (b : Browser.t) :
  UIManager.toggleable b panelType ->
  (UIManager.displayed b panelType ->
     ~ UIManager.displayed (snd (UIManager.togglePanel ui panelType b)) panelType
     /\ UIManager.activePanel (fst (fst (UIManager.togglePanel ui panelType b)))
        = None)
  /\ (~ UIManager.displayed b panelType ->
       UIManager.displayed (snd (UIManager.togglePanel ui panelType b)) panelType
       /\ UIManager.activePanel (fst (fst (UIManager.togglePanel ui panelType b)))
          = Some panelType).
Proof.
  intros Hyes.
  apply toggleable_view in Hyes as [(panelId & d0 & Hp) (buttonId & dB & Hb)].
  destruct (togglePanel_view ui panelType b _ _ _ _ Hp Hb) as [Hactive Hview].
  rewrite Hactive. rewrite !displayed_view.
  specialize (Hview (panelType ++ "Panel")%string).
  rewrite closeCurrentPanel_view, Hp in Hview. rewrite String.eqb_refl in Hview.
  rewrite Hview, Hp.
  destruct (String.eqb d0 "none") eqn:E; cbn [negb].
  - apply String.eqb_eq in E. subst d0. split.
    + intros (id & d & [= _ <-] & Hd). now contradiction Hd.
    + intros _. split; [| reflexivity].
      exists panelId, "block". split; [reflexivity | discriminate].
  - apply String.eqb_neq in E. split.
    + intros _. split; [| reflexivity].
      intros (id & d & [= _ <-] & Hd). now apply Hd.
    + intros Hnot. exfalso. apply Hnot. now exists panelId, d0.
Qed.

(** Another panel that has its button is hidden after [togglePanel], when
    the panels agreed with [activePanel] before. *)
Lemma togglePanel_other_hidden (ui : UIManager.t) (panelType : string)
  (b : Browser.t) (q : string) :
  UIManager.consistent ui b ->
  UIManager.toggleable b panelType ->
  UIManager.toggleable b q ->
  q <> panelType ->
  ~ UIManager.displayed (snd (UIManager.togglePanel ui panelType b)) q.
Proof.
  intros [_ I2] Hyes Hq Hne.
  pose proof Hq as Hq'.
  apply toggleable_view in Hyes as [(panelId & d0 & Hp) (buttonId & dB & Hb)].
  apply toggleable_view in Hq' as [(qId & d & Hqp) _].
  destruct (togglePanel_view ui panelType b _ _ _ _ Hp Hb) as [_ Hview].
  rewrite displayed_view. intros (id & d' & Hd' & Hshown).
  rewrite Hview, closeCurrentPanel_view, Hqp in Hd'.
  assert (Hids : String.eqb panelId qId = false).
  { apply String.eqb_neq. intros ->. apply Hne. symmetry.
    apply (string_app_inv_tail "Panel"). exact (view_inj _ _ _ _ _ _ Hp Hqp). }
  rewrite Hids in Hd'. injection Hd' as _ Hd'.
  destruct (String.eqb d "none") eqn:Ed.
  - apply String.eqb_eq in Ed. subst d.
    destruct (UIManager.activePanel ui) as [active|]; [| congruence].
    destruct (negb (String.eqb active "") && negb (String.eqb active panelType));
      [| congruence].
    destruct (UIManager.view b (active ++ "Panel")%string) as [[activeId ?]|];
      [| congruence].
    destruct (String.eqb activeId qId); congruence.
  - apply String.eqb_neq in Ed.
    assert (Hactive : UIManager.activePanel ui = Some q).
    { apply I2; [exact Hq |]. apply displayed_view. now exists qId, d. }
    rewrite Hactive in Hd'.
    assert (Hq0 : String.eqb q "" = false).
    { apply String.eqb_neq. intros ->. exact (not_toggleable_empty b Hq). }
    assert (Hqp' : String.eqb q panelType = false) by now apply String.eqb_neq.
    rewrite Hq0, Hqp', Hqp in Hd'. cbn [negb andb] in Hd'.
    rewrite String.eqb_refl in Hd'. congruence.
Qed.

(** [togglePanel] keeps the panels in agreement with [activePanel]. *)
Lemma togglePanel_consistent (ui : UIManager.t) (panelType : string)
  (b : Browser.t) :
  UIManager.consistent ui b ->
  UIManager.consistent
    (fst (fst (UIManager.togglePanel ui panelType b)))
    (snd (UIManager.togglePanel ui panelType b)).
Proof.
  intros Hcons.
  destruct (toggleable_dec b panelType) as [Hyes | Hno].
  - destruct (togglePanel_own_display ui panelType b Hyes) as [Hclose Hopen].
    split.
    + intros p Hp.
      destruct (displayed_dec b panelType) as [Hshown | Hhidden].
      * destruct (Hclose Hshown) as [_ Hactive]. congruence.
      * destruct (Hopen Hhidden) as [Hnow Hactive].
        rewrite Hactive in Hp. injection Hp as <-. split; [| exact Hnow].
        apply togglePanel_toggleable. exact Hyes.
    + intros q Hq Hshown.
      apply togglePanel_toggleable in Hq.
      destruct (String.eqb q panelType) eqn:E.
      * apply String.eqb_eq in E. subst q.
        destruct (displayed_dec b panelType) as [Hbefore | Hbefore].
        -- destruct (Hclose Hbefore) as [Hnow _]. contradiction.
        -- exact (proj2 (Hopen Hbefore)).
      * apply String.eqb_neq in E. exfalso.
        exact (togglePanel_other_hidden ui panelType b q Hcons Hyes Hq E Hshown).
  - rewrite (togglePanel_missing _ _ _ Hno). exact Hcons.
Qed.

(** C10, as the code has it.  When the panels agree with [activePanel],
    [togglePanel(p)] keeps them so.  It changes nothing when the panel or
    the button of [p] is missing; otherwise it toggles the display of [p],
    sets [activePanel] to [p] when it opened the panel and to [null] when it
    closed it, and leaves every other panel that has a button hidden.  So of
    the panels that have a button at most one is displayed. *)
Theorem togglePanel_keeps_consistent (ui : UIManager.t) (panelType : string)
  (b : Browser.t) :
  UIManager.consistent ui b ->
  let ui' := fst (fst (UIManager.togglePanel ui panelType b)) in
  let b' := snd (UIManager.togglePanel ui panelType b) in
  UIManager.consistent ui' b'
  /\ (~ UIManager.toggleable b panelType -> ui' = ui /\ b' = b)
  /\ (UIManager.toggleable b panelType ->
        (UIManager.displayed b panelType ->
           ~ UIManager.displayed b' panelType
           /\ UIManager.activePanel ui' = None)
        /\ (~ UIManager.displayed b panelType ->
             UIManager.displayed b' panelType
             /\ UIManager.activePanel ui' = Some panelType)
        /\ (forall q : string,
              q <> panelType -> UIManager.toggleable b q ->
              ~ UIManager.displayed b' q))
  /\ (forall q1 q2 : string,
        UIManager.toggleable b' q1 -> UIManager.toggleable b' q2 ->
        UIManager.displayed b' q1 -> UIManager.displayed b' q2 ->
        q1 = q2).
Proof.
  intros Hcons ui' b'. subst ui' b'.
  pose proof (togglePanel_consistent ui panelType b Hcons) as Hkeep.
  split; [exact Hkeep | split; [| split]].
  - intros Hno. rewrite (togglePanel_missing _ _ _ Hno). now split.
  - intros Hyes.
    destruct (togglePanel_own_display ui panelType b Hyes) as [Hclose Hopen].
    split; [exact Hclose | split; [exact Hopen |]].
    intros q Hne Hq.
    exact (togglePanel_other_hidden ui panelType b q Hcons Hyes Hq Hne).
  - intros q1 q2 H1 H2 D1 D2. destruct Hkeep as [_ I2].
    pose proof (I2 _ H1 D1) as E1. pose proof (I2 _ H2 D2) as E2. congruence.
Qed.

Lemma togglePanels_consistent (panelTypes : list string) :
  forall (ui : UIManager.t) (b : Browser.t),
    UIManager.consistent ui b ->
    UIManager.consistent (fst (UIManager.togglePanels ui panelTypes b))
                         (snd (UIManager.togglePanels ui panelTypes b)).
Proof.
  induction panelTypes as [|p rest IH]; intros ui b Hcons; [exact Hcons |].
  cbn [UIManager.togglePanels].
  pose proof (togglePanel_consistent ui p b Hcons) as Hstep.
  destruct (UIManager.togglePanel ui p b) as [[ui' emitted] b'].
  apply IH. exact Hstep.
Qed.

Lemma string_strip_suffix (q s k : string) :
  (q ++ s)%string = k ->
  substring 0 (String.length k - String.length s) k = q.
Proof.
  intros <-.
  replace (String.length (q ++ s)%string - String.length s)%nat
    with (String.length q) by (rewrite string_length_app; lia).
  induction q as [|c q IH]; [destruct s; reflexivity |].
  change (String c q ++ s)%string with (String c (q ++ s)%string).
  cbn [String.length substring]. now rewrite IH.
Qed.

(** Only the upgrades and the stats panel have an entry in [this.elements]. *)
Lemma panel_types (q id : string) :
  JS.get UIManager.elementIds (q ++ "Panel")%string = Some id ->
  q = "upgrades" \/ q = "stats".
Proof.
  intros H. apply JS_get_In in H. unfold UIManager.elementIds in H.
  repeat (destruct H as [H | H];
    [injection H as Hk _;
     symmetry in Hk;
     pose proof (string_strip_suffix _ _ _ Hk) as Hq;
     vm_compute in Hq; subst q;
     first [left; reflexivity | right; reflexivity | discriminate Hk] |]).
  destruct H.
Qed.

Lemma page_consistent : UIManager.consistent UIManager.initial Sample.page.
Proof.
  split; [intros p [=] |].
  intros q [[[id e] Hpanel] [[id' e'] Hbutton]] (id2 & e2 & Hshown & Hd).
  exfalso.
  assert (Hq : q = "upgrades" \/ q = "stats").
  { unfold UIManager.element in Hpanel.
    destruct (JS.get UIManager.elementIds (q ++ "Panel")%string) as [i|] eqn:E;
      [| discriminate].
    exact (panel_types _ _ E). }
  destruct Hq as [-> | ->].
  - vm_compute in Hbutton. discriminate.
  - vm_compute in Hshown. injection Hshown as _ <-. apply Hd. reflexivity.
Qed.

Lemma togglePanel_keeps_consistent_witness :
  UIManager.consistent UIManager.initial Sample.page
  /\ UIManager.consistent
       (fst (fst (UIManager.togglePanel UIManager.initial "stats" Sample.page)))
       (snd (UIManager.togglePanel UIManager.initial "stats" Sample.page)).
Proof.
  split; [exact page_consistent |].
  exact (proj1 (togglePanel_keeps_consistent
                  UIManager.initial "stats" Sample.page page_consistent)).
Defined.

(** On a page that has both buttons and both panels hidden: after
    [togglePanel("upgrades")] and then [togglePanel("stats")] the stats
    panel is the active and the displayed one, and the upgrades panel is
    hidden again. *)
Example togglePanels_sample :
  let after :=
    UIManager.togglePanels UIManager.initial ["upgrades"; "stats"]
      Sample.pageWithUpgradesButton in
  UIManager.activePanel (fst after) = Some "stats"
  /\ UIManager.view (snd after) "upgradesPanel" = Some ("upgrades-panel", "none")
  /\ UIManager.view (snd after) "statsPanel" = Some ("stats-panel", "block")
  /\ (Browser.textContent <$> Browser.dom (snd after) !! "upgrades-btn") = Some "Upgrades"
  /\ (Browser.textContent <$> Browser.dom (snd after) !! "stats-btn") = Some "Hide Stats".
Proof. cbv zeta. repeat split; vm_compute; reflexivity. Qed.

(** C10 as stated fails on the page the application builds: the upgrades
    panel has no button and no inline style, so it counts as displayed from
    the start, with [activePanel] null; after [togglePanel("stats")] the
    upgrades panel and the stats panel are both displayed. *)
Lemma togglePanel_both_displayed :
  let after := UIManager.togglePanel UIManager.initial "stats" Sample.page in
  UIManager.activePanel UIManager.initial = None
  /\ UIManager.displayed Sample.page "upgrades"
  /\ UIManager.activePanel (fst (fst after)) = Some "stats"
  /\ UIManager.displayed (snd after) "upgrades"
  /\ UIManager.displayed (snd after) "stats".
Proof.
  cbv zeta. rewrite !displayed_view.
  split; [reflexivity | split; [| split; [reflexivity | split]]].
  - exists "upgrades-panel", "". split; [vm_compute; reflexivity | discriminate].
  - exists "upgrades-panel", "". split; [vm_compute; reflexivity | discriminate].
  - exists "stats-panel", "block". split; [vm_compute; reflexivity | discriminate].
Qed.

(** ** The inventory and localStorage *)

Section InventoryProperties.

Context {Item : Type} `{InventoryManager.InventoryItem Item}.

Lemma saveInventory_saved (now : JS.number) (m : InventoryManager.t Item)
  (b : Browser.t) :
  InventoryManager.saved now m b (snd (InventoryManager.saveInventory now m b)).
Proof.
  unfold InventoryManager.saved, InventoryManager.saveInventory,
    InventoryManager.persisted, Browser.setItem.
  destruct (InventoryManager.inventoryData now m) as [data|e].
  - split; [|split].
    + intros ? [= <-] Hroom. rewrite Hroom. cbn [snd].
      exists data. split; [reflexivity|].
      cbn [Browser.localStorage Browser.with_localStorage].
      apply lookup_insert_eq.
    + intros ? [= <-] Hfull. now rewrite Hfull.
    + intros ? [=].
  - split; [|split]; [intros ? [=]..|reflexivity].
Qed.

Ltac split_operation :=
  repeat match goal with
  | |- context [match ?x with _ => _ end] => destruct x eqn:?
  | |- context [if ?x then _ else _] => destruct x eqn:?
  end.

Ltac saved_or_absurd :=
  split_operation;
  match goal with
  | |- _ = _ -> _ =>
      let E := fresh "E" in
      intros E;
      first [ discriminate E
            | injection E; clear E; intros;
              repeat match goal with
                     | Heq : _ = ?x |- _ => is_var x; subst x
                     end;
              apply saveInventory_saved ]
  end.

Lemma addItem_saved (now : JS.number)
  (argument : InventoryManager.ItemArgument) (quantity : JS.number)
  (preferredSlot : Z) (m m' : InventoryManager.t Item) (b b' : Browser.t) :
  InventoryManager.addItem now argument quantity preferredSlot m b = ((true, m'), b') ->
  InventoryManager.saved now m' b b'.
Proof.
  unfold InventoryManager.addItem. saved_or_absurd.
Qed.

Lemma removeItem_saved (now : JS.number) (slotIndex : Z)
  (quantity : JS.number) (removed : Item)
  (m m' : InventoryManager.t Item) (b b' : Browser.t) :
  InventoryManager.removeItem now slotIndex quantity m b = ((Some removed, m'), b') ->
  InventoryManager.saved now m' b b'.
Proof.
  unfold InventoryManager.removeItem. saved_or_absurd.
Qed.

Lemma moveItem_saved (now : JS.number) (fromSlot toSlot : Z)
  (quantity : JS.number) (m m' : InventoryManager.t Item) (b b' : Browser.t) :
  fromSlot <> toSlot ->
  InventoryManager.moveItem now fromSlot toSlot quantity m b = ((true, m'), b') ->
  InventoryManager.saved now m' b b'.
Proof.
  intros Hne. unfold InventoryManager.moveItem.
  destruct (fromSlot =? toSlot)%Z eqn:E; [apply Z.eqb_eq in E; contradiction |].
  saved_or_absurd.
Qed.

Lemma useItem_saved (now : JS.number) (slotIndex : Z)
  (quantity : JS.number) (m m' : InventoryManager.t Item) (b b' : Browser.t) :
  InventoryManager.useItem now slotIndex quantity m b = ((true, m'), b') ->
  InventoryManager.saved now m' b b'.
Proof.
  unfold InventoryManager.useItem. saved_or_absurd.
Qed.

Lemma sortInventory_saved (now : JS.number) (sortBy : string)
  (ascending : bool) (m : InventoryManager.t Item) (b : Browser.t) :
  InventoryManager.saved now
    (fst (InventoryManager.sortInventory now sortBy ascending m b)) b
    (snd (InventoryManager.sortInventory now sortBy ascending m b)).
Proof.
  unfold InventoryManager.sortInventory. cbn [fst snd].
  apply saveInventory_saved.
Qed.

(** What [slotsToJSON] returns when every [toJSON] returns: the value of
    each slot, in order. *)
Lemma slotsToJSON_returns (s : list (option Item)) :
  (forall item : Item,
     In (Some item) s -> exists value, InventoryManager.toJSON item = JS.Return value) ->
  exists values : list JSON.value,
    InventoryManager.slotsToJSON s = JS.Return values
    /\ Forall2 (fun slot value =>
                  match slot with
                  | Some item => InventoryManager.toJSON item = JS.Return value
                  | None => value = JSON.Null
                  end) s values.
Proof.
  induction s as [|slot rest IH]; intros Hitems.
  - exists []. split; [reflexivity|constructor].
  - destruct IH as (values & Erest & Hrest).
    { intros item Hin. apply Hitems. now right. }
    cbn [InventoryManager.slotsToJSON]. rewrite Erest.
    destruct slot as [item|].
    + destruct (Hitems item (or_introl eq_refl)) as [value Evalue].
      rewrite Evalue. exists (value :: values).
      split; [reflexivity|]. now constructor.
    + exists (JSON.Null :: values). split; [reflexivity|]. now constructor.
Qed.

End InventoryProperties.

(** C4, as the code has it.  For every implementation of the items: when
    [addItem] returns true, [removeItem] returns an item, [moveItem] between
    two different slots returns true, [useItem] returns true, and after
    [sortInventory], the browser is what [saveInventory] makes of it for the
    slots of the manager as they are at the end of the operation.  When
    [toJSON] returns for every item and localStorage takes the write,
    localStorage then holds under [options.storageKey] the slots (each item
    by its [toJSON], an empty slot as [null]) with the metadata [savedAt],
    [version] and [operationCount]; the default key is "inventory-data".
    When [toJSON], [JSON.stringify] or [localStorage.setItem] throws, the
    [catch] of [saveInventory] swallows the error: the browser is unchanged
    and the operation reports its success all the same. *)
Theorem inventory_operations_persist (Item : Type)
  (items : InventoryManager.InventoryItem Item)
  (now : JS.number) (m : InventoryManager.t Item) (b : Browser.t) :
  (forall argument quantity preferredSlot m' b',
     InventoryManager.addItem now argument quantity preferredSlot m b = ((true, m'), b') ->
     InventoryManager.saved now m' b b')
  /\ (forall slotIndex quantity removed m' b',
        InventoryManager.removeItem now slotIndex quantity m b
        = ((Some removed, m'), b') ->
        InventoryManager.saved now m' b b')
  /\ (forall fromSlot toSlot quantity m' b',
        fromSlot <> toSlot ->
        InventoryManager.moveItem now fromSlot toSlot quantity m b = ((true, m'), b') ->
        InventoryManager.saved now m' b b')
  /\ (forall slotIndex quantity m' b',
        InventoryManager.useItem now slotIndex quantity m b = ((true, m'), b') ->
        InventoryManager.saved now m' b b')
  /\ (forall sortBy ascending,
        InventoryManager.saved now
          (fst (InventoryManager.sortInventory now sortBy ascending m b)) b
          (snd (InventoryManager.sortInventory now sortBy ascending m b)))
  /\ InventoryManager.storageKey InventoryManager.defaultOptions = "inventory-data"
  /\ (forall m' : InventoryManager.t Item,
        (forall item : Item,
           In (Some item) (InventoryManager.slots m') ->
           exists value, InventoryManager.toJSON item = JS.Return value) ->
        exists values : list JSON.value,
          Forall2 (fun slot value =>
                     match slot with
                     | Some item => InventoryManager.toJSON item = JS.Return value
                     | None => value = JSON.Null
                     end) (InventoryManager.slots m') values
          /\ InventoryManager.inventoryData now m'
             = JS.Return
                 (JSON.Object
                    [("slots", JSON.Array values);
                     ("metadata",
                      JSON.Object
                        [("savedAt", JSON.Number now);
                         ("version", JSON.String "1.0.0");
                         ("operationCount",
                          JSON.Number (InventoryManager.operationCount m'))])])).
Proof.
  split; [intros; eapply addItem_saved; eassumption|].
  split; [intros; eapply removeItem_saved; eassumption|].
  split; [intros; eapply moveItem_saved; eassumption|].
  split; [intros; eapply useItem_saved; eassumption|].
  split; [intros; apply sortInventory_saved|].
  split; [reflexivity|].
  intros m' Hitems.
  destruct (slotsToJSON_returns (InventoryManager.slots m') Hitems)
    as (values & Evalues & Hvalues).
  exists values. split; [exact Hvalues|].
  unfold InventoryManager.inventoryData. now rewrite Evalues.
Qed.

(** The operations of the theorem do succeed: on the sample inventory each
    returns its success value. *)
Example inventory_operations_succeed :
  let m := Sample.fullInventory in
  fst (fst (InventoryManager.addItem 1000 (InventoryManager.templateId "health_potion")
              5 (-1) m Sample.page)) = true
  /\ fst (fst (InventoryManager.removeItem 1000 1 (-1) m Sample.page))
     = Some {| Sample.name := "Iron Sword"; Sample.count := 1;
               Sample.maxStackSize := 1; Sample.canStack := false |}
  /\ fst (fst (InventoryManager.moveItem 1000 0 1 (-1) m Sample.page)) = true
  /\ fst (fst (InventoryManager.useItem 1000 0 1 m Sample.page)) = true
  /\ InventoryManager.slots
       (fst (InventoryManager.sortInventory 1000 "quantity" true m Sample.page))
     = [Some {| Sample.name := "Iron Sword"; Sample.count := 1;
                Sample.maxStackSize := 1; Sample.canStack := false |};
        Some (Sample.potions 15)].
Proof. repeat split. Qed.

(** In a browser whose localStorage takes the write, the slots are
    persisted; in one that takes no write, [addItem] returns true all the
    same, and localStorage stays as it was. *)
Example addItem_with_and_without_storage :
  let m := Sample.longInventory in
  let kept :=
    InventoryManager.addItem 1000 (InventoryManager.instance Sample.sword) 1
      (-1) m Sample.page in
  let lost :=
    InventoryManager.addItem 1000 (InventoryManager.instance Sample.sword) 1
      (-1) m Sample.pageWithoutStorage in
  fst (fst kept) = true
  /\ InventoryManager.persisted 1000 (snd (fst kept)) (snd kept)
  /\ fst (fst lost) = true
  /\ snd (fst lost) = snd (fst kept)
  /\ snd lost = Sample.pageWithoutStorage
  /\ Browser.localStorage (snd lost) !! "inventory-data" = None.
Proof.
  cbv zeta. split; [reflexivity|]. split; [|repeat split].
  eexists. split; reflexivity.
Qed.

(** C4 as stated fails for [moveItem] with equal slots: it returns true
    before it reads or writes anything, and localStorage stays empty. *)
Lemma moveItem_same_slot_not_persisted :
  let m := Sample.fullInventory in
  let after := InventoryManager.moveItem 1000 0 0 (-1) m Sample.page in
  fst (fst after) = true
  /\ Browser.localStorage (snd after) !! "inventory-data" = None
  /\ ~ InventoryManager.persisted 1000 (snd (fst after)) (snd after).
Proof.
  cbv zeta. split; [reflexivity | split; [reflexivity |]].
  intros (data & _ & Hstored). cbn in Hstored. discriminate.
Qed.

(** ** Adding to a full inventory *)

(** When [addItem] returns false nothing is written to the browser, and the
    slots are the ones [tryStackItem] leaves: the slots before the call when
    auto-stacking is off or the item is not stackable. *)
Lemma addItem_false_slots (Item : Type)
  (items : InventoryManager.InventoryItem Item)
  (now : JS.number) (item : Item) (quantity : JS.number) (preferredSlot : Z)
  (m m' : InventoryManager.t Item) (b b' : Browser.t) :
  InventoryManager.addItem now (InventoryManager.instance item)
    quantity preferredSlot m b = ((false, m'), b') ->
  b' = b
  /\ InventoryManager.slots m'
     = (if InventoryManager.autoStack (InventoryManager.options m)
           && InventoryManager.stackable item
        then fst (InventoryManager.tryStackLoop (InventoryManager.slots m) item)
        else InventoryManager.slots m).
Proof.
  unfold InventoryManager.addItem, InventoryManager.tryStackItem.
  destruct (InventoryManager.autoStack (InventoryManager.options m)
            && InventoryManager.stackable item).
  - destruct (InventoryManager.tryStackLoop (InventoryManager.slots m) item)
      as [s [remaining|]]; cbn [fst].
    + destruct (_ || _ || _); destruct (_ =? -1)%Z; intros [= <- <-];
        split; reflexivity.
    + intros [=].
  - destruct (_ || _ || _); destruct (_ =? -1)%Z; intros [= <- <-];
      split; reflexivity.
Qed.

(** The loop of [tryStackItem] leaves the slots alone when no slot item can
    stack with the item. *)
Lemma tryStackLoop_unchanged (Item : Type)
  (items : InventoryManager.InventoryItem Item) (item : Item)
  (s : list (option Item)) :
  (forall slotItem : Item,
     In (Some slotItem) s -> InventoryManager.canStackWith slotItem item = false) ->
  InventoryManager.tryStackLoop s item = (s, Some item).
Proof.
  induction s as [|[slotItem|] rest IH]; intros Hnone;
    cbn [InventoryManager.tryStackLoop].
  - reflexivity.
  - rewrite (Hnone slotItem) by now left.
    rewrite IH; [reflexivity |]. intros other Hin. apply Hnone. now right.
  - rewrite IH; [reflexivity |]. intros other Hin. apply Hnone. now right.
Qed.

(** It changes the first slot as soon as the item there can stack with the
    item and [stackWith] changes it. *)
Lemma tryStackLoop_head_changes (Item : Type)
  (items : InventoryManager.InventoryItem Item) (item slotItem : Item)
  (rest : list (option Item)) :
  InventoryManager.canStackWith slotItem item = true ->
  fst (InventoryManager.stackWith slotItem item) <> slotItem ->
  fst (InventoryManager.tryStackLoop (Some slotItem :: rest) item)
  <> Some slotItem :: rest.
Proof.
  intros Hcan Hchanged. cbn [InventoryManager.tryStackLoop]. rewrite Hcan.
  destruct (InventoryManager.stackWith slotItem item) as [slotItem' remaining].
  cbn [fst] in Hchanged.
  destruct (JS.eq remaining 0).
  - cbn [fst]. intros [= Heq]. now apply Hchanged.
  - destruct (InventoryManager.tryStackLoop rest _) as [rest' remainingItem].
    cbn [fst]. intros [= Heq _]. now apply Hchanged.
Qed.

(** C6 on the code.  The two slots of the sample inventory are taken, the
    first by 15 health potions of at most 20; adding 10 health potions finds
    no empty slot and returns false, yet the first slot now holds 20: the
    loop of [tryStackItem] has moved 5 of them into it before [addItem]
    looked for an empty slot. *)
Theorem addItem_full_changes_slot :
  let m := Sample.fullInventory in
  let after :=
    InventoryManager.addItem 1000 (InventoryManager.instance (Sample.potions 10))
      1 (-1) m Sample.page in
  InventoryManager.findEmptySlot m = (-1)%Z
  /\ fst (fst after) = false
  /\ snd after = Sample.page
  /\ InventoryManager.slots m !! 0%nat = Some (Some (Sample.potions 15))
  /\ InventoryManager.slots (snd (fst after)) !! 0%nat = Some (Some (Sample.potions 20))
  /\ InventoryManager.slots (snd (fst after)) <> InventoryManager.slots m.
Proof.
  cbv zeta. repeat split. cbn. discriminate.
Qed.

(** ** Auto spin *)

Lemma cancelAutoSpin_spec (m : EnhancedSlotMachine.t) (b : Browser.t) :
  EnhancedSlotMachine.invariant (m, b) ->
  let after := EnhancedSlotMachine.cancelAutoSpin m b in
  EnhancedSlotMachine.autoSpinTimeout (fst after) = None
  /\ EnhancedSlotMachine.noAutoSpinPending (snd after)
  /\ EnhancedSlotMachine.invariant after
  /\ EnhancedSlotMachine.autoSpinActive (fst after)
     = EnhancedSlotMachine.autoSpinActive m
  /\ EnhancedSlotMachine.gameState (fst after) = EnhancedSlotMachine.gameState m.
Proof.
  intros Hinv. pose proof Hinv as [I1 I2]. cbn [fst snd] in I1, I2.
  unfold EnhancedSlotMachine.cancelAutoSpin.
  destruct (EnhancedSlotMachine.autoSpinTimeout m) as [handle|] eqn:E; cbv zeta.
  - assert (Hnone : EnhancedSlotMachine.noAutoSpinPending (Browser.clearTimeout handle b)).
    { intros h. unfold Browser.clearTimeout.
      cbn [Browser.timers Browser.with_timers].
      rewrite lookup_delete. case_decide as Eh; [discriminate |].
      intros Hh. apply I1 in Hh. congruence. }
    cbn [fst snd]. repeat split; try reflexivity; try exact Hnone.
    + intros h Hh. exfalso. exact (Hnone h Hh).
    + intros h Hh. cbn [snd] in Hh |- *.
      unfold Browser.clearTimeout in Hh |- *.
      cbn [Browser.timers Browser.nextTimer Browser.with_timers] in Hh |- *.
      apply I2. rewrite lookup_delete in Hh.
      case_decide; [destruct Hh; discriminate | exact Hh].
  - cbn [fst snd]. repeat split; try reflexivity.
    + exact E.
    + intros h Hh. apply I1 in Hh. discriminate.
    + exact (proj1 Hinv).
    + exact (proj2 Hinv).
Qed.

Lemma scheduleAutoSpin_spec (m : EnhancedSlotMachine.t) (b : Browser.t) :
  EnhancedSlotMachine.invariant (m, b) ->
  let after := EnhancedSlotMachine.scheduleAutoSpin m b in
  EnhancedSlotMachine.invariant after
  /\ EnhancedSlotMachine.autoSpinActive (fst after)
     = EnhancedSlotMachine.autoSpinActive m
  /\ EnhancedSlotMachine.gameState (fst after) = EnhancedSlotMachine.gameState m.
Proof.
  intros Hinv. cbv zeta.
  destruct (cancelAutoSpin_spec m b Hinv) as (_ & Hnone & [_ I2] & Hactive & Hgame).
  unfold EnhancedSlotMachine.scheduleAutoSpin.
  destruct (EnhancedSlotMachine.cancelAutoSpin m b) as [m1 b1].
  cbn [fst snd] in *.
  unfold Browser.setTimeout. cbn [fst snd].
  repeat split; try assumption.
  - intros h. cbn [fst snd Browser.timers Browser.with_timers
                   EnhancedSlotMachine.autoSpinTimeout
                   EnhancedSlotMachine.with_timeout].
    rewrite lookup_insert. case_decide as Eh; [now subst |].
    intros Hh. exfalso. exact (Hnone h Hh).
  - intros h. cbn [snd Browser.timers Browser.nextTimer Browser.with_timers].
    rewrite lookup_insert. case_decide as Eh.
    + subst h. intros _. lia.
    + intros Hh. apply I2 in Hh. lia.
Qed.

Lemma handleGameError_spec (m : EnhancedSlotMachine.t) (b : Browser.t) :
  EnhancedSlotMachine.invariant (m, b) ->
  let after := EnhancedSlotMachine.handleGameError m b in
  EnhancedSlotMachine.invariant after
  /\ EnhancedSlotMachine.autoSpinActive (fst after) = false.
Proof.
  intros Hinv. cbv zeta.
  destruct (cancelAutoSpin_spec m b Hinv) as (_ & _ & [I1 I2] & _).
  unfold EnhancedSlotMachine.handleGameError.
  destruct (EnhancedSlotMachine.cancelAutoSpin m b) as [m1 b1].
  split; [split |]; [exact I1 | exact I2 | reflexivity].
Qed.

(** Every event keeps the invariant. *)
Lemma step_invariant (state : EnhancedSlotMachine.t * Browser.t)
  (input : EnhancedSlotMachine.Input) :
  EnhancedSlotMachine.invariant state ->
  EnhancedSlotMachine.invariant (fst (EnhancedSlotMachine.step state input)).
Proof.
  destruct state as [m b]. intros Hinv.
  destruct input as [active | handle | | | | | g | label];
    cbn [EnhancedSlotMachine.step].
  - unfold EnhancedSlotMachine.onAutoSpinToggled.
    assert (Hinv' : EnhancedSlotMachine.invariant
                      (EnhancedSlotMachine.with_active m active, b))
      by exact Hinv.
    destruct active; cbn [EnhancedSlotMachine.autoSpinActive
                          EnhancedSlotMachine.with_active fst].
    + exact (proj1 (scheduleAutoSpin_spec _ _ Hinv')).
    + exact (proj1 (proj2 (proj2 (cancelAutoSpin_spec _ _ Hinv')))).
  - destruct Hinv as [I1 I2]. cbn [fst snd] in I1, I2.
    destruct (Browser.timers b !! handle) as [[|label]|] eqn:E; cbn [fst];
      try (split; assumption).
    all: split; intros h; unfold Browser.clearTimeout;
      cbn [fst snd Browser.timers Browser.nextTimer Browser.with_timers];
      rewrite lookup_delete; case_decide;
      try discriminate; try (intros [? ?]; discriminate);
      first [apply I1 | apply I2].
  - unfold EnhancedSlotMachine.endOfSpinRequest.
    destruct (EnhancedSlotMachine.autoSpinActive m); [| exact Hinv].
    destruct (GameState.call_canAffordSpin _) as [[|]|e].
    + pose proof (proj1 (scheduleAutoSpin_spec m b Hinv)) as Hs.
      destruct (EnhancedSlotMachine.scheduleAutoSpin m b). exact Hs.
    + exact Hinv.
    + pose proof (proj1 (handleGameError_spec m b Hinv)) as Hs.
      destruct (EnhancedSlotMachine.handleGameError m b). exact Hs.
  - exact (proj1 (handleGameError_spec m b Hinv)).
  - unfold EnhancedSlotMachine.resetGame.
    destruct (cancelAutoSpin_spec m b Hinv) as (_ & _ & [I1 I2] & _).
    destruct (EnhancedSlotMachine.cancelAutoSpin m b) as [m1 b1].
    split; [exact I1 | exact I2].
  - exact Hinv.
  - exact Hinv.
  - destruct Hinv as [I1 I2]. cbn [fst snd] in I1, I2.
    split; intros h; unfold Browser.setTimeout;
      cbn [fst snd Browser.timers Browser.nextTimer Browser.with_timers];
      rewrite lookup_insert; case_decide as Eh.
    + discriminate.
    + apply I1.
    + subst h. intros _. lia.
    + intros Hh. apply I2 in Hh. lia.
Qed.

(** [SPIN_STARTED] comes from the auto-spin timer only, and only while auto
    spin is on. *)
Lemma step_emits_while_active (state : EnhancedSlotMachine.t * Browser.t)
  (input : EnhancedSlotMachine.Input) :
  In EnhancedSlotMachine.SPIN_STARTED (snd (EnhancedSlotMachine.step state input)) ->
  EnhancedSlotMachine.autoSpinActive (fst state) = true
  /\ EnhancedSlotMachine.autoSpinActive (fst (fst (EnhancedSlotMachine.step state input)))
     = true
  /\ exists handle : positive,
       input = EnhancedSlotMachine.timerFires handle
       /\ Browser.timers (snd state) !! handle = Some Browser.autoSpinCallback.
Proof.
  destruct state as [m b].
  destruct input as [active | handle | | | | | g | label];
    cbn [EnhancedSlotMachine.step fst snd]; try (intros []).
  - destruct (Browser.timers b !! handle) as [[|label]|] eqn:E; cbn [fst snd];
      try (intros []).
    unfold EnhancedSlotMachine.autoSpinCallback.
    destruct (EnhancedSlotMachine.autoSpinActive m) eqn:Ea; [| intros []].
    intros _. repeat split; try assumption. now exists handle.
  - unfold EnhancedSlotMachine.endOfSpinRequest.
    destruct (EnhancedSlotMachine.autoSpinActive m); [| intros []].
    destruct (GameState.call_canAffordSpin _) as [[|]|e].
    + destruct (EnhancedSlotMachine.scheduleAutoSpin m b). intros [].
    + intros [].
    + destruct (EnhancedSlotMachine.handleGameError m b).
      cbn [snd]. intros [Habs | []]. discriminate.
Qed.

Lemma clearTimeout_noAutoSpinPending (handle : positive) (b : Browser.t) :
  EnhancedSlotMachine.noAutoSpinPending b ->
  EnhancedSlotMachine.noAutoSpinPending (Browser.clearTimeout handle b).
Proof.
  intros Hnone h. unfold Browser.clearTimeout.
  cbn [Browser.timers Browser.with_timers].
  rewrite lookup_delete. case_decide; [discriminate | apply Hnone].
Qed.

Lemma cancelAutoSpin_noAutoSpinPending (m : EnhancedSlotMachine.t)
  (b : Browser.t) :
  EnhancedSlotMachine.noAutoSpinPending b ->
  EnhancedSlotMachine.noAutoSpinPending
    (snd (EnhancedSlotMachine.cancelAutoSpin m b))
  /\ EnhancedSlotMachine.autoSpinActive
       (fst (EnhancedSlotMachine.cancelAutoSpin m b))
     = EnhancedSlotMachine.autoSpinActive m.
Proof.
  intros Hnone. unfold EnhancedSlotMachine.cancelAutoSpin.
  destruct (EnhancedSlotMachine.autoSpinTimeout m) as [handle|]; cbn [fst snd].
  - split; [now apply clearTimeout_noAutoSpinPending | reflexivity].
  - now split.
Qed.

(** While auto spin is off, an event that does not turn it on leaves it
    off, emits nothing and starts no auto-spin timer. *)
Lemma step_off (state : EnhancedSlotMachine.t * Browser.t)
  (input : EnhancedSlotMachine.Input) :
  EnhancedSlotMachine.autoSpinActive (fst state) = false ->
  EnhancedSlotMachine.noAutoSpinPending (snd state) ->
  EnhancedSlotMachine.turnsOn input = false ->
  let after := EnhancedSlotMachine.step state input in
  EnhancedSlotMachine.autoSpinActive (fst (fst after)) = false
  /\ EnhancedSlotMachine.noAutoSpinPending (snd (fst after))
  /\ snd after = [].
Proof.
  destruct state as [m b]. cbn [fst snd]. intros Hoff Hnone Hinput. cbv zeta.
  destruct input as [[|] | handle | | | | | g | label];
    cbn [EnhancedSlotMachine.step fst snd]; try discriminate Hinput.
  - unfold EnhancedSlotMachine.onAutoSpinToggled.
    cbn [EnhancedSlotMachine.autoSpinActive EnhancedSlotMachine.with_active].
    destruct (cancelAutoSpin_noAutoSpinPending
                (EnhancedSlotMachine.with_active m false) b Hnone) as [Hn Ha].
    repeat split; assumption.
  - destruct (Browser.timers b !! handle) as [[|label]|] eqn:E; cbn [fst snd].
    + exfalso. exact (Hnone handle E).
    + repeat split; [assumption | now apply clearTimeout_noAutoSpinPending].
    + repeat split; assumption.
  - unfold EnhancedSlotMachine.endOfSpinRequest. rewrite Hoff.
    repeat split; assumption.
  - unfold EnhancedSlotMachine.handleGameError.
    destruct (cancelAutoSpin_noAutoSpinPending m b Hnone) as [Hn _].
    destruct (EnhancedSlotMachine.cancelAutoSpin m b) as [m1 b1].
    repeat split. exact Hn.
  - unfold EnhancedSlotMachine.resetGame.
    destruct (cancelAutoSpin_noAutoSpinPending m b Hnone) as [Hn _].
    destruct (EnhancedSlotMachine.cancelAutoSpin m b) as [m1 b1].
    repeat split. exact Hn.
  - repeat split. exact Hnone.
  - repeat split; assumption.
  - repeat split; [assumption |].
    intros h. unfold Browser.setTimeout.
    cbn [snd Browser.timers Browser.with_timers].
    rewrite lookup_insert. case_decide; [discriminate | apply Hnone].
Qed.

Lemma run_invariant (inputs : list EnhancedSlotMachine.Input) :
  forall state : EnhancedSlotMachine.t * Browser.t,
    EnhancedSlotMachine.invariant state ->
    EnhancedSlotMachine.invariant (fst (EnhancedSlotMachine.run state inputs)).
Proof.
  induction inputs as [|input rest IH]; intros state Hinv; [exact Hinv |].
  cbn [EnhancedSlotMachine.run].
  pose proof (step_invariant state input Hinv) as Hstep.
  destruct (EnhancedSlotMachine.step state input) as [state' emitted].
  specialize (IH state' Hstep).
  destruct (EnhancedSlotMachine.run state' rest) as [final emitted'].
  exact IH.
Qed.

Lemma run_off (inputs : list EnhancedSlotMachine.Input) :
  forall state : EnhancedSlotMachine.t * Browser.t,
    EnhancedSlotMachine.autoSpinActive (fst state) = false ->
    EnhancedSlotMachine.noAutoSpinPending (snd state) ->
    forallb (fun input => negb (EnhancedSlotMachine.turnsOn input)) inputs = true ->
    let after := EnhancedSlotMachine.run state inputs in
    EnhancedSlotMachine.autoSpinActive (fst (fst after)) = false
    /\ EnhancedSlotMachine.noAutoSpinPending (snd (fst after))
    /\ snd after = [].
Proof.
  induction inputs as [|input rest IH]; intros state Hoff Hnone Hinputs; cbv zeta.
  - repeat split; assumption.
  - cbn [forallb] in Hinputs. apply andb_true_iff in Hinputs as [Hinput Hrest].
    apply negb_true_iff in Hinput.
    cbn [EnhancedSlotMachine.run].
    destruct (step_off state input Hoff Hnone Hinput) as (Hoff' & Hnone' & Hemit).
    destruct (EnhancedSlotMachine.step state input) as [state' emitted].
    cbn [fst snd] in Hoff', Hnone', Hemit. subst emitted.
    destruct (IH state' Hoff' Hnone' Hrest) as (Hoff'' & Hnone'' & Hemit').
    destruct (EnhancedSlotMachine.run state' rest) as [final emitted'].
    cbn [fst snd] in *. subst emitted'. repeat split; assumption.
Qed.

(** C7. From a state in which the only auto-spin timer that may be pending
    is the recorded one, after any events: the listener of
    [auto_spin_toggled] with [active = false] leaves [autoSpinActive] false,
    [autoSpinTimeout] null and no auto-spin timer pending; from then on, as
    long as no event turns auto spin on again, nothing is emitted, auto spin
    stays off and no auto-spin timer is pending; and in every state
    [SPIN_STARTED] is emitted only by the auto-spin timer and only while
    [autoSpinActive] is true. *)
Theorem auto_spin_cancellation (state : EnhancedSlotMachine.t * Browser.t)
  (before after : list EnhancedSlotMachine.Input) :
  EnhancedSlotMachine.invariant state ->
  let reached := fst (EnhancedSlotMachine.run state before) in
  let off :=
    fst (EnhancedSlotMachine.step reached
           (EnhancedSlotMachine.auto_spin_toggled false)) in
  (EnhancedSlotMachine.autoSpinActive (fst off) = false
   /\ EnhancedSlotMachine.autoSpinTimeout (fst off) = None
   /\ EnhancedSlotMachine.noAutoSpinPending (snd off))
  /\ (forallb (fun input => negb (EnhancedSlotMachine.turnsOn input)) after = true ->
      snd (EnhancedSlotMachine.run off after) = []
      /\ EnhancedSlotMachine.autoSpinActive
           (fst (fst (EnhancedSlotMachine.run off after))) = false
      /\ EnhancedSlotMachine.noAutoSpinPending
           (snd (fst (EnhancedSlotMachine.run off after))))
  /\ (forall (s : EnhancedSlotMachine.t * Browser.t)
             (input : EnhancedSlotMachine.Input),
        In EnhancedSlotMachine.SPIN_STARTED (snd (EnhancedSlotMachine.step s input)) ->
        EnhancedSlotMachine.autoSpinActive (fst s) = true
        /\ exists handle : positive,
             input = EnhancedSlotMachine.timerFires handle
             /\ Browser.timers (snd s) !! handle = Some Browser.autoSpinCallback).
Proof.
  intros Hinv reached off.
  assert (Hreached : EnhancedSlotMachine.invariant reached)
    by (apply run_invariant; exact Hinv).
  assert (Hoff : EnhancedSlotMachine.autoSpinActive (fst off) = false
                 /\ EnhancedSlotMachine.autoSpinTimeout (fst off) = None
                 /\ EnhancedSlotMachine.noAutoSpinPending (snd off)).
  { subst off. destruct reached as [m b].
    cbn [EnhancedSlotMachine.step fst].
    unfold EnhancedSlotMachine.onAutoSpinToggled.
    cbn [EnhancedSlotMachine.autoSpinActive EnhancedSlotMachine.with_active].
    assert (Hinv' : EnhancedSlotMachine.invariant
                      (EnhancedSlotMachine.with_active m false, b))
      by exact Hreached.
    destruct (cancelAutoSpin_spec _ _ Hinv') as (Ht & Hn & _ & Ha & _).
    repeat split; assumption. }
  split; [exact Hoff | split].
  - intros Hafter. destruct Hoff as (Ha & _ & Hn).
    destruct (run_off after off Ha Hn Hafter) as (Ha' & Hn' & He).
    repeat split; assumption.
  - intros s input Hin.
    destruct (step_emits_while_active s input Hin) as (Ha & _ & Hh).
    split; assumption.
Qed.

Lemma initial_invariant :
  EnhancedSlotMachine.invariant (EnhancedSlotMachine.initial, Sample.page).
Proof.
  split; intros handle; cbn [snd Sample.page Browser.timers];
    rewrite lookup_empty.
  - discriminate.
  - intros [x Hx]. discriminate.
Qed.

Lemma auto_spin_cancellation_witness :
  EnhancedSlotMachine.invariant (EnhancedSlotMachine.initial, Sample.page)
  /\ let reached :=
       fst (EnhancedSlotMachine.run (EnhancedSlotMachine.initial, Sample.page)
              [EnhancedSlotMachine.auto_spin_toggled true]) in
     let off :=
       fst (EnhancedSlotMachine.step reached
              (EnhancedSlotMachine.auto_spin_toggled false)) in
     EnhancedSlotMachine.autoSpinTimeout (fst reached) = Some 1%positive
     /\ EnhancedSlotMachine.autoSpinTimeout (fst off) = None
     /\ snd (EnhancedSlotMachine.run off
               [EnhancedSlotMachine.timerFires 1;
                EnhancedSlotMachine.spinRequestEnds]) = [].
Proof.
  split; [exact initial_invariant |].
  pose proof (auto_spin_cancellation
                (EnhancedSlotMachine.initial, Sample.page)
                [EnhancedSlotMachine.auto_spin_toggled true]
                [EnhancedSlotMachine.timerFires 1;
                 EnhancedSlotMachine.spinRequestEnds]
                initial_invariant) as (Hoff & Hafter & _).
  cbv zeta. split; [reflexivity | split].
  - exact (proj1 (proj2 Hoff)).
  - exact (proj1 (Hafter eq_refl)).
Defined.

(** With auto spin on, the timer does start a spin. *)
Example auto_spin_timer_emits :
  snd (EnhancedSlotMachine.run (EnhancedSlotMachine.initial, Sample.page)
         [EnhancedSlotMachine.auto_spin_toggled true;
          EnhancedSlotMachine.timerFires 1])
  = [EnhancedSlotMachine.SPIN_STARTED].
Proof. reflexivity. Qed.

(** ** Operations and the browser *)

Lemma togglePanel_accesses :
  Browser.accesses (UIManager.togglePanel UIManager.initial "stats").
Proof.
  exists Sample.page. left. intros Heq.
  apply (f_equal (fun b => UIManager.view b "statsPanel")) in Heq.
  vm_compute in Heq. discriminate.
Qed.

Lemma saveInventory_accesses :
  Browser.accesses (InventoryManager.saveInventory 1000 Sample.fullInventory).
Proof.
  exists Sample.page. left. intros Heq.
  apply (f_equal (fun b => Browser.localStorage b !! "inventory-data")) in Heq.
  cbn in Heq. discriminate.
Qed.

Lemma scheduleAutoSpin_accesses :
  Browser.accesses (EnhancedSlotMachine.scheduleAutoSpin EnhancedSlotMachine.initial).
Proof.
  exists Sample.page. left. intros Heq.
  apply (f_equal (fun b => Browser.timers b !! 1%positive)) in Heq.
  cbn in Heq. discriminate.
Qed.

(** An operation that, in every browser, returns the same result and
    leaves the browser as it is, neither reads nor writes it. *)
Lemma unchanged_accesses_nothing {A : Type} (op : Browser.Operation A) (a : A) :
  (forall b : Browser.t, op b = (a, b)) -> ~ Browser.accesses op.
Proof.
  intros Hop [b [Hchanged | [b' Hresult]]].
  - apply Hchanged. now rewrite Hop.
  - apply Hresult. now rewrite !Hop.
Qed.

Section SourceRuns.

Import Script.

Local Open Scope Q_scope.

Lemma get_map {A B : Type} (f : A -> B) (table : list (string * A))
  (key : string) :
  JS.get (map (fun entry => (fst entry, f (snd entry))) table) key
  = option_map f (JS.get table key).
Proof.
  induction table as [|[k v] rest IH]; [reflexivity|].
  cbn [map JS.get fst snd]. now destruct (String.eqb k key).
Qed.

Lemma get_PAYOUTS (symbol : string) :
  JS.get Source.PAYOUTS symbol
  = option_map Source.payout (JS.get SLOT_CONFIG.PAYOUTS symbol).
Proof. apply get_map. Qed.

Lemma get_SYMBOL_UPGRADES (symbol : string) :
  JS.get Source.SYMBOL_UPGRADES symbol
  = option_map Source.symbolUpgrade (JS.get SLOT_CONFIG.SYMBOL_UPGRADES symbol).
Proof. apply get_map. Qed.

Lemma get_symbolLevels (u : GameState.Upgrades) (symbol : string) :
  JS.get (Source.symbolLevels u) symbol
  = option_map (fun level => Number (inject_Z level))
               (GameState.symbolLevel u symbol).
Proof. unfold GameState.symbolLevel. rewrite <- get_map. reflexivity. Qed.

Lemma same_keys (u : GameState.Upgrades) (symbol : string)
  (p : SLOT_CONFIG.Payout) :
  JS.get SLOT_CONFIG.PAYOUTS symbol = Some p ->
  exists level config,
    GameState.symbolLevel u symbol = Some level
    /\ JS.get SLOT_CONFIG.SYMBOL_UPGRADES symbol = Some config.
Proof.
  unfold GameState.symbolLevel, SLOT_CONFIG.PAYOUTS, SLOT_CONFIG.SYMBOL_UPGRADES.
  cbn [JS.get].
  repeat match goal with
         | |- context [String.eqb ?k symbol] => destruct (String.eqb k symbol)
         end; try discriminate; intros _; eauto.
Qed.

Lemma eq_level (level : Z) : JS.eq (inject_Z level) 0 = (level =? 0)%Z.
Proof.
  unfold JS.eq, Qeq_bool, inject_Z. cbn [Qnum Qden].
  now rewrite Z.mul_1_r, Z.mul_0_l.
Qed.

Lemma integer_level (level : Z) :
  JS.eq (inject_Z level) (inject_Z (Qfloor (inject_Z level))) = true.
Proof. rewrite Qfloor_Z. apply Qeq_bool_refl. Qed.


#[local] Arguments Source.PAYOUTS : simpl never.
#[local] Arguments Source.SYMBOL_UPGRADES : simpl never.
#[local] Arguments Source.symbolLevels : simpl never.
#[local] Arguments SLOT_CONFIG.PAYOUTS : simpl never.
#[local] Arguments SLOT_CONFIG.SYMBOL_UPGRADES : simpl never.
#[local] Arguments GameState.symbolLevel : simpl never.
#[local] Arguments JS.eq : simpl never.
#[local] Arguments JS.ge : simpl never.
#[local] Arguments JS.floor : simpl never.
#[local] Arguments JS.pow : simpl never.
#[local] Arguments JS.min : simpl never.
#[local] Arguments Qmult : simpl never.
#[local] Arguments Qplus : simpl never.
#[local] Arguments Qminus : simpl never.
#[local] Arguments inject_Z : simpl never.
#[local] Arguments Qfloor : simpl never.

(** The steps of [getUpgradedPayout] on a symbol that is a key of
    [PAYOUTS], once the lookup of the payout is in the goal. *)
Ltac upgraded_payout Hkeys :=
  let level := fresh "level" in
  let config := fresh "config" in
  let Elevel := fresh "Elevel" in
  let Econfig := fresh "Econfig" in
  destruct Hkeys as (level & config & Elevel & Econfig);
  rewrite get_symbolLevels, Elevel; cbn;
  rewrite get_SYMBOL_UPGRADES, Econfig; cbn;
  rewrite eq_level; destruct (level =? 0)%Z; cbn;
  [|rewrite integer_level, Qfloor_Z; cbn].

Lemma getUpgradedPayout_call (g : GameState.t) (symbol : string)
  (b : Browser.t) :
  EventDispatcher.inherited symbol = false ->
  Source.call (Source.gameState g) "getUpgradedPayout" [Text symbol] b
  = ((Source.number (Source.found (GameState.getUpgradedPayout g symbol)),
      Source.gameState g), b).
Proof.
  intros Hown. unfold Source.call, call, run, GameState.getUpgradedPayout.
  destruct g as [? ? ? ? ? ? ? ? ? ? ? u [own|]]; cbn;
    rewrite get_PAYOUTS, Hown;
    (destruct (JS.get SLOT_CONFIG.PAYOUTS symbol) as [p|] eqn:Ep; cbn;
     [|reflexivity]);
    pose proof (same_keys u symbol p Ep) as Hkeys;
    upgraded_payout Hkeys; reflexivity.
Qed.

Lemma calculatePayout_call (e : GameEngine.t) (r : GameEngine.SpinResult)
  (g : GameState.t) (b : Browser.t) :
  Source.covered (GameEngine.winSymbol r) ->
  Source.call (Source.engine e) "calculatePayout"
    [Source.spinResult r; Source.gameState g] b
  = ((Source.number (GameEngine.calculatePayout r g), Source.engine e), b).
Proof.
  intros Hcovered.
  unfold Source.call, call, run, GameEngine.calculatePayout,
    GameState.getUpgradedPayout.
  destruct r as [type symbols winSymbol payout]. cbn in Hcovered.
  destruct g as [? ? ? ? ? ? ? ? ? ? ? u own].
  cbn. destruct (String.eqb type "loss"); cbn; [reflexivity|].
  destruct payout as [p|]; cbn; [|reflexivity].
  destruct (SLOT_CONFIG.isJackpot p); cbn; [reflexivity|].
  destruct (String.eqb type "luck_jackpot"); cbn; [reflexivity|].
  destruct winSymbol as [symbol|].
  - destruct own as [own|]; cbn; rewrite get_PAYOUTS, Hcovered;
      (destruct (JS.get SLOT_CONFIG.PAYOUTS symbol) as [q|] eqn:Ep; cbn;
       [|reflexivity]);
      pose proof (same_keys u symbol q Ep) as Hkeys;
      upgraded_payout Hkeys; reflexivity.
  - destruct own as [own|]; cbn; rewrite get_PAYOUTS;
      change (JS.get SLOT_CONFIG.PAYOUTS "null") with (@None SLOT_CONFIG.Payout);
      reflexivity.
Qed.

Lemma calculateTotalWinChance_call (e : GameEngine.t) (g : GameState.t)
  (b : Browser.t) :
  Source.call (Source.engine e) "calculateTotalWinChance" [Source.gameState g] b
  = ((Done (Number (GameEngine.calculateTotalWinChance g)), Source.engine e), b).
Proof. destruct g as [? ? ? ? ? ? ? ? ? ? ? u [own|]]; reflexivity. Qed.

Lemma getSpinCost_call (e : GameEngine.t) (g : GameState.t) (b : Browser.t) :
  Source.call (Source.engine e) "getSpinCost" [Source.gameState g] b
  = ((Done (Number (GameEngine.getSpinCost g)), Source.engine e), b).
Proof. destruct g as [? ? ? ? ? ? ? ? ? ? ? u [own|]]; reflexivity. Qed.

Lemma canSpin_call (e : GameEngine.t) (g : GameState.t) (b : Browser.t) :
  Source.call (Source.engine e) "canSpin" [Source.gameState g] b
  = ((Done (Boolean (GameEngine.canSpin e g)), Source.engine e), b).
Proof.
  destruct e as [[|]]; destruct g as [? ? ? ? ? ? ? ? ? ? ? u [own|]];
    reflexivity.
Qed.

Lemma getMaxLuck_call (g : GameState.t) (b : Browser.t) :
  Source.call (Source.gameState g) "getMaxLuck" [] b
  = ((Done (Number (GameState.getMaxLuck g)), Source.gameState g), b).
Proof.
  destruct g as [? ? ? ? ? ? ? ? ? ? ? [levels luck multipliers] [own|]];
    reflexivity.
Qed.

Lemma canAffordSpin_call (g : GameState.t) (b : Browser.t) :
  Source.call (Source.gameState g) "canAffordSpin" [] b
  = ((Source.boolean (GameState.call_canAffordSpin g), Source.gameState g), b).
Proof. destruct g as [? ? ? ? ? ? ? ? ? ? ? u [own|]]; reflexivity. Qed.

Lemma timerHandle_positive (handle : positive) :
  timerHandle (Number (inject_Z (Zpos handle))) = Some handle.
Proof.
  unfold timerHandle, JS.eq. rewrite Qfloor_Z.
  now rewrite (Qeq_bool_refl (inject_Z (Zpos handle))).
Qed.

Lemma cancelAutoSpin_call (m : EnhancedSlotMachine.t) (b : Browser.t) :
  Source.call (Source.machine m) "cancelAutoSpin" [] b
  = ((Done Undefined,
      Source.machine (fst (EnhancedSlotMachine.cancelAutoSpin m b))),
     snd (EnhancedSlotMachine.cancelAutoSpin m b)).
Proof.
  destruct m as [g active [handle|]]; [|reflexivity].
  unfold Source.call, call, run. cbn -[timerHandle]. rewrite eq_level.
  cbn -[timerHandle]. rewrite timerHandle_positive. reflexivity.
Qed.

(** The source text of [cancelAutoSpin], run on the orchestrator that
    [scheduleAutoSpin] leaves, clears the pending timer. *)
Lemma cancelAutoSpin_accesses :
  Browser.accesses
    (Source.call
       (Source.machine
          (EnhancedSlotMachine.with_timeout EnhancedSlotMachine.initial
             (Some 1%positive)))
       "cancelAutoSpin" []).
Proof.
  exists (snd (EnhancedSlotMachine.scheduleAutoSpin
                 EnhancedSlotMachine.initial Sample.page)).
  left. rewrite cancelAutoSpin_call. intros Heq.
  apply (f_equal (fun b => Browser.timers b !! 1%positive)) in Heq.
  cbn in Heq. discriminate.
Qed.

(** C9, as the code has it.  The operations of the UI, of the inventory
    persistence and of the auto-spin control read or write the browser:
    [togglePanel] the document, [saveInventory] localStorage,
    [scheduleAutoSpin] and [cancelAutoSpin] the timers.  The methods
    [calculatePayout], [calculateTotalWinChance], [getSpinCost] and
    [canSpin] of the game engine and [getMaxLuck], [getUpgradedPayout] and
    [canAffordSpin] of the game state do not.  Their source text, run
    statement by statement in a browser that every expression of it could
    reach (with [clearTimeout] and [document.getElementById] among the
    globals), on an engine, a spin result and a game state of the program:
    ends in every browser in the same way, with the result that the
    embedding of the method computes (numbers taken as exact rationals),
    and leaves the browser as it was.  For [calculatePayout] and
    [getUpgradedPayout] this is shown for the symbols that name no
    property of [Object.prototype], the symbols of the game among them. *)
Theorem operations_and_browser :
  Browser.accesses (UIManager.togglePanel UIManager.initial "stats")
  /\ Browser.accesses (InventoryManager.saveInventory 1000 Sample.fullInventory)
  /\ Browser.accesses
       (EnhancedSlotMachine.scheduleAutoSpin EnhancedSlotMachine.initial)
  /\ Browser.accesses
       (Source.call
          (Source.machine
             (EnhancedSlotMachine.with_timeout EnhancedSlotMachine.initial
                (Some 1%positive)))
          "cancelAutoSpin" [])
  /\ (forall engine result gameState,
        Source.covered (GameEngine.winSymbol result) ->
        let operation :=
          Source.call (Source.engine engine) "calculatePayout"
            [Source.spinResult result; Source.gameState gameState] in
        ~ Browser.accesses operation
        /\ forall b : Browser.t,
             operation b
             = ((Source.number (GameEngine.calculatePayout result gameState),
                 Source.engine engine), b))
  /\ (forall engine gameState,
        let operation :=
          Source.call (Source.engine engine) "calculateTotalWinChance"
            [Source.gameState gameState] in
        ~ Browser.accesses operation
        /\ forall b : Browser.t,
             operation b
             = ((Done (Number (GameEngine.calculateTotalWinChance gameState)),
                 Source.engine engine), b))
  /\ (forall engine gameState,
        let operation :=
          Source.call (Source.engine engine) "getSpinCost"
            [Source.gameState gameState] in
        ~ Browser.accesses operation
        /\ forall b : Browser.t,
             operation b
             = ((Done (Number (GameEngine.getSpinCost gameState)),
                 Source.engine engine), b))
  /\ (forall engine gameState,
        let operation :=
          Source.call (Source.engine engine) "canSpin"
            [Source.gameState gameState] in
        ~ Browser.accesses operation
        /\ forall b : Browser.t,
             operation b
             = ((Done (Boolean (GameEngine.canSpin engine gameState)),
                 Source.engine engine), b))
  /\ (forall gameState,
        let operation :=
          Source.call (Source.gameState gameState) "getMaxLuck" [] in
        ~ Browser.accesses operation
        /\ forall b : Browser.t,
             operation b
             = ((Done (Number (GameState.getMaxLuck gameState)),
                 Source.gameState gameState), b))
  /\ (forall gameState symbol,
        EventDispatcher.inherited symbol = false ->
        let operation :=
          Source.call (Source.gameState gameState) "getUpgradedPayout"
            [Text symbol] in
        ~ Browser.accesses operation
        /\ forall b : Browser.t,
             operation b
             = ((Source.number
                   (Source.found
                      (GameState.getUpgradedPayout gameState symbol)),
                 Source.gameState gameState), b))
  /\ (forall gameState,
        let operation :=
          Source.call (Source.gameState gameState) "canAffordSpin" [] in
        ~ Browser.accesses operation
        /\ forall b : Browser.t,
             operation b
             = ((Source.boolean (GameState.call_canAffordSpin gameState),
                 Source.gameState gameState), b)).
Proof.
  split; [exact togglePanel_accesses |].
  split; [exact saveInventory_accesses |].
  split; [exact scheduleAutoSpin_accesses |].
  split; [exact cancelAutoSpin_accesses |].
  repeat split; intros;
    try (eapply unchanged_accesses_nothing; intros);
    first [ now apply calculatePayout_call
          | apply calculateTotalWinChance_call
          | apply getSpinCost_call
          | apply canSpin_call
          | apply getMaxLuck_call
          | now apply getUpgradedPayout_call
          | apply canAffordSpin_call ].
Qed.

(** C9 as stated fails: the source text of [calculatePayout], run on a
    winning spin of three cherries and the initial game state, returns
    the payout in every browser and leaves every browser as it was. *)
Lemma calculatePayout_is_pure :
  ~ (forall (engine : GameEngine.t) (result : GameEngine.SpinResult)
       (gameState : GameState.t),
       Browser.accesses
         (Source.call (Source.engine engine) "calculatePayout"
            [Source.spinResult result; Source.gameState gameState])).
Proof.
  intros Hall.
  refine (unchanged_accesses_nothing _ _ _
            (Hall {| GameEngine.isSpinning := false |}
                  {| GameEngine.type := "win";
                     GameEngine.symbols := ["🍒"; "🍒"; "🍒"];
                     GameEngine.winSymbol := Some "🍒";
                     GameEngine.payout := JS.get SLOT_CONFIG.PAYOUTS "🍒" |}
                  GameState.initial)).
  intros b. now apply calculatePayout_call.
Qed.

(** The payout of that spin, from the source text and from the embedding. *)
Example calculatePayout_of_three_cherries :
  fst (Source.call (Source.engine {| GameEngine.isSpinning := false |})
         "calculatePayout"
         [Source.spinResult
            {| GameEngine.type := "win";
               GameEngine.symbols := ["🍒"; "🍒"; "🍒"];
               GameEngine.winSymbol := Some "🍒";
               GameEngine.payout := JS.get SLOT_CONFIG.PAYOUTS "🍒" |};
          Source.gameState GameState.initial]
         Sample.page)
  = (Done (Number 100), Source.engine {| GameEngine.isSpinning := false |}).
Proof. vm_compute. reflexivity. Qed.

End SourceRuns.

(** ** The methods of the game state *)

Section GameStateMethods.

Import GameState.

Ltac method_unfold :=
  unfold Method.after, Method.events, Method.outcome, perform,
    purchaseUpgrade, winJackpot, resetCall,
    spendCredits, addCredits, addToJackpot, increaseLuck,
    decreaseLuck, resetLuck, toggleMaxBet, incrementCombo, resetCombo,
    recordSpin, recordWin, recordLoss,
    mbind, mret, method_bind, method_ret, Method.bind, Method.ret,
    Method.this, Method.assign, Method.emit, Method.throw, Method.lift,
    stateChanged, emitStateChange, serialize, call_canAffordSpin.

Ltac fields :=
  cbn [credits jackpot multiplier luckMeter totalSpins totalWins winStreak
       biggestWin jackpots comboCount comboMultiplier upgrades
       own_canAffordSpin with_credits with_jackpot with_multiplier
       with_luckMeter with_totalSpins with_totalWins with_winStreak
       with_biggestWin with_jackpots with_comboCount with_comboMultiplier
       with_upgrades reset initial] in *.

Lemma upgradeConfig_keys (category type : string) (config : UpgradeConfig) :
  upgradeConfig category type = Some config -> In (category, type) upgradeKeys.
Proof.
  unfold upgradeConfig.
  destruct (String.eqb category "symbols") eqn:E1.
  { apply String.eqb_eq in E1. subst.
    destruct (JS.get SLOT_CONFIG.SYMBOL_UPGRADES type) eqn:E; [|discriminate].
    apply JS_get_In in E. intros _. simpl in E.
    repeat (destruct E as [E|E]; [injection E as <- _; simpl; tauto|]).
    destruct E. }
  destruct (String.eqb category "luck") eqn:E2.
  { apply String.eqb_eq in E2. subst.
    destruct (JS.get SLOT_CONFIG.UPGRADE_SYSTEM.LUCK_UPGRADES type) eqn:E; [|discriminate].
    apply JS_get_In in E. intros _. simpl in E.
    repeat (destruct E as [E|E]; [injection E as <- _; simpl; tauto|]).
    destruct E. }
  destruct (String.eqb category "multiplier") eqn:E3; [|discriminate].
  apply String.eqb_eq in E3. subst.
  destruct (JS.get SLOT_CONFIG.UPGRADE_SYSTEM.MULTIPLIER_UPGRADES type) eqn:E; [|discriminate].
  apply JS_get_In in E. intros _. simpl in E.
  repeat (destruct E as [E|E]; [injection E as <- _; simpl; tauto|]).
  destruct E.
Qed.

Lemma inject_Z_nonneg (z : Z) : (0 <= z)%Z -> 0 <= inject_Z z.
Proof. intros H. change 0 with (inject_Z 0). now rewrite <- Zle_Qle. Qed.

Lemma getMaxLuck_ge (g : t) :
  (0 <= MAX_LUCK (luck (upgrades g)))%Z -> SLOT_CONFIG.MAX_LUCK <= getMaxLuck g.
Proof.
  intros H. apply inject_Z_nonneg in H. unfold getMaxLuck.
  set (x := inject_Z _) in *. lra.
Qed.

Lemma getMaxMultiplier_ge (g : t) :
  (0 <= MAX_MULTIPLIER (multiplier_levels (upgrades g)))%Z ->
  SLOT_CONFIG.MAX_MULTIPLIER <= getMaxMultiplier g.
Proof.
  intros H. apply inject_Z_nonneg in H. unfold getMaxMultiplier.
  set (x := inject_Z _) in *. lra.
Qed.

Lemma getLuckIncrement_ge (g : t) :
  (0 <= LUCK_GAIN (luck (upgrades g)))%Z ->
  SLOT_CONFIG.LUCK_INCREMENT <= getLuckIncrement g.
Proof.
  intros H. apply inject_Z_nonneg in H. unfold getLuckIncrement.
  set (x := inject_Z _) in *. lra.
Qed.

Lemma getLuckDecrement_ge (g : t) : 1 <= getLuckDecrement g.
Proof. unfold getLuckDecrement, JS.max. apply Q.le_max_l. Qed.

Lemma levels_in_range_keys (u : Upgrades) :
  (forall (category type : string) (current : Z) (config : UpgradeConfig),
     level u category type = JS.Return (Some current) ->
     upgradeConfig category type = Some config ->
     (0 <= current <= config_maxLevel config)%Z)
  <-> Forall (fun key : string * string =>
                forall (current : Z) (config : UpgradeConfig),
                  level u (fst key) (snd key) = JS.Return (Some current) ->
                  upgradeConfig (fst key) (snd key) = Some config ->
                  (0 <= current <= config_maxLevel config)%Z)
             upgradeKeys.
Proof.
  split.
  - intros H. apply List.Forall_forall. intros [category type] _. apply H.
  - intros H category type current config Hl Hc.
    rewrite List.Forall_forall in H.
    exact (H (category, type) (upgradeConfig_keys _ _ _ Hc) current config Hl Hc).
Qed.

(** The thirteen levels of a state in range, one by one. *)
Ltac level_facts H :=
  let go c ty :=
    let F := fresh "Hlevel" in
    pose proof (H c ty _ _ eq_refl eq_refl) as F;
    cbn [config_maxLevel SLOT_CONFIG.maxLevel SLOT_CONFIG.UPGRADE_SYSTEM.maxLevel] in F in
  go "symbols" "🍒"; go "symbols" "🍋"; go "symbols" "🍊"; go "symbols" "🍇";
  go "symbols" "🍓"; go "symbols" "💎"; go "symbols" "🎰"; go "symbols" "🌟";
  go "luck" "LUCK_GAIN"; go "luck" "LUCK_RETENTION"; go "luck" "MAX_LUCK";
  go "multiplier" "COMBO_POWER"; go "multiplier" "MAX_MULTIPLIER".


(** A goal about every level of concrete categories. *)
Ltac by_upgrade_key Hl Hcfg :=
  let Hin := fresh "Hin" in
  pose proof (upgradeConfig_keys _ _ _ Hcfg) as Hin; simpl in Hin;
  repeat (destruct Hin as [Hin|Hin];
          [injection Hin as <- <-; cbn in Hl, Hcfg;
           injection Hl as <-; injection Hcfg as <-;
           cbn [config_maxLevel SLOT_CONFIG.maxLevel SLOT_CONFIG.UPGRADE_SYSTEM.maxLevel]|]);
  [..|destruct Hin].

Lemma reset_inRange (g : t) : inRange (reset g).
Proof.
  unfold inRange. fields. unfold getMaxMultiplier, getMaxLuck. fields.
  repeat apply conj;
    try match goal with |- _ <= _ => vm_compute; discriminate end.
  intros category type current config Hl Hcfg.
  by_upgrade_key Hl Hcfg; lia.
Qed.

Lemma stateChanged_after (g : t) : Method.after stateChanged g = g.
Proof. destruct g as [? ? ? ? ? ? ? ? ? ? ? ? own]; destruct own; reflexivity. Qed.

Lemma assign_stateChanged_after (f : t -> t) (g : t) :
  Method.after (Method.assign f;; stateChanged) g = f g.
Proof.
  method_unfold. cbn.
  destruct (own_canAffordSpin (f g)); reflexivity.
Qed.

Lemma Qmin_case (a b : Q) (P : Q -> Prop) :
  (forall x y, x == y -> P x -> P y) -> P a -> P b -> P (Qmin a b).
Proof.
  intros Hp Ha Hb. destruct (Q.min_spec a b) as [[_ E]|[_ E]];
    symmetry in E; eauto.
Qed.

Lemma inRange_with_credits (g : t) (value : JS.number) :
  inRange g -> 0 <= value -> inRange (with_credits g value).
Proof. unfold inRange, getMaxMultiplier, getMaxLuck. fields. tauto. Qed.

Lemma inRange_with_jackpot (g : t) (value : JS.number) :
  inRange g -> SLOT_CONFIG.INITIAL_JACKPOT <= value -> inRange (with_jackpot g value).
Proof. unfold inRange, getMaxMultiplier, getMaxLuck. fields. tauto. Qed.

Lemma inRange_with_luckMeter (g : t) (value : JS.number) :
  inRange g -> 0 <= value <= getMaxLuck g -> inRange (with_luckMeter g value).
Proof. unfold inRange, getMaxMultiplier, getMaxLuck. fields. tauto. Qed.

Lemma inRange_with_multiplier (g : t) (value : JS.number) :
  inRange g -> 1 <= value <= getMaxMultiplier g -> inRange (with_multiplier g value).
Proof. unfold inRange, getMaxMultiplier, getMaxLuck. fields. tauto. Qed.

Lemma inRange_with_combo (g : t) (count value : JS.number) :
  inRange g -> 0 <= count -> 1 <= value <= SLOT_CONFIG.MAX_COMBO_MULTIPLIER ->
  inRange (with_comboMultiplier (with_comboCount g count) value).
Proof. unfold inRange, getMaxMultiplier, getMaxLuck. fields. tauto. Qed.

Lemma inRange_statistics (g : t) (spins wins streak biggest won : JS.number) :
  inRange g ->
  inRange (with_jackpots
             (with_biggestWin
                (with_winStreak
                   (with_totalWins (with_totalSpins g spins) wins) streak)
                biggest) won).
Proof. unfold inRange, getMaxMultiplier, getMaxLuck. fields. tauto. Qed.

Lemma after_winJackpot (g : t) :
  Method.after winJackpot g
  = match own_canAffordSpin g with
    | Some _ => with_credits g (credits g + jackpot g)
    | None =>
        with_jackpots
          (with_jackpot (with_credits g (credits g + jackpot g))
             SLOT_CONFIG.INITIAL_JACKPOT)
          (jackpots g + 1)
    end.
Proof. destruct g as [? ? ? ? ? ? ? ? ? ? ? ? own]; destruct own; reflexivity. Qed.

Lemma perform_inRange_basic (c : Call) (g : t) :
  (forall category type, c <> call_purchaseUpgrade category type) ->
  inRange g -> amountNotNegative c -> inRange (Method.after (perform c) g).
Proof.
  intros Hnot Hg Hamount.
  pose proof Hg as (Hc & Hj & [Hm1 Hm2] & [Hl1 Hl2] & Hcc & [Hcm1 Hcm2] & Hlev).
  level_facts Hlev.
  destruct c; cbn [perform amountNotNegative] in *.
  - (* reset *)
    unfold resetCall. rewrite assign_stateChanged_after. apply reset_inRange.
  - (* spendCredits *)
    assert (Method.after (spendCredits amount) g
            = if JS.lt (credits g) amount then g
              else with_credits g (credits g - amount)) as ->.
    { method_unfold. destruct (JS.lt (credits g) amount); [reflexivity|].
      destruct g as [? ? ? ? ? ? ? ? ? ? ? ? own]; destruct own; reflexivity. }
    destruct (JS.lt (credits g) amount) eqn:E; [exact Hg|].
    apply JS_lt_false in E. apply inRange_with_credits; trivial; lra.
  - unfold addCredits. rewrite assign_stateChanged_after.
    apply inRange_with_credits; trivial; lra.
  - unfold addToJackpot. rewrite assign_stateChanged_after.
    apply inRange_with_jackpot; trivial; lra.
  - (* winJackpot *)
    assert (Method.after (winJackpot;; mret tt) g = Method.after winJackpot g) as ->.
    { destruct g as [? ? ? ? ? ? ? ? ? ? ? ? own]; destruct own; reflexivity. }
    rewrite after_winJackpot.
    assert (0 <= jackpot g) by (unfold SLOT_CONFIG.INITIAL_JACKPOT in Hj; lra).
    destruct (own_canAffordSpin g).
    + apply inRange_with_credits; trivial; lra.
    + change (with_jackpots ?x ?v)
        with (with_jackpots (with_biggestWin (with_winStreak (with_totalWins
               (with_totalSpins x (totalSpins x)) (totalWins x)) (winStreak x))
               (biggestWin x)) v).
      apply inRange_statistics, inRange_with_jackpot; [|apply Qle_refl].
      apply inRange_with_credits; trivial; lra.
  - (* increaseLuck *)
    assert (Method.after increaseLuck g
            = with_luckMeter g (JS.min (luckMeter g + getLuckIncrement g) (getMaxLuck g))) as ->.
    { destruct g as [? ? ? ? ? ? ? ? ? ? ? ? own]; destruct own; reflexivity. }
    apply inRange_with_luckMeter; trivial.
    pose proof (getLuckIncrement_ge g ltac:(lia)).
    unfold SLOT_CONFIG.LUCK_INCREMENT in *.
    split; [apply Q.min_glb; lra | apply Q.le_min_r].
  - (* decreaseLuck *)
    assert (Method.after decreaseLuck g
            = with_luckMeter g (JS.max (luckMeter g - getLuckDecrement g) 0)) as ->.
    { destruct g as [? ? ? ? ? ? ? ? ? ? ? ? own]; destruct own; reflexivity. }
    apply inRange_with_luckMeter; trivial.
    pose proof (getLuckDecrement_ge g).
    split; [apply Q.le_max_r | apply Q.max_lub; lra].
  - (* resetLuck *)
    assert (Method.after resetLuck g = with_luckMeter g 0) as ->.
    { destruct g as [? ? ? ? ? ? ? ? ? ? ? ? own]; destruct own; reflexivity. }
    apply inRange_with_luckMeter; trivial. lra.
  - (* toggleMaxBet *)
    assert (Method.after toggleMaxBet g
            = with_multiplier g
                (if JS.eq (multiplier g) 1 then getMaxMultiplier g else 1)) as ->.
    { destruct g as [? ? ? ? ? ? ? ? ? ? ? ? own]; destruct own; reflexivity. }
    apply inRange_with_multiplier; trivial.
    destruct (JS.eq (multiplier g) 1); lra.
  - (* incrementCombo *)
    assert (Method.after incrementCombo g
            = with_comboMultiplier (with_comboCount g (comboCount g + 1))
                (JS.min (1 + (comboCount g + 1) * SLOT_CONFIG.COMBO_BONUS_PER_WIN)
                        SLOT_CONFIG.MAX_COMBO_MULTIPLIER)) as ->.
    { destruct g as [? ? ? ? ? ? ? ? ? ? ? ? own]; destruct own; reflexivity. }
    apply inRange_with_combo; trivial; [lra|].
    unfold SLOT_CONFIG.COMBO_BONUS_PER_WIN, SLOT_CONFIG.MAX_COMBO_MULTIPLIER.
    split; [apply Q.min_glb; lra | apply Q.le_min_r].
  - (* resetCombo *)
    assert (Method.after resetCombo g
            = with_comboMultiplier (with_comboCount g 0) 1) as ->.
    { destruct g as [? ? ? ? ? ? ? ? ? ? ? ? own]; destruct own; reflexivity. }
    apply inRange_with_combo; trivial; [lra|].
    unfold SLOT_CONFIG.MAX_COMBO_MULTIPLIER. lra.
  - (* recordSpin *)
    unfold recordSpin. rewrite assign_stateChanged_after.
    revert Hg. unfold inRange, getMaxMultiplier, getMaxLuck. fields. tauto.
  - (* recordWin *)
    assert (Method.after (recordWin amount) g
            = let g1 := with_winStreak (with_totalWins g (totalWins g + 1)) (winStreak g + 1) in
              if JS.gt amount (biggestWin g) then with_biggestWin g1 amount else g1) as ->.
    { method_unfold. destruct g as [? ? ? ? ? ? ? ? ? ? ? ? own]. fields; cbn.
      destruct (JS.gt amount _); destruct own; reflexivity. }
    cbn zeta. destruct (JS.gt amount (biggestWin g));
      revert Hg; unfold inRange, getMaxMultiplier, getMaxLuck; fields; tauto.
  - (* recordLoss *)
    unfold recordLoss. rewrite assign_stateChanged_after.
    revert Hg. unfold inRange, getMaxMultiplier, getMaxLuck. fields. tauto.
  - exfalso. exact (Hnot category type eq_refl).
Qed.

Lemma getUpgradeCost_Some (g : t) (category type : string) (cost : JS.number) :
  getUpgradeCost g category type = JS.Return (Some cost) ->
  exists (current : Z) (config : UpgradeConfig),
    level (upgrades g) category type = JS.Return (Some current)
    /\ upgradeConfig category type = Some config
    /\ (current < config_maxLevel config)%Z
    /\ cost = JS.floor (config_baseCost config
                        * JS.pow (config_costMultiplier config) current).
Proof.
  unfold getUpgradeCost.
  destruct (level (upgrades g) category type) as [[current|]|e];
    destruct (upgradeConfig category type) as [config|]; try discriminate.
  destruct (config_maxLevel config <=? current)%Z eqn:E; [discriminate|].
  intros [= <-]. exists current, config. repeat split. lia.
Qed.

Lemma after_purchaseUpgrade (g : t) (category type : string) :
  Method.after (purchaseUpgrade category type) g
  = match getUpgradeCost g category type with
    | JS.Return (Some cost) =>
        if JS.ge (credits g) cost then
          let g1 := with_credits g (credits g - cost) in
          match own_canAffordSpin g, level (upgrades g) category type with
          | None, JS.Return (Some current) =>
              with_upgrades g1 (setLevel (upgrades g) category type (current + 1)%Z)
          | _, _ => g1
          end
        else g
    | _ => g
    end.
Proof.
  method_unfold. unfold canAffordUpgrade.
  destruct (getUpgradeCost g category type) as [[cost|]|e]; try reflexivity.
  cbn [negb default].
  destruct (JS.ge (credits g) cost) eqn:E; [|reflexivity].
  cbn [negb id]. unfold JS.lt. unfold JS.ge in E. rewrite E. cbn [negb].
  destruct g as [? ? ? ? ? ? ? ? ? ? ? ? own]. fields.
  destruct own; [reflexivity|]. cbn.
  destruct (level upgrades0 category type) as [[current|]|e]; reflexivity.
Qed.

Lemma purchaseUpgrade_inRange (g : t) (category type : string) :
  inRange g -> inRange (Method.after (purchaseUpgrade category type) g).
Proof.
  intros Hg. rewrite after_purchaseUpgrade.
  destruct (getUpgradeCost g category type) as [[cost|]|e] eqn:Ecost; trivial.
  destruct (JS.ge (credits g) cost) eqn:Eafford; trivial.
  apply JS_ge_spec in Eafford.
  assert (inRange (with_credits g (credits g - cost))) as Hg1
    by (apply inRange_with_credits; trivial; lra).
  cbn zeta. destruct (own_canAffordSpin g); trivial.
  apply getUpgradeCost_Some in Ecost
    as (current & config & Hlevel & Hconfig & Hbelow & _).
  rewrite Hlevel.
  destruct Hg1 as (Hc & Hj & [Hm1 Hm2] & [Hl1 Hl2] & Hcc & [Hcm1 Hcm2] & Hlev).
  fields. level_facts Hlev.
  pose proof (upgradeConfig_keys _ _ _ Hconfig) as Hin. simpl in Hin.
  unfold inRange, getMaxMultiplier, getMaxLuck in *. fields.
  repeat (destruct Hin as [Hin|Hin];
    [injection Hin as <- <-; cbn in Hlevel, Hconfig;
     injection Hlevel as <-; injection Hconfig as <-;
     cbn [config_maxLevel SLOT_CONFIG.maxLevel SLOT_CONFIG.UPGRADE_SYSTEM.maxLevel] in Hbelow;
     cbn [setLevel String.eqb Ascii.eqb Bool.eqb luck multiplier_levels symbols
          MAX_LUCK MAX_MULTIPLIER];
     repeat apply conj; trivial;
     try (rewrite inject_Z_plus; change (inject_Z 1) with 1; lra);
     intros category' type' current' config' Hl' Hcfg';
     by_upgrade_key Hl' Hcfg'; lia|]).
  destruct Hin.
Qed.

Lemma perform_inRange (c : Call) (g : t) :
  inRange g -> amountNotNegative c -> inRange (Method.after (perform c) g).
Proof.
  intros Hg Hc. destruct c;
    try (apply perform_inRange_basic; [discriminate | assumption..]).
  apply purchaseUpgrade_inRange, Hg.
Qed.

(** X1. The state-changing methods keep the state within its ranges.  From
    a state in range, after any sequence of calls of [reset], [spendCredits],
    [addCredits], [addToJackpot], [winJackpot], [increaseLuck],
    [decreaseLuck], [resetLuck], [toggleMaxBet], [incrementCombo],
    [resetCombo], [recordSpin], [recordWin], [recordLoss] and
    [purchaseUpgrade], where [addCredits] and [addToJackpot] are given no
    negative amount, the credits are not negative, the jackpot is not below
    [INITIAL_JACKPOT], the bet multiplier lies between 1 and
    [getMaxMultiplier()], the luck meter between 0 and [getMaxLuck()], the
    combo multiplier between 1 and [MAX_COMBO_MULTIPLIER], and every upgrade
    level between 0 and the [maxLevel] of its configuration.  This holds
    also when calls on the way throw. *)
Theorem methods_keep_ranges (calls : list Call) (g : t) :
  inRange g -> Forall amountNotNegative calls -> inRange (performAll calls g).
Proof.
  unfold performAll. revert g.
  induction calls as [|c calls IH]; intros g Hg Hcalls; [exact Hg|].
  apply List.Forall_cons_iff in Hcalls as [Hc Hcalls].
  cbn [fold_left]. apply IH; [|exact Hcalls].
  now apply perform_inRange.
Qed.

Lemma methods_keep_ranges_witness :
  inRange initial
  /\ Forall amountNotNegative
       [call_recordSpin; call_spendCredits 10; call_addToJackpot 1;
        call_increaseLuck; call_purchaseUpgrade "symbols" "🍒";
        call_toggleMaxBet; call_spendCredits 1000; call_winJackpot]
  /\ inRange
       (performAll
          [call_recordSpin; call_spendCredits 10; call_addToJackpot 1;
           call_increaseLuck; call_purchaseUpgrade "symbols" "🍒";
           call_toggleMaxBet; call_spendCredits 1000; call_winJackpot]
          initial).
Proof.
  assert (inRange initial) as Hinitial by exact (reset_inRange initial).
  assert (Forall amountNotNegative
            [call_recordSpin; call_spendCredits 10; call_addToJackpot 1;
             call_increaseLuck; call_purchaseUpgrade "symbols" "🍒";
             call_toggleMaxBet; call_spendCredits 1000; call_winJackpot])
    as Hcalls by (repeat constructor; cbn; lra).
  split; [exact Hinitial|]. split; [exact Hcalls|].
  exact (methods_keep_ranges _ _ Hinitial Hcalls).
Defined.

Lemma after_increaseLuck (g : t) :
  Method.after increaseLuck g
  = with_luckMeter g (JS.min (luckMeter g + getLuckIncrement g) (getMaxLuck g)).
Proof. destruct g as [? ? ? ? ? ? ? ? ? ? ? ? own]; destruct own; reflexivity. Qed.

Lemma after_decreaseLuck (g : t) :
  Method.after decreaseLuck g
  = with_luckMeter g (JS.max (luckMeter g - getLuckDecrement g) 0).
Proof. destruct g as [? ? ? ? ? ? ? ? ? ? ? ? own]; destruct own; reflexivity. Qed.

Lemma after_toggleMaxBet (g : t) :
  Method.after toggleMaxBet g
  = with_multiplier g (if JS.eq (multiplier g) 1 then getMaxMultiplier g else 1).
Proof. destruct g as [? ? ? ? ? ? ? ? ? ? ? ? own]; destruct own; reflexivity. Qed.

Lemma after_incrementCombo (g : t) :
  Method.after incrementCombo g
  = with_comboMultiplier (with_comboCount g (comboCount g + 1))
      (JS.min (1 + (comboCount g + 1) * SLOT_CONFIG.COMBO_BONUS_PER_WIN)
              SLOT_CONFIG.MAX_COMBO_MULTIPLIER).
Proof. destruct g as [? ? ? ? ? ? ? ? ? ? ? ? own]; destruct own; reflexivity. Qed.

(** The luck meter after [n] calls of [increaseLuck]. *)
Lemma increaseLuck_repeated (n : nat) (g : t) :
  luckMeter g <= getMaxLuck g ->
  0 <= getLuckIncrement g ->
  let g' := Nat.iter n (Method.after increaseLuck) g in
  luckMeter g' == Qmin (luckMeter g + inject_Z (Z.of_nat n) * getLuckIncrement g)
                       (getMaxLuck g)
  /\ getMaxLuck g' = getMaxLuck g
  /\ getLuckIncrement g' = getLuckIncrement g.
Proof.
  intros Hmax Hinc. induction n as [|n IH].
  - change (Nat.iter 0 (Method.after increaseLuck) g) with g.
    cbn zeta. change (inject_Z (Z.of_nat 0)) with 0. repeat split.
    rewrite Q.min_l; lra.
  - change (Nat.iter (S n) (Method.after increaseLuck) g)
      with (Method.after increaseLuck (Nat.iter n (Method.after increaseLuck) g)).
    cbn zeta in *.
    set (g1 := Nat.iter n (Method.after increaseLuck) g) in *.
    destruct IH as (IH & Emax & Einc).
    rewrite after_increaseLuck. unfold getMaxLuck, getLuckIncrement in *. fields.
    repeat split; trivial. unfold JS.min. rewrite Emax, Einc, IH.
    rewrite Nat2Z.inj_succ, <- Z.add_1_r, inject_Z_plus.
    change (inject_Z 1) with 1.
    set (a := luckMeter g) in *. set (m := SLOT_CONFIG.MAX_LUCK + _) in *.
    set (i := SLOT_CONFIG.LUCK_INCREMENT + _) in *.
    set (k := inject_Z (Z.of_nat n)).
    assert (0 <= k) by (apply inject_Z_nonneg; lia).
    assert (0 <= k * i) by (apply Qmult_le_0_compat; trivial).
    destruct (Q.min_spec (a + k * i) m) as [[H1 ->]|[H1 ->]];
      destruct (Q.min_spec (a + k * i + i) m) as [[H2 E2]|[H2 E2]];
      destruct (Q.min_spec (a + (k + 1) * i) m) as [[H3 ->]|[H3 ->]];
      rewrite ?E2; try lra.
    apply Q.min_r; lra.
Qed.

(** X5. On a state in range, [increaseLuck] never lowers the luck meter and
    raises it whenever it is below [getMaxLuck()]; [decreaseLuck] never
    raises it and lowers it whenever it is above 0, whatever the level of
    the retention upgrade ([getLuckDecrement()] is at least 1). *)
Theorem luck_moves (g : t) :
  inRange g ->
  (luckMeter g <= luckMeter (Method.after increaseLuck g)
   /\ (luckMeter g < getMaxLuck g ->
       luckMeter g < luckMeter (Method.after increaseLuck g)))
  /\ (luckMeter (Method.after decreaseLuck g) <= luckMeter g
      /\ (0 < luckMeter g ->
          luckMeter (Method.after decreaseLuck g) < luckMeter g)).
Proof.
  intros (Hc & Hj & [Hm1 Hm2] & [Hl1 Hl2] & Hcc & [Hcm1 Hcm2] & Hlev).
  level_facts Hlev.
  pose proof (getLuckIncrement_ge g ltac:(lia)) as Hinc.
  pose proof (getLuckDecrement_ge g) as Hdec.
  unfold SLOT_CONFIG.LUCK_INCREMENT in Hinc.
  rewrite after_increaseLuck, after_decreaseLuck. fields. unfold JS.min, JS.max.
  repeat split.
  - apply Q.min_glb; lra.
  - intros Hbelow. apply Q.min_glb_lt; lra.
  - apply Q.max_lub; lra.
  - intros Hpositive. apply Q.max_lub_lt; lra.
Qed.

Lemma luck_moves_witness :
  inRange initial
  /\ ((luckMeter initial <= luckMeter (Method.after increaseLuck initial)
       /\ (luckMeter initial < getMaxLuck initial ->
           luckMeter initial < luckMeter (Method.after increaseLuck initial)))
      /\ (luckMeter (Method.after decreaseLuck initial) <= luckMeter initial
          /\ (0 < luckMeter initial ->
              luckMeter (Method.after decreaseLuck initial) < luckMeter initial))).
Proof.
  split; [exact (reset_inRange initial)|].
  exact (luck_moves initial (reset_inRange initial)).
Defined.

(** X6. On a state in range, [toggleMaxBet] leaves the bet multiplier at 1
    or at [getMaxMultiplier()]; a second call gives 1 when the multiplier
    was 1 at the start and [getMaxMultiplier()] otherwise, and a third call
    gives what the first gave. *)
Theorem toggleMaxBet_twice (g : t) :
  inRange g ->
  let once := Method.after toggleMaxBet g in
  let twice := Method.after toggleMaxBet once in
  (multiplier once == 1 \/ multiplier once == getMaxMultiplier g)
  /\ multiplier twice
     == (if JS.eq (multiplier g) 1 then 1 else getMaxMultiplier g)
  /\ multiplier (Method.after toggleMaxBet twice) == multiplier once.
Proof.
  intros (Hc & Hj & [Hm1 Hm2] & [Hl1 Hl2] & Hcc & [Hcm1 Hcm2] & Hlev).
  level_facts Hlev. cbn zeta.
  pose proof (getMaxMultiplier_ge g ltac:(lia)) as Hmax.
  unfold SLOT_CONFIG.MAX_MULTIPLIER in Hmax.
  rewrite !after_toggleMaxBet.
  change (getMaxMultiplier (with_multiplier ?x ?v)) with (getMaxMultiplier x).
  fields.
  change (getMaxMultiplier (with_multiplier ?x ?v)) with (getMaxMultiplier x).
  set (m' := getMaxMultiplier g) in *.
  assert (JS.eq m' 1 = false) as Enot.
  { unfold JS.eq. destruct (Qeq_bool m' 1) eqn:E; trivial.
    apply Qeq_bool_iff in E. lra. }
  assert (JS.eq 1 1 = true) as Eone by reflexivity.
  destruct (JS.eq (multiplier g) 1) eqn:E; rewrite ?Enot, ?Eone, ?Enot;
    repeat split; try (right; reflexivity); try (left; reflexivity); reflexivity.
Qed.

Lemma floor_ge_integer (z : Z) (x : Q) :
  inject_Z z <= x -> inject_Z z <= JS.floor x.
Proof.
  intros H. unfold JS.floor. rewrite <- Zle_Qle.
  rewrite <- (Qfloor_Z z). now apply Qfloor_resp_le.
Qed.

Lemma scaled_power_ge (base q : Q) (n : Z) :
  0 <= base -> 1 <= q -> (0 <= n)%Z -> base <= base * JS.pow q n.
Proof.
  intros Hbase Hq Hn. unfold JS.pow.
  pose proof (Qpower_1_le q n Hq Hn) as Hpow.
  set (p := q ^ n) in *. nra.
Qed.

(** X3. For a state in range and an upgrade that the configuration has,
    [getUpgradeCost] finds a level; it returns [null] when the level has
    reached [maxLevel], and otherwise a cost that is not below the
    [baseCost] of the upgrade. *)
Theorem getUpgradeCost_priced (g : t) (category type : string)
  (config : UpgradeConfig) :
  inRange g ->
  upgradeConfig category type = Some config ->
  exists current : Z,
    level (upgrades g) category type = JS.Return (Some current)
    /\ (current = config_maxLevel config ->
        getUpgradeCost g category type = JS.Return None)
    /\ (current <> config_maxLevel config ->
        exists cost : JS.number,
          getUpgradeCost g category type = JS.Return (Some cost)
          /\ config_baseCost config <= cost).
Proof.
  intros (Hc & Hj & [Hm1 Hm2] & [Hl1 Hl2] & Hcc & [Hcm1 Hcm2] & Hlev) Hconfig.
  assert (exists current, level (upgrades g) category type = JS.Return (Some current))
    as [current Hlevel].
  { pose proof (upgradeConfig_keys _ _ _ Hconfig) as Hin. simpl in Hin.
    repeat (destruct Hin as [Hin|Hin];
            [injection Hin as <- <-; eexists; reflexivity|]).
    destruct Hin. }
  exists current. split; [exact Hlevel|].
  pose proof (Hlev _ _ _ _ Hlevel Hconfig) as Hrange.
  unfold getUpgradeCost. rewrite Hlevel, Hconfig. split.
  - intros ->. now rewrite Z.leb_refl.
  - intros Hbelow.
    destruct (config_maxLevel config <=? current)%Z eqn:E; [lia|].
    eexists. split; [reflexivity|].
    assert (exists base : Z,
              config_baseCost config = inject_Z base /\ (0 <= base)%Z
              /\ 1 <= config_costMultiplier config) as (base & -> & Hbase & Hmult).
    { pose proof (upgradeConfig_keys _ _ _ Hconfig) as Hin. simpl in Hin.
      repeat (destruct Hin as [Hin|Hin];
              [injection Hin as <- <-; cbn in Hconfig; injection Hconfig as <-;
               cbn; eexists; split; [reflexivity|split; [lia|lra]]|]).
      destruct Hin. }
    apply floor_ge_integer, scaled_power_ge; trivial; [|lia].
    now apply inject_Z_nonneg.
Qed.

Lemma level_setLevel_same (u : Upgrades) (category type : string)
  (config : UpgradeConfig) (value : Z) :
  upgradeConfig category type = Some config ->
  level (setLevel u category type value) category type = JS.Return (Some value).
Proof.
  intros Hconfig.
  pose proof (upgradeConfig_keys _ _ _ Hconfig) as Hin. simpl in Hin.
  repeat (destruct Hin as [Hin|Hin]; [injection Hin as <- <-; reflexivity|]).
  destruct Hin.
Qed.

(** The tests between two string literals, evaluated. *)
Ltac literal_tests :=
  repeat match goal with
         | |- context [String.eqb ?a ?b] =>
             let v := eval vm_compute in (String.eqb a b) in
             match v with
             | true => change (String.eqb a b) with true
             | false => change (String.eqb a b) with false
             end
         end.

(** The remaining tests, by cases. *)
Ltac split_string_tests :=
  repeat match goal with
         | |- context [String.eqb ?a ?b] =>
             let E := fresh "E" in
             destruct (String.eqb a b) eqn:E;
             [apply String.eqb_eq in E; subst|]
         end.

Lemma level_setLevel_other (u : Upgrades) (category type : string)
  (config : UpgradeConfig) (value : Z) (category' type' : string) :
  upgradeConfig category type = Some config ->
  (category', type') <> (category, type) ->
  level (setLevel u category type value) category' type'
  = level u category' type'.
Proof.
  intros Hconfig Hother.
  pose proof (upgradeConfig_keys _ _ _ Hconfig) as Hin. simpl in Hin.
  unfold level, levels.
  destruct (String.eqb category' "symbols") eqn:E1;
    [apply String.eqb_eq in E1; subst|];
    [|destruct (String.eqb category' "luck") eqn:E2;
      [apply String.eqb_eq in E2; subst|];
      [|destruct (String.eqb category' "multiplier") eqn:E3;
        [apply String.eqb_eq in E3; subst|reflexivity]]].
  all: repeat (destruct Hin as [Hin|Hin];
               [injection Hin as <- <-; unfold setLevel, JS.get;
                literal_tests; cbn -[String.eqb];
                split_string_tests; try reflexivity; congruence|]);
       destruct Hin.
Qed.

(** X2. [purchaseUpgrade(category, type)] on a state whose method
    [canAffordSpin] is not shadowed, for an upgrade of the configuration at
    level [current]; the cost is what [getUpgradeCost(category, type)]
    returns.  When that is a number and [credits >= cost], the call returns,
    the credits go down by the cost, the level of this upgrade goes up by
    one, every other level stays, and the dispatcher gets [state_changed],
    [upgrade_purchased] with the new level and the cost, and
    [state_changed], in this order.  When [getUpgradeCost] returns [null] or
    the credits are below the cost, the call throws the error
    "Cannot afford upgrade" and changes and emits nothing. *)
Theorem purchaseUpgrade_spec (g : t) (category type : string)
  (config : UpgradeConfig) (current : Z) (price : option JS.number) :
  own_canAffordSpin g = None ->
  upgradeConfig category type = Some config ->
  level (upgrades g) category type = JS.Return (Some current) ->
  getUpgradeCost g category type = JS.Return price ->
  let g' := Method.after (purchaseUpgrade category type) g in
  match price with
  | Some cost =>
      if JS.ge (credits g) cost then
        Method.outcome (purchaseUpgrade category type) g = JS.Return tt
        /\ credits g' = credits g - cost
        /\ level (upgrades g') category type = JS.Return (Some (current + 1)%Z)
        /\ (forall category' type' : string,
              (category', type') <> (category, type) ->
              level (upgrades g') category' type'
              = level (upgrades g) category' type')
        /\ exists before after : Serialized,
             Method.events (purchaseUpgrade category type) g
             = [emitted (state_changed before);
                upgrade_purchased category type (Some (current + 1)%Z)
                  (Some cost);
                emitted (state_changed after)]
      else
        purchaseUpgrade category type g
        = (g, [], JS.Throw (JS.Error "Cannot afford upgrade"))
  | None =>
      purchaseUpgrade category type g
      = (g, [], JS.Throw (JS.Error "Cannot afford upgrade"))
  end.
Proof.
  intros Hown Hconfig Hlevel Hcost g'.
  destruct price as [cost|].
  - destruct (JS.ge (credits g) cost) eqn:Eafford.
    + assert (g' = with_upgrades (with_credits g (credits g - cost))
                     (setLevel (upgrades g) category type (current + 1)%Z))
        as Eg'.
      { subst g'. rewrite after_purchaseUpgrade, Hcost, Eafford, Hown, Hlevel.
        reflexivity. }
      assert (exists before after : Serialized,
                purchaseUpgrade category type g
                = (g',
                   [emitted (state_changed before);
                    upgrade_purchased category type (Some (current + 1)%Z)
                      (Some cost);
                    emitted (state_changed after)],
                   JS.Return tt)) as (before & after & Erun).
      { rewrite Eg'. clear Eg' g'. method_unfold. unfold canAffordUpgrade.
        rewrite Hcost. cbn [negb id default from_option]. rewrite Eafford.
        cbn [negb].
        unfold JS.ge in Eafford. unfold JS.lt. rewrite Eafford. cbn [negb].
        destruct g as [? ? ? ? ? ? ? ? ? ? ? ? own]. fields. subst own.
        cbn -[level setLevel]. rewrite Hlevel.
        cbn -[level setLevel].
        rewrite (level_setLevel_same _ _ _ _ _ Hconfig).
        eexists _, _. reflexivity. }
      unfold Method.outcome, Method.events. rewrite Erun. cbn [fst snd].
      split; [reflexivity|]. rewrite Eg'. fields.
      split; [reflexivity|].
      split; [exact (level_setLevel_same _ _ _ _ _ Hconfig)|].
      split; [intros; now apply (level_setLevel_other _ _ _ config)|].
      now exists before, after.
    + method_unfold. unfold canAffordUpgrade. rewrite Hcost.
      cbn [negb id default from_option]. rewrite Eafford. reflexivity.
  - method_unfold. unfold canAffordUpgrade. rewrite Hcost. reflexivity.
Qed.

Lemma purchaseUpgrade_spec_witness :
  own_canAffordSpin initial = None
  /\ level (upgrades initial) "symbols" "🍒" = JS.Return (Some 0%Z)
  /\ getUpgradeCost initial "symbols" "🍒" = JS.Return (Some 50)
  /\ Method.outcome (purchaseUpgrade "symbols" "🍒") initial = JS.Return tt
  /\ level (upgrades (Method.after (purchaseUpgrade "symbols" "🍒") initial))
       "symbols" "🍒"
     = JS.Return (Some 1%Z).
Proof.
  assert (getUpgradeCost initial "symbols" "🍒" = JS.Return (Some 50))
    as Hcost by reflexivity.
  split; [reflexivity|]. split; [reflexivity|]. split; [exact Hcost|].
  pose proof (purchaseUpgrade_spec initial "symbols" "🍒" _ 0 (Some 50)
                eq_refl eq_refl eq_refl Hcost) as H.
  cbv beta iota zeta in H.
  match type of H with
  | if ?c then _ else _ =>
      assert (c = true) as E by (vm_compute; reflexivity); rewrite E in H
  end.
  destruct H as (Hreturns & _ & Hlevel & _).
  split; [exact Hreturns | exact Hlevel].
Defined.

(** X8. [getWinRate()] is 0 when no spin has been recorded, and lies
    between 0 and 100 when the wins are between 0 and the spins. *)
Theorem getWinRate_bounds (g : t) :
  (totalSpins g <= 0 -> getWinRate g = 0)
  /\ (0 <= totalWins g <= totalSpins g ->
      0 <= getWinRate g /\ getWinRate g <= 100).
Proof.
  unfold getWinRate, JS.gt. split.
  - intros H. apply JS_lt_false in H. now rewrite H.
  - intros [Hwins Hspins].
    destruct (JS.lt 0 (totalSpins g)) eqn:E; [|split; lra].
    apply JS_lt_spec in E.
    set (w := totalWins g) in *. set (s := totalSpins g) in *.
    assert (0 <= w / s) as H0 by (apply Qle_shift_div_l; lra).
    assert (w / s <= 1) as H1 by (apply Qle_shift_div_r; lra).
    split; lra.
Qed.

(** X4. Losses fill the luck meter: when [n] times [getLuckIncrement()]
    reaches from the luck meter to [getMaxLuck()], then after [n] calls of
    [increaseLuck] the meter equals [getMaxLuck()], and
    [calculateSpinResult] on that state returns the luck jackpot without
    drawing from [Math.random()]. *)
Theorem losses_arm_the_luck_jackpot (n : nat) (g : t) (draws : list JS.number) :
  luckMeter g <= getMaxLuck g ->
  0 <= getLuckIncrement g ->
  getMaxLuck g <= luckMeter g + inject_Z (Z.of_nat n) * getLuckIncrement g ->
  let g' := Nat.iter n (Method.after increaseLuck) g in
  luckMeter g' == getMaxLuck g'
  /\ exists result : GameEngine.SpinResult,
       GameEngine.calculateSpinResult g' draws = Some (result, draws)
       /\ GameEngine.type result = "luck_jackpot".
Proof.
  intros Hmax Hinc Hfull g'.
  destruct (increaseLuck_repeated n g Hmax Hinc) as (Hluck & Emax & _).
  fold g' in Hluck, Emax.
  assert (luckMeter g' == getMaxLuck g') as Hfilled.
  { rewrite Hluck, Emax. apply Q.min_r. exact Hfull. }
  split; [exact Hfilled|].
  unfold GameEngine.calculateSpinResult.
  assert (JS.ge (luckMeter g') (getMaxLuck g') = true) as ->.
  { apply JS_ge_spec. rewrite Hfilled. apply Qle_refl. }
  eexists. split; reflexivity.
Qed.

Lemma losses_arm_the_luck_jackpot_witness :
  luckMeter initial <= getMaxLuck initial
  /\ 0 <= getLuckIncrement initial
  /\ getMaxLuck initial
     <= luckMeter initial + inject_Z (Z.of_nat 25) * getLuckIncrement initial
  /\ exists result : GameEngine.SpinResult,
       GameEngine.calculateSpinResult
         (Nat.iter 25 (Method.after increaseLuck) initial) [0.5]
       = Some (result, [0.5])
       /\ GameEngine.type result = "luck_jackpot".
Proof.
  assert (luckMeter initial <= getMaxLuck initial) as H1
    by (vm_compute; discriminate).
  assert (0 <= getLuckIncrement initial) as H2 by (vm_compute; discriminate).
  assert (getMaxLuck initial
          <= luckMeter initial + inject_Z (Z.of_nat 25) * getLuckIncrement initial)
    as H3 by (vm_compute; discriminate).
  repeat (split; [assumption|]).
  exact (proj2 (losses_arm_the_luck_jackpot 25 initial [0.5] H1 H2 H3)).
Defined.

Lemma comboCount_incrementCombo (g : t) :
  comboCount (Method.after incrementCombo g) = comboCount g + 1.
Proof. now rewrite after_incrementCombo. Qed.

Lemma comboMultiplier_incrementCombo (g : t) :
  comboMultiplier (Method.after incrementCombo g)
  = Qmin (1 + (comboCount g + 1) * SLOT_CONFIG.COMBO_BONUS_PER_WIN)
         SLOT_CONFIG.MAX_COMBO_MULTIPLIER.
Proof. now rewrite after_incrementCombo. Qed.

Lemma incrementCombo_repeated (n : nat) (g : t) :
  let g' := Nat.iter (S n) (Method.after incrementCombo) g in
  comboCount g' == comboCount g + inject_Z (Z.of_nat (S n))
  /\ comboMultiplier g'
     == Qmin (1 + (comboCount g + inject_Z (Z.of_nat (S n)))
                  * SLOT_CONFIG.COMBO_BONUS_PER_WIN)
             SLOT_CONFIG.MAX_COMBO_MULTIPLIER.
Proof.
  cbn zeta. induction n as [|n [IH _]].
  - rewrite Nat.iter_succ. cbn [Nat.iter nat_rect].
    rewrite comboCount_incrementCombo, comboMultiplier_incrementCombo.
    change (inject_Z (Z.of_nat 1)) with 1. split; reflexivity.
  - rewrite Nat.iter_succ.
    rewrite comboCount_incrementCombo, comboMultiplier_incrementCombo.
    assert (comboCount (Nat.iter (S n) (Method.after incrementCombo) g) + 1
            == comboCount g + inject_Z (Z.of_nat (S (S n)))) as E.
    { rewrite IH. rewrite (Nat2Z.inj_succ (S n)), <- Z.add_1_r, inject_Z_plus.
      change (inject_Z 1) with 1. ring. }
    split; [exact E|]. now rewrite E.
Qed.

(** X7. After [resetCombo] and then [n + 1] calls of [incrementCombo], the
    combo count is [n + 1] and the combo multiplier is
    [min(1 + (n + 1) * COMBO_BONUS_PER_WIN, MAX_COMBO_MULTIPLIER)]; from
    twenty wins in a row on it is [MAX_COMBO_MULTIPLIER]. *)
Theorem combo_after_wins (n : nat) (g : t) :
  let g' :=
    Nat.iter (S n) (Method.after incrementCombo) (Method.after resetCombo g) in
  comboCount g' == inject_Z (Z.of_nat (S n))
  /\ comboMultiplier g'
     == Qmin (1 + inject_Z (Z.of_nat (S n)) * SLOT_CONFIG.COMBO_BONUS_PER_WIN)
             SLOT_CONFIG.MAX_COMBO_MULTIPLIER
  /\ ((20 <= S n)%nat ->
      comboMultiplier g' == SLOT_CONFIG.MAX_COMBO_MULTIPLIER).
Proof.
  cbn zeta.
  destruct (incrementCombo_repeated n (Method.after resetCombo g)) as [Hcount Hmult].
  assert (comboCount (Method.after resetCombo g) = 0) as Ezero.
  { destruct g as [? ? ? ? ? ? ? ? ? ? ? ? own]; destruct own; reflexivity. }
  rewrite Ezero in Hcount, Hmult.
  assert (comboCount
            (Nat.iter (S n) (Method.after incrementCombo) (Method.after resetCombo g))
          == inject_Z (Z.of_nat (S n))) as E1 by (rewrite Hcount; ring).
  split; [exact E1|]. split.
  - rewrite Hmult. now rewrite Qplus_0_l.
  - intros Hlong. rewrite Hmult, Qplus_0_l. apply Q.min_r.
    unfold SLOT_CONFIG.MAX_COMBO_MULTIPLIER, SLOT_CONFIG.COMBO_BONUS_PER_WIN.
    assert (inject_Z 20 <= inject_Z (Z.of_nat (S n))) as H
      by (rewrite <- Zle_Qle; lia).
    change (inject_Z 20) with 20 in H. lra.
Qed.

Lemma getUpgradedPayout_ge (g : t) (symbol : string) :
  inRange g -> In symbol SLOT_CONFIG.SYMBOLS ->
  exists (p : SLOT_CONFIG.Payout) (upgraded : JS.number),
    JS.get SLOT_CONFIG.PAYOUTS symbol = Some p
    /\ getUpgradedPayout g symbol = Some upgraded
    /\ SLOT_CONFIG.basePayout p <= upgraded
    /\ 10 <= SLOT_CONFIG.basePayout p.
Proof.
  intros (Hc & Hj & [Hm1 Hm2] & [Hl1 Hl2] & Hcc & [Hcm1 Hcm2] & Hlev) Hin.
  level_facts Hlev. simpl in Hin.
  unfold getUpgradedPayout, symbolLevel.
  repeat (destruct Hin as [<-|Hin];
    [cbn;
     match goal with
     | |- context [(?l =? 0)%Z] => destruct (l =? 0)%Z
     end;
     eexists _, _; (split; [reflexivity|]); (split; [reflexivity|]);
     cbn [SLOT_CONFIG.basePayout]; (split; [|lra]);
     try apply Qle_refl;
     match goal with
     | |- ?b <= JS.floor (?b * JS.pow ?q ?n) =>
         apply (floor_ge_integer (Qnum b)), (scaled_power_ge b q n); [lra|lra|lia]
     end|]).
  destruct Hin.
Qed.

(** X9. What [calculatePayout] gives for a result of
    [calculateSpinResult], on a state in range: it returns (it does not
    throw); a loss pays 0; the luck jackpot and three stars pay the
    jackpot, which is at least [INITIAL_JACKPOT]; any other win pays at
    least ten times the cost of the spin, at least the upgraded payout of
    the symbol times the cost, and at most [MAX_COMBO_MULTIPLIER] times
    that. *)
Theorem payout_bounds (g : t) (draws rest : list JS.number)
  (result : GameEngine.SpinResult) :
  inRange g ->
  GameEngine.calculateSpinResult g draws = Some (result, rest) ->
  exists amount : JS.number,
    GameEngine.calculatePayout result g = JS.Return amount
    /\ (GameEngine.type result = "loss" -> amount = 0)
    /\ (GameEngine.type result = "luck_jackpot"
        \/ GameEngine.winSymbol result = Some "🌟" ->
        amount = jackpot g /\ SLOT_CONFIG.INITIAL_JACKPOT <= amount)
    /\ (GameEngine.type result = "win"
        /\ GameEngine.winSymbol result <> Some "🌟" ->
        exists upgraded : JS.number,
          option_bind _ _ (getUpgradedPayout g) (GameEngine.winSymbol result)
          = Some upgraded
          /\ 10 * GameEngine.getSpinCost g <= amount
          /\ upgraded * GameEngine.getSpinCost g <= amount
          /\ amount
             <= SLOT_CONFIG.MAX_COMBO_MULTIPLIER
                * (upgraded * GameEngine.getSpinCost g)).
Proof.
  intros Hg Hresult.
  pose proof Hg as (Hc & Hj & [Hm1 Hm2] & [Hl1 Hl2] & Hcc & [Hcm1 Hcm2] & Hlev).
  apply calculateSpinResult_shape in Hresult.
  destruct Hresult as [|winSymbol Hin|symbols].
  - exists (jackpot g). cbn. split; [reflexivity|]. split; [discriminate|].
    split; [intros _; now split | intros [[=] _]].
  - destruct (getUpgradedPayout_ge g winSymbol Hg Hin)
      as (p & upgraded & Hp & Hupgraded & Hbase & Hten).
    unfold GameEngine.calculatePayout.
    cbn [GameEngine.type GameEngine.payout GameEngine.winSymbol].
    change (String.eqb "win" "loss") with false.
    change (String.eqb "win" "luck_jackpot") with false.
    rewrite Hp, orb_false_r.
    destruct (SLOT_CONFIG.isJackpot p) eqn:Ejackpot.
    + exists (jackpot g). split; [reflexivity|]. split; [discriminate|].
      split; [intros _; now split|].
      intros [_ Hnot]. exfalso. simpl in Hin.
      repeat (destruct Hin as [<-|Hin];
              [cbn in Hp; injection Hp as <-; first [discriminate | congruence]|]).
      destruct Hin.
    + rewrite Hupgraded. eexists. split; [reflexivity|].
      split; [discriminate|]. split.
      * intros [[=]|[= ->]]. cbn in Hp. injection Hp as <-. discriminate.
      * intros _. exists upgraded. cbn [option_bind]. split; [exact Hupgraded|].
        unfold GameEngine.getSpinCost.
        unfold SLOT_CONFIG.MAX_COMBO_MULTIPLIER, SLOT_CONFIG.BASE_COST in *.
        set (m := multiplier g) in *. set (c := comboMultiplier g) in *.
        set (b := SLOT_CONFIG.basePayout p) in *.
        assert (0 <= upgraded * 10 * m) as Hpos by nra.
        assert (0 <= upgraded * 10 * m * (c - 1)) as Hbonus by nra.
        pose proof (floor_ge_integer 0 _ Hbonus) as Hfloor0.
        change (inject_Z 0) with 0 in Hfloor0.
        pose proof (Qfloor_le (upgraded * 10 * m * (c - 1))) as Hfloor1.
        fold (JS.floor (upgraded * 10 * m * (c - 1))) in Hfloor1.
        set (f := JS.floor _) in *.
        repeat split; nra.
  - exists 0. cbn. split; [reflexivity|]. split; [reflexivity|]. split.
    + intros [[=]|[=]].
    + intros [[=] _].
Qed.

Lemma getUpgradeCost_priced_witness :
  inRange initial
  /\ upgradeConfig "luck" "MAX_LUCK"
     = Some {| config_maxLevel := 2; config_baseCost := 10000;
               config_costMultiplier := 4.0 |}
  /\ exists cost : JS.number,
       getUpgradeCost initial "luck" "MAX_LUCK" = JS.Return (Some cost)
       /\ 10000 <= cost.
Proof.
  split; [exact (reset_inRange initial)|]. split; [reflexivity|].
  destruct (getUpgradeCost_priced initial "luck" "MAX_LUCK" _
              (reset_inRange initial) eq_refl)
    as (current & Hlevel & _ & Hcost).
  injection Hlevel as <-. apply Hcost. discriminate.
Defined.

Lemma toggleMaxBet_twice_witness :
  inRange initial
  /\ multiplier (Method.after toggleMaxBet (Method.after toggleMaxBet initial))
     == 1.
Proof.
  split; [exact (reset_inRange initial)|].
  exact (proj1 (proj2 (toggleMaxBet_twice initial (reset_inRange initial)))).
Defined.

Lemma payout_bounds_witness :
  inRange initial
  /\ GameEngine.calculateSpinResult initial [0.1; 0.05]
     = Some ({| GameEngine.type := "win";
                GameEngine.symbols := ["🍒"; "🍒"; "🍒"];
                GameEngine.winSymbol := Some "🍒";
                GameEngine.payout := JS.get SLOT_CONFIG.PAYOUTS "🍒" |}, [])
  /\ exists amount : JS.number,
       GameEngine.calculatePayout
         {| GameEngine.type := "win";
            GameEngine.symbols := ["🍒"; "🍒"; "🍒"];
            GameEngine.winSymbol := Some "🍒";
            GameEngine.payout := JS.get SLOT_CONFIG.PAYOUTS "🍒" |} initial
       = JS.Return amount
       /\ 10 * GameEngine.getSpinCost initial <= amount.
Proof.
  assert (GameEngine.calculateSpinResult initial [0.1; 0.05]
          = Some ({| GameEngine.type := "win";
                     GameEngine.symbols := ["🍒"; "🍒"; "🍒"];
                     GameEngine.winSymbol := Some "🍒";
                     GameEngine.payout := JS.get SLOT_CONFIG.PAYOUTS "🍒" |}, []))
    as Hresult by (vm_compute; reflexivity).
  split; [exact (reset_inRange initial)|]. split; [exact Hresult|].
  destruct (payout_bounds initial _ _ _ (reset_inRange initial) Hresult)
    as (amount & Hamount & _ & _ & Hwin).
  exists amount. split; [exact Hamount|].
  destruct Hwin as (upgraded & _ & Hten & _); [|exact Hten].
  split; [reflexivity|discriminate].
Defined.

End GameStateMethods.

(** ** The reels *)

Lemma displayLoop_In (entries : list (string * JS.number)) :
  forall (random : JS.number) (symbol : string),
    GameEngine.displayLoop random entries = Some symbol ->
    In symbol (map fst entries).
Proof.
  induction entries as [|[s w] rest IH]; intros random symbol; simpl.
  - discriminate.
  - destruct (JS.ge _ _).
    + intros [= <-]. now left.
    + intros H. right. exact (IH _ _ H).
Qed.

Lemma weightedDisplaySymbol_symbol (u : JS.number) :
  In (GameEngine.weightedDisplaySymbol u) SLOT_CONFIG.SYMBOLS.
Proof.
  unfold GameEngine.weightedDisplaySymbol.
  destruct (GameEngine.displayLoop _ _) as [symbol|] eqn:E.
  - apply displayLoop_In in E. exact E.
  - now left.
Qed.

Lemma redrawWith_not_equal (symbolOf : JS.number -> string)
  (draws : list JS.number) :
  forall (s0 s1 s2 : string) (symbols : list string) (rest : list JS.number),
    (forall u, In (symbolOf u) SLOT_CONFIG.SYMBOLS) ->
    In s0 SLOT_CONFIG.SYMBOLS -> In s1 SLOT_CONFIG.SYMBOLS ->
    In s2 SLOT_CONFIG.SYMBOLS ->
    GameEngine.redrawWith symbolOf s0 s1 s2 draws = Some (symbols, rest) ->
    exists t2 : string,
      symbols = [s0; s1; t2] /\ In t2 SLOT_CONFIG.SYMBOLS
      /\ ~ (s0 = s1 /\ s1 = t2).
Proof.
  induction draws as [|u draws IH]; intros s0 s1 s2 symbols rest Hof H0 H1 H2;
    cbn [GameEngine.redrawWith];
    destruct (String.eqb s0 s1 && String.eqb s1 s2) eqn:E.
  - discriminate.
  - intros [= <- _]. exists s2. repeat split; trivial.
    intros [-> ->]. now rewrite String.eqb_refl in E.
  - intros H. exact (IH s0 s1 (symbolOf u) symbols rest Hof H0 H1 (Hof u) H).
  - intros [= <- _]. exists s2. repeat split; trivial.
    intros [-> ->]. now rewrite String.eqb_refl in E.
Qed.

(** X10. The symbols of a result of [calculateSpinResult] are three
    symbols of [SLOT_CONFIG.SYMBOLS]; for a loss they are not all equal;
    for a win and for the luck jackpot they are three times the winning
    symbol. *)
Theorem reels_show_the_outcome (gameState : GameState.t)
  (draws rest : list JS.number) (result : GameEngine.SpinResult) :
  GameEngine.calculateSpinResult gameState draws = Some (result, rest) ->
  exists s0 s1 s2 : string,
    GameEngine.symbols result = [s0; s1; s2]
    /\ Forall (fun s => In s SLOT_CONFIG.SYMBOLS) [s0; s1; s2]
    /\ (GameEngine.type result = "loss" -> ~ (s0 = s1 /\ s1 = s2))
    /\ (GameEngine.type result <> "loss" ->
        s0 = s1 /\ s1 = s2 /\ GameEngine.winSymbol result = Some s0).
Proof.
  unfold GameEngine.calculateSpinResult.
  destruct (JS.ge _ _).
  - intros [= <- _]. exists "🌟", "🌟", "🌟".
    cbn [GameEngine.symbols GameEngine.type GameEngine.winSymbol].
    repeat split; try discriminate.
    repeat apply List.Forall_cons; try apply List.Forall_nil; simpl; tauto.
  - unfold Random.bind at 1. unfold Random.random at 1.
    destruct draws as [|u draws]; [discriminate|].
    destruct (JS.lt _ _).
    + unfold Random.bind at 1.
      unfold GameEngine.selectWinningSymbol, Random.bind, Random.random, Random.ret.
      destruct draws as [|v draws]; [discriminate|].
      intros [= <- _].
      cbn [GameEngine.symbols GameEngine.type GameEngine.winSymbol].
      pose proof (selectWinningSymbolAt_symbol gameState (Qfloor (v * 10000))) as Hin.
      eexists _, _, _. repeat split; try discriminate.
      repeat apply List.Forall_cons; try apply List.Forall_nil; exact Hin.
    + unfold Random.bind at 1.
      destruct (GameEngine.generateLosingCombination draws)
        as [[symbols rest']|] eqn:E; [|discriminate].
      unfold Random.ret. intros [= <- _].
      cbn [GameEngine.symbols GameEngine.type GameEngine.winSymbol].
      unfold GameEngine.generateLosingCombination, GameEngine.getWeightedDisplaySymbol,
        Random.bind, Random.random, Random.ret in E.
      destruct draws as [|a [|b [|c draws]]]; try discriminate.
      apply redrawWith_not_equal in E
        as (t2 & -> & Hin & Hnot);
        try apply weightedDisplaySymbol_symbol.
      eexists _, _, _. repeat split; trivial; [|congruence..].
      repeat apply List.Forall_cons; try apply List.Forall_nil; trivial;
        apply weightedDisplaySymbol_symbol.
Qed.

Ltac split_display_loop :=
  repeat match goal with
  | |- context [JS.ge ?a ?b] =>
      let E := fresh "E" in
      destruct (JS.ge a b) eqn:E;
      [apply JS_ge_spec in E | apply JS_ge_false in E]
  end.

Ltac expand_weights :=
  cbv [Selection.weightSum SLOT_CONFIG.REEL_DISPLAY_WEIGHTS firstn map fold_left snd
       length].

Ltac first_reaching_at k :=
  exists k; eexists; split; [reflexivity | split; [reflexivity |
    split; [expand_weights; lra |]]];
  let j := fresh "j" in
  let Hj := fresh "Hj" in
  intros j Hj;
  do 9 (destruct j as [|j]; [first [exfalso; lia | expand_weights; lra] |]);
  exfalso; lia.

(** X11. [getWeightedDisplaySymbol], from the product
    [random = Math.random() * totalWeight] on, which is a double of at most
    105; the subtractions of the weights from it are taken as exact (the
    weights are integers and the remainder stays a multiple of the last bit
    of [random]).  When [random] is at most the total weight, the loop
    returns the first symbol, in the order of [REEL_DISPLAY_WEIGHTS], whose
    running sum of weights reaches [random], and the fallback is not
    reached; above the total weight the loop falls through.  The product
    itself is rounded: when [Math.random()] returns 0.5238095238095238 it is
    55 and the symbol is the lemon, the symbol whose running sum is 55. *)
Theorem getWeightedDisplaySymbol_by_weight (random : JS.number) :
  let total := Selection.weightSum (length SLOT_CONFIG.REEL_DISPLAY_WEIGHTS) in
  (random <= total ->
   exists (k : nat) (symbol : string),
     nth_error (map fst SLOT_CONFIG.REEL_DISPLAY_WEIGHTS) k = Some symbol
     /\ GameEngine.displayLoop random SLOT_CONFIG.REEL_DISPLAY_WEIGHTS
        = Some symbol
     /\ random <= Selection.weightSum (S k)
     /\ forall j : nat, (1 <= j <= k)%nat -> Selection.weightSum j < random)
  /\ (total < random ->
      GameEngine.displayLoop random SLOT_CONFIG.REEL_DISPLAY_WEIGHTS = None)
  /\ Double.mul 0.5238095238095238%float 105%float = 55%float
  /\ GameEngine.Rounded.weightedDisplaySymbol 0.5238095238095238%float = "🍋"
  /\ GameEngine.displayLoop 55 SLOT_CONFIG.REEL_DISPLAY_WEIGHTS = Some "🍋".
Proof.
  intros total. subst total.
  split; [|split; [|repeat split; vm_compute; reflexivity]].
  - intros Hrandom. revert Hrandom. expand_weights. intros Hrandom.
    cbv [SLOT_CONFIG.REEL_DISPLAY_WEIGHTS GameEngine.displayLoop map fold_left
         snd length].
    split_display_loop.
    + first_reaching_at 0%nat.
    + first_reaching_at 1%nat.
    + first_reaching_at 2%nat.
    + first_reaching_at 3%nat.
    + first_reaching_at 4%nat.
    + first_reaching_at 5%nat.
    + first_reaching_at 6%nat.
    + first_reaching_at 7%nat.
    + exfalso. lra.
  - expand_weights. intros Hrandom.
    cbv [SLOT_CONFIG.REEL_DISPLAY_WEIGHTS GameEngine.displayLoop map fold_left
         snd length].
    split_display_loop; try reflexivity; exfalso; lra.
Qed.

(** At each running sum of the weights and at the doubles next to it, the
    loop over doubles returns what the loop over exact numbers returns. *)
Lemma displayLoop_rounded_at_the_sums :
  forallb
    (fun sum =>
       Selection.Rounded.displayLoopsAgree sum
       && Selection.Rounded.displayLoopsAgree (PrimFloat.next_up sum)
       && Selection.Rounded.displayLoopsAgree (PrimFloat.next_down sum))
    [30; 55; 75; 90; 98; 102; 104; 105]%float
  = true.
Proof. vm_compute. reflexivity. Qed.

Lemma reels_show_the_outcome_witness :
  GameEngine.calculateSpinResult (Sample.withLuck 0) [0.5; 0; 0; 0; 0.5]
  = Some ({| GameEngine.type := "loss";
             GameEngine.symbols := ["🍒"; "🍒"; "🍋"];
             GameEngine.winSymbol := None;
             GameEngine.payout := None |}, [])
  /\ exists s0 s1 s2 : string,
       ["🍒"; "🍒"; "🍋"] = [s0; s1; s2] /\ ~ (s0 = s1 /\ s1 = s2).
Proof.
  assert (GameEngine.calculateSpinResult (Sample.withLuck 0) [0.5; 0; 0; 0; 0.5]
          = Some ({| GameEngine.type := "loss";
                     GameEngine.symbols := ["🍒"; "🍒"; "🍋"];
                     GameEngine.winSymbol := None;
                     GameEngine.payout := None |}, []))
    as Hresult by (vm_compute; reflexivity).
  split; [exact Hresult|].
  destruct (reels_show_the_outcome _ _ _ _ Hresult)
    as (s0 & s1 & s2 & Hsymbols & _ & Hloss & _).
  exists s0, s1, s2. split; [exact Hsymbols|]. apply Hloss. reflexivity.
Defined.

Lemma getWeightedDisplaySymbol_by_weight_witness :
  55 <= Selection.weightSum (length SLOT_CONFIG.REEL_DISPLAY_WEIGHTS)
  /\ exists (k : nat) (symbol : string),
       nth_error (map fst SLOT_CONFIG.REEL_DISPLAY_WEIGHTS) k = Some symbol
       /\ GameEngine.displayLoop 55 SLOT_CONFIG.REEL_DISPLAY_WEIGHTS
          = Some symbol
       /\ 55 <= Selection.weightSum (S k).
Proof.
  assert (55 <= Selection.weightSum (length SLOT_CONFIG.REEL_DISPLAY_WEIGHTS))
    as H by (vm_compute; discriminate).
  split; [exact H|].
  destruct (proj1 (getWeightedDisplaySymbol_by_weight 55) H)
    as (k & symbol & Hnth & Hsymbol & Hreach & _).
  exists k, symbol. repeat split; assumption.
Defined.

(** ** Spin requests of the orchestrator *)

Section SpinRequests.

Import GameState EnhancedSlotMachine.

Ltac method_unfold :=
  unfold GameState.Method.after, Method.events, Method.outcome, perform,
    purchaseUpgrade, winJackpot, resetCall,
    spendCredits, addCredits, addToJackpot, increaseLuck,
    decreaseLuck, resetLuck, toggleMaxBet, incrementCombo, resetCombo,
    recordSpin, recordWin, recordLoss,
    mbind, mret, method_bind, method_ret, Method.bind, Method.ret,
    Method.this, Method.assign, Method.emit, Method.throw, Method.lift,
    stateChanged, emitStateChange, serialize, call_canAffordSpin.

Ltac fields :=
  cbn [credits jackpot multiplier luckMeter totalSpins totalWins winStreak
       biggestWin jackpots comboCount comboMultiplier upgrades
       own_canAffordSpin with_credits with_jackpot with_multiplier
       with_luckMeter with_totalSpins with_totalWins with_winStreak
       with_biggestWin with_jackpots with_comboCount with_comboMultiplier
       with_upgrades reset initial] in *.



Lemma handleGameError_result (m : EnhancedSlotMachine.t) (b : Browser.t) :
  handleGameError m b
  = (with_active (with_timeout m None) false, snd (cancelAutoSpin m b)).
Proof.
  unfold handleGameError, cancelAutoSpin.
  destruct m as [g active [handle|]]; reflexivity.
Qed.






Lemma flow_call_then {A B : Type} (m : GameState.Method.M A)
  (k : A -> Flow.M B) (g g' : GameState.t) (a : A) (b : B)
  (events : list SpinEvent) :
  Method.outcome m g = JS.Return a ->
  k a (GameState.Method.after m g) = (g', events, JS.Return b) ->
  (Flow.call m ≫= k) g
  = (g', map fromGameState (Method.events m g) ++ events, JS.Return b).
Proof.
  unfold Method.outcome, GameState.Method.after, Method.events, mbind,
    flow_bind, Flow.bind, Flow.call.
  destruct (m g) as [[g1 events1] c]. cbn [fst snd]. intros -> ->.
  reflexivity.
Qed.

Lemma flow_call_last {A : Type} (m : GameState.Method.M A) (g : GameState.t)
  (a : A) :
  Method.outcome m g = JS.Return a ->
  Flow.call m g
  = (GameState.Method.after m g, map fromGameState (Method.events m g),
     JS.Return a).
Proof.
  unfold Method.outcome, GameState.Method.after, Method.events, Flow.call.
  destruct (m g) as [[g1 events1] c]. cbn [snd]. now intros ->.
Qed.

Lemma flow_then {A B : Type} (f : Flow.M A) (k : A -> Flow.M B)
  (g g1 g2 : GameState.t) (a : A) (b : B) (events1 events2 : list SpinEvent) :
  f g = (g1, events1, JS.Return a) ->
  k a g1 = (g2, events2, JS.Return b) ->
  (f ≫= k) g = (g2, events1 ++ events2, JS.Return b).
Proof.
  unfold mbind, flow_bind, Flow.bind. now intros -> ->.
Qed.

(** The calls of the spin flow return, and leave [canAffordSpin] as it
    is. *)
Lemma spin_call_returns (g : GameState.t) (amount : JS.number)
  (m : GameState.Method.M unit) :
  own_canAffordSpin g = None ->
  In m [recordLoss; resetCombo; increaseLuck; recordWin amount; incrementCombo;
        addCredits amount; decreaseLuck; resetLuck] ->
  Method.outcome m g = JS.Return tt
  /\ own_canAffordSpin (GameState.Method.after m g) = None.
Proof.
  intros Hown Hin.
  destruct g as [? ? ? ? ? ? ? ? ? ? ? ? own]. cbn in Hown. subst own.
  cbn [In] in Hin.
  repeat (destruct Hin as [<-|Hin]; [try (split; reflexivity)|]);
    [|destruct Hin].
  unfold Method.outcome, GameState.Method.after, recordWin. method_unfold.
  fields. destruct (JS.gt amount biggestWin0); split; reflexivity.
Qed.

Lemma winJackpot_returns (g : GameState.t) :
  own_canAffordSpin g = None ->
  Method.outcome winJackpot g = JS.Return (jackpot g)
  /\ own_canAffordSpin (GameState.Method.after winJackpot g) = None.
Proof.
  intros Hown.
  destruct g as [? ? ? ? ? ? ? ? ? ? ? ? own]. cbn in Hown. subst own.
  split; reflexivity.
Qed.

Lemma after_recordLoss (g : GameState.t) :
  GameState.Method.after recordLoss g = with_winStreak g 0.
Proof. apply assign_stateChanged_after. Qed.

Lemma after_resetCombo (g : GameState.t) :
  GameState.Method.after resetCombo g
  = with_comboMultiplier (with_comboCount g 0) 1.
Proof. destruct g as [? ? ? ? ? ? ? ? ? ? ? ? own]; destruct own; reflexivity. Qed.

Lemma after_resetLuck (g : GameState.t) :
  GameState.Method.after resetLuck g = with_luckMeter g 0.
Proof. destruct g as [? ? ? ? ? ? ? ? ? ? ? ? own]; destruct own; reflexivity. Qed.

Lemma after_addCredits (g : GameState.t) (amount : JS.number) :
  GameState.Method.after (addCredits amount) g
  = with_credits g (credits g + amount).
Proof. apply assign_stateChanged_after. Qed.

Lemma after_recordWin (g : GameState.t) (amount : JS.number) :
  GameState.Method.after (recordWin amount) g
  = let g1 :=
      with_winStreak (with_totalWins g (totalWins g + 1)) (winStreak g + 1) in
    if JS.gt amount (biggestWin g) then with_biggestWin g1 amount else g1.
Proof.
  destruct g as [? ? ? ? ? ? ? ? ? ? ? ? own].
  unfold GameState.Method.after, recordWin. method_unfold. fields.
  destruct (JS.gt amount biggestWin0); destruct own; reflexivity.
Qed.

Ltac spin_call Hown :=
  lazymatch goal with
  | |- (Flow.call ?m ≫= _) ?g = _ =>
      let H := fresh "Hreturns" in
      let Hown' := fresh "Hown" in
      destruct (spin_call_returns g _ m Hown) as [H Hown'];
      [cbn [In]; tauto|];
      eapply flow_call_then; [exact H|]; clear H
  end.

Lemma processSpinResult_loss (g : GameState.t) (spinData : GameEngine.SpinData) :
  own_canAffordSpin g = None ->
  GameEngine.type (GameEngine.result spinData) = "loss" ->
  exists (g' : GameState.t) (events : list SpinEvent),
    processSpinResult spinData g = (g', events, JS.Return tt)
    /\ own_canAffordSpin g' = None
    /\ In LOSS events
    /\ g' = GameState.Method.after increaseLuck
              (GameState.Method.after resetCombo
                 (GameState.Method.after recordLoss g)).
Proof.
  intros Hown Hloss. unfold processSpinResult. rewrite Hloss.
  change (String.eqb "loss" "loss") with true. cbv iota. unfold handleLoss.
  destruct (spin_call_returns g 0 recordLoss Hown) as [H1 Hown1];
    [cbn [In]; tauto|].
  destruct (spin_call_returns _ 0 resetCombo Hown1) as [H2 Hown2];
    [cbn [In]; tauto|].
  destruct (spin_call_returns _ 0 increaseLuck Hown2) as [H3 Hown3];
    [cbn [In]; tauto|].
  eexists _, _. split.
  - eapply flow_call_then; [exact H1|].
    eapply flow_call_then; [exact H2|].
    eapply flow_call_then; [exact H3|]. reflexivity.
  - split; [exact Hown3|]. split; [|reflexivity].
    rewrite !in_app_iff. cbn [In]. tauto.
Qed.

Lemma processSpinResult_win (g : GameState.t) (spinData : GameEngine.SpinData)
  (p : SLOT_CONFIG.Payout) :
  let result := GameEngine.result spinData in
  let payout := GameEngine.payout_amount spinData in
  let g3 :=
    GameState.Method.after (addCredits payout)
      (GameState.Method.after incrementCombo
         (GameState.Method.after (recordWin payout) g)) in
  own_canAffordSpin g = None ->
  GameEngine.type result <> "loss" ->
  GameEngine.payout result = Some p ->
  SLOT_CONFIG.isJackpot p = false ->
  GameEngine.type result <> "luck_jackpot" ->
  exists (g' : GameState.t) (events : list SpinEvent),
    processSpinResult spinData g = (g', events, JS.Return tt)
    /\ own_canAffordSpin g' = None
    /\ In (WIN (GameEngine.winSymbol result) payout (SLOT_CONFIG.name p)
             (if JS.gt (comboCount g3) 1 then Some (comboCount g3) else None)
             (JS.gt (luckMeter g3) 50) (comboMultiplier g3))
          events
    /\ g' = GameState.Method.after decreaseLuck g3.
Proof.
  intros result payout g3 Hown Hloss Hpayout Hjackpot Hluck.
  apply String.eqb_neq in Hloss, Hluck.
  unfold processSpinResult, handleWin. fold result payout.
  rewrite Hloss, Hpayout, Hjackpot, Hluck. cbn [orb].
  destruct (spin_call_returns g payout (recordWin payout) Hown) as [H1 Hown1];
    [cbn [In]; tauto|].
  destruct (spin_call_returns _ payout incrementCombo Hown1) as [H2 Hown2];
    [cbn [In]; tauto|].
  destruct (spin_call_returns _ payout (addCredits payout) Hown2)
    as [H3 Hown3]; [cbn [In]; tauto|].
  destruct (spin_call_returns _ payout decreaseLuck Hown3) as [H4 Hown4];
    [cbn [In]; tauto|].
  eexists _, _. split.
  - eapply flow_call_then; [exact H1|].
    eapply flow_call_then; [exact H2|].
    eapply flow_then.
    + eapply flow_call_then; [exact H3|].
      unfold handleRegularWin. rewrite Hpayout. reflexivity.
    + apply flow_call_last. exact H4.
  - split; [exact Hown4|]. split; [|reflexivity].
    rewrite !in_app_iff. cbn [In]. tauto.
Qed.

Lemma processSpinResult_jackpot (g : GameState.t)
  (spinData : GameEngine.SpinData) (p : SLOT_CONFIG.Payout) :
  let result := GameEngine.result spinData in
  let payout := GameEngine.payout_amount spinData in
  let g2 :=
    GameState.Method.after incrementCombo
      (GameState.Method.after (recordWin payout) g) in
  own_canAffordSpin g = None ->
  GameEngine.type result <> "loss" ->
  GameEngine.payout result = Some p ->
  SLOT_CONFIG.isJackpot p
  || String.eqb (GameEngine.type result) "luck_jackpot" = true ->
  exists (g' : GameState.t) (events : list SpinEvent),
    processSpinResult spinData g = (g', events, JS.Return tt)
    /\ own_canAffordSpin g' = None
    /\ In (JACKPOT_WIN
             (if String.eqb (GameEngine.type result) "luck_jackpot"
              then "LUCK JACKPOT!" else SLOT_CONFIG.name p)
             (jackpot g)
             (String.eqb (GameEngine.type result) "luck_jackpot"))
          events
    /\ g' = GameState.Method.after resetLuck
              (GameState.Method.after winJackpot g2).
Proof.
  intros result payout g2 Hown Hloss Hpayout Hjackpot.
  apply String.eqb_neq in Hloss.
  unfold processSpinResult, handleWin. fold result payout.
  rewrite Hloss, Hpayout, Hjackpot.
  destruct (spin_call_returns g payout (recordWin payout) Hown) as [H1 Hown1];
    [cbn [In]; tauto|].
  destruct (spin_call_returns _ payout incrementCombo Hown1) as [H2 Hown2];
    [cbn [In]; tauto|].
  destruct (winJackpot_returns _ Hown2) as [H3 Hown3].
  destruct (spin_call_returns _ payout resetLuck Hown3) as [H4 Hown4];
    [cbn [In]; tauto|].
  assert (jackpot g2 = jackpot g) as Ejackpot.
  { subst g2. rewrite after_incrementCombo, after_recordWin. cbn zeta.
    destruct (JS.gt payout (biggestWin g)); reflexivity. }
  fold g2 in H3, Hown3, H4, Hown4. rewrite Ejackpot in H3.
  assert (exists events' : list SpinEvent,
            handleJackpotWin result (jackpot g)
              (GameState.Method.after winJackpot g2)
            = (GameState.Method.after winJackpot g2, events', JS.Return tt)
            /\ In (JACKPOT_WIN
                     (if String.eqb (GameEngine.type result) "luck_jackpot"
                      then "LUCK JACKPOT!" else SLOT_CONFIG.name p)
                     (jackpot g)
                     (String.eqb (GameEngine.type result) "luck_jackpot"))
                  events') as (events' & Ehandle & Hin).
  { unfold handleJackpotWin. rewrite Hpayout.
    destruct (String.eqb (GameEngine.type result) "luck_jackpot");
      (eexists; split; [reflexivity|now left]). }
  eexists _, _. split.
  - eapply flow_call_then; [exact H1|].
    eapply flow_call_then; [exact H2|].
    eapply flow_then.
    + eapply flow_call_then; [exact H3|]. exact Ehandle.
    + apply flow_call_last. exact H4.
  - split; [exact Hown4|]. split; [|reflexivity].
    rewrite !in_app_iff. tauto.
Qed.

Lemma endOfSpinRequest_returns (m : EnhancedSlotMachine.t) (b : Browser.t) :
  own_canAffordSpin (EnhancedSlotMachine.gameState m) = None ->
  EnhancedSlotMachine.gameState (fst (fst (endOfSpinRequest m b)))
  = EnhancedSlotMachine.gameState m
  /\ snd (fst (endOfSpinRequest m b)) = [].
Proof.
  intros Hown. unfold endOfSpinRequest, call_canAffordSpin. rewrite Hown.
  destruct (autoSpinActive m); [|now split].
  destruct (canAffordSpin _); [|now split].
  unfold scheduleAutoSpin, cancelAutoSpin.
  destruct (autoSpinTimeout m); now split.
Qed.

Lemma reelsStopped_completed (m : EnhancedSlotMachine.t) (engine : GameEngine.t)
  (spinData : GameEngine.SpinData) (b : Browser.t)
  (g' : GameState.t) (events : list SpinEvent) :
  processSpinResult spinData (EnhancedSlotMachine.gameState m)
  = (g', events, JS.Return tt) ->
  own_canAffordSpin g' = None ->
  let spin := fst (reelsStopped m engine spinData b) in
  request spin = completed
  /\ EnhancedSlotMachine.gameState (machine spin) = g'
  /\ emitted spin = events.
Proof.
  intros E Hown. unfold reelsStopped. rewrite E.
  destruct (endOfSpinRequest_returns (with_gameState m g') b Hown)
    as [Hstate Hnone].
  destruct (endOfSpinRequest (with_gameState m g') b) as [[m2 events2] b2].
  cbn [fst snd machine request emitted] in *. subst events2.
  split; [reflexivity|]. split; [exact Hstate|]. apply app_nil_r.
Qed.

(** X13. What the end of a spin does to the game state, once the reels
    have stopped ([processSpinResult] and the end of [handleSpinRequest]),
    on a game state whose [canAffordSpin] is the method of the class.  The
    request completes.  After a loss [LOSS] is emitted; credits and jackpot
    stay; the luck meter goes up by [getLuckIncrement()], capped at
    [getMaxLuck()]; combo count, combo multiplier and win streak are reset
    to 0, 1 and 0.  After a win that is no jackpot [WIN] is emitted with
    the payout of the spin data, a message that names the combo when the
    new combo count is above 1 and is marked lucky when the luck meter
    before its decrease is above 50; the credits go up by that payout; the
    jackpot stays; the luck meter goes down by [getLuckDecrement()], not
    below 0; combo count, win streak and total wins go up by one.  After a
    jackpot (a jackpot payout or the luck jackpot) [JACKPOT_WIN] is emitted
    with the jackpot of the game state as its amount; the credits go up by
    that jackpot, not by the payout of the spin data; the jackpot is back at
    [INITIAL_JACKPOT], the luck meter at 0, and the jackpots are counted.
    After either win [biggestWin] is the payout of the spin data when that
    is above it. *)
Theorem spin_settlement (m : EnhancedSlotMachine.t) (engine : GameEngine.t)
  (spinData : GameEngine.SpinData) (b : Browser.t) :
  let g := EnhancedSlotMachine.gameState m in
  let result := GameEngine.result spinData in
  let payout := GameEngine.payout_amount spinData in
  let spin := fst (reelsStopped m engine spinData b) in
  let g' := EnhancedSlotMachine.gameState (machine spin) in
  let combo :=
    JS.min (1 + (comboCount g + 1) * SLOT_CONFIG.COMBO_BONUS_PER_WIN)
           SLOT_CONFIG.MAX_COMBO_MULTIPLIER in
  own_canAffordSpin g = None ->
  (GameEngine.type result = "loss" ->
   request spin = completed
   /\ In LOSS (emitted spin)
   /\ credits g' = credits g
   /\ jackpot g' = jackpot g
   /\ luckMeter g' = JS.min (luckMeter g + getLuckIncrement g) (getMaxLuck g)
   /\ comboCount g' = 0
   /\ comboMultiplier g' = 1
   /\ winStreak g' = 0
   /\ totalWins g' = totalWins g
   /\ biggestWin g' = biggestWin g)
  /\ (forall p : SLOT_CONFIG.Payout,
        GameEngine.type result <> "loss" ->
        GameEngine.payout result = Some p ->
        SLOT_CONFIG.isJackpot p = false ->
        GameEngine.type result <> "luck_jackpot" ->
        request spin = completed
        /\ In (WIN (GameEngine.winSymbol result) payout (SLOT_CONFIG.name p)
                 (if JS.gt (comboCount g + 1) 1 then Some (comboCount g + 1)
                  else None)
                 (JS.gt (luckMeter g) 50) combo)
              (emitted spin)
        /\ credits g' = credits g + payout
        /\ jackpot g' = jackpot g
        /\ jackpots g' = jackpots g
        /\ luckMeter g' = JS.max (luckMeter g - getLuckDecrement g) 0
        /\ comboCount g' = comboCount g + 1
        /\ comboMultiplier g' = combo
        /\ winStreak g' = winStreak g + 1
        /\ totalWins g' = totalWins g + 1
        /\ biggestWin g'
           = (if JS.gt payout (biggestWin g) then payout else biggestWin g))
  /\ (forall p : SLOT_CONFIG.Payout,
        GameEngine.type result <> "loss" ->
        GameEngine.payout result = Some p ->
        SLOT_CONFIG.isJackpot p
        || String.eqb (GameEngine.type result) "luck_jackpot" = true ->
        request spin = completed
        /\ In (JACKPOT_WIN
                 (if String.eqb (GameEngine.type result) "luck_jackpot"
                  then "LUCK JACKPOT!" else SLOT_CONFIG.name p)
                 (jackpot g)
                 (String.eqb (GameEngine.type result) "luck_jackpot"))
              (emitted spin)
        /\ credits g' = credits g + jackpot g
        /\ jackpot g' = SLOT_CONFIG.INITIAL_JACKPOT
        /\ jackpots g' = jackpots g + 1
        /\ luckMeter g' = 0
        /\ comboCount g' = comboCount g + 1
        /\ comboMultiplier g' = combo
        /\ winStreak g' = winStreak g + 1
        /\ totalWins g' = totalWins g + 1
        /\ biggestWin g'
           = (if JS.gt payout (biggestWin g) then payout else biggestWin g)).
Proof.
  intros g result payout spin g' combo Hown. split; [|split].
  - intros Hloss.
    destruct (processSpinResult_loss g spinData Hown Hloss)
      as (g1 & events & E & Hown1 & Hin & Eg1).
    destruct (reelsStopped_completed m engine spinData b g1 events E Hown1)
      as (Hrequest & Hstate & Hevents).
    fold spin in Hrequest, Hstate, Hevents. fold g' in Hstate.
    rewrite Hrequest, Hevents, Hstate, Eg1.
    rewrite after_increaseLuck, after_resetCombo, after_recordLoss.
    repeat split. exact Hin.
  - intros p Hloss Hpayout Hjackpot Hluck.
    destruct (processSpinResult_win g spinData p Hown Hloss Hpayout Hjackpot
                Hluck) as (g1 & events & E & Hown1 & Hin & Eg1).
    destruct (reelsStopped_completed m engine spinData b g1 events E Hown1)
      as (Hrequest & Hstate & Hevents).
    fold spin in Hrequest, Hstate, Hevents. fold g' in Hstate.
    fold result payout in Hin, Eg1.
    rewrite Hrequest, Hevents, Hstate, Eg1.
    rewrite after_addCredits, after_incrementCombo, after_recordWin in Hin.
    rewrite after_decreaseLuck, after_addCredits, after_incrementCombo,
      after_recordWin.
    cbn zeta in *. subst combo.
    destruct (JS.gt payout (biggestWin g)); (split; [reflexivity|]);
      (split; [exact Hin|]); repeat split.
  - intros p Hloss Hpayout Hjackpot.
    destruct (processSpinResult_jackpot g spinData p Hown Hloss Hpayout
                Hjackpot) as (g1 & events & E & Hown1 & Hin & Eg1).
    destruct (reelsStopped_completed m engine spinData b g1 events E Hown1)
      as (Hrequest & Hstate & Hevents).
    fold spin in Hrequest, Hstate, Hevents. fold g' in Hstate.
    fold result payout in Hin, Eg1.
    rewrite Hrequest, Hevents, Hstate, Eg1.
    rewrite after_resetLuck, after_winJackpot, after_incrementCombo,
      after_recordWin.
    assert (own_canAffordSpin
              (with_comboMultiplier
                 (with_comboCount
                    (let g1 :=
                       with_winStreak (with_totalWins g (totalWins g + 1))
                         (winStreak g + 1) in
                     if JS.gt payout (biggestWin g)
                     then with_biggestWin g1 payout else g1)
                    (comboCount
                       (let g1 :=
                          with_winStreak (with_totalWins g (totalWins g + 1))
                            (winStreak g + 1) in
                        if JS.gt payout (biggestWin g)
                        then with_biggestWin g1 payout else g1) + 1))
                 (JS.min
                    (1 + (comboCount
                            (let g1 :=
                               with_winStreak
                                 (with_totalWins g (totalWins g + 1))
                                 (winStreak g + 1) in
                             if JS.gt payout (biggestWin g)
                             then with_biggestWin g1 payout else g1) + 1)
                         * SLOT_CONFIG.COMBO_BONUS_PER_WIN)
                    SLOT_CONFIG.MAX_COMBO_MULTIPLIER)) = None) as ->.
    { cbn zeta. destruct (JS.gt payout (biggestWin g)); exact Hown. }
    cbn zeta in *. subst combo.
    destruct (JS.gt payout (biggestWin g)); (split; [reflexivity|]);
      (split; [exact Hin|]); repeat split.
Qed.

Lemma flow_bind_keeps {A B : Type} (P : GameState.t -> Prop)
  (f : Flow.M A) (k : A -> Flow.M B) (g : GameState.t) :
  P (fst (fst (f g))) ->
  (forall a : A, P (fst (fst (k a (fst (fst (f g))))))) ->
  P (fst (fst ((f ≫= k) g))).
Proof.
  unfold mbind, flow_bind, Flow.bind.
  destruct (f g) as [[g1 events1] [a|e]]; cbn [fst]; [|tauto].
  intros _ Hk. specialize (Hk a). now destruct (k a g1) as [[g2 events2] c2].
Qed.

Lemma flow_call_keeps (c : Call) (g : GameState.t) :
  inRange g -> amountNotNegative c ->
  inRange (fst (fst (Flow.call (perform c) g))).
Proof.
  intros Hg Hc. pose proof (perform_inRange c g Hg Hc) as H.
  unfold GameState.Method.after in H. unfold Flow.call.
  now destruct (perform c g) as [[g1 events] completion].
Qed.

Lemma flow_winJackpot_keeps (g : GameState.t) :
  inRange g -> inRange (fst (fst (Flow.call winJackpot g))).
Proof.
  intros Hg. pose proof (perform_inRange call_winJackpot g Hg I) as H.
  unfold GameState.Method.after, perform, mbind, method_bind, Method.bind in H.
  unfold Flow.call.
  destruct (winJackpot g) as [[g1 events] [amount|e]]; exact H.
Qed.

Lemma flow_gameState_keeps {B : Type} (P : GameState.t -> Prop)
  (k : GameState.t -> Flow.M B) (g : GameState.t) :
  P (fst (fst (k g g))) -> P (fst (fst ((Flow.gameState ≫= k) g))).
Proof.
  unfold mbind, flow_bind, Flow.bind, Flow.gameState.
  now destruct (k g g) as [[g2 events2] c2].
Qed.

Lemma chargeSpin_keeps (g : GameState.t) :
  inRange g -> inRange (fst (fst (chargeSpin g))).
Proof.
  intros Hg. unfold chargeSpin.
  apply flow_bind_keeps; [exact (flow_call_keeps call_recordSpin g Hg I)|].
  intros _. set (g1 := fst (fst (Flow.call recordSpin g))).
  assert (inRange g1) as Hg1 by exact (flow_call_keeps call_recordSpin g Hg I).
  apply flow_gameState_keeps.
  apply flow_bind_keeps;
    [exact (flow_call_keeps (call_spendCredits _) g1 Hg1 I)|].
  intros _. apply (flow_call_keeps (call_addToJackpot _)).
  - exact (flow_call_keeps (call_spendCredits _) g1 Hg1 I).
  - cbn [amountNotNegative].
    destruct Hg1 as (_ & _ & [Hm _] & _).
    apply (floor_ge_integer 0).
    unfold GameEngine.getSpinCost, SLOT_CONFIG.BASE_COST,
      SLOT_CONFIG.JACKPOT_CONTRIBUTION.
    change (inject_Z 0) with 0. lra.
Qed.

Lemma handleGameError_gameState (m : EnhancedSlotMachine.t) (b : Browser.t) :
  EnhancedSlotMachine.gameState (fst (handleGameError m b))
  = EnhancedSlotMachine.gameState m.
Proof. now rewrite handleGameError_result. Qed.

Lemma endOfSpinRequest_keeps_gameState (m : EnhancedSlotMachine.t)
  (b : Browser.t) :
  EnhancedSlotMachine.gameState (fst (fst (endOfSpinRequest m b)))
  = EnhancedSlotMachine.gameState m.
Proof.
  unfold endOfSpinRequest.
  destruct (autoSpinActive m); [|reflexivity].
  destruct (call_canAffordSpin _) as [[|]|e]; try reflexivity.
  - unfold scheduleAutoSpin, cancelAutoSpin.
    destruct (autoSpinTimeout m); reflexivity.
  - pose proof (handleGameError_gameState m b) as H.
    now destruct (handleGameError m b).
Qed.

Lemma caught_gameState (m : EnhancedSlotMachine.t) (engine : GameEngine.t)
  (events : list SpinEvent) (e : JS.Exception) (b : Browser.t) :
  EnhancedSlotMachine.gameState (machine (fst (caught m engine events e b)))
  = EnhancedSlotMachine.gameState m.
Proof.
  unfold caught. pose proof (handleGameError_gameState m b) as H.
  now destruct (handleGameError m b).
Qed.

Lemma handleRegularWin_state (result : GameEngine.SpinResult)
  (payout : JS.number) (g : GameState.t) :
  fst (fst (handleRegularWin result payout g)) = g.
Proof. unfold handleRegularWin. now destruct (GameEngine.payout result). Qed.

Lemma handleJackpotWin_state (result : GameEngine.SpinResult)
  (amount : JS.number) (g : GameState.t) :
  fst (fst (handleJackpotWin result amount g)) = g.
Proof.
  unfold handleJackpotWin.
  destruct (String.eqb _ _); [reflexivity|].
  now destruct (GameEngine.payout result).
Qed.

Lemma flow_emit_state (e : SpinEvent) (g : GameState.t) :
  fst (fst (Flow.emit e g)) = g.
Proof. reflexivity. Qed.

Lemma processSpinResult_keeps (spinData : GameEngine.SpinData)
  (g : GameState.t) :
  inRange g -> 0 <= GameEngine.payout_amount spinData ->
  inRange (fst (fst (processSpinResult spinData g))).
Proof.
  intros Hg Hpayout. unfold processSpinResult.
  destruct (String.eqb _ "loss").
  - unfold handleLoss.
    pose proof (flow_call_keeps call_recordLoss g Hg I) as H1.
    apply flow_bind_keeps; [exact H1|]. intros _.
    pose proof (flow_call_keeps call_resetCombo _ H1 I) as H2.
    apply flow_bind_keeps; [exact H2|]. intros _.
    pose proof (flow_call_keeps call_increaseLuck _ H2 I) as H3.
    apply flow_bind_keeps; [exact H3|]. intros _.
    rewrite flow_emit_state. exact H3.
  - unfold handleWin.
    pose proof (flow_call_keeps
                  (call_recordWin (GameEngine.payout_amount spinData)) g Hg I)
      as H1.
    apply flow_bind_keeps; [exact H1|]. intros _.
    pose proof (flow_call_keeps call_incrementCombo _ H1 I) as H2.
    apply flow_bind_keeps; [exact H2|]. intros _.
    destruct (GameEngine.payout (GameEngine.result spinData)) as [p|];
      [|exact H2].
    destruct (SLOT_CONFIG.isJackpot p || _).
    + pose proof (flow_winJackpot_keeps _ H2) as H3.
      assert (inRange
                (fst (fst ((Flow.call winJackpot
                            ≫= handleJackpotWin (GameEngine.result spinData))
                             (fst (fst (Flow.call incrementCombo
                                          (fst (fst (Flow.call
                                             (recordWin
                                                (GameEngine.payout_amount spinData))
                                             g))))))))))
        as H4.
      { apply flow_bind_keeps; [exact H3|]. intros amount.
        now rewrite handleJackpotWin_state. }
      apply flow_bind_keeps; [exact H4|]. intros _.
      exact (flow_call_keeps call_resetLuck _ H4 I).
    + pose proof (flow_call_keeps
                    (call_addCredits (GameEngine.payout_amount spinData)) _ H2
                    Hpayout) as H3.
      match goal with
      | |- inRange (fst (fst ((?f ≫= _) ?g0))) =>
          assert (inRange (fst (fst (f g0)))) as H4
      end.
      { apply flow_bind_keeps; [exact H3|]. intros _.
        now rewrite handleRegularWin_state. }
      apply flow_bind_keeps; [exact H4|]. intros _.
      exact (flow_call_keeps call_decreaseLuck _ H4 I).
Qed.

Lemma reelsStopped_keeps (m : EnhancedSlotMachine.t) (engine : GameEngine.t)
  (spinData : GameEngine.SpinData) (b : Browser.t) :
  inRange (EnhancedSlotMachine.gameState m) ->
  0 <= GameEngine.payout_amount spinData ->
  inRange (EnhancedSlotMachine.gameState
             (machine (fst (reelsStopped m engine spinData b)))).
Proof.
  intros Hg Hpayout.
  pose proof (processSpinResult_keeps spinData _ Hg Hpayout) as H.
  unfold reelsStopped.
  destruct (processSpinResult spinData (EnhancedSlotMachine.gameState m))
    as [[g1 events1] [[]|e]]; cbn [fst] in H.
  - pose proof (endOfSpinRequest_keeps_gameState (with_gameState m g1) b) as E.
    destruct (endOfSpinRequest (with_gameState m g1) b) as [[m2 events2] b2].
    cbn [fst machine] in *. now rewrite E.
  - now rewrite caught_gameState.
Qed.

Lemma calculatePayout_not_negative (g : GameState.t)
  (result : GameEngine.SpinResult) (amount : JS.number) :
  inRange g -> GameEngine.resultShape result ->
  GameEngine.calculatePayout result g = JS.Return amount -> 0 <= amount.
Proof.
  intros Hg Hshape.
  pose proof Hg as (Hc & Hj & [Hm1 Hm2] & _ & _ & [Hcm1 Hcm2] & _).
  assert (0 <= jackpot g) as Hjackpot.
  { unfold SLOT_CONFIG.INITIAL_JACKPOT in Hj. lra. }
  destruct Hshape as [|winSymbol Hin|symbols].
  - cbn. now intros [= <-].
  - destruct (getUpgradedPayout_ge g winSymbol Hg Hin)
      as (p & upgraded & Hp & Hupgraded & Hbase & Hten).
    unfold GameEngine.calculatePayout.
    cbn [GameEngine.type GameEngine.payout GameEngine.winSymbol].
    change (String.eqb "win" "loss") with false.
    change (String.eqb "win" "luck_jackpot") with false.
    rewrite Hp, orb_false_r.
    destruct (SLOT_CONFIG.isJackpot p); [now intros [= <-]|].
    rewrite Hupgraded. intros [= <-].
    unfold SLOT_CONFIG.BASE_COST.
    set (x := multiplier g) in *. set (c := comboMultiplier g) in *.
    assert (0 <= upgraded * 10 * x) as Hpos by nra.
    assert (0 <= upgraded * 10 * x * (c - 1)) as Hbonus by nra.
    pose proof (floor_ge_integer 0 _ Hbonus) as Hfloor.
    change (inject_Z 0) with 0 in Hfloor. lra.
  - cbn. intros [= <-]. lra.
Qed.

(** X14. A spin keeps the game state within its ranges, however it ends.
    From a game state in range, [handleSpinRequest()] does end, given enough
    draws, and however it ends (refused, charged and failed in the engine,
    or waiting for the reels) the game state is in range after it.  When it
    waits for the reels, the payout of its spin data is not negative, and
    from whatever game state in range the reels stop on (the player may
    have bought upgrades or changed the bet meanwhile), the rest of the
    request (win or loss, completed or ended in the [catch]) leaves the
    game state in range: no negative credits, a jackpot of at least
    [INITIAL_JACKPOT], the luck meter and both multipliers within their
    bounds. *)
Theorem spin_keeps_ranges (m : EnhancedSlotMachine.t) (engine : GameEngine.t)
  (draws : list JS.number) (b : Browser.t) :
  inRange (EnhancedSlotMachine.gameState m) ->
  handleSpinRequest m engine (draws ++ [0; 0; 0; 0; 0; 0.5]) <> None
  /\ forall (operation : Browser.Operation Spin) (rest : list JS.number),
       handleSpinRequest m engine draws = Some (operation, rest) ->
       let spin := fst (operation b) in
       inRange (EnhancedSlotMachine.gameState (machine spin))
       /\ forall spinData : GameEngine.SpinData,
            request spin = awaitingReels spinData ->
            0 <= GameEngine.payout_amount spinData
            /\ forall (m' : EnhancedSlotMachine.t) (engine' : GameEngine.t)
                      (b' : Browser.t),
                 inRange (EnhancedSlotMachine.gameState m') ->
                 inRange (EnhancedSlotMachine.gameState
                            (machine (fst (reelsStopped m' engine' spinData b')))).
Proof.
  intros Hg.
  pose proof (chargeSpin_keeps _ Hg) as Hg1.
  unfold handleSpinRequest.
  destruct (GameEngine.canSpin engine (EnhancedSlotMachine.gameState m)).
  2: { cbn [negb]. split; [discriminate|].
       intros operation rest [= <- <-]. cbn. split; [exact Hg|discriminate]. }
  cbn [negb].
  destruct (chargeSpin (EnhancedSlotMachine.gameState m))
    as [[g1 events1] [[]|e]]; cbn [fst] in Hg1.
  2: { split; [discriminate|]. intros operation rest [= <- <-]. cbn zeta.
       rewrite caught_gameState. split; [exact Hg1|].
       intros spinData. unfold caught.
       destruct (handleGameError _ b). discriminate. }
  unfold Random.bind, GameEngine.processSpin.
  destruct (GameEngine.canSpin engine g1).
  2: { cbn [negb]. unfold Random.ret. cbn [fst snd]. split; [discriminate|].
       intros operation rest [= <- <-]. cbn zeta.
       rewrite caught_gameState. split; [exact Hg1|].
       intros spinData. unfold caught.
       destruct (handleGameError _ b). discriminate. }
  cbn [negb]. unfold Random.bind, Random.ret. split.
  - pose proof (calculateSpinResult_settles g1 draws) as Hsettles.
    destruct (GameEngine.calculateSpinResult g1 _) as [[result rest]|];
      [|congruence].
    cbn [fst snd]. destruct (GameEngine.calculatePayout result g1); discriminate.
  - intros operation rest.
    destruct (GameEngine.calculateSpinResult g1 draws)
      as [[result rest']|] eqn:E; [|discriminate].
    apply calculateSpinResult_shape in E.
    pose proof (calculatePayout_not_negative g1 result) as Hpayout.
    cbn [fst snd].
    destruct (GameEngine.calculatePayout result g1) as [amount|e].
    + intros [= <- <-]. cbn. split; [exact Hg1|].
      intros spinData [= <-]. cbn [GameEngine.payout_amount].
      split; [now apply Hpayout|].
      intros m' engine' b' Hg'. apply reelsStopped_keeps; [exact Hg'|].
      now apply Hpayout.
    + intros [= <- <-]. cbn zeta. rewrite caught_gameState.
      split; [exact Hg1|]. intros spinData. unfold caught.
      destruct (handleGameError _ b). discriminate.
Qed.


Lemma spin_settlement_witness :
  let m := EnhancedSlotMachine.initial in
  let spinData :=
    {| GameEngine.result :=
         {| GameEngine.type := "loss";
            GameEngine.symbols := ["🍒"; "🍋"; "🍊"];
            GameEngine.winSymbol := None;
            GameEngine.payout := None |};
       GameEngine.payout_amount := 0;
       GameEngine.cost := 10 |} in
  let spin := fst (reelsStopped m Sample.idle spinData Sample.page) in
  own_canAffordSpin (EnhancedSlotMachine.gameState m) = None
  /\ request spin = completed
  /\ luckMeter (EnhancedSlotMachine.gameState (machine spin)) = 4
  /\ comboMultiplier (EnhancedSlotMachine.gameState (machine spin)) = 1.
Proof.
  intros m spinData spin. split; [reflexivity|].
  destruct (spin_settlement m Sample.idle spinData Sample.page eq_refl)
    as (Hloss & _).
  destruct (Hloss eq_refl)
    as (Hrequest & _ & _ & _ & Hluck & _ & Hcombo & _).
  split; [exact Hrequest|]. split; [|exact Hcombo].
  fold spin in Hluck. rewrite Hluck. reflexivity.
Defined.

Lemma spin_keeps_ranges_witness :
  inRange (EnhancedSlotMachine.gameState EnhancedSlotMachine.initial)
  /\ handleSpinRequest EnhancedSlotMachine.initial Sample.idle
       ([0.5] ++ [0; 0; 0; 0; 0; 0.5]) <> None.
Proof.
  assert (inRange (EnhancedSlotMachine.gameState EnhancedSlotMachine.initial))
    as Hinitial by exact (reset_inRange GameState.initial).
  split; [exact Hinitial|].
  exact (proj1 (spin_keeps_ranges EnhancedSlotMachine.initial Sample.idle
                  [0.5] Sample.page Hinitial)).
Defined.

End SpinRequests.

(** ** The upgrade panel *)

Section UpgradePanel.

Import GameState.

Ltac method_unfold :=
  unfold GameState.Method.after, Method.events, Method.outcome, perform,
    purchaseUpgrade, winJackpot, resetCall,
    spendCredits, addCredits, addToJackpot, increaseLuck,
    decreaseLuck, resetLuck, toggleMaxBet, incrementCombo, resetCombo,
    recordSpin, recordWin, recordLoss,
    mbind, mret, method_bind, method_ret, Method.bind, Method.ret,
    Method.this, Method.assign, Method.emit, Method.throw, Method.lift,
    stateChanged, emitStateChange, serialize, call_canAffordSpin.

Ltac fields :=
  cbn [credits jackpot multiplier luckMeter totalSpins totalWins winStreak
       biggestWin jackpots comboCount comboMultiplier upgrades
       own_canAffordSpin with_credits with_jackpot with_multiplier
       with_luckMeter with_totalSpins with_totalWins with_winStreak
       with_biggestWin with_jackpots with_comboCount with_comboMultiplier
       with_upgrades reset initial] in *.

Lemma purchaseUpgrade_refused (g : GameState.t) (category type : string) :
  canAffordUpgrade g category type = JS.Return false ->
  GameState.purchaseUpgrade category type g
  = (g, [], JS.Throw (JS.Error "Cannot afford upgrade")).
Proof.
  unfold canAffordUpgrade. intros Hafford. method_unfold.
  unfold canAffordUpgrade.
  destruct (getUpgradeCost g category type) as [[cost|]|e];
    try discriminate; try reflexivity.
  injection Hafford as ->. reflexivity.
Qed.

Lemma purchaseUpgrade_runs (g : GameState.t) (category type : string)
  (config : UpgradeConfig) (current : Z) (cost : JS.number) :
  own_canAffordSpin g = None ->
  upgradeConfig category type = Some config ->
  level (upgrades g) category type = JS.Return (Some current) ->
  getUpgradeCost g category type = JS.Return (Some cost) ->
  JS.ge (credits g) cost = true ->
  exists before after : Serialized,
    GameState.purchaseUpgrade category type g
    = (with_upgrades (with_credits g (credits g - cost))
         (setLevel (upgrades g) category type (current + 1)%Z),
       [emitted (state_changed before);
        upgrade_purchased category type (Some (current + 1)%Z) (Some cost);
        emitted (state_changed after)],
       JS.Return tt).
Proof.
  intros Hown Hconfig Hlevel Hcost Hafford.
  method_unfold. unfold canAffordUpgrade.
  rewrite Hcost. cbn [negb id default from_option]. rewrite Hafford. cbn [negb].
  unfold JS.ge in Hafford. unfold JS.lt. rewrite Hafford. cbn [negb].
  destruct g as [? ? ? ? ? ? ? ? ? ? ? ? own]. fields. subst own.
  cbn -[level setLevel]. rewrite Hlevel.
  cbn -[level setLevel].
  rewrite (level_setLevel_same _ _ _ _ _ Hconfig).
  eexists _, _. reflexivity.
Qed.

Lemma upgrade_cost_positive (category type : string) (config : UpgradeConfig)
  (current : Z) :
  upgradeConfig category type = Some config ->
  (0 <= current)%Z ->
  0 < JS.floor (config_baseCost config
                * JS.pow (config_costMultiplier config) current).
Proof.
  intros Hconfig Hcurrent.
  assert (exists base : Z,
            config_baseCost config = inject_Z base /\ (0 < base)%Z
            /\ 1 <= config_costMultiplier config) as (base & E & Hbase & Hmult).
  { pose proof (upgradeConfig_keys _ _ _ Hconfig) as Hin. simpl in Hin.
    repeat (destruct Hin as [Hin|Hin];
            [injection Hin as <- <-; cbn in Hconfig; injection Hconfig as <-;
             cbn; eexists; split; [reflexivity|split; [lia|lra]]|]).
    destruct Hin. }
  rewrite E.
  assert (inject_Z base
          <= JS.floor (inject_Z base
                       * JS.pow (config_costMultiplier config) current)) as H.
  { apply floor_ge_integer, scaled_power_ge; trivial.
    apply inject_Z_nonneg. lia. }
  assert (0 < inject_Z base) as Hpos.
  { change 0 with (inject_Z 0). rewrite <- Zlt_Qlt. exact Hbase. }
  lra.
Qed.

Lemma button_accurate (g : GameState.t) (category type : string)
  (config : UpgradeConfig) (current : Z) :
  inRange g ->
  own_canAffordSpin g = None ->
  upgradeConfig category type = Some config ->
  level (upgrades g) category type = JS.Return (Some current) ->
  exists upgradeCost : option JS.number,
    getUpgradeCost g category type = JS.Return upgradeCost
    /\ (UpgradeManager.buttonText upgradeCost = None
        <-> current = config_maxLevel config)
    /\ (if UpgradeManager.isDisabled g upgradeCost then
          UpgradeManager.purchaseUpgrade category type g = (g, [], false)
        else
          exists (cost : JS.number) (events : list Event),
            UpgradeManager.buttonText upgradeCost = Some cost
            /\ (current < config_maxLevel config)%Z
            /\ UpgradeManager.purchaseUpgrade category type g
               = (with_upgrades (with_credits g (credits g - cost))
                    (setLevel (upgrades g) category type (current + 1)%Z),
                  events, true)).
Proof.
  intros Hg Hown Hconfig Hlevel.
  pose proof Hg as (_ & _ & _ & _ & _ & _ & Hlev).
  pose proof (Hlev _ _ _ _ Hlevel Hconfig) as Hrange.
  unfold getUpgradeCost at 1. rewrite Hlevel, Hconfig.
  destruct (config_maxLevel config <=? current)%Z eqn:Emax.
  - apply Z.leb_le in Emax. exists None. split; [reflexivity|].
    split; [split; [lia|reflexivity]|].
    cbn. unfold UpgradeManager.purchaseUpgrade.
    rewrite purchaseUpgrade_refused; [reflexivity|].
    unfold canAffordUpgrade, getUpgradeCost. rewrite Hlevel, Hconfig.
    destruct (config_maxLevel config <=? current)%Z eqn:E; [reflexivity|].
    apply Z.leb_gt in E. lia.
  - apply Z.leb_gt in Emax.
    set (cost := JS.floor (config_baseCost config
                           * JS.pow (config_costMultiplier config) current)).
    pose proof (upgrade_cost_positive _ _ _ current Hconfig (proj1 Hrange))
      as Hpos. fold cost in Hpos.
    assert (getUpgradeCost g category type = JS.Return (Some cost)) as Hcost.
    { unfold getUpgradeCost. rewrite Hlevel, Hconfig.
      destruct (config_maxLevel config <=? current)%Z eqn:E; [|reflexivity].
      apply Z.leb_le in E. lia. }
    assert (JS.eq cost 0 = false) as Hnonzero.
    { unfold JS.eq. destruct (Qeq_bool cost 0) eqn:E; [|reflexivity].
      apply Qeq_bool_eq in E. lra. }
    exists (Some cost). split; [reflexivity|].
    unfold UpgradeManager.buttonText, UpgradeManager.isDisabled,
      UpgradeManager.truthy. rewrite Hnonzero. cbn [negb orb].
    split; [split; [discriminate|lia]|].
    destruct (JS.lt (credits g) cost) eqn:Eless.
    + unfold UpgradeManager.purchaseUpgrade.
      rewrite purchaseUpgrade_refused; [reflexivity|].
      unfold canAffordUpgrade. rewrite Hcost. f_equal.
      unfold JS.lt in Eless. unfold JS.ge.
      now destruct (Qle_bool cost (credits g)).
    + assert (JS.ge (credits g) cost = true) as Hafford.
      { unfold JS.lt in Eless. unfold JS.ge.
        now destruct (Qle_bool cost (credits g)). }
      destruct (purchaseUpgrade_runs g category type config current cost
                  Hown Hconfig Hlevel Hcost Hafford) as (before & after & Erun).
      exists cost. eexists. split; [reflexivity|]. split; [exact Emax|].
      unfold UpgradeManager.purchaseUpgrade. now rewrite Erun.
Qed.

Lemma symbolLevel_setLevel (u : Upgrades) (symbol : string)
  (config : UpgradeConfig) (value : Z) :
  upgradeConfig "symbols" symbol = Some config ->
  symbolLevel (setLevel u "symbols" symbol value) symbol = Some value.
Proof.
  intros Hconfig.
  pose proof (level_setLevel_same u _ _ _ value Hconfig) as H.
  change (level (setLevel u "symbols" symbol value) "symbols" symbol)
    with (JS.Return (symbolLevel (setLevel u "symbols" symbol value) symbol))
    in H.
  now injection H.
Qed.

Lemma upgradeRow_accurate (g : GameState.t) (category type : string)
  (config : UpgradeConfig) :
  inRange g ->
  own_canAffordSpin g = None ->
  upgradeConfig category type = Some config ->
  exists r : UpgradeManager.Row,
    UpgradeManager.upgradeRow g category type = JS.Return r
    /\ UpgradeManager.type r = type
    /\ UpgradeManager.accurate g category r.
Proof.
  intros Hg Hown Hconfig.
  assert (exists current, level (upgrades g) category type
                          = JS.Return (Some current)) as [current Hlevel].
  { pose proof (upgradeConfig_keys _ _ _ Hconfig) as Hin. simpl in Hin.
    repeat (destruct Hin as [Hin|Hin];
            [injection Hin as <- <-; eexists; reflexivity|]).
    destruct Hin. }
  destruct (button_accurate g category type config current Hg Hown Hconfig
              Hlevel) as (upgradeCost & Hcost & Htext & Hclick).
  unfold UpgradeManager.upgradeRow. rewrite Hlevel, Hcost.
  eexists. split; [reflexivity|]. split; [reflexivity|].
  exists config, current.
  cbn [UpgradeManager.type UpgradeManager.currentLevel UpgradeManager.payouts
       UpgradeManager.disabled UpgradeManager.buttonCost].
  split; [exact Hconfig|]. split; [reflexivity|]. split; [exact Htext|].
  split; [discriminate|].
  destruct (UpgradeManager.isDisabled g upgradeCost).
  - rewrite Hclick. now repeat split.
  - destruct Hclick as (cost & events & Hbutton & Hbelow & ->).
    exists cost. split; [exact Hbutton|]. split; [reflexivity|].
    split; [reflexivity|].
    split; [exact (level_setLevel_same _ _ _ _ _ Hconfig)|discriminate].
Qed.

Lemma symbolRow_accurate (g : GameState.t) (symbol : string)
  (entry : SLOT_CONFIG.SymbolUpgrade) :
  inRange g ->
  own_canAffordSpin g = None ->
  In (symbol, entry) SLOT_CONFIG.SYMBOL_UPGRADES ->
  exists r : UpgradeManager.Row,
    UpgradeManager.symbolRow g symbol entry = JS.Return r
    /\ UpgradeManager.type r = symbol
    /\ UpgradeManager.accurate g "symbols" r.
Proof.
  intros Hg Hown Hin.
  assert (exists (config : UpgradeConfig) (p : SLOT_CONFIG.Payout),
            upgradeConfig "symbols" symbol = Some config
            /\ JS.get SLOT_CONFIG.SYMBOL_UPGRADES symbol = Some entry
            /\ config_maxLevel config = SLOT_CONFIG.maxLevel entry
            /\ JS.get SLOT_CONFIG.PAYOUTS symbol = Some p)
    as (config & p & Hconfig & Hentry & Hmax & Hp).
  { simpl in Hin.
    repeat (destruct Hin as [Hin|Hin];
            [injection Hin as <- <-; eexists _, _; repeat split|]).
    destruct Hin. }
  assert (exists current, symbolLevel (upgrades g) symbol = Some current)
    as [current Hsymbol].
  { pose proof (upgradeConfig_keys _ _ _ Hconfig) as Hkey. simpl in Hkey.
    repeat (destruct Hkey as [Hkey|Hkey];
            [first [discriminate Hkey
                   | injection Hkey as <-; eexists; reflexivity]|]).
    destruct Hkey. }
  assert (level (upgrades g) "symbols" symbol = JS.Return (Some current))
    as Hlevel.
  { change (level (upgrades g) "symbols" symbol)
      with (JS.Return (symbolLevel (upgrades g) symbol)).
    now rewrite Hsymbol. }
  pose proof Hg as (_ & _ & _ & _ & _ & _ & Hlev).
  pose proof (Hlev _ _ _ _ Hlevel Hconfig) as Hrange.
  destruct (button_accurate g "symbols" symbol config current Hg Hown Hconfig
              Hlevel) as (upgradeCost & Hcost & Htext & Hclick).
  assert (forall u : Upgrades,
            symbolLevel u symbol = Some current ->
            getUpgradedPayout (with_upgrades g u) symbol
            = Some (if (current =? 0)%Z then SLOT_CONFIG.basePayout p
                    else JS.floor (SLOT_CONFIG.basePayout p
                                   * JS.pow (SLOT_CONFIG.payoutMultiplier entry)
                                            current))) as Hpayout.
  { intros u Hu. unfold getUpgradedPayout.
    cbn [upgrades with_upgrades]. rewrite Hp, Hu, Hentry.
    now destruct (current =? 0)%Z. }
  unfold UpgradeManager.symbolRow. rewrite Hcost, Hsymbol, Hp.
  assert (getUpgradedPayout g symbol
          = Some (if (current =? 0)%Z then SLOT_CONFIG.basePayout p
                  else JS.floor (SLOT_CONFIG.basePayout p
                                 * JS.pow (SLOT_CONFIG.payoutMultiplier entry)
                                          current))) as Hnow.
  { unfold getUpgradedPayout. rewrite Hp, Hsymbol, Hentry.
    now destruct (current =? 0)%Z. }
  rewrite Hnow. rewrite <- Hmax.
  destruct (current <? config_maxLevel config)%Z eqn:Ebelow;
    (eexists; split; [reflexivity|]; split; [reflexivity|];
     exists config, current;
     cbn [UpgradeManager.type UpgradeManager.currentLevel
          UpgradeManager.payouts UpgradeManager.disabled
          UpgradeManager.buttonCost];
     split; [exact Hconfig|]; split; [reflexivity|]; split; [exact Htext|]).
  - apply Z.ltb_lt in Ebelow. split.
    { intros shown [= <-]. cbn [fst snd]. split; [exact Hnow|lia]. }
    destruct (UpgradeManager.isDisabled g upgradeCost).
    + rewrite Hclick. now repeat split.
    + destruct Hclick as (cost & events & Hbutton & _ & ->).
      exists cost. split; [exact Hbutton|]. split; [reflexivity|].
      split; [reflexivity|].
      split; [exact (level_setLevel_same _ _ _ _ _ Hconfig)|].
      intros shown [= <-]. cbn [snd].
      unfold getUpgradedPayout. cbn [upgrades with_upgrades with_credits].
      rewrite Hp, (symbolLevel_setLevel _ _ _ _ Hconfig), Hentry.
      destruct (current + 1 =? 0)%Z eqn:E; [|reflexivity].
      apply Z.eqb_eq in E. lia.
  - apply Z.ltb_ge in Ebelow. split.
    { intros shown [= <-]. cbn [fst snd]. split; [exact Hnow|reflexivity]. }
    destruct (UpgradeManager.isDisabled g upgradeCost).
    + rewrite Hclick. now repeat split.
    + destruct Hclick as (cost & events & _ & Hbelow & _). lia.
Qed.

Lemma renderRows_accurate {Config : Type} (g : GameState.t)
  (category : string) (row : string -> Config -> JS.completion UpgradeManager.Row)
  (entries : list (string * Config)) :
  (forall (key : string) (config : Config),
     In (key, config) entries ->
     exists r : UpgradeManager.Row,
       row key config = JS.Return r
       /\ UpgradeManager.type r = key
       /\ UpgradeManager.accurate g category r) ->
  exists rows : list UpgradeManager.Row,
    UpgradeManager.renderRows row entries = (rows, JS.Return tt)
    /\ map UpgradeManager.type rows = map fst entries
    /\ Forall (UpgradeManager.accurate g category) rows.
Proof.
  induction entries as [|[key config] rest IH]; intros Hrow.
  - exists []. repeat split. constructor.
  - destruct (Hrow key config (or_introl eq_refl)) as (r & Er & Hkey & Hr).
    destruct IH as (rows & Erows & Hkeys & Hrows).
    { intros key' config' Hin. apply Hrow. now right. }
    exists (r :: rows). cbn [UpgradeManager.renderRows]. rewrite Er, Erows.
    split; [reflexivity|]. cbn [map fst]. rewrite Hkey, Hkeys.
    split; [reflexivity|]. now constructor.
Qed.

(** X15. The upgrade panel tells what its buttons do.  On a game state in
    range whose [canAffordSpin] is the method of the class,
    [renderUpgrades(category)] does not throw and builds one row for each
    upgrade of the category, in the order of the configuration (none for
    another category), and every row is accurate: its button reads "MAX"
    exactly at the last level of the upgrade; the listener of a button
    that carries [disabled] would change and emit nothing; a click on any
    other button buys the upgrade, so that [PLAY_SOUND] is emitted, the
    credits go down by the cost written on the button and the level goes up
    by one; and for a symbol the first payout shown is the payout now, the
    second is the payout after the purchase, and at the last level both are
    the same. *)
Theorem upgrade_panel_is_accurate (g : GameState.t) (category : string) :
  inRange g ->
  own_canAffordSpin g = None ->
  exists rows : list UpgradeManager.Row,
    UpgradeManager.renderUpgrades category g = (rows, JS.Return tt)
    /\ map UpgradeManager.type rows
       = map snd (List.filter (fun key => String.eqb (fst key) category)
                       upgradeKeys)
    /\ Forall (UpgradeManager.accurate g category) rows.
Proof.
  intros Hg Hown. unfold UpgradeManager.renderUpgrades.
  destruct (String.eqb category "symbols") eqn:E1.
  { apply String.eqb_eq in E1. subst category.
    destruct (renderRows_accurate g "symbols" (UpgradeManager.symbolRow g)
                SLOT_CONFIG.SYMBOL_UPGRADES) as (rows & Erows & Hkeys & Hrows).
    { intros key config. now apply symbolRow_accurate. }
    exists rows. split; [exact Erows|]. split; [exact Hkeys|exact Hrows]. }
  destruct (String.eqb category "luck") eqn:E2.
  { apply String.eqb_eq in E2. subst category.
    destruct (renderRows_accurate g "luck"
                (fun type _ => UpgradeManager.upgradeRow g "luck" type)
                SLOT_CONFIG.UPGRADE_SYSTEM.LUCK_UPGRADES)
      as (rows & Erows & Hkeys & Hrows).
    { intros key config Hin. simpl in Hin.
      repeat (destruct Hin as [Hin|Hin];
              [injection Hin as <- <-;
               eapply upgradeRow_accurate; [exact Hg|exact Hown|reflexivity]|]).
      destruct Hin. }
    exists rows. split; [exact Erows|]. split; [exact Hkeys|exact Hrows]. }
  destruct (String.eqb category "multiplier") eqn:E3.
  { apply String.eqb_eq in E3. subst category.
    destruct (renderRows_accurate g "multiplier"
                (fun type _ => UpgradeManager.upgradeRow g "multiplier" type)
                SLOT_CONFIG.UPGRADE_SYSTEM.MULTIPLIER_UPGRADES)
      as (rows & Erows & Hkeys & Hrows).
    { intros key config Hin. simpl in Hin.
      repeat (destruct Hin as [Hin|Hin];
              [injection Hin as <- <-;
               eapply upgradeRow_accurate; [exact Hg|exact Hown|reflexivity]|]).
      destruct Hin. }
    exists rows. split; [exact Erows|]. split; [exact Hkeys|exact Hrows]. }
  exists []. split; [reflexivity|]. split; [|constructor].
  rewrite String.eqb_sym in E1, E2, E3.
  unfold upgradeKeys. cbn [List.filter fst]. now rewrite E1, E2, E3.
Qed.

Lemma upgrade_panel_is_accurate_witness :
  inRange GameState.initial
  /\ own_canAffordSpin GameState.initial = None
  /\ exists rows : list UpgradeManager.Row,
       UpgradeManager.renderUpgrades "luck" GameState.initial
       = (rows, JS.Return tt)
       /\ map UpgradeManager.type rows
          = ["LUCK_GAIN"; "LUCK_RETENTION"; "MAX_LUCK"]
       /\ Forall (UpgradeManager.accurate GameState.initial "luck") rows.
Proof.
  assert (inRange GameState.initial) as Hinitial
    by exact (reset_inRange GameState.initial).
  split; [exact Hinitial|]. split; [reflexivity|].
  exact (upgrade_panel_is_accurate GameState.initial "luck" Hinitial eq_refl).
Defined.

End UpgradePanel.

(** ** The odds on the paytable *)

Section PaytableOdds.

Import GameState.



End PaytableOdds.

(** ** The auto-spin button *)

Section AutoSpinButton.

Import EnhancedSlotMachine.

Lemma clickAutoSpin_result (a : Application.t) (b : Browser.t) :
  let active := negb (UIManager.autoSpinActive (Application.ui a)) in
  let clicked := fst (Application.clickAutoSpin a b) in
  UIManager.autoSpinActive (Application.ui clicked) = active
  /\ autoSpinActive (Application.machine clicked) = active
  /\ (is_Some (autoSpinTimeout (Application.machine clicked))
      <-> active = true)
  /\ gameState (Application.machine clicked)
     = gameState (Application.machine a).
Proof.
  destruct a as [[panel uiActive] [g active timeout]].
  unfold Application.clickAutoSpin, UIManager.toggleAutoSpin,
    Application.deliverAll, Application.deliver, onAutoSpinToggled,
    scheduleAutoSpin, cancelAutoSpin.
  cbn [Application.ui Application.machine UIManager.autoSpinActive fold_left
       fst snd].
  destruct uiActive, timeout as [handle|];
    cbn; (split; [reflexivity|]); (split; [reflexivity|]);
    (split; [|reflexivity]); split; intros H;
    first [reflexivity | discriminate | now eexists | now destruct H].
Qed.

(** X17. The auto-spin button and the orchestrator.  A click on the button
    flips the flag of the UI manager, and the orchestrator takes the new
    flag from the event: while both flags agree they keep agreeing, and the
    orchestrator holds an auto-spin timer exactly when auto spin is on.
    [handleGameError] and [resetGame] of the orchestrator switch its flag
    off and leave the flag of the UI manager as it is: when that one was
    on, it stays on; the next click then switches the UI manager off and
    tells the orchestrator [active: false], so that no timer is set, and
    only the click after that starts auto spin again. *)
Theorem auto_spin_button_and_orchestrator (a : Application.t) (b : Browser.t) :
  let flags (a : Application.t) :=
    (UIManager.autoSpinActive (Application.ui a),
     autoSpinActive (Application.machine a),
     bool_decide (is_Some (autoSpinTimeout (Application.machine a)))) in
  (UIManager.autoSpinActive (Application.ui a)
   = autoSpinActive (Application.machine a) ->
   let on := negb (autoSpinActive (Application.machine a)) in
   flags (fst (Application.clickAutoSpin a b)) = (on, on, on))
  /\ (UIManager.autoSpinActive (Application.ui a) = true ->
      forall stopped : Application.t * Browser.t,
        stopped = Application.gameError a b
        \/ stopped = Application.resetGame a b ->
        let once := Application.clickAutoSpin (fst stopped) (snd stopped) in
        let twice := Application.clickAutoSpin (fst once) (snd once) in
        flags (fst stopped) = (true, false, false)
        /\ flags (fst once) = (false, false, false)
        /\ flags (fst twice) = (true, true, true)).
Proof.
  intros flags.
  assert (forall (a : Application.t) (b : Browser.t),
            flags (fst (Application.clickAutoSpin a b))
            = (negb (UIManager.autoSpinActive (Application.ui a)),
               negb (UIManager.autoSpinActive (Application.ui a)),
               negb (UIManager.autoSpinActive (Application.ui a)))) as Hclick.
  { intros a' b'. subst flags. cbn beta.
    destruct (clickAutoSpin_result a' b') as (-> & -> & Htimer & _).
    do 2 f_equal.
    destruct (negb (UIManager.autoSpinActive (Application.ui a'))).
    - apply bool_decide_eq_true. now apply Htimer.
    - apply bool_decide_eq_false. intros H. now apply Htimer in H. }
  split.
  - intros Hagree on. rewrite Hclick. subst on. now rewrite Hagree.
  - intros Hon stopped Hstopped once twice.
    assert (flags (fst stopped) = (true, false, false)) as Hflags.
    { subst flags. cbn beta.
      destruct a as [[panel uiActive] [g active timeout]].
      cbn in Hon. subst uiActive.
      destruct Hstopped as [-> | ->];
        unfold Application.gameError, Application.resetGame, handleGameError,
          resetGame, cancelAutoSpin;
        cbn [Application.machine Application.ui autoSpinTimeout];
        destruct timeout; reflexivity. }
    split; [exact Hflags|].
    assert (UIManager.autoSpinActive (Application.ui (fst stopped)) = true)
      as Hui by (subst flags; now injection Hflags).
    assert (flags (fst once) = (false, false, false)) as Honce.
    { subst once. rewrite Hclick, Hui. reflexivity. }
    split; [exact Honce|].
    assert (UIManager.autoSpinActive (Application.ui (fst once)) = false)
      as Hui' by (subst flags; now injection Honce).
    subst twice. rewrite Hclick, Hui'. reflexivity.
Qed.

Lemma auto_spin_button_and_orchestrator_witness :
  let a :=
    {| Application.ui :=
         {| UIManager.activePanel := None; UIManager.autoSpinActive := true |};
       Application.machine :=
         with_timeout (with_active EnhancedSlotMachine.initial true)
           (Some 1%positive) |} in
  let stopped := Application.gameError a Sample.page in
  let once := Application.clickAutoSpin (fst stopped) (snd stopped) in
  UIManager.autoSpinActive (Application.ui a) = true
  /\ UIManager.autoSpinActive (Application.ui (fst stopped)) = true
  /\ autoSpinActive (Application.machine (fst stopped)) = false
  /\ autoSpinActive (Application.machine (fst once)) = false.
Proof.
  intros a stopped once. split; [reflexivity|].
  pose proof (proj2 (auto_spin_button_and_orchestrator a Sample.page)
                eq_refl stopped (or_introl eq_refl)) as H.
  cbv beta zeta in H. destruct H as (Hstopped & Honce & _).
  split; [exact (f_equal (fun flags => fst (fst flags)) Hstopped)|].
  split; [exact (f_equal (fun flags => snd (fst flags)) Hstopped)|].
  exact (f_equal (fun flags => snd (fst flags)) Honce).
Defined.

End AutoSpinButton.

(** ** The event dispatcher *)

Section DispatcherProperties.

Import EventDispatcher.

Context {Data World : Type}.
Variable behaviour : nat -> Data -> World -> World * JS.completion unit.

Lemma get_set_same {V : Type} (obj : list (string * V)) (key : string)
  (value : V) :
  JS.get (set obj key value) key = Some value.
Proof.
  induction obj as [|[k v] rest IH]; cbn [set JS.get].
  - now rewrite String.eqb_refl.
  - destruct (String.eqb k key) eqn:E; cbn [JS.get]; now rewrite E.
Qed.

Lemma get_set_other {V : Type} (obj : list (string * V)) (key other : string)
  (value : V) :
  other <> key -> JS.get (set obj key value) other = JS.get obj other.
Proof.
  intros Hne. induction obj as [|[k v] rest IH]; cbn [set JS.get].
  - destruct (String.eqb key other) eqn:E; [|reflexivity].
    apply String.eqb_eq in E. congruence.
  - destruct (String.eqb k key) eqn:E; cbn [JS.get].
    + apply String.eqb_eq in E. subst k.
      destruct (String.eqb key other) eqn:E'; [|reflexivity].
      apply String.eqb_eq in E'. congruence.
    + now rewrite IH.
Qed.

Lemma set_set {V : Type} (obj : list (string * V)) (key : string)
  (value value' : V) :
  set (set obj key value) key value' = set obj key value'.
Proof.
  induction obj as [|[k v] rest IH]; cbn [set].
  - now rewrite String.eqb_refl.
  - destruct (String.eqb k key) eqn:E; cbn [set]; rewrite E; [reflexivity|].
    now rewrite IH.
Qed.

Lemma keys_set {V : Type} (obj : list (string * V)) (key : string) (value : V) :
  In key (map fst (set obj key value))
  /\ forall other : string,
       In other (map fst obj) -> In other (map fst (set obj key value)).
Proof.
  induction obj as [|[k v] rest [IH1 IH2]]; cbn [set map fst In].
  - split; [now left|intros other []].
  - destruct (String.eqb k key) eqn:E; cbn [map fst In].
    + apply String.eqb_eq in E. subst k. split; [now left|tauto].
    + split; [now right|]. intros other [->|Hin]; [now left|right; auto].
Qed.

(** [on] for an event that has an own array or whose name is not
    inherited. *)
Lemma on_returns (d : t) (event : string) (callback : Callback) :
  inherited event = false \/ JS.get (listeners d) event <> None ->
  on event callback d
  = JS.Return {| listeners :=
                   set (listeners d) event (listenersOf d event ++ [callback]);
                 nextToken := nextToken d |}.
Proof.
  intros Hevent. unfold on, listenersOf.
  destruct (JS.get (listeners d) event) as [array|]; [reflexivity|].
  destruct Hevent as [->|Hown]; [reflexivity|congruence].
Qed.

Lemma off_own (d : t) (event : string) (callback : Callback)
  (array : list Callback) :
  JS.get (listeners d) event = Some array ->
  off event callback d
  = JS.Return {| listeners :=
                   set (listeners d) event (removeFirst callback array);
                 nextToken := nextToken d |}.
Proof. intros Hget. unfold off. now rewrite Hget. Qed.

Lemma removeFirst_app_plain (ids : list nat) (callback : Callback) :
  (forall id : nat, callback <> plain id) ->
  removeFirst callback (map plain ids ++ [callback]) = map plain ids.
Proof.
  intros Hne. induction ids as [|id ids IH]; cbn [map app removeFirst].
  - now rewrite decide_True.
  - rewrite decide_False; [now rewrite IH|]. intros E. now apply (Hne id).
Qed.

(** The functions of the callers leave the dispatcher as it is. *)
Lemma emit_plain (ids : list nat) (data : Data) (d : t) (w : World) :
  fold_left (fun state callback => fst (call behaviour callback data state))
            (map plain ids) (d, w)
  = (d, runAll behaviour ids data w).
Proof.
  revert w. induction ids as [|id ids IH]; intros w; [reflexivity|].
  cbn [map fold_left call fst snd]. unfold runAll. cbn [fold_left].
  destruct (behaviour id data w) as [w' c]. cbn [fst]. apply IH.
Qed.

Lemma runAll_app (ids : list nat) (id : nat) (data : Data) (w : World) :
  runAll behaviour (ids ++ [id]) data w
  = fst (behaviour id data (runAll behaviour ids data w)).
Proof. unfold runAll. now rewrite fold_left_app. Qed.

Lemma call_wrapper (event : string) (token f : nat) (data : Data) (d : t)
  (w : World) (array : list Callback) :
  JS.get (listeners d) event = Some array ->
  call behaviour (onceWrapper event token (plain f)) data (d, w)
  = match snd (behaviour f data w) with
    | JS.Throw e => ((d, fst (behaviour f data w)), JS.Throw e)
    | JS.Return _ =>
        (({| listeners :=
               set (listeners d) event
                 (removeFirst (onceWrapper event token (plain f)) array);
             nextToken := nextToken d |},
          fst (behaviour f data w)), JS.Return tt)
    end.
Proof.
  intros Hget. cbn [call fst snd].
  destruct (behaviour f data w) as [w' [[]|e]]; [|reflexivity].
  cbn [fst snd]. now rewrite (off_own _ _ _ _ Hget).
Qed.

(** X18. [once] runs its function once, unless the function throws.  For
    an event whose name is no property of [Object.prototype], on a
    dispatcher whose listeners of the event are functions of the callers:
    [once(event, f)] returns and the event has one listener more; an
    [emit(event, data)] returns, having called the listeners in the order
    of their subscription and [f] last, each whether or not the ones before
    it threw.  When that call of [f] returns, the wrapper is unsubscribed:
    the listeners are those from before, and the next [emit] does not call
    [f].  When it throws, the wrapper stays subscribed, and the next [emit]
    calls [f] again. *)
Theorem once_runs_once_unless_it_throws (d : t) (event : string)
  (ids : list nat) (f : nat) (data data' : Data) (w : World) :
  inherited event = false ->
  listenersOf d event = map plain ids ->
  let w1 := runAll behaviour ids data w in
  exists (d1 : t) (first second : t * World),
    once event (plain f) d = JS.Return d1
    /\ emit behaviour event data (d1, w) = JS.Return first
    /\ emit behaviour event data' first = JS.Return second
    /\ getListenerCount d1 event = Some (S (length ids))
    /\ snd first = fst (behaviour f data w1)
    /\ (snd (behaviour f data w1) = JS.Return tt ->
        listenersOf (fst first) event = map plain ids
        /\ snd second = runAll behaviour ids data' (snd first))
    /\ (forall e : JS.Exception,
          snd (behaviour f data w1) = JS.Throw e ->
          listenersOf (fst first) event = listenersOf d1 event
          /\ snd second = runAll behaviour (ids ++ [f]) data' (snd first)).
Proof.
  intros Hevent Hplain w1.
  set (wrapper := onceWrapper event (nextToken d) (plain f)).
  set (d0 := {| listeners := listeners d; nextToken := S (nextToken d) |}).
  set (d1 := {| listeners :=
                  set (listeners d0) event (map plain ids ++ [wrapper]);
                nextToken := nextToken d0 |}).
  assert (once event (plain f) d = JS.Return d1) as Eonce.
  { unfold once. fold wrapper d0.
    rewrite on_returns by now left.
    unfold listenersOf in Hplain |- *. cbn [listeners d0].
    now rewrite Hplain. }
  assert (JS.get (listeners d1) event = Some (map plain ids ++ [wrapper]))
    as Hget by apply get_set_same.
  assert (forall (data : Data) (w : World),
            emit behaviour event data (d1, w)
            = JS.Return
                (fst (call behaviour wrapper data
                        (d1, runAll behaviour ids data w)))) as Hemit.
  { intros data0 w0. unfold emit. cbn [fst]. rewrite Hget.
    rewrite fold_left_app, emit_plain. reflexivity. }
  assert (forall id : nat, wrapper <> plain id) as Hwrapper by discriminate.
  set (d2 := {| listeners :=
                  set (listeners d1) event
                    (removeFirst wrapper (map plain ids ++ [wrapper]));
                nextToken := nextToken d1 |}).
  assert (forall (data : Data) (w : World),
            call behaviour wrapper data (d1, w)
            = match snd (behaviour f data w) with
              | JS.Throw e => ((d1, fst (behaviour f data w)), JS.Throw e)
              | JS.Return _ => ((d2, fst (behaviour f data w)), JS.Return tt)
              end) as Hcall.
  { intros data0 w0. subst wrapper. now rewrite (call_wrapper _ _ _ _ _ _ _ Hget). }
  assert (JS.get (listeners d2) event = Some (map plain ids)) as Hget2.
  { subst d2. cbn [listeners].
    now rewrite get_set_same, removeFirst_app_plain. }
  exists d1. rewrite Hemit, Hcall. fold w1.
  destruct (behaviour f data w1) as [w2 [[]|e]] eqn:Ef; cbn [fst snd].
  - exists (d2, w2), (d2, runAll behaviour ids data' w2).
    split; [exact Eonce|]. split; [reflexivity|]. split.
    { unfold emit. cbn [fst]. rewrite Hget2. now rewrite emit_plain. }
    split.
    { unfold getListenerCount. rewrite Hget.
      rewrite length_app, length_map. cbn [length]. f_equal. lia. }
    split; [reflexivity|]. split; [|discriminate]. intros _.
    split; [exact (f_equal (default []) Hget2)|reflexivity].
  - exists (d1, w2),
      (fst (call behaviour wrapper data'
              (d1, runAll behaviour ids data' w2))).
    split; [exact Eonce|]. split; [reflexivity|].
    split; [apply Hemit|].
    split.
    { unfold getListenerCount. rewrite Hget.
      rewrite length_app, length_map. cbn [length]. f_equal. lia. }
    split; [reflexivity|]. split; [discriminate|]. intros e' _.
    split; [reflexivity|]. cbn [snd]. rewrite Hcall, runAll_app.
    destruct (behaviour f data' (runAll behaviour ids data' w2))
      as [w3 [[]|e'']]; reflexivity.
Qed.

Lemma insertIndex_In (n : N) (name key : string) (sorted : list (N * string)) :
  In key (map snd (insertIndex n name sorted))
  <-> key = name \/ In key (map snd sorted).
Proof.
  induction sorted as [|[n' name'] rest IH]; cbn [insertIndex map snd In].
  - intuition congruence.
  - destruct (n <? n')%N; cbn [map snd In]; [intuition congruence|].
    rewrite IH. intuition congruence.
Qed.

(** [Object.keys] lists every own property, in whichever order. *)
Lemma keys_In {V : Type} (obj : list (string * V)) (key : string) :
  In key (keys obj) <-> In key (map fst obj).
Proof.
  unfold keys. rewrite in_app_iff, List.filter_In.
  assert (forall (names : list string) (sorted : list (N * string)),
            In key
              (map snd
                 (fold_left (fun sorted name =>
                               match arrayIndex name with
                               | Some n => insertIndex n name sorted
                               | None => sorted
                               end) names sorted))
            <-> In key (map snd sorted)
                \/ (In key names /\ arrayIndex key <> None)) as Hfold.
  { induction names as [|name names IH]; intros sorted; cbn [fold_left In].
    - tauto.
    - rewrite IH. destruct (arrayIndex name) as [n|] eqn:Ename.
      + rewrite insertIndex_In. split.
        * intros [[->|Hin]|[Hin Hindex]]; [right; split; [now left|congruence]
                                          |now left|right; tauto].
        * intros [Hin|[[->|Hin] Hindex]]; [left; now right|left; now left
                                          |right; tauto].
      + split.
        * intros [Hin|[Hin Hindex]]; [now left|right; tauto].
        * intros [Hin|[[->|Hin] Hindex]]; [now left|congruence|right; tauto]. }
  rewrite Hfold. cbn [map In].
  destruct (arrayIndex key); split; intros H;
    intuition (try congruence; try discriminate).
Qed.

End DispatcherProperties.

Lemma once_runs_once_unless_it_throws_witness :
  let d :=
    {| EventDispatcher.listeners := [("win", [EventDispatcher.plain 5])];
       EventDispatcher.nextToken := 0 |} in
  EventDispatcher.on "win" (EventDispatcher.plain 5) EventDispatcher.create
  = JS.Return d
  /\ EventDispatcher.inherited "win" = false
  /\ EventDispatcher.listenersOf d "win" = map EventDispatcher.plain [5%nat]
  /\ exists (d1 : EventDispatcher.t)
            (first second : EventDispatcher.t * list nat),
       EventDispatcher.once "win" (EventDispatcher.plain 0) d = JS.Return d1
       /\ EventDispatcher.emit Sample.logging "win" 10%nat (d1, [])
          = JS.Return first
       /\ EventDispatcher.emit Sample.logging "win" 20%nat first
          = JS.Return second
       /\ snd first = [15; 10]%nat
       /\ snd second = [15; 10; 25; 20]%nat.
Proof.
  intros d.
  assert (EventDispatcher.inherited "win" = false) as Hevent by reflexivity.
  assert (EventDispatcher.listenersOf d "win"
          = map EventDispatcher.plain [5%nat]) as Hplain by reflexivity.
  split; [reflexivity|]. split; [exact Hevent|]. split; [exact Hplain|].
  destruct (once_runs_once_unless_it_throws Sample.logging d "win" [5%nat]
              0%nat 10%nat 20%nat [] Hevent Hplain)
    as (d1 & first & second & Honce & Hfirst & Hsecond & _ & Hlog & _
        & Hthrows).
  exists d1, first, second.
  split; [exact Honce|]. split; [exact Hfirst|]. split; [exact Hsecond|].
  split; [rewrite Hlog; reflexivity|].
  rewrite (proj2 (Hthrows (JS.Error "failed") eq_refl)), Hlog. reflexivity.
Defined.

(** X19. Subscribing and unsubscribing.  For an event whose name is no
    property of [Object.prototype]: [on(event, callback)] returns, and the
    function is the last listener of the event.  The function [on] returns
    removes the first occurrence of the function among the listeners of the
    event: the number of listeners is back to what it was, and the
    listeners are as before when the function was not subscribed already;
    when it was, it is the earlier subscription that goes, so that the
    function now runs after the listeners that were between the two.  [off]
    never removes the event itself: it stays among [getEvents()] even with
    no listener left.  The listeners of other events stay as they are.
    For a name that [this.listeners] inherits from [Object.prototype]
    ([toString], [constructor], ...) and has no array of its own, [on],
    [off], [once] and [emit] throw a [TypeError], nothing can be
    subscribed, and [getListenerCount] returns the [length] of the
    inherited value. *)
Theorem off_removes_first_subscription (d : EventDispatcher.t)
  (event : string) (callback : EventDispatcher.Callback) :
  let array := EventDispatcher.listenersOf d event in
  (EventDispatcher.inherited event = false ->
   exists d1 d2 : EventDispatcher.t,
     EventDispatcher.on event callback d = JS.Return d1
     /\ EventDispatcher.off event callback d1 = JS.Return d2
     /\ EventDispatcher.listenersOf d1 event = array ++ [callback]
     /\ EventDispatcher.getListenerCount d2 event = Some (length array)
     /\ (~ In callback array -> EventDispatcher.listenersOf d2 event = array)
     /\ (forall before after : list EventDispatcher.Callback,
           array = before ++ callback :: after ->
           ~ In callback before ->
           EventDispatcher.listenersOf d2 event
           = before ++ after ++ [callback])
     /\ In event (EventDispatcher.getEvents d2)
     /\ (forall other : string,
           other <> event ->
           JS.get (EventDispatcher.listeners d2) other
           = JS.get (EventDispatcher.listeners d) other))
  /\ (EventDispatcher.inherited event = true ->
      JS.get (EventDispatcher.listeners d) event = None ->
      EventDispatcher.on event callback d = JS.Throw JS.TypeError
      /\ EventDispatcher.off event callback d = JS.Throw JS.TypeError
      /\ EventDispatcher.once event callback d = JS.Throw JS.TypeError
      /\ (forall (Data World : Type)
                 (behaviour : nat -> Data -> World -> World * JS.completion unit)
                 (data : Data) (w : World),
            EventDispatcher.emit behaviour event data (d, w)
            = JS.Throw JS.TypeError)
      /\ exists length : option nat,
           JS.get EventDispatcher.prototypeProperties event = Some length
           /\ EventDispatcher.getListenerCount d event = length).
Proof.
  intros array. split.
  - intros Hevent.
    set (d1 := {| EventDispatcher.listeners :=
                    EventDispatcher.set (EventDispatcher.listeners d) event
                      (array ++ [callback]);
                  EventDispatcher.nextToken := EventDispatcher.nextToken d |}).
    set (d2 := {| EventDispatcher.listeners :=
                    EventDispatcher.set (EventDispatcher.listeners d1) event
                      (EventDispatcher.removeFirst callback
                         (array ++ [callback]));
                  EventDispatcher.nextToken := EventDispatcher.nextToken d1 |}).
    assert (JS.get (EventDispatcher.listeners d1) event
            = Some (array ++ [callback])) as Hget1
      by apply get_set_same.
    assert (EventDispatcher.listeners d2
            = EventDispatcher.set (EventDispatcher.listeners d) event
                (EventDispatcher.removeFirst callback (array ++ [callback])))
      as Hlisteners by apply set_set.
    assert (EventDispatcher.listenersOf d2 event
            = EventDispatcher.removeFirst callback (array ++ [callback]))
      as Hafter.
    { unfold EventDispatcher.listenersOf at 1.
      now rewrite Hlisteners, get_set_same. }
    assert (forall before after : list EventDispatcher.Callback,
              ~ In callback before ->
              EventDispatcher.removeFirst callback (before ++ callback :: after)
              = before ++ after) as Hremove.
    { intros before after. induction before as [|c before IH]; intros Hnot.
      - cbn. now rewrite decide_True.
      - cbn [app EventDispatcher.removeFirst]. rewrite decide_False.
        + rewrite IH; [reflexivity|]. intros Hin. apply Hnot. now right.
        + intros ->. apply Hnot. now left. }
    exists d1, d2.
    split; [apply on_returns; now left|].
    split; [now apply off_own|].
    split; [exact (f_equal (default []) Hget1)|]. split.
    { unfold EventDispatcher.getListenerCount.
      rewrite Hlisteners, get_set_same. f_equal.
      clearbody array. clear.
      induction array as [|c array IH]; cbn [app EventDispatcher.removeFirst].
      - now rewrite decide_True.
      - destruct (decide (c = callback)); cbn [length].
        + rewrite length_app. cbn [length]. lia.
        + now rewrite IH. }
    split.
    { intros Hnot. rewrite Hafter.
      replace (array ++ [callback]) with (array ++ callback :: [])
        by reflexivity.
      rewrite Hremove; [|exact Hnot]. apply app_nil_r. }
    split.
    { intros before after E Hnot. rewrite Hafter, E, <- app_assoc.
      cbn [app]. now rewrite Hremove. }
    split.
    { unfold EventDispatcher.getEvents. apply keys_In. rewrite Hlisteners.
      exact (proj1 (keys_set _ _ _)). }
    intros other Hne. rewrite Hlisteners. now apply get_set_other.
  - intros Hevent Hown.
    unfold EventDispatcher.once, EventDispatcher.on, EventDispatcher.off,
      EventDispatcher.emit, EventDispatcher.getListenerCount.
    cbn [EventDispatcher.listeners fst]. rewrite Hown, Hevent.
    repeat split.
    unfold EventDispatcher.inherited in Hevent.
    destruct (JS.get EventDispatcher.prototypeProperties event) as [length|];
      [|discriminate].
    now exists length.
Qed.

(** No function can be subscribed to the event [toString], and the count
    of the listeners of [constructor] is 1 on a dispatcher without
    listeners; the events are listed as [Object.keys] lists them. *)
Example dispatcher_inherited_names :
  EventDispatcher.on "toString" (EventDispatcher.plain 1) EventDispatcher.create
  = JS.Throw JS.TypeError
  /\ EventDispatcher.getListenerCount EventDispatcher.create "constructor"
     = Some 1%nat
  /\ EventDispatcher.getListenerCount EventDispatcher.create "__proto__" = None
  /\ EventDispatcher.getListenerCount EventDispatcher.create "win" = Some 0%nat
  /\ EventDispatcher.keys
       [("win", 1%nat); ("10", 2%nat); ("loss", 3%nat); ("2", 4%nat);
        ("01", 5%nat)]
     = ["2"; "10"; "win"; "loss"; "01"].
Proof. repeat split. Qed.

(** ** The slots of the inventory *)

Section InventorySlots.

Import InventoryManager.

Context {Item : Type} `{InventoryItem Item}.

(** [findEmptySlot] finds the first empty slot, or -1 when every slot holds
    an item. *)
Lemma findEmptyFrom_spec (s : list (option Item)) (i : Z) :
  (findEmptyFrom s i = (-1)%Z /\ (0 <= i)%Z -> Forall (fun slot => slot <> None) s)
  /\ (Forall (fun slot => slot <> None) s -> findEmptyFrom s i = (-1)%Z)
  /\ (Exists (fun slot => slot = None) s ->
      exists k : nat,
        findEmptyFrom s i = (i + Z.of_nat k)%Z
        /\ s !! k = Some None
        /\ forall j : nat, (j < k)%nat -> exists item, s !! j = Some (Some item)).
Proof.
  revert i. induction s as [|[item|] rest IH]; intros i.
  - split; [constructor|]. split; [reflexivity|]. intros Hex. inversion Hex.
  - destruct (IH (i + 1)%Z) as (IH1 & IH2 & IH3).
    cbn [findEmptyFrom]. split; [|split].
    + intros [E Hi]. constructor; [discriminate|]. apply IH1. split; [exact E|lia].
    + intros Hall. apply IH2. now inversion Hall.
    + intros Hex. inversion Hex as [? ? Habs|? ? Hex']; [discriminate|].
      destruct (IH3 Hex') as (k & E & Hk & Hbefore).
      exists (S k). split; [rewrite E; lia|]. split; [exact Hk|].
      intros [|j] Hj; [now exists item|]. apply Hbefore. lia.
  - cbn [findEmptyFrom]. split; [|split].
    + intros [E Hi]. lia.
    + intros Hall. inversion Hall. congruence.
    + intros _. exists 0%nat. split; [lia|]. split; [reflexivity|].
      intros j Hj. lia.
Qed.

Lemma slotAt_nat (s : list (option Item)) (k : nat) :
  slotAt s (Z.of_nat k) = s !! k.
Proof.
  unfold slotAt. destruct (Z.of_nat k <? 0)%Z eqn:E.
  - apply Z.ltb_lt in E. lia.
  - now rewrite Nat2Z.id.
Qed.

Lemma slotAt_Some (s : list (option Item)) (index : Z) (slot : option Item) :
  slotAt s index = Some slot ->
  exists k : nat, index = Z.of_nat k /\ s !! k = Some slot.
Proof.
  unfold slotAt. destruct (index <? 0)%Z eqn:E; [discriminate|].
  apply Z.ltb_ge in E. intros Hslot. exists (Z.to_nat index).
  split; [lia|exact Hslot].
Qed.

Lemma setSlot_nat (s : list (option Item)) (k : nat) (value : option Item) :
  setSlot s (Z.of_nat k) value = <[k := value]> s.
Proof.
  unfold setSlot. destruct (Z.of_nat k <? 0)%Z eqn:E.
  - apply Z.ltb_lt in E. lia.
  - now rewrite Nat2Z.id.
Qed.

(** X20. [addItem] of an item that is not stacked (auto stack is off, or
    the item is not stackable) never overwrites an item.  When every slot
    holds an item, it returns false and changes neither the manager nor
    localStorage.  When a slot is empty, it returns true and puts the item
    into one slot that was empty, all other slots staying as they are: the
    preferred slot when that is below [maxSlots] and empty, otherwise the
    first empty slot; the operation is counted and [saveInventory] called,
    which persists the slots when [toJSON] returns and localStorage takes
    the write, and leaves the browser as it is when one of them throws:
    [addItem] returns true in both cases. *)
Theorem addItem_takes_an_empty_slot (now : JS.number) (item : Item)
  (quantity : JS.number) (preferredSlot : Z) (m : t Item) (b : Browser.t) :
  autoStack (options m) && stackable item = false ->
  let result := addItem now (instance item) quantity preferredSlot m b in
  let m' := snd (fst result) in
  (Forall (fun slot => slot <> None) (slots m) ->
   result = ((false, m), b))
  /\ (Exists (fun slot => slot = None) (slots m) ->
      fst (fst result) = true
      /\ operationCount m' = (operationCount m + 1)%Q
      /\ saved now m' b (snd result)
      /\ exists target : nat,
           slots m !! target = Some None
           /\ slots m' = <[target := Some item]> (slots m)
           /\ (if (preferredSlot <? maxSlots (options m))%Z
                  && match slotAt (slots m) preferredSlot with
                     | Some None => true
                     | _ => false
                     end
               then Z.of_nat target = preferredSlot
               else forall j : nat,
                      (j < target)%nat ->
                      exists other, slots m !! j = Some (Some other))).
Proof.
  intros Hstack result m'. subst m' result. unfold addItem. rewrite Hstack.
  destruct (findEmptyFrom_spec (slots m) 0) as (_ & Hfull & Hfirst).
  set (usable := (preferredSlot <? maxSlots (options m))%Z
                 && match slotAt (slots m) preferredSlot with
                    | Some None => true
                    | _ => false
                    end).
  assert ((preferredSlot =? -1)%Z
          || (maxSlots (options m) <=? preferredSlot)%Z
          || match slotAt (slots m) preferredSlot with
             | Some None => false
             | _ => true
             end = negb usable) as Etest.
  { subst usable.
    destruct (slotAt (slots m) preferredSlot) as [[other|]|] eqn:Eslot.
    - now rewrite andb_false_r, orb_true_r.
    - rewrite andb_true_r, orb_false_r.
      apply slotAt_Some in Eslot as (k & -> & _).
      assert ((Z.of_nat k =? -1)%Z = false) as -> by (apply Z.eqb_neq; lia).
      cbn [orb].
      destruct (Z.of_nat k <? maxSlots (options m))%Z eqn:E1;
        destruct (maxSlots (options m) <=? Z.of_nat k)%Z eqn:E2;
        try reflexivity;
        [apply Z.ltb_lt in E1; apply Z.leb_le in E2
        |apply Z.ltb_ge in E1; apply Z.leb_gt in E2]; lia.
    - now rewrite andb_false_r, orb_true_r. }
  rewrite Etest. split.
  - intros Hall.
    assert (usable = false) as ->.
    { subst usable. apply andb_false_intro2.
      destruct (slotAt (slots m) preferredSlot) as [[other|]|] eqn:Eslot;
        try reflexivity.
      apply slotAt_Some in Eslot as (k & _ & Hk).
      rewrite List.Forall_forall in Hall. exfalso.
      apply (Hall None); [|reflexivity].
      apply list_elem_of_In. now apply list_elem_of_lookup_2 in Hk. }
    cbn [negb]. unfold findEmptySlot. rewrite (Hfull Hall). reflexivity.
  - intros Hempty. destruct (Hfirst Hempty) as (k & Efind & Hk & Hbefore).
    destruct usable eqn:Eusable; cbn [negb].
    + subst usable. apply andb_prop in Eusable as [_ Eslot].
      destruct (slotAt (slots m) preferredSlot) as [[other|]|] eqn:Eslot';
        try discriminate.
      apply slotAt_Some in Eslot' as (t & -> & Ht).
      assert ((Z.of_nat t =? -1)%Z = false) as -> by (apply Z.eqb_neq; lia).
      cbn [fst snd]. rewrite setSlot_nat.
      split; [reflexivity|]. split; [reflexivity|].
      split; [apply saveInventory_saved|].
      exists t. split; [exact Ht|]. split; reflexivity.
    + unfold findEmptySlot. rewrite Efind, Z.add_0_l.
      assert ((Z.of_nat k =? -1)%Z = false) as -> by (apply Z.eqb_neq; lia).
      cbn [fst snd]. rewrite setSlot_nat.
      split; [reflexivity|]. split; [reflexivity|].
      split; [apply saveInventory_saved|].
      exists k. split; [exact Hk|]. split; [reflexivity|exact Hbefore].
Qed.

(** X21. What [saveInventory] wrote, [loadInventory] reads back.  Let
    [toJSON] return for the items of the slots, with truthy values from
    which [fromJSON] gives the item back.  When localStorage takes the write
    of [saveInventory], the slots are persisted, and [loadInventory] on a
    manager with the same options has the slots that were saved, followed
    by empty slots up to [maxSlots]: exactly the saved slots when there
    were [maxSlots] of them or more.  Slots beyond [maxSlots] are kept,
    never cut off.  When localStorage refuses the write, [saveInventory]
    leaves the browser as it was.  Loading never changes localStorage. *)
Theorem loadInventory_reads_what_was_saved (fromJSON : JSON.value -> Item)
  (now : JS.number) (m m0 : t Item) (b : Browser.t) :
  (forall item : Item,
     In (Some item) (slots m) ->
     exists value : JSON.value,
       toJSON item = JS.Return value
       /\ fromJSON value = item /\ JSON.truthy value = true) ->
  options m0 = options m ->
  let saved := snd (saveInventory now m b) in
  let loaded := fst (loadInventory fromJSON m0 saved) in
  exists data : JSON.value,
    inventoryData now m = JS.Return data
    /\ snd (loadInventory fromJSON m0 saved) = saved
    /\ (Browser.quotaExceeded b (storageKey (options m)) data = false ->
        persisted now m saved
        /\ slots loaded
           = slots m
             ++ replicate (Z.to_nat (maxSlots (options m)) - length (slots m))
                  None
        /\ ((maxSlots (options m) <= Z.of_nat (length (slots m)))%Z ->
            slots loaded = slots m))
    /\ (Browser.quotaExceeded b (storageKey (options m)) data = true ->
        saved = b).
Proof.
  intros Hitems Hoptions saved loaded.
  assert (forall (s : list (option Item)) (values : list JSON.value),
            (forall item : Item,
               In (Some item) s ->
               exists value : JSON.value,
                 toJSON item = JS.Return value
                 /\ fromJSON value = item /\ JSON.truthy value = true) ->
            Forall2 (fun slot value =>
                       match slot with
                       | Some item => toJSON item = JS.Return value
                       | None => value = JSON.Null
                       end) s values ->
            map (fun itemData =>
                   if JSON.truthy itemData then Some (fromJSON itemData)
                   else None) values
            = s) as Hback.
  { intros s values Hs Hvalues.
    induction Hvalues as [|slot value rest values' Hslot Hrest IH];
      [reflexivity|].
    cbn [map]. rewrite IH by (intros other Hin; apply Hs; now right).
    destruct slot as [item|].
    - destruct (Hs item (or_introl eq_refl)) as (v & E & Hfrom & Htruthy).
      rewrite E in Hslot. injection Hslot as <-.
      now rewrite Htruthy, Hfrom.
    - subst value. reflexivity. }
  destruct (slotsToJSON_returns (slots m)) as (values & Evalues & Hvalues).
  { intros item Hin. destruct (Hitems item Hin) as (v & E & _). now exists v. }
  pose proof (Hback _ _ Hitems Hvalues) as Hmap.
  set (data := JSON.Object
                 [("slots", JSON.Array values);
                  ("metadata",
                   JSON.Object
                     [("savedAt", JSON.Number now);
                      ("version", JSON.String "1.0.0");
                      ("operationCount", JSON.Number (operationCount m))])]).
  assert (inventoryData now m = JS.Return data) as Edata.
  { unfold inventoryData. now rewrite Evalues. }
  exists data. split; [exact Edata|].
  split.
  { unfold loadInventory.
    destruct (Browser.localStorage saved !! storageKey (options m0));
      [|reflexivity].
    now destruct (loadFromData fromJSON _ m0). }
  split.
  2:{ intros Hfull. subst saved. unfold saveInventory, Browser.setItem.
      now rewrite Edata, Hfull. }
  intros Hroom.
  assert (saved
          = Browser.with_localStorage b
              (<[storageKey (options m) := data]> (Browser.localStorage b)))
    as Esaved.
  { subst saved. unfold saveInventory, Browser.setItem.
    rewrite Edata, Hroom. reflexivity. }
  assert (loadInventory fromJSON m0 saved
          = (with_slots m0
               (slots m
                ++ replicate
                     (Z.to_nat (maxSlots (options m)) - length (slots m)) None),
             saved)) as Eload.
  { unfold loadInventory. rewrite Esaved.
    cbn [snd Browser.localStorage Browser.with_localStorage].
    rewrite Hoptions, lookup_insert_eq.
    unfold loadFromData. subst data. cbn [JS.get].
    change (String.eqb "slots" "slots") with true. cbv iota.
    cbn [JSON.truthy negb]. rewrite Hmap, Hoptions. reflexivity. }
  split.
  { exists data. split; [exact Edata|]. rewrite Esaved.
    cbn [Browser.localStorage Browser.with_localStorage].
    apply lookup_insert_eq. }
  subst loaded. rewrite Eload. cbn [fst snd slots with_slots].
  split; [reflexivity|].
  intros Hlong.
  replace (Z.to_nat (maxSlots (options m)) - length (slots m))%nat with 0%nat
    by lia.
  apply app_nil_r.
Qed.

(** [addItem] without stacking and without preferred slot. *)
Lemma addItem_first_empty (now : JS.number) (item : Item)
  (quantity : JS.number) (m : t Item) (b : Browser.t) :
  autoStack (options m) && stackable item = false ->
  Exists (fun slot => slot = None) (slots m) ->
  exists target : nat,
    slots m !! target = Some None
    /\ addItem now (instance item) quantity (-1) m b
       = ((true,
           trackOperation (with_slots m (<[target := Some item]> (slots m)))),
          snd (saveInventory now
                 (trackOperation
                    (with_slots m (<[target := Some item]> (slots m)))) b)).
Proof.
  intros Hstack Hempty. unfold addItem. rewrite Hstack.
  destruct (findEmptyFrom_spec (slots m) 0) as (_ & _ & Hfirst).
  destruct (Hfirst Hempty) as (k & Efind & Hk & _).
  exists k. split; [exact Hk|].
  change (-1 =? -1)%Z with true. cbn [orb].
  unfold findEmptySlot. rewrite Efind, Z.add_0_l.
  assert ((Z.of_nat k =? -1)%Z = false) as -> by (apply Z.eqb_neq; lia).
  now rewrite setSlot_nat.
Qed.

(** X22. Slots beyond [maxSlots].  When the array of slots is longer than
    [maxSlots] (as [loadFromData] leaves it for stored data with more
    slots), the slots below [maxSlots] all hold items and a slot beyond is
    empty, [addItem] of an item that is not stacked returns true and puts
    the item into the first empty slot, at or beyond [maxSlots].  From
    there [removeItem] returns null and [moveItem] returns false, whatever
    the quantity and the other slot, and both leave the manager and
    localStorage as they are: the item cannot be taken out or moved. *)
Theorem items_beyond_maxSlots_stay (now : JS.number) (item : Item)
  (quantity : JS.number) (m : t Item) (b : Browser.t) :
  autoStack (options m) && stackable item = false ->
  (forall j : nat,
     (Z.of_nat j < maxSlots (options m))%Z ->
     exists other, slots m !! j = Some (Some other)) ->
  Exists (fun slot => slot = None) (slots m) ->
  let result := addItem now (instance item) quantity (-1) m b in
  let m' := snd (fst result) in
  fst (fst result) = true
  /\ exists target : nat,
       (maxSlots (options m) <= Z.of_nat target)%Z
       /\ slots m' !! target = Some (Some item)
       /\ (forall (now' quantity' : JS.number),
             removeItem now' (Z.of_nat target) quantity' m' (snd result)
             = ((None, m'), snd result))
       /\ (forall (now' quantity' : JS.number) (toSlot : Z),
             toSlot <> Z.of_nat target ->
             moveItem now' (Z.of_nat target) toSlot quantity' m' (snd result)
             = ((false, m'), snd result)).
Proof.
  intros Hstack Hfull Hempty result m'.
  destruct (addItem_first_empty now item quantity m b Hstack Hempty)
    as (target & Htarget & Eadd).
  subst m' result. rewrite Eadd. cbn [fst snd].
  split; [reflexivity|]. exists target.
  assert (maxSlots (options m) <= Z.of_nat target)%Z as Hbeyond.
  { destruct (Z_lt_le_dec (Z.of_nat target) (maxSlots (options m)))
      as [Hless|Hge]; [|exact Hge].
    destruct (Hfull target Hless) as [other Hother]. congruence. }
  split; [exact Hbeyond|]. split.
  { cbn [slots trackOperation with_slots]. apply list_lookup_insert_eq.
    now apply lookup_lt_Some in Htarget. }
  split.
  - intros now' quantity'. unfold removeItem.
    cbn [options trackOperation with_slots].
    assert ((maxSlots (options m) <=? Z.of_nat target)%Z = true) as ->
      by now apply Z.leb_le.
    now rewrite orb_true_r.
  - intros now' quantity' toSlot Hne. unfold moveItem.
    cbn [options trackOperation with_slots].
    assert ((Z.of_nat target =? toSlot)%Z = false) as ->
      by (apply Z.eqb_neq; congruence).
    assert ((maxSlots (options m) <=? Z.of_nat target)%Z = true) as ->
      by now apply Z.leb_le.
    now rewrite orb_true_r.
Qed.

Lemma itemsOf_length (s : list (option Item)) :
  (length (itemsOf s) <= length s)%nat.
Proof.
  unfold itemsOf. induction s as [|[item|] rest IH]; cbn; lia.
Qed.

Lemma itemsOf_compact (items : list Item) (n : nat) :
  itemsOf (map Some items ++ replicate n None) = items.
Proof.
  unfold itemsOf. induction items as [|item items IH]; cbn.
  - induction n as [|n IHn]; [reflexivity|exact IHn].
  - now rewrite IH.
Qed.

Lemma take_compact (items : list Item) (n k : nat) :
  (length items <= n)%nat ->
  (n - length items <= k)%nat ->
  take n (map Some items ++ replicate k None)
  = map Some items ++ replicate (n - length items) None.
Proof.
  revert n. induction items as [|item items IH]; intros n Hn Hk.
  - cbn [map app length] in *. rewrite Nat.sub_0_r in *.
    rewrite take_replicate. f_equal. lia.
  - destruct n as [|n]; [cbn in Hn; lia|].
    cbn [map app length take Nat.sub] in *. f_equal. apply IH; lia.
Qed.

Lemma findEmptyFrom_compact (items : list Item) (n : nat) (i : Z) :
  findEmptyFrom (map Some items ++ replicate n None) i
  = if (n =? 0)%nat then (-1)%Z else (i + Z.of_nat (length items))%Z.
Proof.
  revert i. induction items as [|item items IH]; intros i.
  - cbn [map app length]. destruct n as [|n]; [reflexivity|].
    cbn. lia.
  - cbn [map app length findEmptyFrom]. rewrite IH.
    destruct (n =? 0)%nat; lia.
Qed.

(** X23. [sortInventory] moves the items to the front.  As
    [Array.prototype.sort] does, let the sort give back the items it was
    given, in some order.  After [sortInventory] the slots hold the sorted
    items from the first slot on, followed by empty slots only; there are
    as many slots as before and the same items; the first empty slot, if
    any is left, is the one after the last item; [currentSort] is the
    criterion, and the operation is counted. *)
Theorem sortInventory_compacts (now : JS.number) (sortBy : string)
  (ascending : bool) (m : t Item) (b : Browser.t) :
  sorted sortBy ascending (itemsOf (slots m)) ≡ₚ itemsOf (slots m) ->
  let m' := fst (sortInventory now sortBy ascending m b) in
  let items := sorted sortBy ascending (itemsOf (slots m)) in
  slots m'
  = map Some items ++ replicate (length (slots m) - length items) None
  /\ length (slots m') = length (slots m)
  /\ itemsOf (slots m') = items
  /\ findEmptySlot m'
     = (if (length items <? length (slots m))%nat
        then Z.of_nat (length items) else (-1)%Z)
  /\ currentSort m' = sortBy
  /\ operationCount m' = (operationCount m + 1)%Q.
Proof.
  intros Hperm m' items.
  assert (length items <= length (slots m))%nat as Hlength.
  { subst items. rewrite Hperm. apply itemsOf_length. }
  assert (slots m'
          = map Some items
            ++ replicate (length (slots m) - length items) None) as Hslots.
  { subst m'. unfold sortInventory.
    cbn [fst slots trackOperation]. fold items. apply take_compact; lia. }
  split; [exact Hslots|]. split.
  { rewrite Hslots, length_app, length_map, length_replicate. lia. }
  split; [rewrite Hslots; apply itemsOf_compact|]. split.
  { unfold findEmptySlot. rewrite Hslots, findEmptyFrom_compact.
    destruct (length items <? length (slots m))%nat eqn:E.
    - apply Nat.ltb_lt in E.
      destruct (length (slots m) - length items =? 0)%nat eqn:E';
        [apply Nat.eqb_eq in E'; lia|lia].
    - apply Nat.ltb_ge in E.
      destruct (length (slots m) - length items =? 0)%nat eqn:E';
        [reflexivity|apply Nat.eqb_neq in E'; lia]. }
  split; reflexivity.
Qed.

End InventorySlots.

Lemma addItem_takes_an_empty_slot_witness :
  let result :=
    InventoryManager.addItem 0 (InventoryManager.instance Sample.sword) 1 (-1)
      Sample.longInventory Sample.page in
  InventoryManager.autoStack (InventoryManager.options Sample.longInventory)
  && InventoryManager.stackable Sample.sword = false
  /\ Exists (fun slot => slot = None)
       (InventoryManager.slots Sample.longInventory)
  /\ fst (fst result) = true
  /\ InventoryManager.operationCount (snd (fst result)) = (0 + 1)%Q.
Proof.
  intros result.
  assert (Exists (fun slot : option Sample.Stack => slot = None)
            (InventoryManager.slots Sample.longInventory)) as Hempty.
  { cbn. do 2 apply List.Exists_cons_tl. now apply List.Exists_cons_hd. }
  assert (InventoryManager.autoStack
            (InventoryManager.options Sample.longInventory)
          && InventoryManager.stackable Sample.sword = false) as Hstack
    by reflexivity.
  split; [exact Hstack|]. split; [exact Hempty|].
  destruct (proj2 (addItem_takes_an_empty_slot 0 Sample.sword 1 (-1)
                     Sample.longInventory Sample.page Hstack) Hempty)
    as (Hadded & Hcount & _).
  split; [exact Hadded|exact Hcount].
Defined.

Lemma loadInventory_reads_what_was_saved_witness :
  let saved :=
    snd (InventoryManager.saveInventory 0 Sample.fullInventory Sample.page) in
  let fresh :=
    InventoryManager.create (InventoryManager.options Sample.fullInventory) in
  (forall item : Sample.Stack,
     In (Some item) (InventoryManager.slots Sample.fullInventory) ->
     exists value : JSON.value,
       InventoryManager.toJSON item = JS.Return value
       /\ Sample.stackFromJSON value = item /\ JSON.truthy value = true)
  /\ InventoryManager.persisted 0 Sample.fullInventory saved
  /\ InventoryManager.slots
       (fst (InventoryManager.loadInventory Sample.stackFromJSON fresh saved))
     = InventoryManager.slots Sample.fullInventory.
Proof.
  intros saved fresh.
  assert (forall item : Sample.Stack,
            In (Some item) (InventoryManager.slots Sample.fullInventory) ->
            exists value : JSON.value,
              InventoryManager.toJSON item = JS.Return value
              /\ Sample.stackFromJSON value = item
              /\ JSON.truthy value = true) as Hitems.
  { intros item [[= <-]|[[= <-]|[]]]; eexists; repeat split; reflexivity. }
  split; [exact Hitems|].
  destruct (loadInventory_reads_what_was_saved
              Sample.stackFromJSON 0 Sample.fullInventory fresh
              Sample.page Hitems eq_refl)
    as (data & _ & _ & Hwritten & _).
  destruct (Hwritten eq_refl) as (Hpersisted & _ & Hsame).
  split; [exact Hpersisted|].
  apply Hsame. cbn. lia.
Defined.

Lemma items_beyond_maxSlots_stay_witness :
  let result :=
    InventoryManager.addItem 0 (InventoryManager.instance Sample.sword) 1 (-1)
      Sample.longInventory Sample.page in
  (forall j : nat,
     (Z.of_nat j
      < InventoryManager.maxSlots (InventoryManager.options Sample.longInventory))%Z ->
     exists other,
       InventoryManager.slots Sample.longInventory !! j = Some (Some other))
  /\ fst (fst result) = true
  /\ InventoryManager.removeItem 1 2 (-1) (snd (fst result)) (snd result)
     = ((None, snd (fst result)), snd result).
Proof.
  intros result.
  assert (forall j : nat,
            (Z.of_nat j
             < InventoryManager.maxSlots
                 (InventoryManager.options Sample.longInventory))%Z ->
            exists other,
              InventoryManager.slots Sample.longInventory !! j
              = Some (Some other)) as Hfull.
  { intros j Hj. cbn in Hj.
    destruct j as [|[|j]]; [now eexists..|lia]. }
  assert (Exists (fun slot : option Sample.Stack => slot = None)
            (InventoryManager.slots Sample.longInventory)) as Hempty.
  { cbn. do 2 apply List.Exists_cons_tl. now apply List.Exists_cons_hd. }
  assert (InventoryManager.autoStack
            (InventoryManager.options Sample.longInventory)
          && InventoryManager.stackable Sample.sword = false) as Hstack
    by reflexivity.
  split; [exact Hfull|].
  destruct (items_beyond_maxSlots_stay 0 Sample.sword 1 Sample.longInventory
              Sample.page Hstack Hfull Hempty)
    as (Hadded & target & _ & _ & _ & _).
  split; [exact Hadded|reflexivity].
Defined.

Lemma sortInventory_compacts_witness :
  let items :=
    InventoryManager.itemsOf (InventoryManager.slots Sample.fullInventory) in
  InventoryManager.sorted "quantity" true items ≡ₚ items
  /\ InventoryManager.slots
       (fst (InventoryManager.sortInventory 0 "quantity" true
               Sample.fullInventory Sample.page))
     = [Some Sample.sword; Some (Sample.potions 15)].
Proof.
  intros items.
  assert (InventoryManager.sorted "quantity" true items ≡ₚ items) as Hperm
    by apply perm_swap.
  split; [exact Hperm|].
  exact (proj1 (sortInventory_compacts 0 "quantity" true Sample.fullInventory
                  Sample.page Hperm)).
Defined.

(** ** The luck status on the screen *)

Section LuckStatusShown.

Import GameState.

(** What [calculateSpinResult] returns is the luck jackpot exactly when the
    luck meter has reached its maximum. *)
Lemma luck_jackpot_iff (g : GameState.t) (draws rest : list JS.number)
  (result : GameEngine.SpinResult) :
  GameEngine.calculateSpinResult g draws = Some (result, rest) ->
  GameEngine.type result = "luck_jackpot"
  <-> JS.ge (luckMeter g) (getMaxLuck g) = true.
Proof.
  unfold GameEngine.calculateSpinResult.
  destruct (JS.ge (luckMeter g) (getMaxLuck g)).
  - intros [= <- <-]. now split.
  - unfold Random.bind, Random.random, Random.ret.
    destruct draws as [|u draws]; [discriminate|].
    destruct (JS.lt _ _).
    + destruct (GameEngine.selectWinningSymbol g draws) as [[symbol rest']|];
        [|discriminate].
      intros [= <- <-]. split; discriminate.
    + destruct (GameEngine.generateLosingCombination draws)
        as [[symbols rest']|]; [|discriminate].
      intros [= <- <-]. split; discriminate.
Qed.

Lemma updateLuckStatus_ready (luckLevel maxLuck : JS.number) :
  UIManager.updateLuckStatus luckLevel maxLuck = UIManager.jackpotReady
  <-> JS.ge luckLevel maxLuck = true.
Proof.
  unfold UIManager.updateLuckStatus.
  destruct (JS.ge luckLevel maxLuck); [now split|].
  repeat match goal with
         | |- context [if ?c then _ else _] => destruct c
         end; split; discriminate.
Qed.

(** The luck methods tell the listeners the luck meter and the maximum of
    the state they leave. *)
Lemma luck_methods_announce (g : GameState.t) (m : Method.M unit) :
  own_canAffordSpin g = None ->
  In m [increaseLuck; decreaseLuck; resetLuck] ->
  exists (old : JS.number) (state : Serialized),
    Method.events m g
    = [luck_changed old (luckMeter (Method.after m g))
         (getMaxLuck (Method.after m g));
       emitted (state_changed state)].
Proof.
  intros Hown Hin.
  destruct g as [? ? ? ? ? ? ? ? ? ? ? ? own]. cbn in Hown. subst own.
  cbn [In] in Hin.
  repeat (destruct Hin as [<-|Hin]; [eexists _, _; reflexivity|]).
  destruct Hin.
Qed.

(** X24. The luck status on the screen against the engine, on a game state
    whose [canAffordSpin] is the method of the class.  After
    [increaseLuck], [decreaseLuck] and [resetLuck] the status line says
    that the instant jackpot is ready exactly when the next
    [calculateSpinResult] returns the luck jackpot.  The status follows
    [luck_changed] only.  [triggerJackpot] fills the luck meter, so that
    the next spin is the luck jackpot, and the purchase of the upgrade
    [MAX_LUCK] raises the maximum, so that from a luck meter within its
    maximum the next spin is no luck jackpot; neither emits [luck_changed],
    and the status line stays as it was. *)
Theorem luck_status_against_engine (g : GameState.t)
  (shown : UIManager.LuckStatus) :
  own_canAffordSpin g = None ->
  (forall m : Method.M unit,
     In m [increaseLuck; decreaseLuck; resetLuck] ->
     forall (draws rest : list JS.number) (result : GameEngine.SpinResult),
       GameEngine.calculateSpinResult (Method.after m g) draws
       = Some (result, rest) ->
       UIManager.statusAfterAll (Method.events m g) shown
       = UIManager.jackpotReady
       <-> GameEngine.type result = "luck_jackpot")
  /\ (UIManager.statusAfterAll
        (Method.events EnhancedSlotMachine.triggerJackpot g) shown = shown
      /\ forall draws : list JS.number,
           exists result : GameEngine.SpinResult,
             GameEngine.calculateSpinResult
               (Method.after EnhancedSlotMachine.triggerJackpot g) draws
             = Some (result, draws)
             /\ GameEngine.type result = "luck_jackpot")
  /\ (luckMeter g <= getMaxLuck g ->
      Method.outcome (purchaseUpgrade "luck" "MAX_LUCK") g = JS.Return tt ->
      UIManager.statusAfterAll
        (Method.events (purchaseUpgrade "luck" "MAX_LUCK") g) shown = shown
      /\ forall (draws rest : list JS.number) (result : GameEngine.SpinResult),
           GameEngine.calculateSpinResult
             (Method.after (purchaseUpgrade "luck" "MAX_LUCK") g) draws
           = Some (result, rest) ->
           GameEngine.type result <> "luck_jackpot").
Proof.
  intros Hown. split; [|split].
  - intros m Hin draws rest result Hresult.
    destruct (luck_methods_announce g m Hown Hin) as (old & state & ->).
    rewrite (luck_jackpot_iff _ _ _ _ Hresult).
    apply updateLuckStatus_ready.
  - assert (Method.after EnhancedSlotMachine.triggerJackpot g
            = with_luckMeter g (getMaxLuck g)) as ->
      by apply assign_stateChanged_after.
    split.
    + destruct g as [? ? ? ? ? ? ? ? ? ? ? ? own]. cbn in Hown. now subst own.
    + intros draws. unfold GameEngine.calculateSpinResult.
      assert (JS.ge (luckMeter (with_luckMeter g (getMaxLuck g)))
                (getMaxLuck (with_luckMeter g (getMaxLuck g))) = true) as ->.
      { apply JS_ge_spec. cbn. apply Qle_refl. }
      eexists. split; reflexivity.
  - intros Hluck Hreturns. unfold Method.outcome in Hreturns.
    set (category := "luck") in *. set (type := "MAX_LUCK") in *.
    assert (exists config, upgradeConfig category type = Some config)
      as [config Hconfig] by (eexists; reflexivity).
    assert (level (upgrades g) category type
            = JS.Return (Some (MAX_LUCK (luck (upgrades g))))) as Hlevel
      by reflexivity.
    destruct (getUpgradeCost g category type) as [[cost|]|e] eqn:Hcost.
    2: { rewrite (purchaseUpgrade_refused g category type) in Hreturns.
         - discriminate.
         - unfold canAffordUpgrade. now rewrite Hcost. }
    2: { unfold getUpgradeCost in Hcost. rewrite Hlevel in Hcost.
         destruct (upgradeConfig category type) as [c|]; [|discriminate].
         now destruct (config_maxLevel c <=? _)%Z. }
    destruct (JS.ge (credits g) cost) eqn:Hafford.
    2: { rewrite (purchaseUpgrade_refused g category type) in Hreturns.
         - discriminate.
         - unfold canAffordUpgrade. now rewrite Hcost, Hafford. }
    destruct (purchaseUpgrade_runs g category type config _ cost Hown Hconfig
                Hlevel Hcost Hafford) as (before & after & Erun).
    unfold Method.events, Method.after. rewrite Erun. cbn [fst snd].
    split; [reflexivity|].
    intros draws rest result Hresult.
    rewrite (luck_jackpot_iff _ _ _ _ Hresult).
    intros Harmed. apply JS_ge_spec in Harmed.
    unfold getMaxLuck in *. cbn in Harmed.
    rewrite inject_Z_plus in Harmed. change (inject_Z 1) with 1 in Harmed.
    unfold SLOT_CONFIG.MAX_LUCK in *. lra.
Qed.

Lemma luck_status_against_engine_witness :
  own_canAffordSpin (Sample.withLuck 96) = None
  /\ UIManager.statusAfterAll
       (Method.events increaseLuck (Sample.withLuck 96)) UIManager.burningHot
     = UIManager.jackpotReady.
Proof.
  split; [reflexivity|].
  destruct (luck_status_against_engine (Sample.withLuck 96)
              UIManager.burningHot eq_refl) as (Hluck & _).
  apply (Hluck increaseLuck (or_introl eq_refl) [] []
           {| GameEngine.type := "luck_jackpot";
              GameEngine.symbols := ["🌟"; "🌟"; "🌟"];
              GameEngine.winSymbol := Some "🌟";
              GameEngine.payout := JS.get SLOT_CONFIG.PAYOUTS "🌟" |});
    reflexivity.
Defined.

End LuckStatusShown.

(** ** The paytable *)

Section PaytableShown.

Import GameState.

Lemma getUpgradedPayout_integer (g : GameState.t) (symbol : string)
  (upgraded : JS.number) :
  In symbol SLOT_CONFIG.SYMBOLS ->
  getUpgradedPayout g symbol = Some upgraded ->
  exists z : Z, upgraded = inject_Z z.
Proof.
  intros Hin. simpl in Hin. unfold getUpgradedPayout, symbolLevel.
  repeat (destruct Hin as [<-|Hin];
          [cbn;
           match goal with
           | |- context [(?l =? 0)%Z] => destruct (l =? 0)%Z
           end; intros [= <-]; eexists; reflexivity|]).
  destruct Hin.
Qed.

Lemma createRows_rows (g : GameState.t) (entries : list (string * string)) :
  inRange g ->
  (forall entry, In entry entries -> In (fst entry) SLOT_CONFIG.SYMBOLS) ->
  exists rows : list Paytable.Row,
    Paytable.createRows g entries = JS.Return rows
    /\ map Paytable.symbol rows = map fst entries
    /\ Forall (fun row =>
                 getUpgradedPayout g (Paytable.symbol row)
                 = Some (Paytable.basePayout row)
                 /\ Paytable.text row = Paytable.basePayout row)
              rows.
Proof.
  intros Hg. induction entries as [|[symbol name] rest IH]; intros Hin.
  - exists []. repeat split. constructor.
  - destruct IH as (rows & Erows & Hsymbols & Hrows).
    { intros entry Hentry. apply Hin. now right. }
    destruct (getUpgradedPayout_ge g symbol Hg (Hin (symbol, name) (or_introl eq_refl)))
      as (p & upgraded & Hp & Hupgraded & Hbase & Hten).
    cbn [Paytable.createRows]. rewrite Hp, Hupgraded, Erows.
    eexists. split; [reflexivity|].
    cbn [map fst Paytable.symbol Paytable.createPaytableRow].
    split; [now rewrite Hsymbols|].
    constructor; [|exact Hrows].
    unfold Paytable.createPaytableRow.
    cbn [Paytable.symbol Paytable.basePayout Paytable.text].
    assert (JS.eq upgraded 0 = false) as ->.
    { unfold JS.eq. destruct (Qeq_bool upgraded 0) eqn:E; [|reflexivity].
      apply Qeq_bool_eq in E. lra. }
    now split.
Qed.

Lemma find_symbol (s : string) (rows : list Paytable.Row) :
  In s (map Paytable.symbol rows) ->
  exists row : Paytable.Row,
    List.find (fun row => String.eqb (Paytable.symbol row) s) rows = Some row
    /\ In row rows /\ Paytable.symbol row = s.
Proof.
  intros Hin.
  destruct (List.find (fun row => String.eqb (Paytable.symbol row) s) rows)
    as [row|] eqn:E.
  - apply List.find_some in E as [Hrow Hs]. apply String.eqb_eq in Hs.
    now exists row.
  - apply in_map_iff in Hin as (row & <- & Hrow).
    pose proof (List.find_none _ _ E row Hrow) as Hne. cbn in Hne.
    now rewrite String.eqb_refl in Hne.
Qed.

Lemma find_updateMultipliers (g : GameState.t) (s : string)
  (rows : list Paytable.Row) :
  List.find (fun row => String.eqb (Paytable.symbol row) s)
            (Paytable.updateMultipliers g rows)
  = option_map
      (fun row =>
         {| Paytable.symbol := Paytable.symbol row;
            Paytable.basePayout := Paytable.basePayout row;
            Paytable.text :=
              JS.floor (Paytable.basePayout row) * multiplier g |})
      (List.find (fun row => String.eqb (Paytable.symbol row) s) rows).
Proof.
  unfold Paytable.updateMultipliers.
  induction rows as [|row rows IH]; [reflexivity|].
  cbn [map List.find Paytable.symbol].
  destruct (String.eqb (Paytable.symbol row) s); [reflexivity|exact IH].
Qed.

(** X25. The paytable against what a win pays, on a game state in range.
    [initializePaytable] builds one row for each entry of
    [PAYTABLE_SYMBOLS]; the row of a symbol shows its upgraded payout at
    that time, and after [updateMultipliers] on any later state that same
    payout times the bet multiplier of the later state: upgrades bought
    since the rows were built do not show.  On the state the rows were
    built from, three of a symbol other than the star pay at least
    [BASE_COST] times the number shown, and exactly that when the combo
    multiplier is 1; three stars pay the jackpot, whatever the row shows
    (numbers taken as exact rationals). *)
Theorem paytable_against_payout (g later : GameState.t) (symbol : string) :
  inRange g ->
  In symbol SLOT_CONFIG.SYMBOLS ->
  exists (rows : list Paytable.Row) (upgraded amount : JS.number),
    Paytable.initializePaytable g = JS.Return rows
    /\ map Paytable.symbol rows = map fst SLOT_CONFIG.PAYTABLE_SYMBOLS
    /\ getUpgradedPayout g symbol = Some upgraded
    /\ Paytable.shownFor symbol rows = Some upgraded
    /\ Paytable.shownFor symbol (Paytable.updateMultipliers later rows)
       = Some (upgraded * multiplier later)
    /\ GameEngine.calculatePayout
         {| GameEngine.type := "win";
            GameEngine.symbols := [symbol; symbol; symbol];
            GameEngine.winSymbol := Some symbol;
            GameEngine.payout := JS.get SLOT_CONFIG.PAYOUTS symbol |} g
       = JS.Return amount
    /\ (symbol = "🌟" -> amount = jackpot g)
    /\ (symbol <> "🌟" ->
        SLOT_CONFIG.BASE_COST * (upgraded * multiplier g) <= amount
        /\ (comboMultiplier g == 1 ->
            amount == SLOT_CONFIG.BASE_COST * (upgraded * multiplier g))).
Proof.
  intros Hg Hin.
  destruct (createRows_rows g SLOT_CONFIG.PAYTABLE_SYMBOLS Hg)
    as (rows & Erows & Hsymbols & Hrows).
  { intros entry Hentry. simpl in Hentry.
    repeat (destruct Hentry as [<-|Hentry]; [simpl; tauto|]).
    destruct Hentry. }
  assert (In symbol (map Paytable.symbol rows)) as Hrow.
  { rewrite Hsymbols. simpl in Hin. simpl.
    repeat (destruct Hin as [<-|Hin]; [tauto|]). destruct Hin. }
  destruct (find_symbol symbol rows Hrow) as (row & Efind & Hinrow & Hsymbol).
  rewrite List.Forall_forall in Hrows.
  destruct (Hrows row Hinrow) as [Hupgraded Htext]. rewrite Hsymbol in Hupgraded.
  destruct (getUpgradedPayout_integer g symbol _ Hin Hupgraded) as [z Hz].
  destruct (getUpgradedPayout_ge g symbol Hg Hin)
    as (p & upgraded & Hp & Hupgraded' & Hbase & Hten).
  assert (upgraded = Paytable.basePayout row) as Eupgraded by congruence.
  pose proof Hg as (_ & _ & [Hm1 Hm2] & _ & _ & [Hcm1 Hcm2] & _).
  assert (exists amount : JS.number,
            GameEngine.calculatePayout
              {| GameEngine.type := "win";
                 GameEngine.symbols := [symbol; symbol; symbol];
                 GameEngine.winSymbol := Some symbol;
                 GameEngine.payout := JS.get SLOT_CONFIG.PAYOUTS symbol |} g
            = JS.Return amount
            /\ (symbol = "🌟" -> amount = jackpot g)
            /\ (symbol <> "🌟" ->
                SLOT_CONFIG.BASE_COST * (upgraded * multiplier g) <= amount
                /\ (comboMultiplier g == 1 ->
                    amount
                    == SLOT_CONFIG.BASE_COST * (upgraded * multiplier g))))
    as (amount & Hamount & Hstar & Hother).
  { unfold GameEngine.calculatePayout.
    cbn [GameEngine.type GameEngine.payout GameEngine.winSymbol].
    change (String.eqb "win" "loss") with false.
    change (String.eqb "win" "luck_jackpot") with false.
    rewrite Hp, orb_false_r.
    destruct (SLOT_CONFIG.isJackpot p) eqn:Ejackpot.
    - exists (jackpot g). split; [reflexivity|]. split; [reflexivity|].
      intros Hnot. exfalso. simpl in Hin.
      repeat (destruct Hin as [<-|Hin];
              [cbn in Hp; injection Hp as <-;
               first [discriminate | congruence]|]).
      destruct Hin.
    - rewrite Hupgraded'. eexists. split; [reflexivity|]. split.
      + intros ->. cbn in Hp. injection Hp as <-. discriminate.
      + intros _. unfold SLOT_CONFIG.BASE_COST.
        set (x := multiplier g) in *. set (c := comboMultiplier g) in *.
        assert (0 <= upgraded * 10 * x) as Hpos by nra.
        assert (0 <= upgraded * 10 * x * (c - 1)) as Hbonus by nra.
        pose proof (floor_ge_integer 0 _ Hbonus) as Hfloor.
        change (inject_Z 0) with 0 in Hfloor.
        split; [lra|]. intros Hone.
        assert (JS.floor (upgraded * 10 * x * (c - 1)) == 0) as ->.
        { assert (upgraded * 10 * x * (c - 1) == 0) as E
            by (rewrite Hone; ring).
          unfold JS.floor. rewrite E. reflexivity. }
        ring. }
  exists rows, upgraded, amount.
  split; [exact Erows|]. split; [exact Hsymbols|].
  split; [exact Hupgraded'|]. split.
  { unfold Paytable.shownFor. rewrite Efind, Htext. now rewrite Eupgraded. }
  split.
  { unfold Paytable.shownFor. rewrite find_updateMultipliers, Efind.
    cbn [option_map Paytable.text]. rewrite <- Eupgraded.
    assert (JS.floor upgraded = upgraded) as ->; [|reflexivity].
    rewrite Eupgraded, Hz. unfold JS.floor. now rewrite Qfloor_Z. }
  split; [exact Hamount|]. split; [exact Hstar|exact Hother].
Qed.

Lemma paytable_against_payout_witness :
  inRange GameState.initial
  /\ In "🍒" SLOT_CONFIG.SYMBOLS
  /\ exists rows : list Paytable.Row,
       Paytable.initializePaytable GameState.initial = JS.Return rows
       /\ Paytable.shownFor "🍒" rows = Some 10
       /\ GameEngine.calculatePayout
            {| GameEngine.type := "win";
               GameEngine.symbols := ["🍒"; "🍒"; "🍒"];
               GameEngine.winSymbol := Some "🍒";
               GameEngine.payout := JS.get SLOT_CONFIG.PAYOUTS "🍒" |}
            GameState.initial
          = JS.Return (10 * 10 * 1 + JS.floor (10 * 10 * 1 * (1 - 1))).
Proof.
  assert (inRange GameState.initial) as Hinitial
    by exact (reset_inRange GameState.initial).
  assert (In "🍒" SLOT_CONFIG.SYMBOLS) as Hin by (simpl; tauto).
  split; [exact Hinitial|]. split; [exact Hin|].
  destruct (paytable_against_payout GameState.initial GameState.initial "🍒"
              Hinitial Hin)
    as (rows & upgraded & amount & Erows & _ & Hupgraded & Hshown & _).
  exists rows. split; [exact Erows|]. split; [|reflexivity].
  rewrite Hshown. cbn in Hupgraded. now injection Hupgraded as <-.
Defined.

End PaytableShown.

(** ** Round trips of the inventory *)

Section InventoryRoundTrips.

Import InventoryManager.

Context {Item : Type} `{InventoryItem Item}.

Lemma itemAt_nat (s : list (option Item)) (k : nat) (item : Item) :
  s !! k = Some (Some item) -> itemAt s (Z.of_nat k) = Some item.
Proof. intros Hk. unfold itemAt. now rewrite slotAt_nat, Hk. Qed.

Lemma itemAt_empty (s : list (option Item)) (k : nat) :
  s !! k = Some None -> itemAt s (Z.of_nat k) = None.
Proof. intros Hk. unfold itemAt. now rewrite slotAt_nat, Hk. Qed.

Lemma insert_back (s : list (option Item)) (i j : nat) (x y x' y' : option Item) :
  i <> j ->
  s !! i = Some x -> s !! j = Some y ->
  <[j := y]> (<[i := x]> (<[i := x']> (<[j := y']> s))) = s.
Proof.
  intros Hne Hi Hj.
  rewrite list_insert_insert_eq.
  rewrite (list_insert_insert_ne _ i j) by exact Hne.
  rewrite list_insert_insert_eq.
  rewrite (list_insert_id _ i) by exact Hi.
  now apply list_insert_id.
Qed.

Lemma in_range (index : nat) (max : Z) :
  (Z.of_nat index < max)%Z ->
  (Z.of_nat index <? 0)%Z || (max <=? Z.of_nat index)%Z = false.
Proof.
  intros Hlt. apply orb_false_intro; [apply Z.ltb_ge|apply Z.leb_gt]; lia.
Qed.

(** X26. Round trips of the inventory, within [maxSlots] and without
    stacking.  When the array has no more than [maxSlots] slots, an item
    that [addItem] has put into a slot can be taken out again:
    [removeItem] of the whole stack on that slot returns the item and leaves
    the slots as they were before it was added.  Between two slots below
    [maxSlots], [moveItem] of a whole stack to an empty slot puts the item
    there and empties its slot, and [moveItem] onto an item that does not
    take it on its stack swaps the two; the move the other way round gives
    the slots from before. *)
Theorem inventory_round_trips (now now' : JS.number) (m : t Item)
  (b : Browser.t) :
  (forall (item : Item) (quantity : JS.number),
     autoStack (options m) && stackable item = false ->
     (Z.of_nat (length (slots m)) <= maxSlots (options m))%Z ->
     Exists (fun slot => slot = None) (slots m) ->
     let added := addItem now (instance item) quantity (-1) m b in
     exists target : nat,
       slots (snd (fst added)) !! target = Some (Some item)
       /\ let removed :=
            removeItem now' (Z.of_nat target) (-1) (snd (fst added))
              (snd added) in
          fst (fst removed) = Some item
          /\ slots (snd (fst removed)) = slots m)
  /\ (forall (source : nat) (target : nat) (item : Item),
        source <> target ->
        (Z.of_nat source < maxSlots (options m))%Z ->
        (Z.of_nat target < maxSlots (options m))%Z ->
        slots m !! source = Some (Some item) ->
        (slots m !! target = Some None
         \/ exists other : Item,
              slots m !! target = Some (Some other)
              /\ canStackWith other item = false) ->
        let moved :=
          moveItem now (Z.of_nat source) (Z.of_nat target) (-1) m b in
        let back :=
          moveItem now' (Z.of_nat target) (Z.of_nat source) (-1)
            (snd (fst moved)) (snd moved) in
        fst (fst moved) = true
        /\ slots (snd (fst moved)) !! target = Some (Some item)
        /\ slots (snd (fst moved)) !! source = slots m !! target
        /\ fst (fst back) = true
        /\ slots (snd (fst back)) = slots m).
Proof.
  split.
  - intros item quantity Hstack Hlength Hempty added.
    destruct (addItem_first_empty now item quantity m b Hstack Hempty)
      as (target & Htarget & Eadd).
    subst added. rewrite Eadd. cbn [fst snd]. exists target.
    pose proof (lookup_lt_Some _ _ _ Htarget) as Hlt.
    assert (<[target := Some item]> (slots m) !! target = Some (Some item))
      as Hitem by now apply list_lookup_insert_eq.
    split; [exact Hitem|].
    unfold removeItem. cbn [options slots trackOperation with_slots].
    rewrite in_range by lia. rewrite (itemAt_nat _ _ _ Hitem).
    change (JS.eq (-1) (-1)) with true. cbn [orb fst snd slots trackOperation
                                              with_slots].
    split; [reflexivity|].
    rewrite setSlot_nat, list_insert_insert_eq.
    now apply list_insert_id.
  - intros source target item Hne Hsource Htarget Hitem Hslot moved back.
    pose proof (lookup_lt_Some _ _ _ Hitem) as Hlt.
    assert ((Z.of_nat source =? Z.of_nat target)%Z = false) as Ene
      by (apply Z.eqb_neq; lia).
    assert ((Z.of_nat target =? Z.of_nat source)%Z = false) as Ene'
      by (apply Z.eqb_neq; lia).
    destruct Hslot as [Hfree|(other & Hother & Hstack)].
    + pose proof (lookup_lt_Some _ _ _ Hfree) as Hlt'.
      assert (moved
              = ((true,
                  trackOperation
                    (with_slots m
                       (<[source := None]>
                          (<[target := Some item]> (slots m))))),
                 snd moved)) as Emoved.
      { subst moved. unfold moveItem. rewrite Ene.
        rewrite !in_range by lia.
        rewrite (itemAt_nat _ _ _ Hitem), (itemAt_empty _ _ Hfree).
        change (JS.eq (-1) (-1)) with true. cbn [orb fst snd].
        now rewrite !setSlot_nat. }
      subst back. rewrite Emoved. cbn [fst snd slots trackOperation with_slots].
      assert (<[source := None]> (<[target := Some item]> (slots m)) !! target
              = Some (Some item)) as Hthere.
      { rewrite list_lookup_insert_ne by congruence.
        now apply list_lookup_insert_eq. }
      assert (<[source := None]> (<[target := Some item]> (slots m)) !! source
              = Some None) as Hgone.
      { apply list_lookup_insert_eq. now rewrite length_insert. }
      split; [reflexivity|]. split; [exact Hthere|].
      split; [now rewrite Hgone, Hfree|].
      unfold moveItem. cbn [options slots trackOperation with_slots].
      rewrite Ene'. rewrite !in_range by lia.
      rewrite (itemAt_nat _ _ _ Hthere), (itemAt_empty _ _ Hgone).
      change (JS.eq (-1) (-1)) with true.
      cbn [orb fst snd slots trackOperation with_slots].
      split; [reflexivity|]. rewrite !setSlot_nat.
      apply insert_back; [congruence|exact Hitem|exact Hfree].
    + pose proof (lookup_lt_Some _ _ _ Hother) as Hlt'.
      assert (moved
              = ((true,
                  trackOperation
                    (with_slots m
                       (<[target := Some item]>
                          (<[source := Some other]> (slots m))))),
                 snd moved)) as Emoved.
      { subst moved. unfold moveItem. rewrite Ene.
        rewrite !in_range by lia.
        rewrite (itemAt_nat _ _ _ Hitem), (itemAt_nat _ _ _ Hother), Hstack.
        cbn [fst snd]. now rewrite !setSlot_nat. }
      subst back. rewrite Emoved. cbn [fst snd slots trackOperation with_slots].
      assert (<[target := Some item]> (<[source := Some other]> (slots m))
                !! target = Some (Some item)) as Hthere.
      { apply list_lookup_insert_eq. now rewrite length_insert. }
      assert (<[target := Some item]> (<[source := Some other]> (slots m))
                !! source = Some (Some other)) as Hswapped.
      { rewrite list_lookup_insert_ne by congruence.
        now apply list_lookup_insert_eq. }
      split; [reflexivity|]. split; [exact Hthere|].
      split; [now rewrite Hswapped, Hother|].
      unfold moveItem. cbn [options slots trackOperation with_slots].
      rewrite Ene'. rewrite !in_range by lia.
      rewrite (itemAt_nat _ _ _ Hthere), (itemAt_nat _ _ _ Hswapped), Hstack.
      cbn [fst snd slots trackOperation with_slots].
      split; [reflexivity|]. rewrite !setSlot_nat.
      apply insert_back; [congruence|exact Hother|exact Hitem].
Qed.

End InventoryRoundTrips.

Lemma inventory_round_trips_witness :
  let m := Sample.roomyInventory in
  let added :=
    InventoryManager.addItem 0 (InventoryManager.instance Sample.sword) 1 (-1)
      m Sample.page in
  (exists target : nat,
     InventoryManager.slots (snd (fst added)) !! target
     = Some (Some Sample.sword)
     /\ InventoryManager.slots
          (snd (fst (InventoryManager.removeItem 1 (Z.of_nat target) (-1)
                       (snd (fst added)) (snd added))))
        = InventoryManager.slots m)
  /\ (let moved := InventoryManager.moveItem 0 1 2 (-1) m Sample.page in
      InventoryManager.slots (snd (fst moved)) !! 2%nat
      = Some (Some Sample.sword)
      /\ InventoryManager.slots
           (snd (fst (InventoryManager.moveItem 1 2 1 (-1) (snd (fst moved))
                        (snd moved))))
         = InventoryManager.slots m)
  /\ (let moved := InventoryManager.moveItem 0 0 1 (-1) m Sample.page in
      InventoryManager.slots (snd (fst moved)) !! 1%nat
      = Some (Some (Sample.potions 15))
      /\ InventoryManager.slots
           (snd (fst (InventoryManager.moveItem 1 1 0 (-1) (snd (fst moved))
                        (snd moved))))
         = InventoryManager.slots m).
Proof.
  intros m added.
  pose proof (inventory_round_trips 0 1 m Sample.page) as [Hadd Hmove].
  assert (InventoryManager.autoStack (InventoryManager.options m)
          && InventoryManager.stackable Sample.sword = false) as Hstack
    by reflexivity.
  assert (Exists (fun slot : option Sample.Stack => slot = None)
            (InventoryManager.slots m)) as Hempty.
  { cbn. do 2 apply List.Exists_cons_tl. now apply List.Exists_cons_hd. }
  assert ((Z.of_nat (length (InventoryManager.slots m))
           <= InventoryManager.maxSlots (InventoryManager.options m))%Z)
    as Hlength by (cbn; lia).
  split; [|split].
  - destruct (Hadd Sample.sword 1 Hstack Hlength Hempty)
      as (target & Htarget & _ & Hback).
    exists target. split; [exact Htarget|exact Hback].
  - assert ((Z.of_nat 1 < InventoryManager.maxSlots (InventoryManager.options m))%Z)
      as Hsource by (cbn; lia).
    assert ((Z.of_nat 2 < InventoryManager.maxSlots (InventoryManager.options m))%Z)
      as Htarget by (cbn; lia).
    assert (1%nat <> 2%nat) as Hne by lia.
    destruct (Hmove 1%nat 2%nat Sample.sword Hne Hsource Htarget eq_refl
                (or_introl eq_refl))
      as (_ & Hthere & _ & _ & Hback).
    split; [exact Hthere|exact Hback].
  - assert ((Z.of_nat 0 < InventoryManager.maxSlots (InventoryManager.options m))%Z)
      as Hsource by (cbn; lia).
    assert ((Z.of_nat 1 < InventoryManager.maxSlots (InventoryManager.options m))%Z)
      as Htarget by (cbn; lia).
    assert (0%nat <> 1%nat) as Hne by lia.
    assert (InventoryManager.canStackWith Sample.sword (Sample.potions 15)
            = false) as Hnostack by reflexivity.
    destruct (Hmove 0%nat 1%nat (Sample.potions 15) Hne Hsource Htarget eq_refl
                (or_intror (ex_intro _ Sample.sword (conj eq_refl Hnostack))))
      as (_ & Hthere & _ & _ & Hback).
    split; [exact Hthere|exact Hback].
Defined.
